(** * Balatro-bot: a shallow embedding of the scoring and decision pipeline

    The development follows the layout of the Python package [balatro_bot]:
    [models], [hand_evaluation], [jokers], [scoring], [deck_tracker],
    [probability], [simulator], [heuristics], [decision_engine] and [mcts].

    Conventions.
    - Python [int] is [Z]; Python [float] is idealised as an exact rational
      [Q] (every comparison and truncation below is taken on that rational).
    - A Python [dict] is a [gmap]; a [collections.Counter] is an association
      list in first-insertion order (its iteration order in Python).
    - A raised exception is [None] in an [option] result.
    - Mutable objects that are shared by reference (the state dictionary of a
      joker, the nodes of the search tree) live in an explicit store. *)

From Stdlib Require Import ZArith QArith Qround Qpower Lia List Permutation.
From stdpp Require Import base option list gmap strings pretty.

Local Open Scope Z_scope.

(** ** Small Python library functions *)

Module Py.

(** [collections.Counter(iterable)]: keys in first-occurrence order. *)
Fixpoint counter_add {K} `{EqDecision K} (k : K) (c : list (K * Z)) : list (K * Z) :=
  match c with
  | [] => [(k, 1)]
  | (k', n) :: c' =>
      if decide (k = k') then (k', n + 1) :: c' else (k', n) :: counter_add k c'
  end.

Definition Counter {K} `{EqDecision K} (l : list K) : list (K * Z) :=
  fold_left (fun c k => counter_add k c) l [].

(** [counter.get(k, 0)] and [counter[k]] (a missing key counts 0). *)
Fixpoint counter_get {K} `{EqDecision K} (k : K) (c : list (K * Z)) : Z :=
  match c with
  | [] => 0
  | (k', n) :: c' => if decide (k = k') then n else counter_get k c'
  end.

Definition counter_values {K} (c : list (K * Z)) : list Z := map snd c.

(** [sorted(xs, key=key, reverse=True)]: stable, descending. *)
Fixpoint insert_desc {A} (key : A -> Z) (x : A) (l : list A) : list A :=
  match l with
  | [] => [x]
  | y :: l' => if key x <? key y then y :: insert_desc key x l' else x :: y :: l'
  end.

Definition sorted_desc {A} (key : A -> Z) (l : list A) : list A :=
  fold_right (insert_desc key) [] l.

(** [sorted(xs)]: stable, ascending. *)
Fixpoint insert_asc {A} (key : A -> Z) (x : A) (l : list A) : list A :=
  match l with
  | [] => [x]
  | y :: l' => if key y <? key x then y :: insert_asc key x l' else x :: y :: l'
  end.

Definition sorted_asc {A} (key : A -> Z) (l : list A) : list A :=
  fold_right (insert_asc key) [] l.

(** [max(xs, key=key)]: the first element with the largest key. *)
Fixpoint max_by_from {A} (key : A -> Z) (best : A) (l : list A) : A :=
  match l with
  | [] => best
  | x :: l' => max_by_from key (if key best <? key x then x else best) l'
  end.

Definition max_by {A} (key : A -> Z) (l : list A) : option A :=
  match l with
  | [] => None
  | x :: l' => Some (max_by_from key x l')
  end.

(** [itertools.combinations(xs, n)], in the order itertools emits them. *)
Fixpoint combinations {A} (l : list A) (n : nat) : list (list A) :=
  match n with
  | O => [[]]
  | S n' =>
      match l with
      | [] => []
      | x :: l' => map (cons x) (combinations l' n') ++ combinations l' n
      end
  end.

(** [range(lo, hi)] for naturals. *)
Definition range (lo hi : nat) : list nat := seq lo (hi - lo).

(** [int(x)] on a float: truncation toward zero. *)
Definition int_of_float (x : Q) : Z :=
  if Qle_bool 0 x then Qfloor x else Qceiling x.

Definition len {A} (l : list A) : Z := Z.of_nat (length l).

(** [sum(1 for x in xs if p(x))]. *)
Definition count_if {A} (p : A -> bool) (l : list A) : Z :=
  len (List.filter p l).

End Py.

(** ** [models.py] *)

Inductive Enhancement :=
  | ENH_NONE | BONUS | MULT | WILD | GLASS | STEEL | STONE | ENH_GOLD | LUCKY.

Inductive Edition := BASE | FOIL | HOLOGRAPHIC | POLYCHROME | NEGATIVE.

Inductive Seal := SEAL_NONE | SEAL_GOLD | RED | BLUE | PURPLE.

Inductive Suit := SPADES | HEARTS | CLUBS | DIAMONDS.

Inductive Rank :=
  | TWO | THREE | FOUR | FIVE | SIX | SEVEN | EIGHT | NINE | TEN
  | JACK | QUEEN | KING | ACE.

Inductive HandType :=
  | HIGH_CARD | PAIR | TWO_PAIR | THREE_OF_A_KIND | STRAIGHT | FLUSH
  | FULL_HOUSE | FOUR_OF_A_KIND | STRAIGHT_FLUSH | ROYAL_FLUSH
  | FIVE_OF_A_KIND | FLUSH_HOUSE | FLUSH_FIVE.

#[global] Instance Enhancement_eq_dec : EqDecision Enhancement.
Proof. solve_decision. Defined.
#[global] Instance Edition_eq_dec : EqDecision Edition.
Proof. solve_decision. Defined.
#[global] Instance Seal_eq_dec : EqDecision Seal.
Proof. solve_decision. Defined.
#[global] Instance Suit_eq_dec : EqDecision Suit.
Proof. solve_decision. Defined.
#[global] Instance Rank_eq_dec : EqDecision Rank.
Proof. solve_decision. Defined.
#[global] Instance HandType_eq_dec : EqDecision HandType.
Proof. solve_decision. Defined.

(** Iteration order of the enumerations ([for suit in Suit], ...). *)
Definition all_suits : list Suit := [SPADES; HEARTS; CLUBS; DIAMONDS].

Definition all_ranks : list Rank :=
  [TWO; THREE; FOUR; FIVE; SIX; SEVEN; EIGHT; NINE; TEN; JACK; QUEEN; KING; ACE].

Definition all_hand_types : list HandType :=
  [HIGH_CARD; PAIR; TWO_PAIR; THREE_OF_A_KIND; STRAIGHT; FLUSH; FULL_HOUSE;
   FOUR_OF_A_KIND; STRAIGHT_FLUSH; ROYAL_FLUSH; FIVE_OF_A_KIND; FLUSH_HOUSE;
   FLUSH_FIVE].

(** [Suit.value] *)
Definition suit_value (s : Suit) : string :=
  match s with
  | SPADES => "S" | HEARTS => "H" | CLUBS => "C" | DIAMONDS => "D"
  end.

(** [Rank.value] *)
Definition rank_value (r : Rank) : Z :=
  match r with
  | TWO => 2 | THREE => 3 | FOUR => 4 | FIVE => 5 | SIX => 6 | SEVEN => 7
  | EIGHT => 8 | NINE => 9 | TEN => 10 | JACK => 11 | QUEEN => 12
  | KING => 13 | ACE => 14
  end.

(** [Rank.chip_value] *)
Definition chip_value (r : Rank) : Z :=
  if rank_value r <=? 10 then rank_value r
  else if rank_value r =? 14 then 11
  else 10.

(** [HandType.value] *)
Definition hand_type_value (h : HandType) : Z :=
  match h with
  | HIGH_CARD => 1 | PAIR => 2 | TWO_PAIR => 3 | THREE_OF_A_KIND => 4
  | STRAIGHT => 5 | FLUSH => 6 | FULL_HOUSE => 7 | FOUR_OF_A_KIND => 8
  | STRAIGHT_FLUSH => 9 | ROYAL_FLUSH => 10 | FIVE_OF_A_KIND => 11
  | FLUSH_HOUSE => 12 | FLUSH_FIVE => 13
  end.

(** [HandType.base_chips] *)
Definition ht_base_chips (h : HandType) : Z :=
  match h with
  | HIGH_CARD => 5 | PAIR => 10 | TWO_PAIR => 20 | THREE_OF_A_KIND => 30
  | STRAIGHT => 30 | FLUSH => 35 | FULL_HOUSE => 40 | FOUR_OF_A_KIND => 60
  | STRAIGHT_FLUSH => 100 | ROYAL_FLUSH => 100 | FIVE_OF_A_KIND => 120
  | FLUSH_HOUSE => 140 | FLUSH_FIVE => 160
  end.

(** [HandType.base_mult] *)
Definition ht_base_mult (h : HandType) : Z :=
  match h with
  | HIGH_CARD => 1 | PAIR => 2 | TWO_PAIR => 2 | THREE_OF_A_KIND => 3
  | STRAIGHT => 4 | FLUSH => 4 | FULL_HOUSE => 4 | FOUR_OF_A_KIND => 7
  | STRAIGHT_FLUSH => 8 | ROYAL_FLUSH => 8 | FIVE_OF_A_KIND => 12
  | FLUSH_HOUSE => 14 | FLUSH_FIVE => 16
  end.

#[global] Instance HandType_countable : Countable HandType.
Proof.
  refine (inj_countable' (fun h => Z.to_nat (hand_type_value h))
            (fun n => nth (n - 1) all_hand_types HIGH_CARD) _).
  intros []; reflexivity.
Defined.

(** The frozen dataclass [Card]. *)
Record Card := mkCard {
  rank : Rank;
  suit : Suit;
  enhancement : Enhancement;
  edition : Edition;
  seal : Seal;
}.

#[global] Instance Card_eq_dec : EqDecision Card.
Proof. solve_decision. Defined.

(** [Card(rank, suit)] with the default modifiers. *)
Definition plain (r : Rank) (s : Suit) : Card := mkCard r s ENH_NONE BASE SEAL_NONE.

Definition is_wild (c : Card) : bool := bool_decide (enhancement c = WILD).
Definition is_stone (c : Card) : bool := bool_decide (enhancement c = STONE).

(** [Card.has_suit] *)
Definition has_suit (c : Card) (s : Suit) : bool :=
  if is_stone c then false
  else if is_wild c then true
  else bool_decide (suit c = s).

(** [create_standard_deck]: suits outermost, ranks innermost. *)
Definition create_standard_deck : list Card :=
  flat_map (fun s => map (fun r => plain r s) all_ranks) all_suits.

(** [models.Joker], the lightweight joker record kept in [GameState]. *)
Record Joker := mkJoker {
  joker_id : string;
  joker_name : string;
  joker_level : Z;
}.

(** [GameState]. [hand_levels] is only ever read by the code modelled here. *)
Record GameState := mkGameState {
  gs_deck : list Card;
  gs_hand : list Card;
  gs_discarded : list Card;
  gs_jokers : list Joker;
  gs_money : Z;
  gs_ante : Z;
  gs_round_in_ante : Z;
  gs_hands_remaining : Z;
  gs_discards_remaining : Z;
  gs_current_chips : Z;
  gs_blind_requirement : Z;
  gs_rng_seed : option Z;
  gs_hand_levels : gmap HandType Z;
}.

(** [{ht: 1 for ht in HandType}] *)
Definition default_hand_levels : gmap HandType Z :=
  list_to_map (map (fun h => (h, 1)) all_hand_types).

(** [GameState()] *)
Definition GameState_default : GameState :=
  mkGameState [] [] [] [] 4 1 1 4 3 0 300 None default_hand_levels.

(** [GameState(hand_levels=..., discards_remaining=...)] *)
Definition GameState_of (levels : gmap HandType Z) (discards : Z) : GameState :=
  mkGameState [] [] [] [] 4 1 1 4 discards 0 300 None levels.

(** [dict.get(k, d)] on the level table. *)
Definition level_get (levels : gmap HandType Z) (h : HandType) (d : Z) : Z :=
  default d (levels !! h).

(** ** [hand_evaluation.py] *)

Record HandResult := mkHandResult {
  hand_type : HandType;
  scoring_cards : list Card;
  base_chips : Z;
  base_mult : Z;
}.

Definition base_score (r : HandResult) : Z := base_chips r * base_mult r.

(** [_check_flush] *)
Definition _check_flush (cards : list Card) : bool :=
  if Py.len cards <? 5 then false
  else
    let wild_count := Py.count_if is_wild cards in
    let non_wild := List.filter (fun c => negb (is_wild c)) cards in
    match non_wild with
    | [] => true
    | _ =>
        let suit_counts := Py.Counter (map suit non_wild) in
        existsb (fun s => 5 <=? Py.counter_get s suit_counts + wild_count) all_suits
    end.

(** The [for ... else] scan of [_is_straight]: every adjacent pair of the
    descending rank list differs by exactly one. *)
Fixpoint all_consecutive (l : list Rank) : bool :=
  match l with
  | a :: ((b :: _) as l') =>
      if rank_value a - rank_value b =? 1 then all_consecutive l' else false
  | _ => true
  end.

(** [_is_straight] *)
Definition _is_straight (sorted_ranks : list Rank) : bool :=
  if Py.len sorted_ranks <? 5 then false
  else if all_consecutive sorted_ranks then true
  else if bool_decide (sorted_ranks = [ACE; FIVE; FOUR; THREE; TWO]) then true
  else false.

(** [count_values[0] == n], false on an empty list. *)
Definition head_is (n : Z) (l : list Z) : bool :=
  match l with
  | x :: _ => x =? n
  | [] => false
  end.

(** [max(cards, key=lambda c: c.rank)] *)
Definition rank_key (c : Card) : Z := rank_value (rank c).

(** [_identify_hand] *)
Definition _identify_hand (cards : list Card) (rank_counts : list (Rank * Z))
    (count_values : list Z) (is_flush is_straight : bool)
    (sorted_ranks : list Rank) : HandType * list Card :=
  let with_count n :=
    List.filter (fun c => Py.counter_get (rank c) rank_counts =? n) cards in
  if head_is 5 count_values && is_flush then (FLUSH_FIVE, cards)
  else if head_is 5 count_values then (FIVE_OF_A_KIND, cards)
  else if is_flush && is_straight
          && bool_decide (head sorted_ranks = Some ACE)
          && bool_decide (last sorted_ranks = Some TEN) then (ROYAL_FLUSH, cards)
  else if is_flush && is_straight then (STRAIGHT_FLUSH, cards)
  else if head_is 4 count_values then (FOUR_OF_A_KIND, with_count 4)
  else if bool_decide (take 2 count_values = [3; 2]) && is_flush then (FLUSH_HOUSE, cards)
  else if bool_decide (take 2 count_values = [3; 2]) then (FULL_HOUSE, cards)
  else if is_flush then (FLUSH, cards)
  else if is_straight then (STRAIGHT, cards)
  else if head_is 3 count_values then (THREE_OF_A_KIND, with_count 3)
  else if bool_decide (take 2 count_values = [2; 2]) then (TWO_PAIR, with_count 2)
  else if head_is 2 count_values then (PAIR, with_count 2)
  else
    match Py.max_by rank_key cards with
    | Some highest_card => (HIGH_CARD, [highest_card])
    | None => (HIGH_CARD, [])
    end.

(** The chip loop of [evaluate_hand]. *)
Definition card_chips (c : Card) : Z :=
  if bool_decide (enhancement c = STONE) then 50 else chip_value (rank c).

(** [evaluate_hand(cards, hand_level)]; [None] is the raised [ValueError]. *)
Definition evaluate_hand (cards : list Card) (hand_level : Z) : option HandResult :=
  match cards with
  | [] => None
  | _ =>
      if 5 <? Py.len cards then None
      else
        let stone_cards := List.filter (fun c => bool_decide (enhancement c = STONE)) cards in
        let normal_cards := List.filter (fun c => bool_decide (enhancement c <> STONE)) cards in
        let rank_counts := Py.Counter (map rank normal_cards) in
        let sorted_ranks := Py.sorted_desc rank_value (map rank normal_cards) in
        let is_flush := _check_flush normal_cards in
        let is_straight := _is_straight sorted_ranks in
        let count_values := Py.sorted_desc (fun n => n) (Py.counter_values rank_counts) in
        let '(ht, scoring) :=
          _identify_hand normal_cards rank_counts count_values is_flush is_straight sorted_ranks in
        let scoring := scoring ++ stone_cards in
        let chips0 := ht_base_chips ht + (hand_level - 1) * ht_base_chips ht in
        let chips := fold_left (fun acc c => acc + card_chips c) scoring chips0 in
        Some (mkHandResult ht scoring chips (ht_base_mult ht + (hand_level - 1)))
  end.

(** ** Floats, the [random] and [time] modules, and the object store *)

Module Float.

(** Python floats, idealised as rationals kept in lowest terms so that two
    equal values are also syntactically equal. *)
Definition add (x y : Q) : Q := Qred (x + y).
Definition sub (x y : Q) : Q := Qred (x - y).
Definition mul (x y : Q) : Q := Qred (x * y).
Definition div (x y : Q) : Q := Qred (x / y).
Definition of_int (z : Z) : Q := inject_Z z.
Definition eqb (x y : Q) : bool := Qeq_bool x y.
Definition ltb (x y : Q) : bool := negb (Qle_bool y x).
Definition leb (x y : Q) : bool := Qle_bool x y.

End Float.

(** The parts of the standard library the package calls: [random.Random]
    objects, the module-level generator ([random.randint], [random.random],
    [random.choice]), and [time.time]. CPython's generator is not part of the
    repository; it is an interface here. [Ambient] is whatever lies outside
    the program's own objects: the module-level generator state, the entropy
    that seeds [random.Random()], and the clock. *)
Class RandomLib := {
  Rng : Type;
  Ambient : Type;
  Random_seeded : Z -> Rng;
  Random_unseeded : Ambient -> Rng * Ambient;
  rng_random : Rng -> Q * Rng;
  rng_shuffle : list Card -> Rng -> list Card * Rng;
  random_randint : Z -> Z -> Ambient -> Z * Ambient;
  random_random : Ambient -> Q * Ambient;
  random_choice : nat -> Ambient -> nat * Ambient;
  time_time : Ambient -> Q * Ambient;
}.

(** Values stored in a joker's state dictionary. *)
Inductive PyVal :=
  | PInt (z : Z)
  | PFloat (q : Q)
  | PStr (s : string)
  | PBool (b : bool).

#[global] Instance Q_eq_dec : EqDecision Q.
Proof. solve_decision. Defined.
#[global] Instance PyVal_eq_dec : EqDecision PyVal.
Proof. solve_decision. Defined.

Definition as_int (v : PyVal) : Z :=
  match v with
  | PInt z => z
  | PBool b => if b then 1 else 0
  | PFloat q => Py.int_of_float q
  | PStr _ => 0
  end.

Definition as_float (v : PyVal) : Q :=
  match v with
  | PInt z => inject_Z z
  | PBool b => if b then 1%Q else 0%Q
  | PFloat q => q
  | PStr _ => 0%Q
  end.

(** Addresses of state dictionaries. *)
Definition loc := nat.

(** ** [jokers.py] *)

Inductive EffectTiming :=
  | ON_SCORE | ON_CARD_SCORE | ON_HAND_PLAYED | ON_DISCARD | END_OF_ROUND
  | ON_SHOP | ON_BLIND_SELECT.

Inductive JokerRarity := COMMON | UNCOMMON | RARE | LEGENDARY.

Record JokerEffect := mkJokerEffect {
  add_chips : Z;
  add_mult : Z;
  mult_mult : Q;
  je_retrigger : Z;
  je_money : Z;
}.

(** [JokerEffect()] *)
Definition JokerEffect_default : JokerEffect := mkJokerEffect 0 0 1 0 0.

(** [JokerEffect.__bool__] *)
Definition JokerEffect_bool (e : JokerEffect) : bool :=
  negb (add_chips e =? 0) || negb (add_mult e =? 0)
  || negb (Float.eqb (mult_mult e) 1) || (0 <? je_retrigger e)
  || negb (je_money e =? 0).

Record JokerDefinition := mkJokerDefinition {
  jd_id : string;
  jd_name : string;
  jd_description : string;
  jd_rarity : JokerRarity;
  jd_base_cost : Z;
  jd_timing : EffectTiming;
}.

(** A [JokerInstance] refers to its (shared, mutable) state dictionary. *)
Record JokerInstance := mkJokerInstance {
  definition : JokerDefinition;
  state : loc;
}.

Definition id (j : JokerInstance) : string := jd_id (definition j).
Definition name (j : JokerInstance) : string := jd_name (definition j).

(** [ScoringContext] (declared in [scoring.py], consumed by the calculators). *)
Record ScoringContext := mkScoringContext {
  played_cards : list Card;
  ctx_scoring_cards : list Card;
  cards_in_hand : list Card;
  hand_result : HandResult;
  game_state : GameState;
  current_chips : Z;
  current_mult : Q;
}.

(** The entries of the catalogue [JOKERS] for the same ids. *)
Definition JD_joker : JokerDefinition :=
  mkJokerDefinition "joker" "Joker" "+4 Mult" COMMON 2 ON_SCORE.

Definition JD_greedy_joker : JokerDefinition :=
  mkJokerDefinition "greedy_joker" "Greedy Joker" "Played cards with Diamond suit give +3 Mult when scored" COMMON 5 ON_SCORE.

Definition JD_half_joker : JokerDefinition :=
  mkJokerDefinition "half_joker" "Half Joker" "+20 Mult if played hand contains 3 or fewer cards" COMMON 5 ON_SCORE.

Definition JD_mystic_summit : JokerDefinition :=
  mkJokerDefinition "mystic_summit" "Mystic Summit" "+15 Mult when 0 discards remaining" COMMON 5 ON_SCORE.

Definition JD_misprint : JokerDefinition :=
  mkJokerDefinition "misprint" "Misprint" "+0-23 Mult" COMMON 4 ON_SCORE.

Definition JD_sly_joker : JokerDefinition :=
  mkJokerDefinition "sly_joker" "Sly Joker" "+50 Chips if played hand contains a Pair" COMMON 3 ON_SCORE.

Definition JD_ice_cream : JokerDefinition :=
  mkJokerDefinition "ice_cream" "Ice Cream" "+100 Chips, -5 Chips for every hand played" COMMON 5 ON_SCORE.

Definition JD_square_joker : JokerDefinition :=
  mkJokerDefinition "square_joker" "Square Joker" "This Joker gains +4 Chips if played hand has exactly 4 cards" COMMON 4 ON_SCORE.

Definition JD_ride_the_bus : JokerDefinition :=
  mkJokerDefinition "ride_the_bus" "Ride the Bus" "This Joker gains +1 Mult per consecutive hand played without a scoring face card" COMMON 6 ON_SCORE.

Definition JD_green_joker : JokerDefinition :=
  mkJokerDefinition "green_joker" "Green Joker" "+1 Mult per hand played, -1 Mult per discard" COMMON 4 ON_SCORE.

Definition JD_cavendish : JokerDefinition :=
  mkJokerDefinition "cavendish" "Cavendish" "X3 Mult, 1 in 1000 chance this card is destroyed at end of round" COMMON 4 ON_SCORE.

Definition JD_ramen : JokerDefinition :=
  mkJokerDefinition "ramen" "Ramen" "X2 Mult, loses X0.01 Mult per card discarded" UNCOMMON 6 ON_SCORE.

Definition JD_the_duo : JokerDefinition :=
  mkJokerDefinition "the_duo" "The Duo" "X2 Mult if played hand contains a Pair" RARE 8 ON_SCORE.

Section World.

Context `{RandomLib}.

(** The mutable surroundings of a call: the state dictionaries of all joker
    instances, and the ambient library state. *)
Record World := mkWorld {
  heap : gmap loc (gmap string PyVal);
  amb : Ambient;
}.

(** [joker.state.get(key, default)] *)
Definition state_get (w : World) (j : JokerInstance) (key : string) (d : PyVal) : PyVal :=
  match heap w !! state j with
  | Some dict => default d (dict !! key)
  | None => d
  end.

(** [joker.state[key] = v] *)
Definition state_set (w : World) (j : JokerInstance) (key : string) (v : PyVal) : World :=
  mkWorld (<[state j := <[key := v]> (default ∅ (heap w !! state j))]> (heap w)) (amb w).

(** A fresh dictionary holding [d]: [dict(d)] or [{}]. *)
Definition fresh_loc (h : gmap loc (gmap string PyVal)) : loc :=
  fresh (dom h).

Definition alloc_dict (d : gmap string PyVal) (w : World) : loc * World :=
  let l := fresh_loc (heap w) in (l, mkWorld (<[l := d]> (heap w)) (amb w)).

(** Effect calculators may read and write the joker's state dictionary and
    may consult the module-level generator. *)
Definition Calculator : Type :=
  JokerInstance -> ScoringContext -> World -> JokerEffect * World.

Definition pure_effect (e : JokerEffect) : World -> JokerEffect * World :=
  fun w => (e, w).

(** Counts used by the suit and rank jokers. *)
Definition count_suit_value (s : string) (cards : list Card) : Z :=
  Py.count_if (fun c => bool_decide (suit_value (suit c) = s)) cards.

Definition has_rank_count_ge (n : Z) (cards : list Card) : bool :=
  existsb (fun count => n <=? count) (Py.counter_values (Py.Counter (map rank cards))).

Definition _joker_effect : Calculator := fun _ _ =>
  pure_effect (mkJokerEffect 0 4 1 0 0).

Definition _greedy_joker_effect : Calculator := fun _ ctx =>
  pure_effect (mkJokerEffect 0 (3 * count_suit_value "D" (ctx_scoring_cards ctx)) 1 0 0).

Definition _half_joker_effect : Calculator := fun _ ctx =>
  if Py.len (played_cards ctx) <=? 3
  then pure_effect (mkJokerEffect 0 20 1 0 0)
  else pure_effect JokerEffect_default.

Definition _mystic_summit_effect : Calculator := fun _ ctx =>
  if gs_discards_remaining (game_state ctx) =? 0
  then pure_effect (mkJokerEffect 0 15 1 0 0)
  else pure_effect JokerEffect_default.

(** [JokerEffect(add_mult=random.randint(0, 23))] *)
Definition _misprint_effect : Calculator := fun _ _ w =>
  let '(n, a) := random_randint 0 23 (amb w) in
  (mkJokerEffect 0 n 1 0 0, mkWorld (heap w) a).

Definition _sly_joker_effect : Calculator := fun _ ctx =>
  if has_rank_count_ge 2 (ctx_scoring_cards ctx)
  then pure_effect (mkJokerEffect 50 0 1 0 0)
  else pure_effect JokerEffect_default.

Definition _ice_cream_effect : Calculator := fun joker _ w =>
  (mkJokerEffect (as_int (state_get w joker "chips" (PInt 100))) 0 1 0 0, w).

Definition _square_joker_effect : Calculator := fun joker ctx w =>
  let chips := as_int (state_get w joker "chips" (PInt 0)) in
  let w' :=
    if Py.len (played_cards ctx) =? 4
    then state_set w joker "chips" (PInt (chips + 4)) else w in
  (mkJokerEffect (as_int (state_get w' joker "chips" (PInt 0))) 0 1 0 0, w').

Definition _ride_the_bus_effect : Calculator := fun joker _ w =>
  (mkJokerEffect 0 (as_int (state_get w joker "mult" (PInt 0))) 1 0 0, w).

Definition _green_joker_effect : Calculator := fun joker _ w =>
  (mkJokerEffect 0 (as_int (state_get w joker "mult" (PInt 0))) 1 0 0, w).

Definition _cavendish_effect : Calculator := fun _ _ =>
  pure_effect (mkJokerEffect 0 0 3 0 0).

Definition _ramen_effect : Calculator := fun joker _ w =>
  let mult := as_float (state_get w joker "mult" (PFloat 2)) in
  if Float.ltb 1 mult then (mkJokerEffect 0 0 mult 0 0, w)
  else (JokerEffect_default, w).

Definition _the_duo_effect : Calculator := fun _ ctx =>
  if has_rank_count_ge 2 (ctx_scoring_cards ctx)
  then pure_effect (mkJokerEffect 0 0 2 0 0)
  else pure_effect JokerEffect_default.

(** The entries of [JOKER_CALCULATORS] used in this development. The
    table has one such entry for each of the 150 catalogued ids; every
    general statement below is made for an arbitrary table. *)
Definition JOKER_CALCULATORS : gmap string Calculator :=
  list_to_map [
    ("joker", _joker_effect);
    ("greedy_joker", _greedy_joker_effect);
    ("half_joker", _half_joker_effect);
    ("mystic_summit", _mystic_summit_effect);
    ("misprint", _misprint_effect);
    ("sly_joker", _sly_joker_effect);
    ("ice_cream", _ice_cream_effect);
    ("square_joker", _square_joker_effect);
    ("ride_the_bus", _ride_the_bus_effect);
    ("green_joker", _green_joker_effect);
    ("cavendish", _cavendish_effect);
    ("ramen", _ramen_effect);
    ("the_duo", _the_duo_effect)
  ].

Definition JOKERS : gmap string JokerDefinition :=
  list_to_map (map (fun d => (jd_id d, d)) [
    JD_joker;
    JD_greedy_joker;
    JD_half_joker;
    JD_mystic_summit;
    JD_misprint;
    JD_sly_joker;
    JD_ice_cream;
    JD_square_joker;
    JD_ride_the_bus;
    JD_green_joker;
    JD_cavendish;
    JD_ramen;
    JD_the_duo
  ]).

(** [create_joker]: a new instance with its own empty state dictionary;
    [None] is the [ValueError] for an unknown id. *)
Definition create_joker (joker_id : string) (w : World) : option (JokerInstance * World) :=
  match JOKERS !! joker_id with
  | Some d => let '(l, w') := alloc_dict ∅ w in Some (mkJokerInstance d l, w')
  | None => None
  end.

(** [JokerInstance.calculate_effect], for a given dispatch table. *)
Definition calculate_effect (table : gmap string Calculator)
    (j : JokerInstance) (ctx : ScoringContext) (w : World) : JokerEffect * World :=
  match table !! id j with
  | Some calculator => calculator j ctx w
  | None => (JokerEffect_default, w)
  end.

End World.

(** ** [scoring.py] *)

Record CardEffect := mkCardEffect {
  ce_card : Card;
  ce_chips : Z;
  ce_mult : Z;
  ce_mult_mult : Q;
  ce_money : Z;
  ce_retrigger : Z;
  ce_destroyed : bool;
}.

Record ScoringBreakdown := mkScoringBreakdown {
  sb_hand_type : HandType;
  sb_base_chips : Z;
  sb_base_mult : Z;
  card_effects : list CardEffect;
  joker_effects : list (string * Z * Z * Q);
  money_earned : Z;
  destroyed_cards : list Card;
  final_chips : Z;
  final_mult : Q;
  final_score : Z;
}.

Section Scoring.

Context `{RandomLib}.

(** [if rng and rng.random() < p]: the draw happens only when a generator
    was supplied. *)
Definition rng_below (p : Q) (rng : option Rng) : bool * option Rng :=
  match rng with
  | Some r => let '(x, r') := rng_random r in (Float.ltb x p, Some r')
  | None => (false, None)
  end.

(** [apply_card_modifiers] *)
Definition apply_card_modifiers (card : Card) (rng : option Rng) : CardEffect * option Rng :=
  (* Enhancement effects *)
  let '(chips, mult, mult_mult, money, destroyed, rng) :=
    match enhancement card with
    | BONUS => (30, 0, 1%Q, 0, false, rng)
    | MULT => (0, 4, 1%Q, 0, false, rng)
    | GLASS =>
        let '(hit, rng') := rng_below (1 # 4) rng in
        (0, 0, Float.mul 1 2, 0, hit, rng')
    | LUCKY =>
        match rng with
        | Some _ =>
            let '(hit_mult, rng1) := rng_below (1 # 5) rng in
            let '(hit_money, rng2) := rng_below (1 # 15) rng1 in
            (0, (if hit_mult then 20 else 0), 1%Q,
             (if hit_money then 20 else 0), false, rng2)
        | None => (0, 0, 1%Q, 0, false, rng)
        end
    | _ => (0, 0, 1%Q, 0, false, rng)
    end in
  (* Edition effects *)
  let '(chips, mult, mult_mult) :=
    match edition card with
    | FOIL => (chips + 50, mult, mult_mult)
    | HOLOGRAPHIC => (chips, mult + 10, mult_mult)
    | POLYCHROME => (chips, mult, Float.mul mult_mult (3 # 2))
    | _ => (chips, mult, mult_mult)
    end in
  (* Seal effects *)
  let '(money, retrigger) :=
    match seal card with
    | SEAL_GOLD => (money + 3, 0)
    | RED => (money, 1)
    | _ => (money, 0)
    end in
  (mkCardEffect card chips mult mult_mult money retrigger destroyed, rng).

(** [apply_steel_cards_in_hand] *)
Definition apply_steel_cards_in_hand (cards_in_hand : list Card) : Z * Q :=
  (0, fold_left
        (fun mm c => if bool_decide (enhancement c = STEEL) then Float.mul mm (3 # 2) else mm)
        cards_in_hand 1%Q).

(** Running totals of [calculate_score]. *)
Record Totals := mkTotals {
  total_chips : Z;
  total_mult : Q;
  total_money : Z;
}.

(** One pass of the inner [for _ in range(triggers)] loop. *)
Definition apply_trigger (e : CardEffect) (t : Totals) : Totals :=
  mkTotals (total_chips t + ce_chips e)
           (Float.mul (Float.add (total_mult t) (Float.of_int (ce_mult e))) (ce_mult_mult e))
           (total_money t + ce_money e).

(** The loop over the scoring cards. *)
Fixpoint score_cards (cards : list Card) (rng : option Rng) (t : Totals)
    (effects : list CardEffect) (destroyed : list Card)
    : Totals * list CardEffect * list Card :=
  match cards with
  | [] => (t, effects, destroyed)
  | card :: rest =>
      let '(card_effect, rng') := apply_card_modifiers card rng in
      let triggers := 1 + ce_retrigger card_effect in
      let t' := Nat.iter (Z.to_nat triggers) (apply_trigger card_effect) t in
      score_cards rest rng' t' (effects ++ [card_effect])
        (if ce_destroyed card_effect then destroyed ++ [card] else destroyed)
  end.

Section Chain.

Variable table : gmap string Calculator.

(** State of the joker loop: the running totals, the recorded effects and
    the context object handed to the next joker. *)
Record ChainState := mkChainState {
  ch_chips : Z;
  ch_mult : Q;
  ch_effects : list (string * Z * Z * Q);
  ch_ctx : ScoringContext;
}.

(** The body of [for joker in jokers]. *)
Definition apply_joker (joker : JokerInstance) (s : ChainState) (w : World)
    : ChainState * World :=
  let '(effect, w') := calculate_effect table joker (ch_ctx s) w in
  if JokerEffect_bool effect then
    let chips := if add_chips effect =? 0 then ch_chips s else ch_chips s + add_chips effect in
    let mult := if add_mult effect =? 0 then ch_mult s
                else Float.add (ch_mult s) (Float.of_int (add_mult effect)) in
    let mult := if Float.eqb (mult_mult effect) 1 then mult
                else Float.mul mult (mult_mult effect) in
    let ctx := ch_ctx s in
    (mkChainState chips mult
       (ch_effects s ++ [(name joker, add_chips effect, add_mult effect, mult_mult effect)])
       (mkScoringContext (played_cards ctx) (ctx_scoring_cards ctx) (cards_in_hand ctx)
          (hand_result ctx) (game_state ctx) chips mult),
     w')
  else (s, w').

Fixpoint joker_chain (jokers : list JokerInstance) (s : ChainState) (w : World)
    : ChainState * World :=
  match jokers with
  | [] => (s, w)
  | joker :: rest => let '(s', w') := apply_joker joker s w in joker_chain rest s' w'
  end.

(** The part of [calculate_score] that precedes the joker loop: hand
    evaluation at the hand's level, the scoring-card loop and the Steel
    bonus. It yields the evaluated hand, the totals, the recorded card
    effects and the destroyed cards. [None] is a raised [ValueError]. *)
Definition card_phase (played : list Card) (gs : GameState) (in_hand : list Card)
    (rng_seed : option Z)
    : option (HandResult * Totals * list CardEffect * list Card) :=
  match played with
  | [] => None
  | _ =>
      let rng := Random_seeded <$> rng_seed in
      r0 ← evaluate_hand played 1;
      let hand_level := level_get (gs_hand_levels gs) (hand_type r0) 1 in
      r ← evaluate_hand played hand_level;
      let t0 := mkTotals (base_chips r) (Float.of_int (base_mult r)) 0 in
      let '(t, effects, destroyed) := score_cards (scoring_cards r) rng t0 [] [] in
      let '(_, steel_mult) := apply_steel_cards_in_hand in_hand in
      let mult := if Float.eqb steel_mult 1 then total_mult t
                  else Float.mul (total_mult t) steel_mult in
      Some (r, mkTotals (total_chips t) mult (total_money t), effects, destroyed)
  end.

(** [calculate_score]. [None] is a raised [ValueError]. *)
Definition calculate_score (played : list Card) (jokers : list JokerInstance)
    (gs : GameState) (in_hand : option (list Card)) (rng_seed : option Z)
    (w : World) : option (ScoringBreakdown * World) :=
  let in_hand := default [] in_hand in
  '(r, t, effects, destroyed) ← card_phase played gs in_hand rng_seed;
  let ctx := mkScoringContext played (scoring_cards r) in_hand r gs
               (total_chips t) (total_mult t) in
  let '(s, w') :=
    joker_chain jokers (mkChainState (total_chips t) (total_mult t) [] ctx) w in
  Some (mkScoringBreakdown (hand_type r) (base_chips r) (base_mult r)
          effects (ch_effects s) (total_money t) destroyed
          (ch_chips s) (ch_mult s)
          (Py.int_of_float (Float.mul (Float.of_int (ch_chips s)) (ch_mult s))),
        w').

(** [quick_score] with explicit jokers and game state. *)
Definition quick_score (played : list Card) (jokers : list JokerInstance)
    (gs : GameState) (w : World) : option (Z * World) :=
  '(b, w') ← calculate_score played jokers gs None None w;
  Some (final_score b, w').

End Chain.

End Scoring.

(** ** A reference generator

    A 64-bit linear congruential generator standing in for CPython's
    generator wherever a closed computation needs one. Its ambient state is
    the module-level generator, the entropy counter and the clock. *)

Module Lcg.

Definition step (s : Z) : Z :=
  (6364136223846793005 * s + 1442695040888963407) mod 2 ^ 64.

Definition below (n : Z) (s : Z) : Z * Z :=
  let s' := step s in ((s' / 2 ^ 32) mod (Z.max 1 n), s').

Definition random (s : Z) : Q * Z :=
  let s' := step s in (Qred ((s' / 2 ^ 11) # (2 ^ 53)), s').

(** Draw the cards one at a time from the not yet placed ones. *)
Fixpoint shuffle_fuel (fuel : nat) (l : list Card) (s : Z) : list Card * Z :=
  match fuel with
  | O => (l, s)
  | S fuel' =>
      match l with
      | [] => ([], s)
      | _ =>
          let '(i, s') := below (Z.of_nat (length l)) s in
          let i := Z.to_nat i in
          match l !! i with
          | Some c =>
              let '(rest, s'') := shuffle_fuel fuel' (take i l ++ drop (S i) l) s' in
              (c :: rest, s'')
          | None => (l, s')
          end
      end
  end.

Definition shuffle (l : list Card) (s : Z) : list Card * Z :=
  shuffle_fuel (length l) l s.

Record ambient := mkAmbient {
  generator : Z;
  entropy : Z;
  clock : Z;
}.

#[global] Instance lib : RandomLib := {|
  Rng := Z;
  Ambient := ambient;
  Random_seeded := fun seed => seed mod 2 ^ 64;
  Random_unseeded := fun a =>
    (step (entropy a), mkAmbient (generator a) (step (entropy a)) (clock a));
  rng_random := random;
  rng_shuffle := shuffle;
  random_randint := fun lo hi a =>
    let '(n, g) := below (hi - lo + 1) (generator a) in
    (lo + n, mkAmbient g (entropy a) (clock a));
  random_random := fun a =>
    let '(x, g) := random (generator a) in (x, mkAmbient g (entropy a) (clock a));
  random_choice := fun n a =>
    let '(i, g) := below (Z.of_nat n) (generator a) in
    (Z.to_nat i, mkAmbient g (entropy a) (clock a));
  time_time := fun a =>
    ((clock a # 1000)%Q, mkAmbient (generator a) (entropy a) (clock a + 1));
|}.

(** An initial world: no joker objects yet. *)
Definition world0 : World := mkWorld ∅ (mkAmbient 2024 7 0).

End Lcg.

(** Card abbreviations used in the examples. *)
Definition AS := plain ACE SPADES.
Definition AH := plain ACE HEARTS.
Definition KH := plain KING HEARTS.
Definition S2 := plain TWO SPADES.


(** ** [simulator.py] *)

Inductive GamePhase := BLIND_SELECT | PLAYING | SHOP | GAME_OVER.

Inductive BlindType := SMALL | BIG | BOSS.

#[global] Instance GamePhase_eq_dec : EqDecision GamePhase.
Proof. solve_decision. Defined.
#[global] Instance BlindType_eq_dec : EqDecision BlindType.
Proof. solve_decision. Defined.

(** [BlindType.value] *)
Definition blind_type_value (b : BlindType) : string :=
  match b with SMALL => "small" | BIG => "big" | BOSS => "boss" end.

Definition BLIND_BASE_CHIPS (b : BlindType) : Z :=
  match b with SMALL => 300 | BIG => 450 | BOSS => 600 end.

Definition BLIND_REWARDS (b : BlindType) : Z :=
  match b with SMALL => 3 | BIG => 4 | BOSS => 5 end.

Definition ANTE_SCALING : gmap Z Q :=
  list_to_map [(1, 1%Q); (2, 3 # 2); (3, 2%Q); (4, 3%Q); (5, 4%Q); (6, 6%Q);
               (7, 9%Q); (8, 15%Q)].

Record ActionResult := mkActionResult {
  success : bool;
  message : string;
  score : Z;
  breakdown : option ScoringBreakdown;
  blind_beaten : bool;
  game_over : bool;
  won : bool;
}.

(** [ActionResult(success, message)] with the remaining defaults. *)
Definition result (ok : bool) (msg : string) : ActionResult :=
  mkActionResult ok msg 0 None false false false.

(** [str(n)] inside the f-strings. *)
Definition str (n : Z) : string := pretty n.

Section Simulator.

Context `{RandomLib}.

Variable table : gmap string Calculator.

Record GameSimulator := mkGameSimulator {
  deck : list Card;
  hand : list Card;
  played_this_round : list Card;
  jokers : list JokerInstance;
  max_jokers : Z;
  money : Z;
  ante : Z;
  max_ante : Z;
  blind_type : BlindType;
  hands_remaining : Z;
  discards_remaining : Z;
  sim_current_chips : Z;
  blind_chips : Z;
  hand_size : Z;
  phase : GamePhase;
  hand_levels : gmap HandType Z;
  rng : Rng;
  _seed : option Z;
}.

(** Field updates ([self.x = ...]). *)
Definition set_piles (g : GameSimulator) (d h p : list Card) : GameSimulator :=
  mkGameSimulator d h p (jokers g) (max_jokers g) (money g) (ante g) (max_ante g)
    (blind_type g) (hands_remaining g) (discards_remaining g) (sim_current_chips g)
    (blind_chips g) (hand_size g) (phase g) (hand_levels g) (rng g) (_seed g).

Definition set_jokers (g : GameSimulator) (js : list JokerInstance) : GameSimulator :=
  mkGameSimulator (deck g) (hand g) (played_this_round g) js (max_jokers g) (money g)
    (ante g) (max_ante g) (blind_type g) (hands_remaining g) (discards_remaining g)
    (sim_current_chips g) (blind_chips g) (hand_size g) (phase g) (hand_levels g)
    (rng g) (_seed g).

Definition set_money (g : GameSimulator) (m : Z) : GameSimulator :=
  mkGameSimulator (deck g) (hand g) (played_this_round g) (jokers g) (max_jokers g) m
    (ante g) (max_ante g) (blind_type g) (hands_remaining g) (discards_remaining g)
    (sim_current_chips g) (blind_chips g) (hand_size g) (phase g) (hand_levels g)
    (rng g) (_seed g).

Definition set_progress (g : GameSimulator) (a : Z) (b : BlindType) (p : GamePhase)
    : GameSimulator :=
  mkGameSimulator (deck g) (hand g) (played_this_round g) (jokers g) (max_jokers g)
    (money g) a (max_ante g) b (hands_remaining g) (discards_remaining g)
    (sim_current_chips g) (blind_chips g) (hand_size g) p (hand_levels g)
    (rng g) (_seed g).

Definition set_phase (g : GameSimulator) (p : GamePhase) : GameSimulator :=
  set_progress g (ante g) (blind_type g) p.

Definition set_round (g : GameSimulator) (hands discards chips blind : Z) : GameSimulator :=
  mkGameSimulator (deck g) (hand g) (played_this_round g) (jokers g) (max_jokers g)
    (money g) (ante g) (max_ante g) (blind_type g) hands discards chips blind
    (hand_size g) (phase g) (hand_levels g) (rng g) (_seed g).

Definition set_rng (g : GameSimulator) (r : Rng) (seed : option Z) : GameSimulator :=
  mkGameSimulator (deck g) (hand g) (played_this_round g) (jokers g) (max_jokers g)
    (money g) (ante g) (max_ante g) (blind_type g) (hands_remaining g)
    (discards_remaining g) (sim_current_chips g) (blind_chips g) (hand_size g)
    (phase g) (hand_levels g) r seed.

Definition set_hand_levels (g : GameSimulator) (l : gmap HandType Z) : GameSimulator :=
  mkGameSimulator (deck g) (hand g) (played_this_round g) (jokers g) (max_jokers g)
    (money g) (ante g) (max_ante g) (blind_type g) (hands_remaining g)
    (discards_remaining g) (sim_current_chips g) (blind_chips g) (hand_size g)
    (phase g) l (rng g) (_seed g).

(** [_calculate_blind_chips] *)
Definition _calculate_blind_chips (g : GameSimulator) : Z :=
  let base := BLIND_BASE_CHIPS (blind_type g) in
  let scale := default (Float.add 15 (Float.of_int ((ante g - 8) * 5)))
                 (ANTE_SCALING !! ante g) in
  Py.int_of_float (Float.mul (Float.of_int base) scale).

(** [rng.shuffle(self.deck)] *)
Definition shuffle_deck (g : GameSimulator) : GameSimulator :=
  let '(d, r) := rng_shuffle (deck g) (rng g) in
  set_rng (set_piles g d (hand g) (played_this_round g)) r (_seed g).

(** [reset] *)
Definition reset (seed : option Z) (g : GameSimulator) (w : World)
    : GameSimulator * World :=
  let '(r, w) :=
    match seed with
    | Some n => (Random_seeded n, w)
    | None => let '(r, a) := Random_unseeded (amb w) in (r, mkWorld (heap w) a)
    end in
  let g := set_rng g r seed in
  let g := shuffle_deck (set_piles g create_standard_deck (hand g) (played_this_round g)) in
  let g := set_piles g (deck g) [] [] in
  let g := set_jokers g [] in
  let g := set_money g 4 in
  let g := set_progress g 1 SMALL (phase g) in
  let g := set_round g 4 3 0 (_calculate_blind_chips g) in
  let g := set_phase g BLIND_SELECT in
  (set_hand_levels g default_hand_levels, w).

(** [__post_init__] *)
Definition __post_init__ (g : GameSimulator) (w : World) : GameSimulator * World :=
  match deck g, hand g with
  | [], [] => reset None g w
  | _, _ => (g, w)
  end.

(** [dict(j.state)]: a new dictionary with the same items. *)
Definition copy_joker (j : JokerInstance) (w : World) : JokerInstance * World :=
  let '(l, w') := alloc_dict (default ∅ (heap w !! state j)) w in
  (mkJokerInstance (definition j) l, w').

Fixpoint copy_jokers (js : list JokerInstance) (w : World)
    : list JokerInstance * World :=
  match js with
  | [] => ([], w)
  | j :: rest =>
      let '(j', w1) := copy_joker j w in
      let '(rest', w2) := copy_jokers rest w1 in
      (j' :: rest', w2)
  end.

(** [clone] *)
Definition clone (g : GameSimulator) (w : World) : GameSimulator * World :=
  let rebuild := map (fun c => plain (rank c) (suit c)) in
  let '(js, w) := copy_jokers (jokers g) w in
  let '(r, a) := Random_unseeded (amb w) in
  let w := mkWorld (heap w) a in
  let cloned :=
    mkGameSimulator (rebuild (deck g)) (rebuild (hand g)) (rebuild (played_this_round g))
      js (max_jokers g) (money g) (ante g) (max_ante g) (blind_type g)
      (hands_remaining g) (discards_remaining g) (sim_current_chips g) (blind_chips g)
      (hand_size g) (phase g) (hand_levels g) r (_seed g) in
  let '(cloned, w) := __post_init__ cloned w in
  (* cloned.rng.setstate(self.rng.getstate()) *)
  (set_rng cloned (rng g) (_seed cloned), w).

(** [_draw_to_hand_size]: returns the number of cards drawn. *)
Fixpoint draw_loop (n : nat) (d h : list Card) (drawn : Z) : list Card * list Card * Z :=
  match n with
  | O => (d, h, drawn)
  | S n' =>
      match last d with
      | Some c => draw_loop n' (removelast d) (h ++ [c]) (drawn + 1)
      | None => draw_loop n' d h drawn
      end
  end.

Definition _draw_to_hand_size (g : GameSimulator) : Z * GameSimulator :=
  let cards_to_draw := hand_size g - Py.len (hand g) in
  let '(d, h, drawn) := draw_loop (Z.to_nat cards_to_draw) (deck g) (hand g) 0 in
  (drawn, set_piles g d h (played_this_round g)).

(** [_reshuffle_played] *)
Definition _reshuffle_played (g : GameSimulator) : GameSimulator :=
  shuffle_deck (set_piles g (deck g ++ played_this_round g) (hand g) []).

(** [_advance_blind] *)
Definition _advance_blind (g : GameSimulator) : GameSimulator :=
  match blind_type g with
  | SMALL => set_progress g (ante g) BIG BLIND_SELECT
  | BIG => set_progress g (ante g) BOSS BLIND_SELECT
  | BOSS =>
      let a := ante g + 1 in
      if max_ante g <? a then set_progress g a SMALL GAME_OVER
      else set_progress g a SMALL SHOP
  end.

(** [start_blind] *)
Definition start_blind (g : GameSimulator) : ActionResult * GameSimulator :=
  if negb (bool_decide (phase g = BLIND_SELECT)) then
    (result false "Not in blind select phase", g)
  else
    let g := set_phase g PLAYING in
    let g := set_round g 4 3 0 (_calculate_blind_chips g) in
    let g := set_piles g (deck g) (hand g) [] in
    let '(_, g) := _draw_to_hand_size g in
    (result true ("Started " +:+ blind_type_value (blind_type g) +:+ " blind. Need "
                  +:+ str (blind_chips g) +:+ " chips."), g).

(** [skip_blind] *)
Definition skip_blind (g : GameSimulator) : ActionResult * GameSimulator :=
  if negb (bool_decide (phase g = BLIND_SELECT)) then
    (result false "Not in blind select phase", g)
  else if bool_decide (blind_type g = BOSS) then
    (result false "Cannot skip boss blind", g)
  else
    let skip_reward := if bool_decide (blind_type g = SMALL) then 1 else 1 in
    let g := set_money g (money g + skip_reward) in
    let g := _advance_blind g in
    (result true ("Skipped blind, got $" +:+ str skip_reward), g).

(** Index validation shared by [play_hand] and [discard]; [None] when the
    indices are acceptable. *)
Definition invalid_indices (g : GameSimulator) (card_indices : list Z) (verb : string)
    : option string :=
  match card_indices with
  | [] => Some ("Must " +:+ verb +:+ " at least one card")
  | _ =>
      if 5 <? Py.len card_indices then Some ("Cannot " +:+ verb +:+ " more than 5 cards")
      else if existsb (fun i => (i <? 0) || (Py.len (hand g) <=? i)) card_indices
      then Some "Invalid card index"
      else if negb (bool_decide (NoDup card_indices)) then Some "Duplicate card indices"
      else None
  end.

(** [[self.hand[i] for i in sorted(card_indices, reverse=True)]] *)
Definition cards_at (h : list Card) (card_indices : list Z) : list Card :=
  omap (fun i => h !! Z.to_nat i) (Py.sorted_desc (fun i => i) card_indices).

(** [for i in sorted(card_indices, reverse=True): self.hand.pop(i)] *)
Definition pop_all (h : list Card) (card_indices : list Z) : list Card :=
  fold_left (fun h i => delete (Z.to_nat i) h) (Py.sorted_desc (fun i => i) card_indices) h.

(** [_update_joker_states_after_play] *)
Definition is_face (c : Card) : bool :=
  bool_decide (rank c = JACK) || bool_decide (rank c = QUEEN) || bool_decide (rank c = KING).

Definition update_after_play (played : list Card) (w : World) (joker : JokerInstance) : World :=
  if String.eqb (id joker) "ice_cream" then
    let current := as_int (state_get w joker "chips" (PInt 100)) in
    state_set w joker "chips" (PInt (Z.max 0 (current - 5)))
  else if String.eqb (id joker) "green_joker" then
    let current := as_int (state_get w joker "mult" (PInt 0)) in
    state_set w joker "mult" (PInt (current + 1))
  else if String.eqb (id joker) "ride_the_bus" then
    if existsb is_face played then state_set w joker "mult" (PInt 0)
    else
      let current := as_int (state_get w joker "mult" (PInt 0)) in
      state_set w joker "mult" (PInt (current + 1))
  else w.

Definition _update_joker_states_after_play (g : GameSimulator) (played : list Card)
    (w : World) : World :=
  fold_left (update_after_play played) (jokers g) w.

(** [_update_joker_states_after_discard] *)
Definition update_after_discard (w : World) (joker : JokerInstance) : World :=
  if String.eqb (id joker) "green_joker" then
    let current := as_int (state_get w joker "mult" (PInt 0)) in
    state_set w joker "mult" (PInt (Z.max 0 (current - 1)))
  else w.

Definition _update_joker_states_after_discard (g : GameSimulator) (discarded : list Card)
    (w : World) : World :=
  fold_left update_after_discard (jokers g) w.

(** [_handle_blind_beaten] *)
Definition _handle_blind_beaten (g : GameSimulator) (b : ScoringBreakdown)
    : ActionResult * GameSimulator :=
  let reward := BLIND_REWARDS (blind_type g) in
  let interest := Z.min (money g / 5) 5 in
  let total_reward := reward + interest in
  let g := set_money g (money g + total_reward) in
  let g := _reshuffle_played g in
  let g := shuffle_deck (set_piles g (deck g ++ hand g) [] (played_this_round g)) in
  if bool_decide (blind_type g = BOSS) && (max_ante g <=? ante g) then
    let g := set_phase g GAME_OVER in
    (mkActionResult true
       ("Scored " +:+ str (final_score b) +:+ ". BLIND BEATEN! YOU WIN! Earned $"
        +:+ str total_reward +:+ ".")
       (final_score b) (Some b) true true true, g)
  else
    let g := _advance_blind g in
    (mkActionResult true
       ("Scored " +:+ str (final_score b) +:+ ". BLIND BEATEN! Earned $"
        +:+ str total_reward +:+ ".")
       (final_score b) (Some b) true false false, g).

(** [play_hand]. [None] would be an exception escaping from the scorer. *)
Definition play_hand (card_indices : list Z) (g : GameSimulator) (w : World)
    : option (ActionResult * GameSimulator * World) :=
  if negb (bool_decide (phase g = PLAYING)) then
    Some (result false "Not in playing phase", g, w)
  else if hands_remaining g <=? 0 then
    Some (result false "No hands remaining", g, w)
  else
    match invalid_indices g card_indices "play" with
    | Some msg => Some (result false msg, g, w)
    | None =>
        let cards_to_play := cards_at (hand g) card_indices in
        let g := set_piles g (deck g) (pop_all (hand g) card_indices) (played_this_round g) in
        let game_state := GameState_of (hand_levels g) (discards_remaining g) in
        '(b, w) ← calculate_score table cards_to_play (jokers g) game_state
                    (Some (hand g)) None w;
        let w := _update_joker_states_after_play g cards_to_play w in
        let g := set_round g (hands_remaining g - 1) (discards_remaining g)
                   (sim_current_chips g + final_score b) (blind_chips g) in
        let g := set_piles g (deck g) (hand g) (played_this_round g ++ cards_to_play) in
        if blind_chips g <=? sim_current_chips g then
          let '(res, g) := _handle_blind_beaten g b in Some (res, g, w)
        else if hands_remaining g <=? 0 then
          let g := set_phase g GAME_OVER in
          Some (mkActionResult true
                  ("Scored " +:+ str (final_score b) +:+ ". Total: "
                   +:+ str (sim_current_chips g) +:+ "/" +:+ str (blind_chips g)
                   +:+ ". GAME OVER - blind not beaten!")
                  (final_score b) (Some b) false true false, g, w)
        else
          let '(_, g) := _draw_to_hand_size g in
          Some (mkActionResult true
                  ("Scored " +:+ str (final_score b) +:+ ". Total: "
                   +:+ str (sim_current_chips g) +:+ "/" +:+ str (blind_chips g)
                   +:+ ". " +:+ str (hands_remaining g) +:+ " hands left.")
                  (final_score b) (Some b) false false false, g, w)
    end.

(** [discard] *)
Definition discard (card_indices : list Z) (g : GameSimulator) (w : World)
    : ActionResult * GameSimulator * World :=
  if negb (bool_decide (phase g = PLAYING)) then
    (result false "Not in playing phase", g, w)
  else if discards_remaining g <=? 0 then
    (result false "No discards remaining", g, w)
  else
    match invalid_indices g card_indices "discard" with
    | Some msg => (result false msg, g, w)
    | None =>
        let cards_to_discard := cards_at (hand g) card_indices in
        let g := set_piles g (deck g) (pop_all (hand g) card_indices) (played_this_round g) in
        let w := _update_joker_states_after_discard g cards_to_discard w in
        let g := set_round g (hands_remaining g) (discards_remaining g - 1)
                   (sim_current_chips g) (blind_chips g) in
        let g := set_piles g (deck g) (hand g) (played_this_round g ++ cards_to_discard) in
        let '(drawn, g) := _draw_to_hand_size g in
        (result true ("Discarded " +:+ str (Py.len cards_to_discard) +:+ " cards, drew "
                      +:+ str drawn +:+ ". " +:+ str (discards_remaining g)
                      +:+ " discards left."), g, w)
    end.

(** [end_shop] *)
Definition end_shop (g : GameSimulator) : ActionResult * GameSimulator :=
  if negb (bool_decide (phase g = SHOP)) then (result false "Not in shop phase", g)
  else
    let g := set_phase g BLIND_SELECT in
    (result true ("Entering " +:+ blind_type_value (blind_type g) +:+ " blind select."), g).

(** [buy_joker] *)
Definition buy_joker (joker_id : string) (cost : Z) (g : GameSimulator) (w : World)
    : ActionResult * GameSimulator * World :=
  if negb (bool_decide (phase g = SHOP)) then (result false "Not in shop phase", g, w)
  else if money g <? cost then
    (result false ("Not enough money (have $" +:+ str (money g) +:+ ", need $"
                   +:+ str cost +:+ ")"), g, w)
  else if max_jokers g <=? Py.len (jokers g) then
    (result false ("Joker slots full (" +:+ str (max_jokers g) +:+ "/"
                   +:+ str (max_jokers g) +:+ ")"), g, w)
  else
    match create_joker joker_id w with
    | None => (result false ("Unknown joker: " +:+ joker_id), g, w)
    | Some (joker, w) =>
        let g := set_money g (money g - cost) in
        let g := set_jokers g (jokers g ++ [joker]) in
        (result true ("Bought " +:+ name joker +:+ " for $" +:+ str cost +:+ ". $"
                      +:+ str (money g) +:+ " remaining."), g, w)
    end.

(** [sell_joker] *)
Definition sell_joker (joker_index : Z) (g : GameSimulator) : ActionResult * GameSimulator :=
  if (joker_index <? 0) || (Py.len (jokers g) <=? joker_index) then
    (result false "Invalid joker index", g)
  else
    match jokers g !! Z.to_nat joker_index with
    | None => (result false "Invalid joker index", g)
    | Some joker =>
        let g := set_jokers g (delete (Z.to_nat joker_index) (jokers g)) in
        let sell_price := jd_base_cost (definition joker) / 2 in
        let g := set_money g (money g + sell_price) in
        (result true ("Sold " +:+ name joker +:+ " for $" +:+ str sell_price +:+ ". $"
                      +:+ str (money g) +:+ " total."), g)
    end.

(** [reorder_jokers] *)
Definition reorder_jokers (new_order : list Z) (g : GameSimulator)
    : ActionResult * GameSimulator :=
  if negb (Py.len new_order =? Py.len (jokers g)) then
    (result false "Must specify position for all jokers", g)
  else if negb (bool_decide (Py.sorted_asc (fun i => i) new_order
                             = map Z.of_nat (seq 0 (length (jokers g))))) then
    (result false "Invalid joker order", g)
  else
    (result true "Jokers reordered",
     set_jokers g (omap (fun i => jokers g !! Z.to_nat i) new_order)).

(** [get_legal_plays]: index combinations of sizes 1 to 5. *)
Definition index_combinations (n : nat) : list (list Z) :=
  flat_map
    (fun k => Py.combinations (map Z.of_nat (seq 0 n)) k)
    (Py.range 1 (Nat.min 6 (n + 1))).

Definition get_legal_plays (g : GameSimulator) : list (list Z) :=
  if negb (bool_decide (phase g = PLAYING)) || (hands_remaining g <=? 0) then []
  else index_combinations (length (hand g)).

(** [get_legal_discards] *)
Definition get_legal_discards (g : GameSimulator) : list (list Z) :=
  if negb (bool_decide (phase g = PLAYING)) || (discards_remaining g <=? 0) then []
  else index_combinations (length (hand g)).

(** [is_game_over] *)
Definition is_game_over (g : GameSimulator) : bool := bool_decide (phase g = GAME_OVER).

(** [is_won] *)
Definition is_won (g : GameSimulator) : bool :=
  bool_decide (phase g = GAME_OVER) && (max_ante g <? ante g).

End Simulator.

(** ** [deck_tracker.py] *)

Record DeckState := mkDeckState {
  remaining_cards : list Card;
  cards_played : list Card;
  cards_discarded : list Card;
  _suit_counts : list (Suit * Z);
  _rank_counts : list (Rank * Z);
  _dirty : bool;
}.

(** [_update_counts] *)
Definition _update_counts (ds : DeckState) : DeckState :=
  mkDeckState (remaining_cards ds) (cards_played ds) (cards_discarded ds)
    (Py.Counter (map suit (remaining_cards ds)))
    (Py.Counter (map rank (remaining_cards ds))) false.

(** The dataclass constructor followed by [__post_init__]: a state built
    from three empty piles starts as the standard deck. *)
Definition DeckState_init (remaining played discarded : list Card) : DeckState :=
  let remaining :=
    match remaining, played, discarded with
    | [], [], [] => create_standard_deck
    | _, _, _ => remaining
    end in
  _update_counts (mkDeckState remaining played discarded [] [] true).

(** [DeckState()] *)
Definition DeckState_default : DeckState := DeckState_init [] [] [].

Definition total_remaining (ds : DeckState) : Z := Py.len (remaining_cards ds).

Definition total_seen (ds : DeckState) : Z :=
  Py.len (cards_played ds) + Py.len (cards_discarded ds).

(** [suit_count] and [rank_count] refresh the cached counters when they
    are stale, so they also return the tracker. *)
Definition suit_count (s : Suit) (ds : DeckState) : Z * DeckState :=
  let ds := if _dirty ds then _update_counts ds else ds in
  (Py.counter_get s (_suit_counts ds), ds).

Definition rank_count (r : Rank) (ds : DeckState) : Z * DeckState :=
  let ds := if _dirty ds then _update_counts ds else ds in
  (Py.counter_get r (_rank_counts ds), ds).

Definition card_count (r : Rank) (s : Suit) (ds : DeckState) : Z :=
  Py.count_if (fun c => bool_decide (rank c = r) && bool_decide (suit c = s))
    (remaining_cards ds).

(** [c.rank == card.rank and c.suit == card.suit] *)
Definition same_card (card c : Card) : bool :=
  bool_decide (rank c = rank card) && bool_decide (suit c = suit card).

(** The scan of [remove_card]: pop the first matching card, if any. *)
Fixpoint pop_first (card : Card) (l : list Card) : option (list Card) :=
  match l with
  | [] => None
  | c :: l' => if same_card card c then Some l' else cons c <$> pop_first card l'
  end.

(** [remove_card] *)
Definition remove_card (card : Card) (played : bool) (ds : DeckState) : bool * DeckState :=
  match pop_first card (remaining_cards ds) with
  | Some rest =>
      (true,
       mkDeckState rest
         (if played then cards_played ds ++ [card] else cards_played ds)
         (if played then cards_discarded ds else cards_discarded ds ++ [card])
         (_suit_counts ds) (_rank_counts ds) true)
  | None => (false, ds)
  end.

(** [remove_cards] *)
Fixpoint remove_cards_from (cards : list Card) (played : bool) (removed : Z)
    (ds : DeckState) : Z * DeckState :=
  match cards with
  | [] => (removed, ds)
  | card :: rest =>
      let '(ok, ds') := remove_card card played ds in
      remove_cards_from rest played (if ok then removed + 1 else removed) ds'
  end.

Definition remove_cards (cards : list Card) (played : bool) (ds : DeckState)
    : Z * DeckState :=
  remove_cards_from cards played 0 ds.

(** [DeckState.reset] *)
Definition deck_reset (ds : DeckState) : DeckState :=
  mkDeckState create_standard_deck [] [] (_suit_counts ds) (_rank_counts ds) true.

(** [DeckState.clone] *)
Definition deck_clone (ds : DeckState) : DeckState :=
  DeckState_init (remaining_cards ds) (cards_played ds) (cards_discarded ds).

(** [get_suit_distribution] *)
Definition get_suit_distribution (ds : DeckState) : list (Suit * Z) * DeckState :=
  let ds := if _dirty ds then _update_counts ds else ds in
  (_suit_counts ds, ds).

(** [from_known_cards]; [None] for an omitted pile. *)
Definition card_key (c : Card) : Rank * Suit := (rank c, suit c).

Definition from_known_cards (in_hand : list Card) (played discarded : option (list Card))
    : DeckState :=
  let played := default [] played in
  let discarded := default [] discarded in
  let seen := map card_key in_hand ++ map card_key played ++ map card_key discarded in
  let remaining :=
    List.filter (fun c => negb (bool_decide (card_key c ∈ seen))) create_standard_deck in
  DeckState_init remaining played discarded.

(** ** [probability.py] *)

(** [math.comb]: a [ValueError] for a negative argument. *)
Definition comb (n k : Z) : option Z :=
  if (n <? 0) || (k <? 0) then None
  else if n <? k then Some 0
  else
    Some (fold_left (fun c i => c * (n - k + Z.of_nat i) / Z.of_nat i)
            (seq 1 (Z.to_nat k)) 1).

(** [hypergeometric_pmf] *)
Definition hypergeometric_pmf (successes_in_pop population_size draws exactly_k : Z)
    : option Q :=
  if population_size <? draws then Some 0%Q
  else if successes_in_pop <? exactly_k then Some 0%Q
  else if draws <? exactly_k then Some 0%Q
  else if population_size - successes_in_pop <? draws - exactly_k then Some 0%Q
  else
    let failures_in_pop := population_size - successes_in_pop in
    let failures_needed := draws - exactly_k in
    c1 ← comb successes_in_pop exactly_k;
    c2 ← comb failures_in_pop failures_needed;
    denominator ← comb population_size draws;
    if denominator =? 0 then Some 0%Q
    else Some (Float.div (Float.of_int (c1 * c2)) (Float.of_int denominator)).

(** [sum(f(i) for i in range(k))] over floats, failing with the first
    failing term. *)
Fixpoint sum_range (f : Z -> option Q) (idx : list nat) (acc : Q) : option Q :=
  match idx with
  | [] => Some acc
  | i :: rest => x ← f (Z.of_nat i); sum_range f rest (Float.add acc x)
  end.

(** [hypergeometric_cdf_at_least] *)
Definition hypergeometric_cdf_at_least
    (successes_in_pop population_size draws at_least_k : Z) : option Q :=
  if at_least_k <=? 0 then Some 1%Q
  else
    prob_less_than_k ←
      sum_range (hypergeometric_pmf successes_in_pop population_size draws)
        (seq 0 (Z.to_nat at_least_k)) 0%Q;
    Some (Float.sub 1 prob_less_than_k).

(** The body of the per-suit loop of [flush_completion_probability]. *)
Definition flush_for_suit (hand_suits : list (Suit * Z)) (total draws : Z)
    (s : Suit) (ds : DeckState) : option (Q * DeckState) :=
  let cards_in_hand := Py.counter_get s hand_suits in
  let needed := Z.max 0 (5 - cards_in_hand) in
  if needed =? 0 then Some (1%Q, ds)
  else if draws <? needed then Some (0%Q, ds)
  else
    let '(available_in_deck, ds) := suit_count s ds in
    p ← hypergeometric_cdf_at_least available_in_deck total draws needed;
    Some (p, ds).

Fixpoint flush_loop (hand_suits : list (Suit * Z)) (total draws : Z)
    (suits : list Suit) (results : list (Suit * Q)) (ds : DeckState)
    : option (list (Suit * Q) * DeckState) :=
  match suits with
  | [] => Some (results, ds)
  | s :: rest =>
      '(p, ds) ← flush_for_suit hand_suits total draws s ds;
      flush_loop hand_suits total draws rest (results ++ [(s, p)]) ds
  end.

(** [flush_completion_probability]: the result dictionary in insertion
    order, and the tracker (whose cache the call may refresh). *)
Definition flush_completion_probability (in_hand : list Card) (deck_state : DeckState)
    (draws : Z) : option (list (Suit * Q) * DeckState) :=
  let hand_suits := Py.Counter (map suit in_hand) in
  let total := total_remaining deck_state in
  if (total =? 0) || (draws =? 0) then
    Some (map (fun s => (s, if 5 <=? Py.counter_get s hand_suits then 1%Q else 0%Q))
            all_suits, deck_state)
  else flush_loop hand_suits total draws all_suits [] deck_state.

(** [results[suit]] *)
Fixpoint dict_get {K V} `{EqDecision K} (k : K) (d : list (K * V)) : option V :=
  match d with
  | [] => None
  | (k', v) :: d' => if decide (k = k') then Some v else dict_get k d'
  end.

(** ** [heuristics.py] *)

Inductive ActionType := PLAY | DISCARD | BUY_JOKER | SELL_JOKER | SKIP | END_SHOP.

#[global] Instance ActionType_eq_dec : EqDecision ActionType.
Proof. solve_decision. Defined.

Record ScoredAction := mkScoredAction {
  sa_action_type : ActionType;
  sa_card_indices : list Z;
  sa_score : Q;
  expected_chips : Z;
  sa_reasoning : string;
  sa_is_lethal : bool;
}.

(** [ScoredAction.__lt__] *)
Definition ScoredAction_lt (a b : ScoredAction) : bool :=
  Float.ltb (sa_score a) (sa_score b).

Record HeuristicConfig := mkHeuristicConfig {
  lethal_bonus : Q;
  hand_type_weight : Q;
  chip_efficiency_weight : Q;
  joker_synergy_weight : Q;
  discard_improvement_weight : Q;
  keep_high_cards_weight : Q;
  keep_synergy_cards_weight : Q;
  min_safety_chips : Z;
  aggressive_threshold : Q;
}.

(** [HeuristicConfig()] *)
Definition HeuristicConfig_default : HeuristicConfig :=
  mkHeuristicConfig 10000 100 1 50 200 10 30 0 (4 # 5).

(** [HandType.name] *)
Definition hand_type_name (h : HandType) : string :=
  match h with
  | HIGH_CARD => "HIGH_CARD" | PAIR => "PAIR" | TWO_PAIR => "TWO_PAIR"
  | THREE_OF_A_KIND => "THREE_OF_A_KIND" | STRAIGHT => "STRAIGHT"
  | FLUSH => "FLUSH" | FULL_HOUSE => "FULL_HOUSE"
  | FOUR_OF_A_KIND => "FOUR_OF_A_KIND" | STRAIGHT_FLUSH => "STRAIGHT_FLUSH"
  | ROYAL_FLUSH => "ROYAL_FLUSH" | FIVE_OF_A_KIND => "FIVE_OF_A_KIND"
  | FLUSH_HOUSE => "FLUSH_HOUSE" | FLUSH_FIVE => "FLUSH_FIVE"
  end.

(** [f"{x:.0f}"] for a non-negative float: nearest integer, ties to even. *)
Definition fmt0 (x : Q) : string :=
  let f := Qfloor x in
  let r := (x - inject_Z f)%Q in
  let n := if Float.ltb r (1 # 2) then f
           else if Float.ltb (1 # 2) r then f + 1
           else if Z.even f then f else f + 1 in
  pretty n.

(** [", ".join(parts)] *)
Fixpoint join (sep : string) (parts : list string) : string :=
  match parts with
  | [] => ""
  | [p] => p
  | p :: rest => p +:+ sep +:+ join sep rest
  end.

(** [sorted(xs, reverse=True)] and [xs.sort(reverse=True)] through [__lt__]:
    stable, descending. *)
Fixpoint insert_desc_by {A} (lt : A -> A -> bool) (x : A) (l : list A) : list A :=
  match l with
  | [] => [x]
  | y :: l' => if lt x y then y :: insert_desc_by lt x l' else x :: y :: l'
  end.

Definition sort_desc_by {A} (lt : A -> A -> bool) (l : list A) : list A :=
  fold_right (insert_desc_by lt) [] l.

(** [[hand[i] for i in indices]] *)
Definition cards_of (h : list Card) (indices : list Z) : list Card :=
  omap (fun i => h !! Z.to_nat i) indices.

(** [[c for i, c in enumerate(hand) if i not in indices]] *)
Definition cards_not_in (h : list Card) (indices : list Z) : list Card :=
  omap (fun '(i, c) => if bool_decide (Z.of_nat i ∈ indices) then None else Some c)
    (imap (fun i c => (i, c)) h).

(** [sum(w for c in cards if p(c))] *)
Definition sum_weight (w : Q) (p : Card -> bool) (cards : list Card) : Q :=
  fold_left (fun acc c => if p c then Float.add acc w else acc) cards 0%Q.

Definition id_in (j : JokerInstance) (ids : list string) : bool :=
  existsb (String.eqb (id j)) ids.

(** [_calculate_joker_synergy] *)
Definition joker_synergy_step (cards : list Card) (config : HeuristicConfig)
    (bonus : Q) (joker : JokerInstance) : Q :=
  let w := joker_synergy_weight config in
  if String.eqb (id joker) "greedy_joker" then
    Float.add bonus (sum_weight w (fun c => bool_decide (suit c = DIAMONDS)) cards)
  else if String.eqb (id joker) "lusty_joker" then
    Float.add bonus (sum_weight w (fun c => bool_decide (suit c = HEARTS)) cards)
  else if String.eqb (id joker) "wrathful_joker" then
    Float.add bonus (sum_weight w (fun c => bool_decide (suit c = SPADES)) cards)
  else if String.eqb (id joker) "gluttonous_joker" then
    Float.add bonus (sum_weight w (fun c => bool_decide (suit c = CLUBS)) cards)
  else if id_in joker ["jolly_joker"; "sly_joker"; "the_duo"] then
    if has_rank_count_ge 2 cards then Float.add bonus w else bonus
  else if id_in joker ["zany_joker"; "wily_joker"; "the_trio"] then
    if has_rank_count_ge 3 cards then Float.add bonus (Float.mul w (3 # 2)) else bonus
  else if String.eqb (id joker) "half_joker" then
    if Py.len cards <=? 3 then Float.add bonus (Float.mul w 2) else bonus
  else bonus.

Definition _calculate_joker_synergy (cards : list Card) (jokers : list JokerInstance)
    (config : HeuristicConfig) : Q :=
  fold_left (joker_synergy_step cards config) jokers 0%Q.

(** [min(c.rank.value for c in cards)] on a non-empty list. *)
Definition min_rank_value (cards : list Card) : Z :=
  match cards with
  | [] => 0
  | c :: rest => fold_left (fun m c' => Z.min m (rank_value (rank c'))) rest (rank_value (rank c))
  end.

(** [_calculate_kept_card_synergy] *)
Definition kept_synergy_step (cards : list Card) (config : HeuristicConfig)
    (bonus : Q) (joker : JokerInstance) : Q :=
  if String.eqb (id joker) "blackboard" then
    if forallb (fun c => bool_decide (suit c = SPADES) || bool_decide (suit c = CLUBS)) cards
    then Float.add bonus (Float.mul (joker_synergy_weight config) 3) else bonus
  else if String.eqb (id joker) "raised_fist" then
    match cards with
    | [] => bonus
    | _ => Float.add bonus (Float.of_int (min_rank_value cards * 2))
    end
  else bonus.

Definition _calculate_kept_card_synergy (cards : list Card) (jokers : list JokerInstance)
    (config : HeuristicConfig) : Q :=
  fold_left (kept_synergy_step cards config) jokers 0%Q.

(** The card subsets [combinations(cards, n)] for [n] from 1 to 5. *)
Definition card_combinations (cards : list Card) : list (list Card) :=
  flat_map (fun n => Py.combinations cards n)
    (Py.range 1 (Nat.min 6 (length cards + 1))).

(** The scan of [_find_best_hand_in_cards]; the outer [None] is an error
    raised by [evaluate_hand]. *)
Fixpoint best_hand_scan (combos : list (list Card)) (best_type : HandType)
    (best_cards : list Card) : option (HandType * list Card) :=
  match combos with
  | [] => Some (best_type, best_cards)
  | combo :: rest =>
      r ← evaluate_hand combo 1;
      if hand_type_value best_type <? hand_type_value (hand_type r)
      then best_hand_scan rest (hand_type r) combo
      else best_hand_scan rest best_type best_cards
  end.

(** [_find_best_hand_in_cards]: the inner [None] is Python's [None]. *)
Definition _find_best_hand_in_cards (cards : list Card)
    : option (option (HandType * list Card)) :=
  match cards with
  | [] => Some None
  | _ =>
      '(best_type, best_cards) ← best_hand_scan (card_combinations cards) HIGH_CARD [];
      match best_cards with
      | [] => Some None
      | _ => Some (Some (best_type, best_cards))
      end
  end.

(** The run-length scan of [_evaluate_kept_cards] over the sorted distinct
    rank values. *)
Fixpoint longest_run (prev : Z) (rest : list Z) (current best : Z) : Z :=
  match rest with
  | [] => best
  | x :: rest' =>
      if x - prev =? 1
      then longest_run x rest' (current + 1) (Z.max best (current + 1))
      else longest_run x rest' 1 best
  end.

(** [sorted(set(xs))] on integers. *)
Definition sorted_set (l : list Z) : list Z :=
  Py.sorted_asc (fun n => n) (remove_dups l).

(** [_evaluate_kept_cards] *)
Definition _evaluate_kept_cards (cards : list Card) (jokers : list JokerInstance) : Q :=
  match cards with
  | [] => 0%Q
  | _ =>
      let ranks := Py.counter_values (Py.Counter (map rank cards)) in
      let suits := Py.counter_values (Py.Counter (map suit cards)) in
      let pairs := Py.count_if (fun n => 2 <=? n) ranks in
      let trips := Py.count_if (fun n => 3 <=? n) ranks in
      let score := Float.add 0 (Float.of_int (pairs * 50)) in
      let score := Float.add score (Float.of_int (trips * 100)) in
      let score := if existsb (fun n => 4 <=? n) suits then Float.add score 80 else score in
      let sorted_ranks := sorted_set (map (fun c => rank_value (rank c)) cards) in
      let max_connected :=
        match sorted_ranks with
        | [] => 1
        | x :: rest => longest_run x rest 1 1
        end in
      let score := if 4 <=? max_connected then Float.add score 60 else score in
      let high_cards := Py.count_if (fun c => 10 <=? rank_value (rank c)) cards in
      Float.add score (Float.of_int (high_cards * 10))
  end.

Section Heuristics.

Context `{RandomLib}.

Variable table : gmap string Calculator.

(** A loop whose body calls the scorer: the world is threaded through and
    the first error aborts the loop. *)
Fixpoint for_each {A B} (f : A -> World -> option (B * World)) (l : list A) (w : World)
    : option (list B * World) :=
  match l with
  | [] => Some ([], w)
  | x :: rest =>
      '(y, w) ← f x w;
      '(ys, w) ← for_each f rest w;
      Some (y :: ys, w)
  end.

(** The body of the double loop of [evaluate_plays]. *)
Definition evaluate_play (in_hand : list Card) (jokers : list JokerInstance)
    (gs : GameState) (chips_needed hands_left : Z) (config : HeuristicConfig)
    (indices : list Z) (w : World) : option (ScoredAction * World) :=
  let cards_to_play := cards_of in_hand indices in
  let remaining := cards_not_in in_hand indices in
  '(b, w) ← calculate_score table cards_to_play jokers gs (Some remaining) None w;
  let is_lethal := chips_needed <=? final_score b in
  let score := 0%Q in
  let '(score, parts) :=
    if is_lethal then (Float.add score (lethal_bonus config), ["LETHAL"])
    else (score, []) in
  let hand_type_score :=
    Float.mul (Float.of_int (hand_type_value (sb_hand_type b))) (hand_type_weight config) in
  let score := Float.add score hand_type_score in
  let parts := parts ++ [hand_type_name (sb_hand_type b)] in
  let efficiency :=
    Float.div (Float.of_int (final_score b)) (Float.of_int (Py.len cards_to_play)) in
  let score := Float.add score (Float.mul efficiency (chip_efficiency_weight config)) in
  let synergy_bonus := _calculate_joker_synergy cards_to_play jokers config in
  let score := Float.add score synergy_bonus in
  let parts :=
    if Float.ltb 0 synergy_bonus then parts ++ ["+" +:+ fmt0 synergy_bonus +:+ " synergy"]
    else parts in
  let '(score, parts) :=
    if (hands_left <=? 2) && negb is_lethal
    then (Float.add score (Float.mul (Float.of_int (final_score b)) (1 # 10)),
          parts ++ ["urgent"])
    else (score, parts) in
  let '(score, parts) :=
    if is_lethal && (2 <? Py.len cards_to_play)
    then (Float.sub score (Float.of_int (Py.len cards_to_play * 10)),
          parts ++ ["card conservation"])
    else (score, parts) in
  Some (mkScoredAction PLAY indices score (final_score b) (join ", " parts) is_lethal, w).

(** [evaluate_plays] *)
Definition evaluate_plays (in_hand : list Card) (jokers : list JokerInstance)
    (gs : GameState) (blind current hands_left : Z) (config : HeuristicConfig)
    (w : World) : option (list ScoredAction * World) :=
  let chips_needed := blind - current in
  '(actions, w) ←
    for_each (evaluate_play in_hand jokers gs chips_needed hands_left config)
      (index_combinations (length in_hand)) w;
  Some (sort_desc_by ScoredAction_lt actions, w).

(** The body of the double loop of [evaluate_discards]. *)
Definition evaluate_discard (in_hand : list Card) (jokers : list JokerInstance)
    (config : HeuristicConfig) (current_best : option (HandType * list Card))
    (indices : list Z) : ScoredAction :=
  let cards_to_discard := cards_of in_hand indices in
  let cards_to_keep := cards_not_in in_hand indices in
  let score := 0%Q in
  let best_hand_cards := match current_best with Some (_, cs) => cs | None => [] end in
  let discarding_best :=
    existsb (fun c => bool_decide (c ∈ best_hand_cards)) cards_to_discard in
  let '(score, parts) :=
    if discarding_best then (Float.sub score 500, ["breaks best hand"]) else (score, []) in
  let kept_potential := _evaluate_kept_cards cards_to_keep jokers in
  let score := Float.add score (Float.mul kept_potential (discard_improvement_weight config)) in
  let low_card_bonus :=
    Float.mul
      (Float.of_int (fold_left (fun acc c => acc + (14 - rank_value (rank c)))
                       cards_to_discard 0))
      (keep_high_cards_weight config) in
  let score := Float.add score low_card_bonus in
  let parts := if Float.ltb 50 low_card_bonus then parts ++ ["discarding low cards"]
               else parts in
  let synergy := _calculate_kept_card_synergy cards_to_keep jokers config in
  let score := Float.add score synergy in
  let parts := if Float.ltb 0 synergy
               then parts ++ ["+" +:+ fmt0 synergy +:+ " kept synergy"] else parts in
  let lost_synergy := _calculate_joker_synergy cards_to_discard jokers config in
  let score := Float.sub score (Float.mul lost_synergy (1 # 2)) in
  let score := Float.sub score (Float.of_int (Py.len cards_to_discard * 5)) in
  let parts := parts ++ ["keep " +:+ str (Py.len cards_to_keep) +:+ " cards"] in
  mkScoredAction DISCARD indices score 0 (join ", " parts) false.

(** [evaluate_discards]; [None] is an error raised by [evaluate_hand]. *)
Definition evaluate_discards (in_hand : list Card) (jokers : list JokerInstance)
    (gs : GameState) (deck_remaining : Z) (config : HeuristicConfig)
    : option (list ScoredAction) :=
  current_best ← _find_best_hand_in_cards in_hand;
  Some (sort_desc_by ScoredAction_lt
          (map (evaluate_discard in_hand jokers config current_best)
             (index_combinations (length in_hand)))).

(** [get_best_play] *)
Definition get_best_play (in_hand : list Card) (jokers : list JokerInstance)
    (gs : GameState) (blind current hands_left : Z) (w : World)
    : option (option ScoredAction * World) :=
  '(actions, w) ← evaluate_plays in_hand jokers gs blind current hands_left
                     HeuristicConfig_default w;
  Some (head actions, w).

(** [get_best_discard] *)
Definition get_best_discard (in_hand : list Card) (jokers : list JokerInstance)
    (gs : GameState) (deck_remaining : Z) : option (option ScoredAction) :=
  actions ← evaluate_discards in_hand jokers gs deck_remaining HeuristicConfig_default;
  Some (head actions).

(** [should_discard] *)
Definition should_discard (in_hand : list Card) (jokers : list JokerInstance)
    (gs : GameState) (blind current hands_left discards_left deck_remaining : Z)
    (w : World) : option (bool * World) :=
  if discards_left <=? 0 then Some (false, w)
  else
    '(best_play, w) ← get_best_play in_hand jokers gs blind current hands_left w;
    match best_play with
    | None => Some (false, w)
    | Some best_play =>
        if sa_is_lethal best_play then Some (false, w)
        else if hands_left <=? 1 then Some (false, w)
        else
          current_best ← _find_best_hand_in_cards in_hand;
          match current_best with
          | None => Some (true, w)
          | Some (current_hand_type, _) =>
              if (hand_type_value current_hand_type <=? hand_type_value PAIR)
                 && (0 <? discards_left)
              then
                best_discard ← get_best_discard in_hand jokers gs deck_remaining;
                match best_discard with
                | Some bd =>
                    if Float.ltb 0 (sa_score bd) then
                      let chips_needed := blind - current in
                      if Float.ltb (Float.of_int (expected_chips best_play))
                           (Float.mul (Float.of_int chips_needed) (1 # 2))
                      then Some (true, w) else Some (false, w)
                    else Some (false, w)
                | None => Some (false, w)
                end
              else Some (false, w)
          end
    end.

End Heuristics.

(** ** [decision_engine.py] *)

Record DecisionConfig := mkDecisionConfig {
  lethal_probability_threshold : Q;
  lethal_variance_penalty : Q;
  early_game_variance_weight : Q;
  mid_game_variance_weight : Q;
  late_game_variance_weight : Q;
  lethal_range_variance_weight : Q;
  base_safety_margin : Q;
  low_discard_margin_multiplier : Q;
  boss_blind_margin_multiplier : Q;
  near_lethal_margin_multiplier : Q;
  rare_rank_loss_weight : Q;
  suit_imbalance_weight : Q;
  straight_potential_weight : Q;
  joker_trigger_value_weight : Q;
  future_frequency_weight : Q;
  prefer_play_over_discard : Q;
  prefer_fewer_cards : Q;
  prefer_deterministic : Q;
}.

(** [DecisionConfig()] *)
Definition DecisionConfig_default : DecisionConfig :=
  mkDecisionConfig (19 # 20) 1000 (1 # 10) (3 # 10) (1 # 2) 1 50 (3 # 2) 2 3
    20 10 15 1 (1 # 2) 10 5 20.

Record EvaluatedAction := mkEvaluatedAction {
  action_type : string;
  card_indices : list Z;
  cards : list Card;
  expected_score : Z;
  variance : Q;
  ea_hand_type : option HandType;
  scoring_breakdown : option ScoringBreakdown;
  is_lethal : bool;
  is_deterministic : bool;
  ea_final_score : Q;
  reasoning : list string;
}.

(** [EvaluatedAction.add_reason] *)
Definition add_reason (a : EvaluatedAction) (reason : string) : EvaluatedAction :=
  mkEvaluatedAction (action_type a) (card_indices a) (cards a) (expected_score a)
    (variance a) (ea_hand_type a) (scoring_breakdown a) (is_lethal a)
    (is_deterministic a) (ea_final_score a) (reasoning a ++ [reason]).

(** [action.final_score = x] *)
Definition set_final_score (a : EvaluatedAction) (x : Q) : EvaluatedAction :=
  mkEvaluatedAction (action_type a) (card_indices a) (cards a) (expected_score a)
    (variance a) (ea_hand_type a) (scoring_breakdown a) (is_lethal a)
    (is_deterministic a) x (reasoning a).

(** The key of [_find_safest_lethal] and Python's order on such tuples. *)
Definition safety_score (a : EvaluatedAction) : Z * Z * Z :=
  (expected_score a, - Py.len (cards a),
   match ea_hand_type a with Some h => hand_type_value h | None => 0 end).

Definition tuple_lt (k1 k2 : Z * Z * Z) : bool :=
  let '(a1, b1, c1) := k1 in
  let '(a2, b2, c2) := k2 in
  (a1 <? a2) || ((a1 =? a2) && ((b1 <? b2) || ((b1 =? b2) && (c1 <? c2)))).

(** [max(xs, key=key)] for tuple keys: the first element whose key no later
    element exceeds; [None] is the [ValueError] on an empty list. *)
Fixpoint max_key_from {A} (key : A -> Z * Z * Z) (best : A) (l : list A) : A :=
  match l with
  | [] => best
  | x :: l' => max_key_from key (if tuple_lt (key best) (key x) then x else best) l'
  end.

Definition max_key {A} (key : A -> Z * Z * Z) (l : list A) : option A :=
  match l with
  | [] => None
  | x :: l' => Some (max_key_from key x l')
  end.

(** [_find_safest_lethal] *)
Definition _find_safest_lethal (lethal_plays : list EvaluatedAction)
    : option EvaluatedAction :=
  max_key safety_score lethal_plays.

(** [_get_variance_weight] *)
Definition _get_variance_weight (config : DecisionConfig)
    (chips_needed hands_left blind_total : Z) : Q :=
  if Float.ltb (Float.of_int chips_needed) (Float.mul (Float.of_int blind_total) (3 # 10))
  then lethal_range_variance_weight config
  else if hands_left <=? 2 then late_game_variance_weight config
  else if hands_left <=? 3 then mid_game_variance_weight config
  else early_game_variance_weight config.

(** The scoring loop over [all_actions] in [decide]. *)
Definition weigh_action (config : DecisionConfig) (variance_weight : Q)
    (a : EvaluatedAction) : EvaluatedAction :=
  let s := Float.of_int (expected_score a) in
  let s := Float.sub s (Float.mul variance_weight (variance a)) in
  let s := if String.eqb (action_type a) "play"
           then Float.add s (prefer_play_over_discard config) else s in
  let s := if is_deterministic a then Float.add s (prefer_deterministic config) else s in
  let s := Float.sub s (Float.mul (Float.of_int (Py.len (cards a))) (prefer_fewer_cards config)) in
  set_final_score a s.

(** The methods of [DeepDecisionEngine] that evaluate scores. *)
Module DeepDecisionEngine.

Section DecisionEngine.

Context `{RandomLib}.

Variable table : gmap string Calculator.

(** [_evaluate_all_discards], the probability-weighted evaluation of the
    discards (steps 3 of the pipeline: completion probabilities, discard EV,
    deck damage, safety margin). It is reached only when no play is lethal
    and is taken as a parameter here. *)
Variable _evaluate_all_discards :
  DecisionConfig -> list Card -> list JokerInstance -> GameState -> DeckState ->
  Z -> Z -> Z -> bool -> World -> option (list EvaluatedAction * World).

(** The body of the double loop of [_evaluate_all_plays]. *)
Definition evaluate_one_play (in_hand : list Card) (jokers : list JokerInstance)
    (gs : GameState) (chips_needed : Z) (indices : list Z) (w : World)
    : option (EvaluatedAction * World) :=
  let cards_to_play := cards_of in_hand indices in
  let remaining := cards_not_in in_hand indices in
  '(b, w) ← calculate_score table cards_to_play jokers gs (Some remaining) None w;
  let lethal := chips_needed <=? final_score b in
  let action :=
    mkEvaluatedAction "play" indices cards_to_play (final_score b) 0
      (Some (sb_hand_type b)) (Some b) lethal true 0 [] in
  let action := add_reason action (hand_type_name (sb_hand_type b)) in
  let action := if lethal then add_reason action "LETHAL" else action in
  Some (action, w).

(** [_evaluate_all_plays] *)
Definition _evaluate_all_plays (in_hand : list Card) (jokers : list JokerInstance)
    (gs : GameState) (chips_needed hands_left : Z) (w : World)
    : option (list EvaluatedAction * World) :=
  for_each (evaluate_one_play in_hand jokers gs chips_needed)
    (index_combinations (length in_hand)) w.

(** [DeepDecisionEngine.decide]; the log lines are not modelled. *)
Definition decide (config : DecisionConfig) (in_hand : list Card)
    (jokers : list JokerInstance) (gs : GameState)
    (blind current hands_left discards_left : Z) (deck_state : option DeckState)
    (is_boss_blind : bool) (w : World) : option (EvaluatedAction * World) :=
  let chips_needed := blind - current in
  let deck_state := default (from_known_cards in_hand None None) deck_state in
  '(play_actions, w) ← _evaluate_all_plays in_hand jokers gs chips_needed hands_left w;
  let lethal_plays := List.filter is_lethal play_actions in
  match lethal_plays with
  | _ :: _ =>
      best_lethal ← _find_safest_lethal lethal_plays;
      Some (add_reason best_lethal "LETHAL - playing safe winning hand", w)
  | [] =>
      '(discard_actions, w) ←
        (if 0 <? discards_left
         then _evaluate_all_discards config in_hand jokers gs deck_state chips_needed
                hands_left discards_left is_boss_blind w
         else Some ([], w));
      let all_actions := play_actions ++ discard_actions in
      let variance_weight := _get_variance_weight config chips_needed hands_left blind in
      let all_actions := map (weigh_action config variance_weight) all_actions in
      let all_actions :=
        sort_desc_by (fun a b => Float.ltb (ea_final_score a) (ea_final_score b))
          all_actions in
      match all_actions with
      | [] =>
          Some (mkEvaluatedAction "play" [0]
                  (match in_hand with c :: _ => [c] | [] => [] end)
                  0 0 None None false true 0
                  ["No valid actions, playing first card"], w)
      | best :: _ => Some (best, w)
      end
  end.

End DecisionEngine.

End DeepDecisionEngine.

(** ** [mcts.py] *)

(** [math.sqrt] and [math.log]: [ucb1] takes the logarithm of a positive
    visit count and the square root of its quotient by a positive count. *)
Class MathLib := {
  math_sqrt : Q -> Q;
  math_log : Q -> Q;
}.

Module Mcts.

Inductive ActionKind := PLAY | DISCARD | START_BLIND | SKIP_BLIND | END_SHOP.

#[global] Instance ActionKind_eq_dec : EqDecision ActionKind.
Proof. solve_decision. Defined.

(** [__eq__] compares the kind and the card indices. *)
Record MCTSAction := mkMCTSAction {
  kind : ActionKind;
  card_indices : list Z;
}.

#[global] Instance MCTSAction_eq_dec : EqDecision MCTSAction.
Proof. solve_decision. Defined.

(** A float that may be [float("inf")]. *)
Inductive ExtFloat := Finite (x : Q) | Infinity.

Definition ext_lt (a b : ExtFloat) : bool :=
  match a, b with
  | Finite x, Finite y => Float.ltb x y
  | Finite _, Infinity => true
  | Infinity, _ => false
  end.

(** [max(xs, key=key)] for such keys. *)
Fixpoint max_ext_from {A} (key : A -> ExtFloat) (best : A) (l : list A) : A :=
  match l with
  | [] => best
  | x :: l' => max_ext_from key (if ext_lt (key best) (key x) then x else best) l'
  end.

Definition max_ext {A} (key : A -> ExtFloat) (l : list A) : option A :=
  match l with
  | [] => None
  | x :: l' => Some (max_ext_from key x l')
  end.

(** [d[k] = v] on a dictionary kept in insertion order. *)
Fixpoint dict_set {K V} `{EqDecision K} (k : K) (v : V) (d : list (K * V)) : list (K * V) :=
  match d with
  | [] => [(k, v)]
  | (k', v') :: d' => if decide (k = k') then (k, v) :: d' else (k', v') :: dict_set k v d'
  end.

(** [xs.remove(x)]: drops the first equal element; [None] is the
    [ValueError] of a missing one. *)
Fixpoint list_remove {A} `{EqDecision A} (x : A) (l : list A) : option (list A) :=
  match l with
  | [] => None
  | y :: l' => if decide (y = x) then Some l' else cons y <$> list_remove x l'
  end.

Record MCTSConfig := mkMCTSConfig {
  max_iterations : Z;
  max_time_seconds : Q;
  exploration_constant : Q;
  max_rollout_depth : Z;
  use_heuristic_rollouts : bool;
  win_value : Q;
  ante_value : Q;
  blind_value : Q;
  min_visits_for_expansion : Z;
}.

(** [MCTSConfig()] *)
Definition MCTSConfig_default : MCTSConfig :=
  mkMCTSConfig 1000 5 (1414 # 1000) 50 true 1 (1 # 10) (3 # 100) 1.

Section Mcts.

Context `{RandomLib}.
Context `{MathLib}.

Variable table : gmap string Calculator.

(** Node objects live in a store and refer to each other by their position
    in it: [parent] and the values of [children] are such references. *)
Record MCTSNode := mkMCTSNode {
  action : option MCTSAction;
  visits : Z;
  total_value : Q;
  wins : Z;
  parent : option nat;
  children : list (MCTSAction * nat);
  untried_actions : list MCTSAction;
  _game_state : option GameSimulator;
}.

(** [MCTSNode()] *)
Definition MCTSNode_default : MCTSNode := mkMCTSNode None 0 0 0 None [] [] None.

(** Following a reference; every reference held by a node is to a node of
    the store. *)
Definition deref (t : list MCTSNode) (i : nat) : MCTSNode :=
  default MCTSNode_default (t !! i).

Definition set_untried_actions (n : MCTSNode) (l : list MCTSAction) : MCTSNode :=
  mkMCTSNode (action n) (visits n) (total_value n) (wins n) (parent n) (children n) l
    (_game_state n).

Definition set_children (n : MCTSNode) (d : list (MCTSAction * nat)) : MCTSNode :=
  mkMCTSNode (action n) (visits n) (total_value n) (wins n) (parent n) d
    (untried_actions n) (_game_state n).

Definition is_fully_expanded (n : MCTSNode) : bool := Py.len (untried_actions n) =? 0.

Definition is_terminal (n : MCTSNode) : bool :=
  match _game_state n with
  | Some g => is_game_over g
  | None => false
  end.

Definition average_value (n : MCTSNode) : Q :=
  if visits n =? 0 then 0 else Float.div (total_value n) (Float.of_int (visits n)).

Definition win_rate (n : MCTSNode) : Q :=
  if visits n =? 0 then 0 else Float.div (Float.of_int (wins n)) (Float.of_int (visits n)).

(** [ucb1] *)
Definition ucb1 (t : list MCTSNode) (n : MCTSNode) (c : Q) : ExtFloat :=
  if visits n =? 0 then Infinity
  else
    match parent n with
    | None => Finite (average_value n)
    | Some p =>
        if visits (deref t p) =? 0 then Finite (average_value n)
        else
          let exploitation := average_value n in
          let exploration :=
            Float.mul c
              (math_sqrt (Float.div (math_log (Float.of_int (visits (deref t p))))
                            (Float.of_int (visits n)))) in
          Finite (Float.add exploitation exploration)
    end.

(** [best_child]: a reference to the child with the largest UCB1 value. *)
Definition best_child (t : list MCTSNode) (n : MCTSNode) (c : Q) : option nat :=
  max_ext (fun i => ucb1 t (deref t i) c) (map snd (children n)).

(** [best_action] *)
Definition best_action (t : list MCTSNode) (n : MCTSNode) : option MCTSAction :=
  best ← Py.max_by (fun i => visits (deref t i)) (map snd (children n));
  action (deref t best).

(** [get_legal_actions] *)
Definition get_legal_actions (game : GameSimulator) : list MCTSAction :=
  match phase game with
  | BLIND_SELECT =>
      mkMCTSAction START_BLIND []
      :: (if negb (String.eqb (blind_type_value (blind_type game)) "boss")
          then [mkMCTSAction SKIP_BLIND []] else [])
  | PLAYING =>
      map (mkMCTSAction PLAY) (get_legal_plays game)
      ++ (if 0 <? discards_remaining game
          then map (mkMCTSAction DISCARD) (get_legal_discards game) else [])
  | SHOP => [mkMCTSAction END_SHOP []]
  | GAME_OVER => []
  end.

(** [apply_action]: the game object is updated in place, the result of the
    call is dropped. *)
Definition apply_action (game : GameSimulator) (a : MCTSAction) (w : World)
    : option (GameSimulator * World) :=
  match kind a with
  | PLAY => '(_, game, w) ← play_hand table (card_indices a) game w; Some (game, w)
  | DISCARD => let '(_, game, w) := discard (card_indices a) game w in Some (game, w)
  | START_BLIND => Some ((start_blind game).2, w)
  | SKIP_BLIND => Some ((skip_blind game).2, w)
  | END_SHOP => Some ((end_shop game).2, w)
  end.

(** The state of an [MCTS] object; [root] refers to a node of [nodes]. *)
Record MCTS := mkMCTS {
  config : MCTSConfig;
  root : option nat;
  nodes : list MCTSNode;
  iterations : Z;
  total_rollouts : Z;
}.

(** [MCTS(config)] *)
Definition MCTS_init (cfg : option MCTSConfig) : MCTS :=
  mkMCTS (default MCTSConfig_default cfg) None [] 0 0.

(** [_should_continue]: the clock is read only when iterations remain. *)
Definition _should_continue (m : MCTS) (start_time : Q) (w : World) : bool * World :=
  if max_iterations (config m) <=? iterations m then (false, w)
  else
    let '(now, a) := time_time (amb w) in
    let w := mkWorld (heap w) a in
    if Float.leb (max_time_seconds (config m)) (Float.sub now start_time) then (false, w)
    else (true, w).

(** [_select]: the loop follows references to children; [fuel] bounds the
    number of its rounds. *)
Fixpoint _select (fuel : nat) (cfg : MCTSConfig) (t : list MCTSNode) (node : nat)
    (game : GameSimulator) (w : World)
    : option (list MCTSNode * nat * GameSimulator * World) :=
  let n := deref t node in
  if is_fully_expanded n && negb (bool_decide (children n = [])) then
    match best_child t n (exploration_constant cfg) with
    | None => Some (t, node, game, w)
    | Some best =>
        match fuel with
        | O => None
        | S fuel' =>
            '(game, w) ← match action (deref t best) with
                         | Some a => apply_action game a w
                         | None => Some (game, w)
                         end;
            let b := deref t best in
            let t :=
              if bool_decide (untried_actions b = []) && bool_decide (children b = [])
              then <[best := set_untried_actions b (get_legal_actions game)]> t
              else t in
            _select fuel' cfg t best game w
        end
    end
  else Some (t, node, game, w).

(** The two nested loops of [_select_untried_action]. *)
Definition first_untried (scored : list ScoredAction) (play_actions : list MCTSAction)
    : option MCTSAction :=
  head (flat_map
          (fun scored_action =>
             List.filter
               (fun untried =>
                  bool_decide (card_indices untried = sa_card_indices scored_action))
               play_actions)
          scored).

(** [_select_untried_action]; [None] is an exception. *)
Definition _select_untried_action (n : MCTSNode) (game : GameSimulator) (w : World)
    : option (MCTSAction * World) :=
  match untried_actions n with
  | [] => None
  | first :: _ =>
      if bool_decide (phase game = PLAYING) then
        let play_actions :=
          List.filter (fun a => bool_decide (kind a = PLAY)) (untried_actions n) in
        match play_actions with
        | [] => Some (first, w)
        | _ =>
            '(scored, w) ←
              evaluate_plays table (hand game) (jokers game)
                (GameState_of (hand_levels game) (discards_remaining game))
                (blind_chips game) (sim_current_chips game) (hands_remaining game)
                HeuristicConfig_default w;
            Some (default first (first_untried scored play_actions), w)
        end
      else Some (first, w)
  end.

(** [_expand]: the new child is stored at the end of the store. *)
Definition _expand (t : list MCTSNode) (node : nat) (game : GameSimulator) (w : World)
    : option (list MCTSNode * nat * GameSimulator * World) :=
  let n := deref t node in
  match untried_actions n with
  | [] => Some (t, node, game, w)
  | _ =>
      '(a, w) ← _select_untried_action n game w;
      rest ← list_remove a (untried_actions n);
      let t := <[node := set_untried_actions n rest]> t in
      '(game, w) ← apply_action game a w;
      let child := mkMCTSNode (Some a) 0 0 0 (Some node) [] (get_legal_actions game) None in
      let child_ref := length t in
      let t := t ++ [child] in
      let n := deref t node in
      let t := <[node := set_children n (dict_set a child_ref (children n))]> t in
      Some (t, child_ref, game, w)
  end.

(** [_evaluate_terminal] *)
Definition _evaluate_terminal (cfg : MCTSConfig) (game : GameSimulator) : Q :=
  if is_won game then win_value cfg
  else
    let value := 0%Q in
    let value := Float.add value (Float.mul (Float.of_int (ante game)) (ante_value cfg)) in
    let blind_progress :=
      match blind_type game with SMALL => 0 | BIG => 1 | BOSS => 2 end in
    let value := Float.add value (Float.mul (Float.of_int blind_progress) (blind_value cfg)) in
    if Float.ltb (win_value cfg) value then win_value cfg else value.

(** The loop of [_simulate]; [n] is [max_rollout_depth - depth]. *)
Fixpoint simulate_loop (n : nat) (cfg : MCTSConfig) (game : GameSimulator) (w : World)
    : option (GameSimulator * World) :=
  match n with
  | O => Some (game, w)
  | S n' =>
      if is_game_over game then Some (game, w)
      else if use_heuristic_rollouts cfg then
        match phase game with
        | BLIND_SELECT => simulate_loop n' cfg (start_blind game).2 w
        | PLAYING =>
            '(best, w) ←
              get_best_play table (hand game) (jokers game)
                (GameState_of (hand_levels game) (discards_remaining game))
                (blind_chips game) (sim_current_chips game) (hands_remaining game) w;
            match best with
            | Some b =>
                '(_, game, w) ← play_hand table (sa_card_indices b) game w;
                simulate_loop n' cfg game w
            | None => Some (game, w)
            end
        | SHOP => simulate_loop n' cfg (end_shop game).2 w
        | GAME_OVER => simulate_loop n' cfg game w
        end
      else
        let actions := get_legal_actions game in
        match actions with
        | [] => Some (game, w)
        | _ =>
            let '(i, a) := random_choice (length actions) (amb w) in
            let w := mkWorld (heap w) a in
            chosen ← actions !! i;
            '(game, w) ← apply_action game chosen w;
            simulate_loop n' cfg game w
        end
  end.

(** [_simulate] *)
Definition _simulate (cfg : MCTSConfig) (game : GameSimulator) (w : World)
    : option (Q * GameSimulator * World) :=
  '(game, w) ← simulate_loop (Z.to_nat (max_rollout_depth cfg)) cfg game w;
  Some (_evaluate_terminal cfg game, game, w).

(** The body of the loop of [_backpropagate]. *)
Definition record_result (n : MCTSNode) (value : Q) (is_win : bool) : MCTSNode :=
  mkMCTSNode (action n) (visits n + 1) (Float.add (total_value n) value)
    (if is_win then wins n + 1 else wins n) (parent n) (children n)
    (untried_actions n) (_game_state n).

(** [_backpropagate]: the loop follows [parent] references; [fuel] bounds
    the number of its rounds. *)
Fixpoint _backpropagate (fuel : nat) (t : list MCTSNode) (node : option nat) (value : Q)
    (is_win : bool) : option (list MCTSNode) :=
  match node with
  | None => Some t
  | Some i =>
      match fuel with
      | O => None
      | S fuel' =>
          let n := deref t i in
          _backpropagate fuel' (<[i := record_result n value is_win]> t) (parent n)
            value is_win
      end
  end.

(** One round of the loop of [search]. *)
Definition iteration (game : GameSimulator) (m : MCTS) (w : World) : option (MCTS * World) :=
  let iterations := iterations m + 1 in
  node ← root m;
  let '(sim_game, w) := clone game w in
  '(t, node, sim_game, w) ←
    _select (length (nodes m)) (config m) (nodes m) node sim_game w;
  '(t, node, sim_game, w) ←
    (if negb (is_terminal (deref t node))
        && negb (bool_decide (untried_actions (deref t node) = []))
     then _expand t node sim_game w
     else Some (t, node, sim_game, w));
  '(value, sim_game, w) ← _simulate (config m) sim_game w;
  let total_rollouts := total_rollouts m + 1 in
  t ← _backpropagate (length t) t (Some node) value (is_won sim_game);
  Some (mkMCTS (config m) (root m) t iterations total_rollouts, w).

(** The loop of [search]; it makes at most [max_iterations] rounds, which
    bounds [fuel]. *)
Fixpoint search_loop (fuel : nat) (start_time : Q) (game : GameSimulator) (m : MCTS)
    (w : World) : option (MCTS * World) :=
  let '(continue, w) := _should_continue m start_time w in
  if continue then
    match fuel with
    | O => None
    | S fuel' =>
        '(m, w) ← iteration game m w;
        search_loop fuel' start_time game m w
    end
  else Some (m, w).

(** [search] *)
Definition search (m : MCTS) (game : GameSimulator) (w : World)
    : option (option MCTSAction * MCTS * World) :=
  let '(cloned, w) := clone game w in
  let root_node :=
    mkMCTSNode None 0 0 0 None [] (get_legal_actions game) (Some cloned) in
  let m := mkMCTS (config m) (Some 0%nat) [root_node] (iterations m) (total_rollouts m) in
  match untried_actions root_node with
  | [] => Some (None, m, w)
  | _ =>
      let '(start_time, a) := time_time (amb w) in
      let w := mkWorld (heap w) a in
      let m := mkMCTS (config m) (root m) (nodes m) 0 (total_rollouts m) in
      '(m, w) ← search_loop (Z.to_nat (max_iterations (config m))) start_time game m w;
      Some (best_action (nodes m) (deref (nodes m) 0), m, w)
  end.

End Mcts.

End Mcts.


(** ** [hand_evaluation.py]: the best five cards *)

(** [_compare_hands]; [HandType] is an [IntEnum], so the difference of two
    hand types is the difference of their values. *)
Definition _compare_hands (a b : HandResult) : Z :=
  if bool_decide (hand_type a <> hand_type b)
  then hand_type_value (hand_type a) - hand_type_value (hand_type b)
  else base_score a - base_score b.

(** The loop of [find_best_hand] over the five-card combinations;
    [best] is the pair [best_cards], [best_result], [None] while
    [best_result] is [None].  The outer [None] is an error raised by
    [evaluate_hand]. *)
Fixpoint find_best_loop (combos : list (list Card))
    (best : option (list Card * HandResult)) : option (option (list Card * HandResult)) :=
  match combos with
  | [] => Some best
  | combo :: rest =>
      result ← evaluate_hand combo 1;
      match best with
      | None => find_best_loop rest (Some (combo, result))
      | Some (_, best_result) =>
          if 0 <? _compare_hands result best_result
          then find_best_loop rest (Some (combo, result))
          else find_best_loop rest best
      end
  end.

(** [find_best_hand]; [None] is a raised [ValueError] or the failed
    [assert best_result is not None]. *)
Definition find_best_hand (cards : list Card) : option (list Card * HandResult) :=
  if Py.len cards <=? 5 then
    r ← evaluate_hand cards 1; Some (cards, r)
  else
    best ← find_best_loop (Py.combinations cards 5) None;
    best.


(** ** [deck_tracker.py]: the rank queries *)

(** [get_rank_distribution] *)
Definition get_rank_distribution (ds : DeckState) : list (Rank * Z) * DeckState :=
  let ds := if _dirty ds then _update_counts ds else ds in
  (_rank_counts ds, ds).

(** [sum(self.rank_count(r) for r in ranks)]: every term is a call of
    [rank_count], which may refresh the cached counters. *)
Fixpoint sum_rank_counts (ranks : list Rank) (acc : Z) (ds : DeckState) : Z * DeckState :=
  match ranks with
  | [] => (acc, ds)
  | r :: rest => let '(n, ds) := rank_count r ds in sum_rank_counts rest (acc + n) ds
  end.

(** [get_high_card_count]: a sum over a set of five ranks, taken here in the
    order of their values.  The terms are integers and only the first call
    of [rank_count] can refresh the cache, so the order of the visit does
    not matter. *)
Definition get_high_card_count (ds : DeckState) : Z * DeckState :=
  sum_rank_counts [TEN; JACK; QUEEN; KING; ACE] 0 ds.

(** [get_face_card_count] *)
Definition get_face_card_count (ds : DeckState) : Z * DeckState :=
  sum_rank_counts [JACK; QUEEN; KING] 0 ds.


(** ** [heuristics.py]: [HeuristicPlayer] *)

(** [HeuristicPlayer.stats] *)
Record PlayerStats := mkPlayerStats {
  games_played : Z;
  games_won : Z;
  total_antes : Z;
  hands_played : Z;
  discards_used : Z;
}.

Definition add_hand_played (s : PlayerStats) : PlayerStats :=
  mkPlayerStats (games_played s) (games_won s) (total_antes s) (hands_played s + 1)
    (discards_used s).

Definition add_discard_used (s : PlayerStats) : PlayerStats :=
  mkPlayerStats (games_played s) (games_won s) (total_antes s) (hands_played s)
    (discards_used s + 1).

Section HeuristicPlayer.

Context `{RandomLib}.

Variable table : gmap string Calculator.

(** [HeuristicPlayer.play_blind]: the [while] loop runs on [fuel]; [None] is
    an exception of the scorer or the end of the fuel. *)
Fixpoint play_blind (fuel : nat) (game : GameSimulator) (stats : PlayerStats) (w : World)
    : option (bool * GameSimulator * PlayerStats * World) :=
  match fuel with
  | O => None
  | S fuel' =>
      if negb (bool_decide (phase game = PLAYING)) then
        Some (blind_chips game <=? sim_current_chips game, game, stats, w)
      else
        let gs := GameState_of (hand_levels game) (discards_remaining game) in
        '((wants_discard, w) : bool * World) ←
          should_discard table (hand game) (jokers game) gs (blind_chips game)
            (sim_current_chips game) (hands_remaining game) (discards_remaining game)
            (Py.len (deck game)) w;
        if wants_discard then
          best_discard ← get_best_discard (hand game) (jokers game) gs (Py.len (deck game));
          match best_discard with
          | Some a =>
              let '(_, game, w) := discard (sa_card_indices a) game w in
              play_blind fuel' game (add_discard_used stats) w
          | None => play_blind fuel' game stats w
          end
        else
          '((best_play, w) : option ScoredAction * World) ←
            get_best_play table (hand game) (jokers game) gs (blind_chips game)
              (sim_current_chips game) (hands_remaining game) w;
          match best_play with
          | None => Some (blind_chips game <=? sim_current_chips game, game, stats, w)
          | Some a =>
              '((res, game, w) : ActionResult * GameSimulator * World) ←
                play_hand table (sa_card_indices a) game w;
              let stats := add_hand_played stats in
              if blind_beaten res then Some (true, game, stats, w)
              else if game_over res then Some (false, game, stats, w)
              else play_blind fuel' game stats w
          end
  end.

End HeuristicPlayer.

(** * Part II: verification *)

(** ** Sanity checks of the embedding *)

(** Hand evaluation on the scenarios of the test-suite. *)
Example evaluate_pair_of_aces :
  evaluate_hand [plain ACE SPADES; plain ACE HEARTS] 1
  = Some (mkHandResult PAIR [plain ACE SPADES; plain ACE HEARTS] 32 2).
Proof. reflexivity. Qed.

Example evaluate_diamond_flush :
  option_map (fun r => (hand_type r, base_chips r, base_mult r))
    (evaluate_hand [plain ACE DIAMONDS; plain KING DIAMONDS; plain QUEEN DIAMONDS;
                    plain JACK DIAMONDS; plain NINE DIAMONDS] 1)
  = Some (FLUSH, 85, 4).
Proof. reflexivity. Qed.

(** *** The scoring scenarios of the test-suite *)

Section ScoringExamples.

Import Lcg.

(** [calculate_score] on freshly created jokers, projected to its score. *)
Definition score_with (ids : list string) (played in_hand : list Card) : option (Q * Z) :=
  '(js, w) ← foldr (fun i acc =>
                     '(js, w) ← acc; '(j, w') ← create_joker i w; Some (js ++ [j], w'))
                   (Some ([], world0)) (rev ids);
  '(b, _) ← calculate_score JOKER_CALCULATORS played js GameState_default (Some in_hand) None w;
  Some (final_mult b, final_score b).

Example pair_base_score : score_with [] [AS; AH] [] = Some (2%Q, 64).
Proof. vm_compute. reflexivity. Qed.

Example joker_then_duo : score_with ["joker"; "the_duo"] [AS; AH] [] = Some (12%Q, 384).
Proof. vm_compute. reflexivity. Qed.

Example duo_then_joker : score_with ["the_duo"; "joker"] [AS; AH] [] = Some (8%Q, 256).
Proof. vm_compute. reflexivity. Qed.

Example red_seal_foil :
  score_with [] [mkCard ACE SPADES ENH_NONE FOIL RED] [] = Some (1%Q, 116).
Proof. vm_compute. reflexivity. Qed.

Example steel_in_hand :
  score_with [] [AS] [mkCard KING HEARTS STEEL BASE SEAL_NONE] = Some (3 # 2, 24).
Proof. vm_compute. reflexivity. Qed.

End ScoringExamples.

(** ** C10: hands made of Stone cards only *)

Section StoneHands.

Definition all_stone (cards : list Card) : Prop :=
  Forall (fun c => enhancement c = STONE) cards.

Lemma filter_stone_all cards :
  all_stone cards ->
  List.filter (fun c => bool_decide (enhancement c = STONE)) cards = cards.
Proof.
  induction 1 as [|c l Hc _ IH]; simpl; [done|].
  rewrite bool_decide_eq_true_2 by done. by rewrite IH.
Qed.

Lemma filter_normal_all_stone cards :
  all_stone cards ->
  List.filter (fun c => bool_decide (enhancement c <> STONE)) cards = [].
Proof.
  induction 1 as [|c l Hc _ IH]; simpl; [done|].
  rewrite bool_decide_eq_false_2; [done|]. intros Hne. by apply Hne.
Qed.

Lemma stone_chip_sum cards acc :
  all_stone cards ->
  fold_left (fun a c => a + card_chips c) cards acc = acc + 50 * Py.len cards.
Proof.
  intros H. revert acc. induction H as [|c l Hc _ IH]; intros acc; simpl.
  - unfold Py.len. simpl. lia.
  - rewrite IH. unfold card_chips. rewrite bool_decide_eq_true_2 by done.
    unfold Py.len. simpl length. lia.
Qed.

End StoneHands.

(** C10. A hand of one to five cards that are all Stone-enhanced is
    evaluated without error as a High Card whose scoring cards are exactly
    the played stone cards, with [base_chips = 5 * hand_level + 50] per
    stone card and [base_mult = 1 + (hand_level - 1)]: the high-card rule
    itself selects nothing, since no normal card is present. *)
Theorem evaluate_hand_all_stone (cards : list Card) (hand_level : Z) :
  cards <> [] ->
  (length cards <= 5)%nat ->
  all_stone cards ->
  evaluate_hand cards hand_level
  = Some (mkHandResult HIGH_CARD cards
            (hand_level * 5 + 50 * Py.len cards) (1 + (hand_level - 1)))
  /\ _identify_hand [] [] [] false false [] = (HIGH_CARD, []).
Proof.
  intros Hne Hlen Hst. split; [|reflexivity].
  unfold evaluate_hand. destruct cards as [|c0 cs]; [done|].
  replace (5 <? Py.len (c0 :: cs)) with false
    by (symmetry; apply Z.ltb_ge; unfold Py.len; lia).
  rewrite (filter_stone_all _ Hst), (filter_normal_all_stone _ Hst).
  match goal with
  | |- context [_identify_hand ?a ?b ?c ?d ?e ?f] =>
      change (_identify_hand a b c d e f) with (HIGH_CARD, @nil Card)
  end.
  cbv beta iota. simpl app. rewrite (stone_chip_sum _ _ Hst).
  f_equal. f_equal. change (ht_base_chips HIGH_CARD) with 5. lia.
Qed.

Lemma evaluate_hand_all_stone_witness :
  let cards := [mkCard KING HEARTS STONE BASE SEAL_NONE;
                mkCard TWO CLUBS STONE FOIL RED] in
  evaluate_hand cards 3 = Some (mkHandResult HIGH_CARD cards 115 3).
Proof.
  intros cards.
  refine (proj1 (evaluate_hand_all_stone cards 3 _ _ _)).
  - discriminate.
  - simpl; lia.
  - repeat constructor.
Defined.


(** ** C1: order sensitivity of the joker chain *)

Lemma int_of_float_comp x y : (x == y)%Q -> Py.int_of_float x = Py.int_of_float y.
Proof.
  intros E. unfold Py.int_of_float.
  rewrite (Qfloor_comp _ _ E), (Qceiling_comp _ _ E).
  assert (Qle_bool 0 x = Qle_bool 0 y) as ->; [|done].
  apply eq_true_iff_eq. rewrite !Qle_bool_iff. by rewrite E.
Qed.

Lemma Float_add_eq x y : (Float.add x y == x + y)%Q.
Proof. apply Qred_correct. Qed.
Lemma Float_mul_eq x y : (Float.mul x y == x * y)%Q.
Proof. apply Qred_correct. Qed.

Section OrderSensitivity.
Context `{RandomLib}.
Variable table : gmap string Calculator.

Definition synced (s : ChainState) : Prop :=
  current_chips (ch_ctx s) = ch_chips s /\ current_mult (ch_ctx s) = ch_mult s.

Lemma apply_joker_synced j s w :
  synced s -> synced (apply_joker table j s w).1.
Proof.
  intros Hs. unfold apply_joker.
  destruct (calculate_effect table j (ch_ctx s) w) as [e w'].
  destruct (JokerEffect_bool e); simpl; [split; reflexivity | exact Hs].
Qed.

Lemma joker_chain_synced js : forall s w,
  synced s -> synced (joker_chain table js s w).1.
Proof.
  induction js as [|j js IH]; intros s w Hs; simpl; [done|].
  pose proof (apply_joker_synced j s w Hs) as H1.
  destruct (apply_joker table j s w) as [s1 w1]. by apply IH.
Qed.

Variables (A B : JokerInstance) (a : Z) (m : Q).
Hypothesis A_adds : forall ctx w,
  (calculate_effect table A ctx w).1 = mkJokerEffect 0 a 1 0 0.
Hypothesis B_multiplies : forall ctx w,
  (calculate_effect table B ctx w).1 = mkJokerEffect 0 0 m 0 0.

Lemma apply_A s w :
  ch_chips (apply_joker table A s w).1 = ch_chips s /\
  (ch_mult (apply_joker table A s w).1 == ch_mult s + inject_Z a)%Q.
Proof.
  unfold apply_joker. pose proof (A_adds (ch_ctx s) w) as E.
  destruct (calculate_effect table A (ch_ctx s) w) as [e w']. simpl in E. subst e.
  unfold JokerEffect_bool. simpl.
  destruct (a =? 0) eqn:Ha; simpl.
  - apply Z.eqb_eq in Ha. subst a. split; [done|]. simpl. ring.
  - split; [done|]. apply Float_add_eq.
Qed.

Lemma apply_B s w :
  ch_chips (apply_joker table B s w).1 = ch_chips s /\
  (ch_mult (apply_joker table B s w).1 == ch_mult s * m)%Q.
Proof.
  unfold apply_joker. pose proof (B_multiplies (ch_ctx s) w) as E.
  destruct (calculate_effect table B (ch_ctx s) w) as [e w']. simpl in E. subst e.
  unfold JokerEffect_bool. simpl.
  destruct (Float.eqb m 1) eqn:Hm; simpl.
  - apply Qeq_bool_iff in Hm. split; [done|]. rewrite Hm. ring.
  - split; [done|]. apply Float_mul_eq.
Qed.


Lemma chain_two X Y s w :
  joker_chain table [X; Y] s w
  = apply_joker table Y (apply_joker table X s w).1 (apply_joker table X s w).2.
Proof.
  simpl. destruct (apply_joker table X s w) as [s1 w1]. simpl.
  by destruct (apply_joker table Y s1 w1).
Qed.

Lemma calculate_score_chain played jokers gs in_hand seed w r t effs dest :
  card_phase played gs (default [] in_hand) seed = Some (r, t, effs, dest) ->
  let ctx := mkScoringContext played (scoring_cards r) (default [] in_hand) r gs
               (total_chips t) (total_mult t) in
  let s0 := mkChainState (total_chips t) (total_mult t) [] ctx in
  let s := (joker_chain table jokers s0 w).1 in
  calculate_score table played jokers gs in_hand seed w
  = Some (mkScoringBreakdown (hand_type r) (base_chips r) (base_mult r)
            effs (ch_effects s) (total_money t) dest (ch_chips s) (ch_mult s)
            (Py.int_of_float (Float.mul (Float.of_int (ch_chips s)) (ch_mult s))),
          (joker_chain table jokers s0 w).2).
Proof.
  intros Hp ctx s0 s. unfold calculate_score. rewrite Hp. simpl.
  subst s. fold ctx. fold s0. by destruct (joker_chain table jokers s0 w).
Qed.


End OrderSensitivity.

Section OrderSensitivityExamples.

Import Lcg.

Definition two_jokers_world (d0 d1 : gmap string PyVal) : World :=
  mkWorld (<[1%nat := d1]> (<[0%nat := d0]> ∅)) (mkAmbient 2024 7 0).



End OrderSensitivityExamples.

(** ** C2: repeatability of [calculate_score] *)

Section Determinism.

(** The Misprint calculator reads the module-level generator, whatever seed
    was passed to [calculate_score]. *)
Lemma misprint_reads_ambient `{RandomLib} (j : JokerInstance) (ctx : ScoringContext)
    (w : World) :
  id j = "misprint" ->
  (calculate_effect JOKER_CALCULATORS j ctx w).1
  = mkJokerEffect 0 (random_randint 0 23 (amb w)).1 1 0 0.
Proof.
  intros Hid. unfold calculate_effect. rewrite Hid.
  change (JOKER_CALCULATORS !! "misprint") with (Some _misprint_effect).
  unfold _misprint_effect. by destruct (random_randint 0 23 (amb w)).
Qed.

Import Lcg.

Definition misprint_world : World := mkWorld {[ 0%nat := ∅ ]} (mkAmbient 2024 7 0).

(** C2 (failing input). Two successive calls of [calculate_score] with the
    same played card, the same Misprint joker (whose state dictionary is
    unchanged), the same levels and the same [rng_seed = 42] return
    different breakdowns: the joker contributes +12 Mult the first time and
    +13 the second, because it draws from the module-level generator. *)
Theorem calculate_score_misprint_not_repeatable :
  let j := mkJokerInstance JD_misprint 0%nat in
  let call := calculate_score JOKER_CALCULATORS [AS] [j] GameState_default None (Some 42) in
  ('(b1, w1) ← call misprint_world;
   '(b2, _) ← call w1;
   Some (bool_decide (heap w1 = heap misprint_world),
         joker_effects b1, final_score b1,
         joker_effects b2, final_score b2))
  = Some (true, [("Misprint", 0, 12, 1%Q)], 208, [("Misprint", 0, 13, 1%Q)], 224).
Proof. vm_compute. reflexivity. Qed.

End Determinism.

(** ** C4: [GameSimulator.clone] *)

Section Clone.

(** In general: unless [__post_init__] resets the copy, the cloned hand is
    the parent's hand with every card rebuilt from its rank and suit only. *)
Lemma clone_hand `{RandomLib} (g : GameSimulator) (w : World) :
  hand g <> [] ->
  hand (clone g w).1 = map (fun c => plain (rank c) (suit c)) (hand g).
Proof.
  intros Hne. unfold clone.
  destruct (copy_jokers (jokers g) w) as [js w1].
  destruct (Random_unseeded (amb w1)) as [r a].
  unfold __post_init__. simpl.
  destruct (hand g) as [|c0 h0]; [done|]. by destruct (map _ (deck g)).
Qed.

Import Lcg.

Definition glass_game : GameSimulator :=
  mkGameSimulator [KH] [mkCard ACE SPADES GLASS FOIL RED] [] [] 5 4 1 8 SMALL 4 3 0 300 8
    PLAYING default_hand_levels 99 (Some 1).

(** C4 (failing input). The parent holds a Glass, Foil, Red-seal Ace of
    Spades; the clone's hand holds a plain Ace of Spades. *)
Theorem clone_drops_card_modifiers :
  hand glass_game = [mkCard ACE SPADES GLASS FOIL RED]
  /\ hand (clone glass_game world0).1 = [mkCard ACE SPADES ENH_NONE BASE SEAL_NONE]
  /\ hand (clone glass_game world0).1 <> hand glass_game.
Proof.
  split; [reflexivity|]. split; [vm_compute; reflexivity|].
  vm_compute. intros E. discriminate E.
Qed.

End Clone.

(** ** C5: winning on the boss blind of the last ante *)

Section FinalBoss.

(** The fields that decide whether a run is over and won. *)
Definition progress `{RandomLib} (g : GameSimulator) : GamePhase * Z * Z * BlindType :=
  (phase g, ante g, max_ante g, blind_type g).

Lemma shuffle_deck_progress `{RandomLib} (g : GameSimulator) :
  progress (shuffle_deck g) = progress g.
Proof. unfold shuffle_deck. by destruct (rng_shuffle (deck g) (rng g)). Qed.

Lemma set_piles_progress `{RandomLib} (g : GameSimulator) (d h p : list Card) :
  progress (set_piles g d h p) = progress g.
Proof. reflexivity. Qed.

Lemma set_money_progress `{RandomLib} (g : GameSimulator) (m : Z) :
  progress (set_money g m) = progress g.
Proof. reflexivity. Qed.

(** In general: on the boss blind with [ante = max_ante] the handler
    reports a win and ends the run, yet leaves [ante] where it was, so that
    [is_won], which asks for [ante > max_ante], is false. *)
Lemma _handle_blind_beaten_last_ante `{RandomLib} (g : GameSimulator)
    (b : ScoringBreakdown) :
  blind_type g = BOSS ->
  ante g = max_ante g ->
  won (_handle_blind_beaten g b).1 = true
  /\ phase (_handle_blind_beaten g b).2 = GAME_OVER
  /\ is_won (_handle_blind_beaten g b).2 = false.
Proof.
  intros Hb Ha. unfold _handle_blind_beaten.
  set (g1 := shuffle_deck _).
  assert (Hp : progress g1 = progress g).
  { subst g1. rewrite shuffle_deck_progress, set_piles_progress.
    unfold _reshuffle_played.
    by rewrite shuffle_deck_progress, set_piles_progress, set_money_progress. }
  unfold progress in Hp. injection Hp as _ Ha1 Hm1 Hb1.
  rewrite Hb1, Hb, bool_decide_eq_true_2 by done.
  replace (max_ante g1 <=? ante g1) with true by (symmetry; apply Z.leb_le; lia).
  cbn [andb fst snd won]. unfold is_won. cbn [phase ante max_ante set_phase set_progress].
  replace (max_ante g1 <? ante g1) with false by (symmetry; apply Z.ltb_ge; lia).
  rewrite andb_false_r. done.
Qed.

Import Lcg.

Definition boss_game : GameSimulator :=
  mkGameSimulator [KH; S2] [AS; AH] [] [] 5 4 8 8 BOSS 1 3 9000 9050 8 PLAYING
    default_hand_levels 99 (Some 1).

(** C5 (failing input). On the boss blind of ante 8 = [max_ante], with 9000
    of 9050 chips, playing the pair of Aces scores 64 and beats the blind.
    The result carries [won = true] and the simulator is in [GAME_OVER],
    but [is_won] is false in the resulting state. *)
Theorem final_boss_win_not_is_won :
  (fun '(res, g, _) =>
     (score res, blind_beaten res, won res, phase g, ante g, max_ante g, is_won g))
    <$> play_hand JOKER_CALCULATORS [0; 1] boss_game world0
  = Some (64, true, true, GAME_OVER, 8, 8, false).
Proof. vm_compute. reflexivity. Qed.

End FinalBoss.

(** ** C6: conservation of the tracked deck *)

Section DeckConservation.

(** The (rank, suit) composition of the three piles of a tracker. *)
Definition composition (ds : DeckState) : list (Rank * Suit) :=
  map card_key (remaining_cards ds ++ cards_played ds ++ cards_discarded ds).

Definition standard_composition : list (Rank * Suit) :=
  map card_key create_standard_deck.

Definition conserved (ds : DeckState) : Prop :=
  Permutation (composition ds) standard_composition.

(** Sequences of tracker operations. *)
Inductive DeckOp :=
  | RemoveCard (card : Card) (played : bool)
  | RemoveCards (cards : list Card) (played : bool)
  | Reset.

Definition run_op (ds : DeckState) (op : DeckOp) : DeckState :=
  match op with
  | RemoveCard card played => (remove_card card played ds).2
  | RemoveCards cards played => (remove_cards cards played ds).2
  | Reset => deck_reset ds
  end.

Definition run_ops (ops : list DeckOp) (ds : DeckState) : DeckState :=
  fold_left run_op ops ds.

Lemma same_card_key card c : same_card card c = true <-> card_key c = card_key card.
Proof.
  unfold same_card, card_key. rewrite andb_true_iff, !bool_decide_eq_true.
  split; [intros [-> ->]; done | intros [= -> ->]; done].
Qed.

Lemma pop_first_Some card l rest :
  pop_first card l = Some rest ->
  exists l1 c l2, l = l1 ++ c :: l2 /\ card_key c = card_key card
    /\ Forall (fun x => card_key x <> card_key card) l1 /\ rest = l1 ++ l2.
Proof.
  revert rest. induction l as [|c l IH]; intros rest; simpl; [done|].
  destruct (same_card card c) eqn:E.
  - intros [= <-]. exists [], c, l. repeat split; [by apply same_card_key | constructor].
  - destruct (pop_first card l) as [rest'|]; [|done]. intros [= <-].
    destruct (IH rest' eq_refl) as (l1 & c' & l2 & -> & Hk & Hl1 & ->).
    exists (c :: l1), c', l2. repeat split; [done|].
    constructor; [|done]. intros Hk'. apply same_card_key in Hk'. congruence.
Qed.

Lemma pop_first_None card l :
  pop_first card l = None -> Forall (fun x => card_key x <> card_key card) l.
Proof.
  induction l as [|c l IH]; simpl; [constructor|].
  destruct (same_card card c) eqn:E; [done|].
  destruct (pop_first card l); [done|]. intros _. constructor; [|by apply IH].
  intros Hk. apply same_card_key in Hk. congruence.
Qed.

Lemma remove_card_conserved card played ds :
  conserved ds -> conserved (remove_card card played ds).2.
Proof.
  unfold conserved, composition, remove_card. intros Hc.
  destruct (pop_first card (remaining_cards ds)) as [rest|] eqn:E; [|done].
  destruct (pop_first_Some _ _ _ E) as (l1 & c & l2 & Hr & Hk & _ & ->).
  simpl. rewrite <- Hc, Hr. rewrite !map_app. simpl. rewrite Hk.
  destruct played; rewrite ?map_app; simpl; solve_Permutation.
Qed.

Lemma remove_cards_from_conserved cards played : forall n ds,
  conserved ds -> conserved (remove_cards_from cards played n ds).2.
Proof.
  induction cards as [|card rest IH]; intros n ds Hc; simpl; [done|].
  pose proof (remove_card_conserved card played ds Hc) as H1.
  destruct (remove_card card played ds) as [ok ds']. by apply IH.
Qed.

Lemma deck_reset_conserved ds : conserved (deck_reset ds).
Proof.
  unfold conserved, composition, deck_reset.
  cbn [remaining_cards cards_played cards_discarded]. by rewrite !app_nil_r.
Qed.

Lemma DeckState_default_conserved : conserved DeckState_default.
Proof.
  unfold conserved, composition.
  change (remaining_cards DeckState_default) with create_standard_deck.
  change (cards_played DeckState_default) with (@nil Card).
  change (cards_discarded DeckState_default) with (@nil Card).
  by rewrite !app_nil_r.
Qed.

Lemma run_op_conserved op ds : conserved ds -> conserved (run_op ds op).
Proof.
  destruct op; simpl; intros Hc.
  - by apply remove_card_conserved.
  - by apply remove_cards_from_conserved.
  - apply deck_reset_conserved.
Qed.

Lemma run_ops_conserved ops : forall ds, conserved ds -> conserved (run_ops ops ds).
Proof.
  induction ops as [|op ops IH]; intros ds Hc; simpl; [done|].
  by apply IH, run_op_conserved.
Qed.

(** Every (rank, suit) pair occurs in the standard deck, exactly once. *)
Lemma standard_composition_complete k : k ∈ standard_composition.
Proof.
  destruct k as [r s]. apply list_elem_of_In.
  destruct r, s; vm_compute; tauto.
Qed.

Lemma standard_composition_NoDup : NoDup standard_composition.
Proof. apply (bool_decide_unpack (NoDup standard_composition)). vm_compute. exact I. Qed.

Lemma standard_deck_length : length create_standard_deck = 52%nat.
Proof. reflexivity. Qed.


Lemma map_key_filter (f : Rank * Suit -> bool) (l : list Card) :
  map card_key (List.filter (fun c => f (card_key c)) l)
  = List.filter f (map card_key l).
Proof.
  induction l as [|c l IH]; simpl; [done|].
  destruct (f (card_key c)); simpl; by rewrite IH.
Qed.

Lemma unseen_keys (seen : list (Rank * Suit)) :
  NoDup seen ->
  Permutation
    (List.filter (fun k => negb (bool_decide (k ∈ seen))) standard_composition ++ seen)
    standard_composition.
Proof.
  intros Hseen. apply NoDup_Permutation.
  - apply NoDup_app. split; [|split; [|done]].
    + apply NoDup_ListNoDup, List.NoDup_filter, NoDup_ListNoDup, standard_composition_NoDup.
    + intros k Hk Hin. apply list_elem_of_In, filter_In in Hk as [_ Hk].
      apply negb_true_iff, bool_decide_eq_false in Hk. done.
  - apply standard_composition_NoDup.
  - intros k. split; [intros _; apply standard_composition_complete|].
    intros Hk. rewrite elem_of_app.
    destruct (decide (k ∈ seen)) as [Hin|Hnin]; [by right|left].
    apply list_elem_of_In, filter_In. split; [by apply list_elem_of_In|].
    apply negb_true_iff, bool_decide_eq_false. done.
Qed.

Lemma from_known_cards_composition (in_hand : list Card)
    (played discarded : option (list Card)) :
  NoDup (map card_key (in_hand ++ default [] played ++ default [] discarded)) ->
  (length in_hand < 52)%nat ->
  Permutation
    (composition (from_known_cards in_hand played discarded) ++ map card_key in_hand)
    standard_composition.
Proof.
  intros Hnd Hlen. unfold from_known_cards.
  set (p := default [] played) in *. set (d := default [] discarded) in *.
  set (seen := map card_key in_hand ++ map card_key p ++ map card_key d).
  assert (Hseen : NoDup seen) by (subst seen; by rewrite <- !map_app).
  set (remaining := List.filter _ create_standard_deck).
  assert (Hrem : map card_key remaining
                 = List.filter (fun k => negb (bool_decide (k ∈ seen))) standard_composition).
  { subst remaining. unfold standard_composition. by rewrite <- map_key_filter. }
  pose proof (unseen_keys seen Hseen) as Hperm. rewrite <- Hrem in Hperm.
  assert (Hinit : remaining_cards (DeckState_init remaining p d) = remaining).
  { unfold DeckState_init. simpl.
    destruct remaining as [|c r] eqn:Er; [|done].
    destruct p as [|? ?]; [|done]. destruct d as [|? ?]; [|done].
    exfalso. simpl in Hperm. subst seen. simpl in Hperm. rewrite app_nil_r in Hperm.
    apply Permutation_length in Hperm. rewrite length_map in Hperm.
    unfold standard_composition in Hperm. rewrite length_map, standard_deck_length in Hperm.
    lia. }
  unfold composition. rewrite Hinit.
  change (cards_played (DeckState_init remaining p d)) with p.
  change (cards_discarded (DeckState_init remaining p d)) with d.
  rewrite <- Hperm. subst seen. rewrite !map_app. solve_Permutation.
Qed.


(** C6 (as amended). Counting cards by rank and suit: a tracker built by
    [DeckState()] or put back by [reset], and then driven by any sequence of
    [remove_card], [remove_cards] and [reset], always has
    [remaining + played + discarded] equal to the standard 52-card deck, and
    every such operation preserves that equality. [remove_card] pops the
    first remaining card with the argument's rank and suit, appends the
    argument card to the designated pile and returns true; when no card
    matches it returns false and leaves the tracker unchanged.
    [from_known_cards] keeps the cards in hand out of all three piles: when
    the known cards are pairwise distinct and fewer than 52 are in hand, the
    three piles together with the hand make up the standard deck. *)
Theorem deck_tracker_conservation :
  (forall ops ds0,
     conserved (run_ops ops DeckState_default)
     /\ conserved (run_ops ops (deck_reset ds0)))
  /\ (forall ops ds, conserved ds -> conserved (run_ops ops ds))
  /\ (forall ds card played,
        let '(ok, ds') := remove_card card played ds in
        if ok then
          exists l1 c l2,
            remaining_cards ds = l1 ++ c :: l2
            /\ card_key c = card_key card
            /\ Forall (fun x => card_key x <> card_key card) l1
            /\ remaining_cards ds' = l1 ++ l2
            /\ cards_played ds'
               = (if played then cards_played ds ++ [card] else cards_played ds)
            /\ cards_discarded ds'
               = (if played then cards_discarded ds else cards_discarded ds ++ [card])
        else
          ds' = ds
          /\ Forall (fun x => card_key x <> card_key card) (remaining_cards ds))
  /\ (forall in_hand played discarded,
        NoDup (map card_key (in_hand ++ default [] played ++ default [] discarded)) ->
        (length in_hand < 52)%nat ->
        Permutation
          (composition (from_known_cards in_hand played discarded)
           ++ map card_key in_hand)
          standard_composition).
Proof.
  split; [|split; [|split]].
  - intros ops ds0. split; apply run_ops_conserved.
    + apply DeckState_default_conserved.
    + apply deck_reset_conserved.
  - intros ops ds. apply run_ops_conserved.
  - intros ds card played. unfold remove_card.
    destruct (pop_first card (remaining_cards ds)) as [rest|] eqn:E.
    + destruct (pop_first_Some _ _ _ E) as (l1 & c & l2 & Hr & Hk & Hl1 & ->).
      exists l1, c, l2. by destruct played.
    + split; [done|]. by apply pop_first_None.
  - apply from_known_cards_composition.
Qed.

Lemma deck_tracker_conservation_witness :
  let glass_ace := mkCard ACE SPADES GLASS BASE SEAL_NONE in
  let ops := [RemoveCard AS true; RemoveCards [KH; KH; S2] false; Reset;
              RemoveCard glass_ace false] in
  conserved (run_ops ops (run_ops [RemoveCard KH true] DeckState_default))
  /\ Permutation
       (composition (from_known_cards [AS; KH] (Some [S2]) None)
        ++ map card_key [AS; KH])
       standard_composition.
Proof.
  intros glass_ace ops. split.
  - apply (proj1 (proj2 deck_tracker_conservation) ops).
    apply (proj1 (proj1 deck_tracker_conservation [RemoveCard KH true] DeckState_default)).
  - apply (proj2 (proj2 (proj2 deck_tracker_conservation))).
    + apply (bool_decide_unpack _). vm_compute. exact I.
    + simpl. lia.
Defined.

(** A tracker built from a one-card hand holds 51 cards in its three
    piles: the Ace of Spades in hand is in none of them. *)
Lemma from_known_cards_drops_the_hand :
  Py.len (remaining_cards (from_known_cards [AS] None None)
          ++ cards_played (from_known_cards [AS] None None)
          ++ cards_discarded (from_known_cards [AS] None None)) = 51
  /\ ~ Permutation (composition (from_known_cards [AS] None None)) standard_composition.
Proof.
  split; [reflexivity|]. intros Hp. apply Permutation_length in Hp.
  vm_compute in Hp. discriminate Hp.
Qed.

End DeckConservation.

(** ** C7: per-suit flush completion *)

Section FlushCompletion.

(** Cards whose printed suit is [s]; enhancements play no part. *)
Definition count_suit (s : Suit) (l : list Card) : Z :=
  Py.count_if (fun c => bool_decide (suit c = s)) l.

(** The cached counters are either stale and flagged, or up to date. *)
Definition cache_ok (ds : DeckState) : Prop :=
  _dirty ds = false ->
  _suit_counts ds = Py.Counter (map suit (remaining_cards ds)).

Lemma counter_get_add {K} `{EqDecision K} (k k' : K) (c : list (K * Z)) :
  Py.counter_get k (Py.counter_add k' c)
  = Py.counter_get k c + (if decide (k = k') then 1 else 0).
Proof.
  induction c as [|[k0 n] c IH]; simpl.
  - destruct (decide (k = k')); lia.
  - destruct (decide (k' = k0)) as [->|Hne]; simpl.
    + destruct (decide (k = k0)); lia.
    + destruct (decide (k = k0)) as [->|Hne'].
      * rewrite decide_False by done. lia.
      * apply IH.
Qed.

Lemma counter_get_fold {K} `{EqDecision K} (k : K) (l : list K) : forall c,
  Py.counter_get k (fold_left (fun c x => Py.counter_add x c) l c)
  = Py.counter_get k c + Py.len (List.filter (fun x => bool_decide (x = k)) l).
Proof.
  induction l as [|x l IH]; intros c; simpl.
  - unfold Py.len. simpl. lia.
  - rewrite IH, counter_get_add. unfold Py.len.
    destruct (decide (k = x)) as [->|Hne].
    + rewrite bool_decide_eq_true_2 by done. simpl length. lia.
    + rewrite bool_decide_eq_false_2 by congruence. lia.
Qed.

Lemma counter_get_suits (s : Suit) (l : list Card) :
  Py.counter_get s (Py.Counter (map suit l)) = count_suit s l.
Proof.
  unfold Py.Counter. rewrite counter_get_fold.
  unfold count_suit, Py.count_if, Py.len. cbn [Py.counter_get].
  rewrite Z.add_0_l. do 2 f_equal.
  induction l as [|c l IH]; simpl; [done|].
  destruct (bool_decide (suit c = s)); simpl; by rewrite IH.
Qed.

Lemma count_suit_bounds s l : 0 <= count_suit s l <= Py.len l.
Proof.
  unfold count_suit, Py.count_if, Py.len. split; [lia|].
  apply inj_le, filter_length_le.
Qed.

(** Two trackers with the same three piles (their caches may differ). *)
Definition same_piles (ds ds' : DeckState) : Prop :=
  remaining_cards ds' = remaining_cards ds
  /\ cards_played ds' = cards_played ds
  /\ cards_discarded ds' = cards_discarded ds.

Lemma suit_count_spec s ds :
  cache_ok ds ->
  (suit_count s ds).1 = count_suit s (remaining_cards ds)
  /\ same_piles ds (suit_count s ds).2
  /\ cache_ok (suit_count s ds).2.
Proof.
  intros Hc. unfold suit_count, same_piles. destruct (_dirty ds) eqn:Ed; simpl.
  - split; [apply counter_get_suits|]. split; [done|]. intros _. done.
  - split; [|done]. rewrite (Hc Ed). apply counter_get_suits.
Qed.

Lemma comb_total n k : 0 <= n -> 0 <= k -> is_Some (comb n k).
Proof.
  intros Hn Hk. unfold comb.
  replace (n <? 0) with false by (symmetry; apply Z.ltb_ge; lia).
  replace (k <? 0) with false by (symmetry; apply Z.ltb_ge; lia).
  simpl. destruct (n <? k); eauto.
Qed.

Lemma hypergeometric_pmf_total K N n i :
  0 <= K <= N -> 0 <= i -> is_Some (hypergeometric_pmf K N n i).
Proof.
  intros HK Hi. unfold hypergeometric_pmf.
  destruct (N <? n) eqn:E1; [eauto|]. destruct (K <? i) eqn:E2; [eauto|].
  destruct (n <? i) eqn:E3; [eauto|]. destruct (N - K <? n - i) eqn:E4; [eauto|].
  apply Z.ltb_ge in E1, E2, E3, E4.
  destruct (comb_total K i) as [c1 ->]; [lia..|].
  destruct (comb_total (N - K) (n - i)) as [c2 ->]; [lia..|].
  destruct (comb_total N n) as [c3 ->]; [lia..|].
  simpl. destruct (c3 =? 0); eauto.
Qed.

Lemma sum_range_total f idx : forall acc,
  (forall i, i ∈ idx -> is_Some (f (Z.of_nat i))) ->
  is_Some (sum_range f idx acc).
Proof.
  induction idx as [|i idx IH]; intros acc Hf; simpl; [eauto|].
  destruct (Hf i) as [x ->]; [left|]. simpl. apply IH.
  intros j Hj. apply Hf. by right.
Qed.

Lemma hypergeometric_cdf_at_least_total K N n k :
  0 <= K <= N -> is_Some (hypergeometric_cdf_at_least K N n k).
Proof.
  intros HK. unfold hypergeometric_cdf_at_least. destruct (k <=? 0); [eauto|].
  destruct (sum_range_total (hypergeometric_pmf K N n) (seq 0 (Z.to_nat k)) 0%Q)
    as [x ->]; [|simpl; eauto].
  intros i _. apply hypergeometric_pmf_total; lia.
Qed.


(** The value the loop body computes for suit [s], stated on counts. *)
Definition flush_value (in_hand remaining : list Card) (draws : Z) (s : Suit) : option Q :=
  let needed := Z.max 0 (5 - count_suit s in_hand) in
  if needed =? 0 then Some 1%Q
  else if draws <? needed then Some 0%Q
  else hypergeometric_cdf_at_least (count_suit s remaining) (Py.len remaining) draws needed.

Lemma flush_value_total in_hand remaining draws s :
  is_Some (flush_value in_hand remaining draws s).
Proof.
  unfold flush_value. destruct (_ =? 0); [eauto|]. destruct (draws <? _); [eauto|].
  apply hypergeometric_cdf_at_least_total, count_suit_bounds.
Qed.

Lemma flush_for_suit_spec in_hand draws s ds :
  cache_ok ds ->
  exists p ds',
    flush_for_suit (Py.Counter (map suit in_hand)) (total_remaining ds) draws s ds
      = Some (p, ds')
    /\ flush_value in_hand (remaining_cards ds) draws s = Some p
    /\ same_piles ds ds'
    /\ cache_ok ds'.
Proof.
  intros Hc. unfold flush_for_suit, flush_value. rewrite counter_get_suits.
  destruct (_ =? 0); [by exists 1%Q, ds|].
  destruct (draws <? _); [by exists 0%Q, ds|].
  destruct (suit_count_spec s ds Hc) as (E1 & E2 & E3).
  destruct (suit_count s ds) as [n ds1]. simpl in E1, E2, E3. subst n.
  unfold total_remaining.
  destruct (hypergeometric_cdf_at_least_total (count_suit s (remaining_cards ds))
              (Py.len (remaining_cards ds)) draws (Z.max 0 (5 - count_suit s in_hand))
              (count_suit_bounds _ _)) as [p Hp].
  rewrite Hp. simpl. by exists p, ds1.
Qed.

Lemma flush_loop_spec in_hand draws ds0 suits : forall results ds,
  cache_ok ds -> same_piles ds0 ds ->
  exists vs ds',
    flush_loop (Py.Counter (map suit in_hand)) (total_remaining ds0) draws suits results ds
      = Some (results ++ zip suits vs, ds')
    /\ Forall2 (fun s p => flush_value in_hand (remaining_cards ds0) draws s = Some p)
         suits vs
    /\ same_piles ds0 ds'.
Proof.
  induction suits as [|s suits IH]; intros results ds Hc Hp; simpl.
  - exists [], ds. rewrite app_nil_r. split; [done|]. split; [constructor|done].
  - assert (Et : total_remaining ds0 = total_remaining ds)
      by (unfold total_remaining; destruct Hp as (-> & _); done).
    rewrite Et.
    destruct (flush_for_suit_spec in_hand draws s ds Hc) as (p & ds1 & -> & Hv & Hp1 & Hc1).
    simpl. rewrite <- Et.
    assert (Hp01 : same_piles ds0 ds1).
    { destruct Hp as (A1 & A2 & A3), Hp1 as (B1 & B2 & B3).
      unfold same_piles. by rewrite B1, B2, B3. }
    destruct (IH (results ++ [(s, p)]) ds1 Hc1 Hp01) as (vs & ds' & -> & Hvs & Hp').
    exists (p :: vs), ds'. rewrite <- app_assoc. simpl.
    split; [done|]. split; [|done].
    constructor; [|done]. destruct Hp as (<- & _). done.
Qed.


(** Four hearts and a Wild Two of Spades, one draw from the 47 unseen cards. *)
Definition four_hearts_and_wild : list Card :=
  [AH; KH; plain QUEEN HEARTS; plain JACK HEARTS;
   mkCard TWO SPADES WILD BASE SEAL_NONE].



End FlushCompletion.

(** ** C8: when [should_discard] answers true *)

Section ShouldDiscard.

(** No selection of one to five cards of the hand evaluates above a Pair. *)
Definition no_better_than_pair (in_hand : list Card) : Prop :=
  forall combo r,
    combo ∈ card_combinations in_hand ->
    evaluate_hand combo 1 = Some r ->
    hand_type_value (hand_type r) <= hand_type_value PAIR.

Lemma evaluate_hand_nonempty cards level r :
  evaluate_hand cards level = Some r -> cards <> [].
Proof. by destruct cards. Qed.

Lemma best_hand_scan_spec combos : forall bt bc rt rc,
  (bc <> [] \/ bt = HIGH_CARD) ->
  best_hand_scan combos bt bc = Some (rt, rc) ->
  (rc <> [] \/ rt = HIGH_CARD)
  /\ hand_type_value bt <= hand_type_value rt
  /\ forall combo r,
       combo ∈ combos -> evaluate_hand combo 1 = Some r ->
       hand_type_value (hand_type r) <= hand_type_value rt.
Proof.
  induction combos as [|combo rest IH]; intros bt bc rt rc Hinv; simpl.
  - intros [= <- <-]. split; [done|]. split; [lia|]. intros combo r Hin. by inversion Hin.
  - destruct (evaluate_hand combo 1) as [r0|] eqn:E0; simpl; [|done].
    destruct (hand_type_value bt <? hand_type_value (hand_type r0)) eqn:Elt; intros Hscan.
    + apply Z.ltb_lt in Elt.
      destruct (IH (hand_type r0) combo rt rc) as (I1 & I2 & I3); [|done|].
      { left. by eapply evaluate_hand_nonempty. }
      split; [done|]. split; [lia|]. intros c r Hin Hr.
      apply elem_of_cons in Hin as [->|Hin]; [|by eapply I3].
      rewrite E0 in Hr. injection Hr as <-. done.
    + apply Z.ltb_ge in Elt.
      destruct (IH bt bc rt rc Hinv Hscan) as (I1 & I2 & I3).
      split; [done|]. split; [done|]. intros c r Hin Hr.
      apply elem_of_cons in Hin as [->|Hin]; [|by eapply I3].
      rewrite E0 in Hr. injection Hr as <-. lia.
Qed.

Lemma find_best_None in_hand :
  _find_best_hand_in_cards in_hand = Some None ->
  forall combo r,
    combo ∈ card_combinations in_hand -> evaluate_hand combo 1 = Some r ->
    hand_type r = HIGH_CARD.
Proof.
  unfold _find_best_hand_in_cards. destruct in_hand as [|c0 cs].
  - intros _ combo r Hin. by inversion Hin.
  - destruct (best_hand_scan _ HIGH_CARD []) as [[rt rc]|] eqn:E; simpl; [|done].
    destruct rc; [|done]. intros _ combo r Hin Hr.
    destruct (best_hand_scan_spec _ _ _ _ _ (or_intror eq_refl) E) as ([?| ->] & _ & I3);
      [done|].
    specialize (I3 combo r Hin Hr). simpl in I3.
    destruct (hand_type r); simpl in I3; try lia. done.
Qed.

Lemma find_best_Some in_hand t cs :
  _find_best_hand_in_cards in_hand = Some (Some (t, cs)) ->
  forall combo r,
    combo ∈ card_combinations in_hand -> evaluate_hand combo 1 = Some r ->
    hand_type_value (hand_type r) <= hand_type_value t.
Proof.
  unfold _find_best_hand_in_cards. destruct in_hand as [|c0 cs0]; [done|].
  destruct (best_hand_scan _ HIGH_CARD []) as [[rt rc]|] eqn:E; simpl; [|done].
  destruct rc; [done|]. intros [= <- <-] combo r Hin Hr.
  destruct (best_hand_scan_spec _ _ _ _ _ (or_intror eq_refl) E) as (_ & _ & I3).
  by eapply I3.
Qed.

Context `{RandomLib}.

Variable table : gmap string Calculator.

Lemma should_discard_true_inv (in_hand : list Card)
    (jokers : list JokerInstance) (gs : GameState)
    (blind current hands_left discards_left deck_remaining : Z) (w w' : World) :
  should_discard table in_hand jokers gs blind current hands_left discards_left
    deck_remaining w = Some (true, w') ->
  0 < discards_left
  /\ 1 < hands_left
  /\ exists best_play,
       get_best_play table in_hand jokers gs blind current hands_left w
         = Some (Some best_play, w')
       /\ sa_is_lethal best_play = false
       /\ no_better_than_pair in_hand
       /\ (_find_best_hand_in_cards in_hand = Some None
           \/ exists best_discard,
                get_best_discard in_hand jokers gs deck_remaining = Some (Some best_discard)
                /\ (0 < sa_score best_discard)%Q
                /\ (inject_Z (expected_chips best_play)
                    < inject_Z (blind - current) * (1 # 2))%Q).
Proof.
  unfold should_discard.
  destruct (discards_left <=? 0) eqn:Ed; [intros [=]|]. apply Z.leb_gt in Ed.
  destruct (get_best_play table in_hand jokers gs blind current hands_left w)
    as [[[bp|] w1]|] eqn:Ebp; cbn [mbind option_bind]; [|intros [=]|intros [=]].
  destruct (sa_is_lethal bp) eqn:El; [intros [=]|].
  destruct (hands_left <=? 1) eqn:Eh; [intros [=]|]. apply Z.leb_gt in Eh.
  destruct (_find_best_hand_in_cards in_hand) as [[[t cs]|]|] eqn:Ef; cbn [mbind option_bind]; [| |intros [=]].
  - destruct (hand_type_value t <=? hand_type_value PAIR) eqn:Et; cbn [mbind option_bind]; [|intros [=]].
    apply Z.leb_le in Et.
    replace (0 <? discards_left) with true by (symmetry; apply Z.ltb_lt; lia).
    cbn [andb].
    destruct (get_best_discard in_hand jokers gs deck_remaining) as [[bd|]|] eqn:Ebd;
      cbn [mbind option_bind]; [|intros [=]|intros [=]].
    destruct (Float.ltb 0 (sa_score bd)) eqn:Es; [|intros [=]].
    destruct (Float.ltb (Float.of_int (expected_chips bp)) _) eqn:Ec; [|intros [=]].
    intros E. assert (w1 = w') by congruence. subst w'. clear E.
    split; [lia|]. split; [lia|]. exists bp. split; [done|]. split; [done|].
    split.
    + intros combo r Hin Hr. pose proof (find_best_Some _ _ _ Ef combo r Hin Hr).
      lia.
    + right. exists bd. split; [done|].
      unfold Float.ltb in Es, Ec. apply negb_true_iff in Es, Ec.
      split.
      * apply Qnot_le_lt. intros Hle. apply Qle_bool_iff in Hle. congruence.
      * apply Qnot_le_lt. intros Hle.
        assert (Hle' : (Float.mul (Float.of_int (blind - current)) (1 # 2)
                        <= Float.of_int (expected_chips bp))%Q).
        { unfold Float.mul, Float.of_int. by rewrite Qred_correct. }
        apply Qle_bool_iff in Hle'. congruence.
  - intros E. assert (w1 = w') by congruence. subst w'. clear E.
    split; [lia|]. split; [lia|]. exists bp. split; [done|].
    split; [done|]. split; [|by left].
    intros combo r Hin Hr. rewrite (find_best_None _ Ef combo r Hin Hr). simpl. lia.
Qed.


End ShouldDiscard.

Section ShouldDiscardExamples.

Import Lcg.



End ShouldDiscardExamples.


(** ** C3: the lethal gate of [decide] *)

Lemma combinations_spec {A} (l : list A) : forall n c,
  c ∈ Py.combinations l n -> length c = n /\ forall x, x ∈ c -> x ∈ l.
Proof.
  induction l as [|x l IH]; intros [|n] c Hc; simpl in Hc.
  - apply list_elem_of_singleton in Hc as ->. split; [done|]. by intros y Hy%elem_of_nil.
  - by apply elem_of_nil in Hc.
  - apply list_elem_of_singleton in Hc as ->. split; [done|]. by intros y Hy%elem_of_nil.
  - apply elem_of_app in Hc as [Hc|Hc].
    + apply list_elem_of_fmap in Hc as (c' & -> & Hc').
      destruct (IH _ _ Hc') as [Hlen Hsub]. split; [simpl; lia|].
      intros y [->|Hy]%elem_of_cons; [left|right; auto].
    + destruct (IH _ _ Hc) as [Hlen Hsub]. split; [done|].
      intros y Hy. right. auto.
Qed.

(** The enumerated plays are the index lists of one to five valid positions. *)
Lemma index_combinations_spec (n : nat) (indices : list Z) :
  indices ∈ index_combinations n ->
  (1 <= length indices <= 5)%nat
  /\ forall i, i ∈ indices -> 0 <= i < Z.of_nat n.
Proof.
  unfold index_combinations, Py.range. intros Hin.
  apply list_elem_of_In, in_flat_map in Hin as (k & Hk & Hin).
  apply in_seq in Hk. apply list_elem_of_In, combinations_spec in Hin as [Hlen Hsub].
  split; [lia|]. intros i Hi. apply Hsub, list_elem_of_fmap in Hi as (j & -> & Hj).
  apply list_elem_of_In, in_seq in Hj. lia.
Qed.

Lemma cards_of_length (h : list Card) (indices : list Z) :
  (forall i, i ∈ indices -> 0 <= i < Z.of_nat (length h)) ->
  length (cards_of h indices) = length indices.
Proof.
  unfold cards_of. induction indices as [|i indices IH]; intros Hok; [done|].
  simpl. destruct (lookup_lt_is_Some_2 h (Z.to_nat i)) as [c ->].
  { specialize (Hok i (list_elem_of_here _ _)). lia. }
  simpl. f_equal. apply IH. intros j Hj. apply Hok. by right.
Qed.

Lemma evaluate_hand_total (played : list Card) (level : Z) :
  (1 <= length played <= 5)%nat -> is_Some (evaluate_hand played level).
Proof.
  intros Hlen. unfold evaluate_hand.
  destruct played as [|c played]; [simpl in Hlen; lia|].
  destruct (5 <? Py.len (c :: played)) eqn:E.
  { apply Z.ltb_lt in E. unfold Py.len in E. lia. }
  destruct (_identify_hand _ _ _ _ _ _). done.
Qed.

Section LethalGate.

Context `{RandomLib}.

Variable table : gmap string Calculator.

Lemma calculate_score_total (played : list Card) (jokers : list JokerInstance)
    (gs : GameState) (in_hand : option (list Card)) (rng_seed : option Z) (w : World) :
  (1 <= length played <= 5)%nat ->
  is_Some (calculate_score table played jokers gs in_hand rng_seed w).
Proof.
  intros Hlen. unfold calculate_score, card_phase.
  destruct played as [|c played]; [simpl in Hlen; lia|].
  destruct (evaluate_hand_total (c :: played) 1 Hlen) as [r0 ->].
  cbn [mbind option_bind].
  destruct (evaluate_hand_total (c :: played)
              (level_get (gs_hand_levels gs) (hand_type r0) 1) Hlen) as [r ->].
  cbn [mbind option_bind].
  destruct (score_cards _ _ _ _ _) as [[t effects] destroyed].
  destruct (apply_steel_cards_in_hand _) as [x steel_mult].
  cbn [mbind option_bind].
  destruct (joker_chain _ _ _ _). done.
Qed.

Lemma for_each_total {A B} (f : A -> World -> option (B * World)) (l : list A) :
  (forall x w, x ∈ l -> is_Some (f x w)) ->
  forall w, is_Some (for_each f l w).
Proof.
  induction l as [|x l IH]; intros Hf w; [done|].
  simpl. destruct (Hf x w (list_elem_of_here _ _)) as [[y w1] ->].
  cbn [mbind option_bind].
  destruct (IH (fun x' w' Hx => Hf x' w' (list_elem_of_further _ _ _ Hx)) w1) as [[ys w2] ->].
  done.
Qed.

Lemma for_each_inv {A B} (f : A -> World -> option (B * World)) (P : A -> B -> Prop)
    (l : list A) :
  (forall x w y w', f x w = Some (y, w') -> P x y) ->
  forall w ys w', for_each f l w = Some (ys, w') -> Forall2 P l ys.
Proof.
  intros Hf. induction l as [|x l IH]; intros w ys w' E; simpl in E.
  - injection E as <- <-. constructor.
  - destruct (f x w) as [[y w1]|] eqn:Ef; [|done]. cbn [mbind option_bind] in E.
    destruct (for_each f l w1) as [[ys' w2]|] eqn:El; [|done].
    cbn [mbind option_bind] in E. injection E as <- <-.
    constructor; eauto.
Qed.

(** What the enumeration records for the play of [indices]. *)
Definition play_of (in_hand : list Card) (chips_needed : Z) (indices : list Z)
    (a : EvaluatedAction) : Prop :=
  action_type a = "play"
  /\ card_indices a = indices
  /\ cards a = cards_of in_hand indices
  /\ is_lethal a = (chips_needed <=? expected_score a)
  /\ (exists b, scoring_breakdown a = Some b
                /\ expected_score a = final_score b
                /\ ea_hand_type a = Some (sb_hand_type b)).

Lemma evaluate_one_play_spec in_hand jokers gs chips_needed indices w a w' :
  DeepDecisionEngine.evaluate_one_play table in_hand jokers gs chips_needed indices w
    = Some (a, w') ->
  play_of in_hand chips_needed indices a.
Proof.
  unfold DeepDecisionEngine.evaluate_one_play.
  destruct (calculate_score _ _ _ _ _ _ _) as [[b w1]|]; [|done].
  cbn [mbind option_bind]. intros E. injection E as <- <-.
  unfold play_of. destruct (chips_needed <=? final_score b) eqn:El; cbn; rewrite ?El; eauto 10.
Qed.

(** The enumeration never raises: every one of its plays has one to five
    cards, which [calculate_score] accepts. *)
Lemma _evaluate_all_plays_total in_hand jokers gs chips_needed hands_left w :
  is_Some (DeepDecisionEngine._evaluate_all_plays table in_hand jokers gs chips_needed
             hands_left w).
Proof.
  apply for_each_total. intros indices w1 Hin.
  apply index_combinations_spec in Hin as [Hlen Hok].
  unfold DeepDecisionEngine.evaluate_one_play.
  destruct (calculate_score_total (cards_of in_hand indices) jokers gs
              (Some (cards_not_in in_hand indices)) None w1) as [[b w2] ->]; [|done].
  by rewrite cards_of_length.
Qed.

End LethalGate.

Lemma Forall2_elem_of_r {A B} (P : A -> B -> Prop) (l : list A) (ys : list B) (y : B) :
  Forall2 P l ys -> y ∈ ys -> exists x, x ∈ l /\ P x y.
Proof.
  induction 1 as [|x y' l ys HP _ IH]; [by intros Hy%elem_of_nil|].
  intros [->|Hy]%elem_of_cons.
  - exists x. split; [left|done].
  - destruct (IH Hy) as (x' & Hx' & HP'). exists x'. split; [by right|done].
Qed.

(** Python's order on the key tuples. *)
Definition key_le (k1 k2 : Z * Z * Z) : Prop := tuple_lt k2 k1 = false.

Lemma tuple_lt_spec (k1 k2 : Z * Z * Z) :
  tuple_lt k1 k2 = true <->
  k1.1.1 < k2.1.1
  \/ (k1.1.1 = k2.1.1 /\ (k1.1.2 < k2.1.2 \/ (k1.1.2 = k2.1.2 /\ k1.2 < k2.2))).
Proof.
  destruct k1 as [[a1 b1] c1], k2 as [[a2 b2] c2]. unfold tuple_lt. cbn [fst snd].
  rewrite orb_true_iff, andb_true_iff, orb_true_iff, andb_true_iff.
  rewrite !Z.ltb_lt, !Z.eqb_eq. tauto.
Qed.

Lemma key_le_spec (k1 k2 : Z * Z * Z) :
  key_le k1 k2 <->
  k1.1.1 < k2.1.1
  \/ (k1.1.1 = k2.1.1 /\ (k1.1.2 < k2.1.2 \/ (k1.1.2 = k2.1.2 /\ k1.2 <= k2.2))).
Proof.
  unfold key_le. rewrite <- not_true_iff_false, tuple_lt_spec. lia.
Qed.

Lemma key_le_refl k : key_le k k.
Proof. apply key_le_spec. lia. Qed.

Lemma key_le_trans k1 k2 k3 : key_le k1 k2 -> key_le k2 k3 -> key_le k1 k3.
Proof. rewrite !key_le_spec. lia. Qed.

Lemma max_key_from_spec {A} (key : A -> Z * Z * Z) (l : list A) : forall best,
  let m := max_key_from key best l in
  (m = best \/ m ∈ l)
  /\ key_le (key best) (key m)
  /\ forall x, x ∈ l -> key_le (key x) (key m).
Proof.
  induction l as [|x l IH]; intros best; simpl.
  - split; [by left|]. split; [apply key_le_refl|]. by intros x Hx%elem_of_nil.
  - destruct (tuple_lt (key best) (key x)) eqn:E.
    + destruct (IH x) as (Hin & Hle & Hall). split; [|split].
      * destruct Hin as [->|Hin]; right; [left|by right].
      * eapply key_le_trans; [|exact Hle]. apply key_le_spec.
        apply tuple_lt_spec in E. lia.
      * intros y [->|Hy]%elem_of_cons; auto.
    + destruct (IH best) as (Hin & Hle & Hall). split; [|split].
      * destruct Hin as [->|Hin]; [by left|right; by right].
      * done.
      * intros y [->|Hy]%elem_of_cons; [|auto].
        eapply key_le_trans; [|exact Hle]. exact E.
Qed.

Lemma max_key_spec {A} (key : A -> Z * Z * Z) (l : list A) :
  l <> [] ->
  exists m, max_key key l = Some m /\ m ∈ l /\ forall x, x ∈ l -> key_le (key x) (key m).
Proof.
  destruct l as [|x l]; [done|]. intros _. simpl.
  destruct (max_key_from_spec key l x) as (Hin & Hle & Hall).
  eexists. split; [done|]. split.
  - destruct Hin as [->|Hin]; [left|by right].
  - intros y [->|Hy]%elem_of_cons; auto.
Qed.


Section LethalGateExample.

Import Lcg.

(** A discard evaluation that raises: the lethal gate answers without it. *)
Definition failing_discards :
    DecisionConfig -> list Card -> list JokerInstance -> GameState -> DeckState ->
    Z -> Z -> Z -> bool -> World -> option (list EvaluatedAction * World) :=
  fun _ _ _ _ _ _ _ _ _ _ => None.

(** The seven plays of the hand A♠ A♥ 2♠ with 16 chips to go. *)
Definition ace_pair_plays : list EvaluatedAction :=
  Eval vm_compute in
    default [] (fst <$> DeepDecisionEngine._evaluate_all_plays JOKER_CALCULATORS
                          [AS; AH; S2] [] GameState_default (16 - 0) 4 world0).

(** Among them the two-card pair of Aces is lethal, and every other play
    has a smaller key. *)
Lemma ace_pair_plays_safest :
  exists a, a ∈ ace_pair_plays /\ card_indices a = [0; 1]
            /\ reasoning a = ["PAIR"; "LETHAL"]
            /\ expected_score a = 64
            /\ forall b, b ∈ ace_pair_plays ->
                 key_le (safety_score a) (safety_score b) -> b = a.
Proof.
  eexists. split; [unfold ace_pair_plays; do 3 right; left|].
  split; [reflexivity|]. split; [reflexivity|]. split; [reflexivity|].
  intros b Hb Hle. unfold ace_pair_plays in Hb.
  repeat (apply elem_of_cons in Hb as [->|Hb]);
    first [ by apply elem_of_nil in Hb
          | revert Hle; vm_compute; discriminate
          | reflexivity ].
Qed.


End LethalGateExample.


(** ** The search tree of [mcts.py] *)

(** *** The simulator and the heuristics never raise *)

Lemma insert_desc_Permutation {A} (key : A -> Z) (x : A) (l : list A) :
  Permutation (Py.insert_desc key x l) (x :: l).
Proof.
  induction l as [|y l IH]; simpl; [done|].
  destruct (key x <? key y); [|done].
  rewrite IH. apply perm_swap.
Qed.

Lemma sorted_desc_Permutation {A} (key : A -> Z) (l : list A) :
  Permutation (Py.sorted_desc key l) l.
Proof.
  induction l as [|x l IH]; simpl; [done|].
  unfold Py.sorted_desc in IH. by rewrite insert_desc_Permutation, IH.
Qed.

Section Totality.

Context `{RandomLib}.

Variable table : gmap string Calculator.

Lemma invalid_indices_None (g : GameSimulator) (card_indices : list Z) (verb : string) :
  invalid_indices g card_indices verb = None ->
  (1 <= length card_indices <= 5)%nat
  /\ forall i, i ∈ card_indices -> 0 <= i < Z.of_nat (length (hand g)).
Proof.
  unfold invalid_indices. destruct card_indices as [|i0 rest]; [done|].
  destruct (5 <? _) eqn:E5; [done|].
  destruct (existsb _ _) eqn:Ex; [done|]. intros _.
  apply Z.ltb_ge in E5. unfold Py.len in E5. split; [simpl in *; lia|].
  intros i Hi. apply not_true_iff_false in Ex. rewrite existsb_exists in Ex.
  destruct (decide (0 <= i < Z.of_nat (length (hand g)))) as [|Hbad]; [done|].
  exfalso. apply Ex. exists i. split; [by apply list_elem_of_In|].
  apply orb_true_iff. unfold Py.len. rewrite Z.ltb_lt, Z.leb_le. lia.
Qed.

Lemma cards_at_length (h : list Card) (card_indices : list Z) :
  (forall i, i ∈ card_indices -> 0 <= i < Z.of_nat (length h)) ->
  length (cards_at h card_indices) = length card_indices.
Proof.
  intros Hok. unfold cards_at.
  rewrite <- (Permutation_length (sorted_desc_Permutation (fun i => i) card_indices)).
  apply (cards_of_length h). intros i Hi. apply Hok.
  by rewrite <- (sorted_desc_Permutation (fun i => i) card_indices).
Qed.

Lemma play_hand_total (card_indices : list Z) (g : GameSimulator) (w : World) :
  is_Some (play_hand table card_indices g w).
Proof.
  unfold play_hand.
  destruct (negb _); [done|]. destruct (hands_remaining g <=? 0); [done|].
  destruct (invalid_indices g card_indices "play") eqn:Einv; [done|].
  apply invalid_indices_None in Einv as [Hlen Hok].
  match goal with
  | |- context [calculate_score ?t ?p ?j ?s ?h ?r ?w0] =>
      destruct (calculate_score_total t p j s h r w0) as [[b w1] ->]
  end.
  { by rewrite cards_at_length. }
  cbn [mbind option_bind].
  repeat match goal with
         | |- context [if ?c then _ else _] => destruct c
         | |- context [let '(_, _) := ?p in _] => destruct p
         end; done.
Qed.

Lemma evaluate_plays_total (in_hand : list Card) (jokers : list JokerInstance)
    (gs : GameState) (blind current hands_left : Z) (config : HeuristicConfig) (w : World) :
  is_Some (evaluate_plays table in_hand jokers gs blind current hands_left config w).
Proof.
  unfold evaluate_plays.
  match goal with
  | |- context [for_each ?f ?l ?w0] =>
      destruct (for_each_total f l) with (w := w0) as [[acts w1] ->]; [|done]
  end.
  intros indices w1 Hin. apply index_combinations_spec in Hin as [Hlen Hok].
  unfold evaluate_play.
  match goal with
  | |- context [calculate_score ?t ?p ?j ?s ?h ?r ?w0] =>
      destruct (calculate_score_total t p j s h r w0) as [[b w2] ->]
  end.
  { by rewrite cards_of_length. }
  cbn [mbind option_bind].
  repeat match goal with
         | |- context [if ?c then _ else _] => destruct c
         end; done.
Qed.

Lemma get_best_play_total (in_hand : list Card) (jokers : list JokerInstance)
    (gs : GameState) (blind current hands_left : Z) (w : World) :
  is_Some (get_best_play table in_hand jokers gs blind current hands_left w).
Proof.
  unfold get_best_play.
  destruct (evaluate_plays_total in_hand jokers gs blind current hands_left
              HeuristicConfig_default w) as [[acts w1] ->].
  done.
Qed.

End Totality.

(** *** The legal actions of a state are pairwise different *)

Lemma combinations_NoDup {A} (l : list A) : forall n,
  NoDup l -> NoDup (Py.combinations l n).
Proof.
  induction l as [|x l IH]; intros [|n] Hl; simpl.
  - apply NoDup_singleton.
  - apply NoDup_nil_2.
  - apply NoDup_singleton.
  - apply NoDup_cons in Hl as [Hx Hl]. apply NoDup_app. split; [|split].
    + apply (NoDup_fmap_2 (cons x)). by apply IH.
    + intros c Hc Hc'. apply list_elem_of_fmap in Hc as (c' & -> & _).
      apply combinations_spec in Hc' as [_ Hsub]. apply Hx, Hsub. left.
    + by apply IH.
Qed.

Lemma flat_map_NoDup {A B} (f : A -> list B) (l : list A) :
  NoDup l ->
  (forall x, x ∈ l -> NoDup (f x)) ->
  (forall x x' y, x ∈ l -> x' ∈ l -> y ∈ f x -> y ∈ f x' -> x = x') ->
  NoDup (flat_map f l).
Proof.
  induction l as [|x l IH]; intros Hl Hf Hsep; simpl; [apply NoDup_nil_2|].
  apply NoDup_cons in Hl as [Hx Hl]. apply NoDup_app. split; [|split].
  - apply Hf. left.
  - intros y Hy Hy'. apply list_elem_of_In, in_flat_map in Hy' as (x' & Hx' & Hy').
    apply list_elem_of_In in Hx', Hy'.
    assert (x = x') as <-; [|done].
    eapply Hsep; [left|by right|done|done].
  - apply IH; [done|intros; apply Hf; by right|].
    intros x1 x2 y H1 H2. apply Hsep; by right.
Qed.

Lemma index_combinations_NoDup (n : nat) : NoDup (index_combinations n).
Proof.
  unfold index_combinations. apply flat_map_NoDup.
  - apply NoDup_ListNoDup, seq_NoDup.
  - intros k _. apply combinations_NoDup.
    apply (NoDup_fmap_2 Z.of_nat), NoDup_ListNoDup, seq_NoDup.
  - intros k k' c _ _ Hc Hc'.
    apply combinations_spec in Hc as [<- _]. by apply combinations_spec in Hc' as [<- _].
Qed.

Section SearchTree.

Import Mcts.

Context `{RandomLib}.
Context `{MathLib}.

Variable table : gmap string Calculator.

Lemma get_legal_actions_NoDup (game : GameSimulator) : NoDup (get_legal_actions game).
Proof.
  unfold get_legal_actions. destruct (phase game) eqn:Ephase.
  - destruct (negb _).
    + apply NoDup_cons. split; [|apply NoDup_singleton].
      intros [E|E]%elem_of_cons; [discriminate E|by apply elem_of_nil in E].
    + apply NoDup_singleton.
  - assert (Hplays : NoDup (get_legal_plays game)).
    { unfold get_legal_plays. destruct (_ || _); [apply NoDup_nil_2|].
      apply index_combinations_NoDup. }
    assert (Hdiscards : NoDup (get_legal_discards game)).
    { unfold get_legal_discards. destruct (_ || _); [apply NoDup_nil_2|].
      apply index_combinations_NoDup. }
    assert (Hinj : forall k, Inj (=) (=) (mkMCTSAction k)).
    { intros k x y E. by injection E. }
    apply NoDup_app. split; [by apply (NoDup_fmap_2 _)|]. split.
    + intros a Ha Ha'. apply list_elem_of_fmap in Ha as (x & -> & _).
      destruct (0 <? discards_remaining game); [|by apply elem_of_nil in Ha'].
      apply list_elem_of_fmap in Ha' as (y & E & _). discriminate E.
    + destruct (0 <? discards_remaining game); [|apply NoDup_nil_2].
      by apply (NoDup_fmap_2 _).
  - apply NoDup_singleton.
  - apply NoDup_nil_2.
Qed.

Lemma get_legal_actions_game_over (game : GameSimulator) :
  get_legal_actions game <> [] -> is_game_over game = false.
Proof.
  unfold get_legal_actions, is_game_over. intros Hne.
  apply bool_decide_eq_false. intros E. by rewrite E in Hne.
Qed.

(** *** The store *)

Lemma deref_lookup (t : list MCTSNode) (i : nat) (n : MCTSNode) :
  t !! i = Some n -> deref t i = n.
Proof. unfold deref. by intros ->. Qed.

Lemma deref_insert (t : list MCTSNode) (i j : nat) (n : MCTSNode) :
  (i < length t)%nat ->
  deref (<[i := n]> t) j = if decide (i = j) then n else deref t j.
Proof.
  intros Hi. unfold deref. rewrite list_lookup_insert.
  destruct (decide (i = j)) as [->|Hne].
  - by rewrite decide_True.
  - by rewrite decide_False by (intros [? _]; done).
Qed.

Lemma deref_app_l (t : list MCTSNode) (n : MCTSNode) (i : nat) :
  (i < length t)%nat -> deref (t ++ [n]) i = deref t i.
Proof. intros Hi. unfold deref. by rewrite lookup_app_l. Qed.

Lemma deref_app_new (t : list MCTSNode) (n : MCTSNode) : deref (t ++ [n]) (length t) = n.
Proof. unfold deref. by rewrite list_lookup_middle. Qed.

Lemma deref_out (t : list MCTSNode) (i : nat) :
  (length t <= i)%nat -> deref t i = MCTSNode_default.
Proof. intros Hi. unfold deref. by rewrite lookup_ge_None_2. Qed.

(** [sum(c.visits for c in node.children.values())] *)
Definition child_refs (n : MCTSNode) : list nat := map snd (children n).

Definition child_visits (t : list MCTSNode) (n : MCTSNode) : Z :=
  fold_right Z.add 0 (map (fun c => visits (deref t c)) (child_refs n)).

(** The nodes met by [_backpropagate] from [s]: [s] and what is met from
    its parent. *)
Inductive on_path (t : list MCTSNode) : nat -> nat -> Prop :=
  | on_path_start s : on_path t s s
  | on_path_parent s p i :
      parent (deref t s) = Some p -> on_path t p i -> on_path t s i.

(** The shape of the tree behind the store: references stay inside the
    store, [parent] and [children] agree, only the root has no parent,
    parents are older than their children, and no action is both tried and
    untried or tried twice at a node. *)
Record wf (t : list MCTSNode) : Prop := mk_wf {
  wf_nonempty : (0 < length t)%nat;
  wf_root : parent (deref t 0) = None;
  wf_orphan : forall i, (i < length t)%nat -> parent (deref t i) = None -> i = 0%nat;
  wf_parent : forall i p, (i < length t)%nat -> parent (deref t i) = Some p ->
    (p < i)%nat /\ i ∈ child_refs (deref t p);
  wf_child : forall i a c, (i < length t)%nat -> (a, c) ∈ children (deref t i) ->
    (c < length t)%nat /\ parent (deref t c) = Some i /\ action (deref t c) = Some a;
  wf_refs : forall i, (i < length t)%nat -> NoDup (child_refs (deref t i));
  wf_keys : forall i, (i < length t)%nat ->
    NoDup (map fst (children (deref t i)) ++ untried_actions (deref t i));
}.

(** The root is not a finished game and has an action, tried or not. *)
Definition root_ok (t : list MCTSNode) : Prop :=
  is_terminal (deref t 0) = false
  /\ (untried_actions (deref t 0) <> [] \/ children (deref t 0) <> []).

(** Between two rounds every node but the root has been visited, and every
    visit of the root went through one of its children. *)
Definition counts_ok (t : list MCTSNode) : Prop :=
  child_visits t (deref t 0) = visits (deref t 0)
  /\ forall i, (0 < i < length t)%nat -> 1 <= visits (deref t i).

Definition search_state_ok (m : MCTS) : Prop :=
  root m = Some 0%nat /\ wf (nodes m) /\ root_ok (nodes m) /\ counts_ok (nodes m).

(** Two stores with the same tree in them. *)
Definition same_tree (t t' : list MCTSNode) : Prop :=
  length t' = length t
  /\ forall i, action (deref t' i) = action (deref t i)
               /\ parent (deref t' i) = parent (deref t i)
               /\ children (deref t' i) = children (deref t i)
               /\ untried_actions (deref t' i) = untried_actions (deref t i)
               /\ _game_state (deref t' i) = _game_state (deref t i).

Lemma same_tree_refl t : same_tree t t.
Proof. by split. Qed.

Lemma same_tree_trans t1 t2 t3 : same_tree t1 t2 -> same_tree t2 t3 -> same_tree t1 t3.
Proof.
  intros [L1 H1] [L2 H2]. split; [congruence|]. intros i.
  destruct (H1 i) as (? & ? & ? & ? & ?), (H2 i) as (? & ? & ? & ? & ?).
  repeat split; congruence.
Qed.

Lemma same_tree_wf t t' : same_tree t t' -> wf t -> wf t'.
Proof.
  intros [L S] W.
  assert (Ea : forall i, action (deref t' i) = action (deref t i)) by (intros i; apply S).
  assert (Ep : forall i, parent (deref t' i) = parent (deref t i)) by (intros i; apply S).
  assert (Ec : forall i, children (deref t' i) = children (deref t i)) by (intros i; apply S).
  assert (Eu : forall i, untried_actions (deref t' i) = untried_actions (deref t i))
    by (intros i; apply S).
  constructor; unfold child_refs; rewrite ?L.
  - apply W.
  - rewrite Ep. apply W.
  - intros i Hi. rewrite Ep. by apply W.
  - intros i p Hi. rewrite Ep, Ec. by apply (wf_parent t W).
  - intros i a c Hi. rewrite Ec, Ep, Ea. by apply (wf_child t W).
  - intros i Hi. rewrite Ec. by apply (wf_refs t W).
  - intros i Hi. rewrite Ec, Eu. by apply (wf_keys t W).
Qed.

Lemma same_tree_root_ok t t' : same_tree t t' -> root_ok t -> root_ok t'.
Proof.
  intros [L S] [Hterm Hroot]. destruct (S 0%nat) as (_ & _ & Ec & Eu & Eg).
  unfold root_ok, is_terminal in *. by rewrite Ec, Eu, Eg.
Qed.

Lemma same_tree_on_path t t' s i : same_tree t t' -> on_path t s i -> on_path t' s i.
Proof.
  intros [L S]. induction 1 as [|s p i Hp _ IH]; [constructor|].
  apply on_path_parent with p; [|done]. destruct (S s) as (_ & -> & _). done.
Qed.

Lemma on_path_le t s i : wf t -> (s < length t)%nat -> on_path t s i -> (i <= s)%nat.
Proof.
  intros W Hs Hpath. induction Hpath as [|s p i Hp _ IH]; [done|].
  destruct (wf_parent t W s p Hs Hp) as [Hlt _]. specialize (IH ltac:(lia)). lia.
Qed.

Lemma on_path_root t s : wf t -> (s < length t)%nat -> on_path t s 0.
Proof.
  intros W. induction s as [s IH] using lt_wf_ind. intros Hs.
  destruct (parent (deref t s)) as [p|] eqn:Hp.
  - destruct (wf_parent t W s p Hs Hp) as [Hlt _].
    apply on_path_parent with p; [done|]. apply IH; lia.
  - rewrite (wf_orphan t W s Hs Hp). constructor.
Qed.

Lemma same_tree_sym t t' : same_tree t t' -> same_tree t' t.
Proof.
  intros [L S]. split; [done|]. intros i.
  destruct (S i) as (? & ? & ? & ? & ?). by repeat split.
Qed.

Lemma on_path_inv t s i :
  on_path t s i -> i = s \/ exists p, parent (deref t s) = Some p /\ on_path t p i.
Proof. destruct 1; [by left|right; eauto]. Qed.

(** *** Backpropagation *)

Lemma insert_record_result_same_tree (t : list MCTSNode) (s : nat) value is_win :
  same_tree t (<[s := record_result (deref t s) value is_win]> t).
Proof.
  split; [apply length_insert|]. intros i.
  destruct (decide (s < length t)%nat) as [Hs|Hs].
  - rewrite deref_insert by done. by destruct (decide (s = i)) as [->|].
  - by rewrite list_insert_ge by lia.
Qed.

Lemma sum_visits_same (f g : nat -> Z) (l : list nat) :
  (forall c, c ∈ l -> g c = f c) ->
  fold_right Z.add 0 (map g l) = fold_right Z.add 0 (map f l).
Proof.
  induction l as [|c l IH]; intros Hfg; simpl; [done|].
  rewrite Hfg by left. rewrite IH; [done|]. intros; apply Hfg. by right.
Qed.

Lemma sum_visits_one_more (f g : nat -> Z) (l : list nat) (s : nat) :
  NoDup l -> s ∈ l ->
  (forall c, c ∈ l -> c <> s -> g c = f c) -> g s = f s + 1 ->
  fold_right Z.add 0 (map g l) = fold_right Z.add 0 (map f l) + 1.
Proof.
  induction l as [|c l IH]; intros Hl Hs Hfg Hgs; [by apply elem_of_nil in Hs|].
  apply NoDup_cons in Hl as [Hc Hl]. simpl.
  destruct (decide (c = s)) as [->|Hne].
  - rewrite Hgs. rewrite (sum_visits_same f g l); [lia|].
    intros c Hin. apply Hfg; [by right|]. by intros ->.
  - apply elem_of_cons in Hs as [->|Hs]; [done|].
    rewrite Hfg by (done || left). rewrite IH; [lia|done|done| |done].
    intros c' Hc'. apply Hfg. by right.
Qed.

Lemma root_child_not_root t c :
  wf t -> c ∈ child_refs (deref t 0) -> c <> 0%nat.
Proof.
  intros W Hc ->. apply list_elem_of_fmap in Hc as ([a c] & Ec & Hin). simpl in Ec. subst c.
  destruct (wf_child t W 0%nat a 0%nat (wf_nonempty t W) Hin) as (_ & Hp & _).
  rewrite (wf_root t W) in Hp. discriminate Hp.
Qed.

Lemma _backpropagate_spec (value : Q) (is_win : bool) : forall fuel t s,
  wf t -> (s < length t)%nat -> (s < fuel)%nat ->
  exists t',
    _backpropagate fuel t (Some s) value is_win = Some t'
    /\ same_tree t t'
    /\ (forall i, on_path t s i -> deref t' i = record_result (deref t i) value is_win)
    /\ (forall i, ~ on_path t s i -> deref t' i = deref t i)
    /\ (forall i, visits (deref t i) <= visits (deref t' i))
    /\ (s <> 0%nat -> child_visits t' (deref t' 0) = child_visits t (deref t 0) + 1).
Proof.
  induction fuel as [|fuel IH]; intros t s W Hs Hfuel; [lia|].
  cbn [_backpropagate].
  set (t1 := <[s := record_result (deref t s) value is_win]> t).
  assert (S1 : same_tree t t1) by apply insert_record_result_same_tree.
  assert (W1 : wf t1) by (by apply (same_tree_wf t)).
  assert (D1 : forall i, deref t1 i
                         = if decide (s = i) then record_result (deref t s) value is_win
                           else deref t i).
  { intros i. unfold t1. by rewrite deref_insert. }
  destruct (parent (deref t s)) as [p|] eqn:Hp.
  - destruct (wf_parent t W s p Hs Hp) as [Hlt Hchild].
    assert (Hp1 : (p < length t1)%nat) by (destruct S1 as [-> _]; lia).
    destruct (IH t1 p W1 Hp1 ltac:(lia)) as (t' & E & S' & Hon & Hoff & Hmono & Hsum).
    exists t'. split; [exact E|]. split; [by apply (same_tree_trans t t1)|].
    assert (Hs_off : ~ on_path t1 p s).
    { intros Hpath. apply on_path_le in Hpath; [lia|done|done]. }
    split; [|split; [|split]].
    + intros i Hi. apply on_path_inv in Hi as [->|(p' & Hp' & Hi)].
      * rewrite (Hoff s Hs_off), D1. by rewrite decide_True.
      * assert (p' = p) as -> by congruence.
        assert ((i <= p)%nat) by (apply (on_path_le t); [done|lia|done]).
        rewrite (Hon i (same_tree_on_path _ _ _ _ S1 Hi)), D1.
        by rewrite decide_False by lia.
    + intros i Hi. assert (s <> i) by (intros <-; apply Hi; constructor).
      rewrite Hoff, D1; [by rewrite decide_False|].
      intros Hpath. apply Hi. apply on_path_parent with p; [done|].
      by apply (same_tree_on_path t1 t _ _ (same_tree_sym _ _ S1)).
    + intros i. specialize (Hmono i). rewrite D1 in Hmono.
      destruct (decide (s = i)) as [->|]; simpl in Hmono; lia.
    + intros _. destruct (decide (p = 0%nat)) as [->|Hp0].
      * unfold child_visits, child_refs.
        destruct S' as [_ S']. destruct (S' 0%nat) as (_ & _ & -> & _).
        destruct S1 as [_ S1]. destruct (S1 0%nat) as (_ & _ & -> & _).
        apply sum_visits_one_more with s.
        -- apply (wf_refs t W), (wf_nonempty t W).
        -- exact Hchild.
        -- intros c Hc Hcs. rewrite Hoff, D1; [by rewrite decide_False|].
           intros Hpath. apply on_path_inv in Hpath as [->|(p' & Hp' & _)].
           ++ by apply (root_child_not_root t 0%nat).
           ++ rewrite (wf_root t1 W1) in Hp'. discriminate Hp'.
        -- rewrite Hoff, D1; [by rewrite decide_True|done].
      * rewrite (Hsum Hp0). f_equal. unfold child_visits, child_refs.
        destruct S1 as [_ S1]. destruct (S1 0%nat) as (_ & _ & -> & _).
        apply sum_visits_same. intros c Hc. rewrite D1.
        rewrite decide_False; [done|]. intros <-.
        apply list_elem_of_fmap in Hc as ([a c] & Ec & Hin). simpl in Ec. subst c.
        destruct (wf_child t W 0%nat a s (wf_nonempty t W) Hin) as (_ & Hp' & _).
        congruence.
  - assert (s = 0%nat) as -> by (by apply (wf_orphan t W)).
    exists t1. split; [by destruct fuel|]. split; [done|].
    split; [|split; [|split; [|done]]].
    + intros i Hi. apply on_path_inv in Hi as [->|(p' & Hp' & _)]; [|congruence].
      rewrite D1. by rewrite decide_True.
    + intros i Hi. rewrite D1. rewrite decide_False; [done|].
      intros <-. apply Hi. constructor.
    + intros i. rewrite D1. destruct (decide (0%nat = i)) as [<-|]; simpl; lia.
Qed.

(** *** Selection *)

(** Two stores that differ at most in the untried actions and the rollout
    values of their nodes. *)
Definition same_links (t t' : list MCTSNode) : Prop :=
  length t' = length t
  /\ forall i, visits (deref t' i) = visits (deref t i)
               /\ action (deref t' i) = action (deref t i)
               /\ parent (deref t' i) = parent (deref t i)
               /\ children (deref t' i) = children (deref t i)
               /\ _game_state (deref t' i) = _game_state (deref t i).

Lemma same_links_refl t : same_links t t.
Proof. by split. Qed.

Lemma same_links_trans t1 t2 t3 : same_links t1 t2 -> same_links t2 t3 -> same_links t1 t3.
Proof.
  intros [L1 H1] [L2 H2]. split; [congruence|]. intros i.
  destruct (H1 i) as (? & ? & ? & ? & ?), (H2 i) as (? & ? & ? & ? & ?).
  repeat split; congruence.
Qed.

Lemma same_links_wf t t' :
  same_links t t' ->
  (forall i, (i < length t)%nat ->
     NoDup (map fst (children (deref t' i)) ++ untried_actions (deref t' i))) ->
  wf t -> wf t'.
Proof.
  intros [L S] Hkeys W.
  assert (Ea : forall i, action (deref t' i) = action (deref t i)) by (intros i; apply S).
  assert (Ep : forall i, parent (deref t' i) = parent (deref t i)) by (intros i; apply S).
  assert (Ec : forall i, children (deref t' i) = children (deref t i)) by (intros i; apply S).
  constructor; unfold child_refs; rewrite ?L.
  - apply W.
  - rewrite Ep. apply W.
  - intros i Hi. rewrite Ep. by apply W.
  - intros i p Hi. rewrite Ep, Ec. by apply (wf_parent t W).
  - intros i a c Hi. rewrite Ec, Ep, Ea. by apply (wf_child t W).
  - intros i Hi. rewrite Ec. by apply (wf_refs t W).
  - exact Hkeys.
Qed.

Lemma same_links_child_visits t t' :
  same_links t t' -> child_visits t' (deref t' 0) = child_visits t (deref t 0).
Proof.
  intros [L S]. unfold child_visits, child_refs.
  destruct (S 0%nat) as (_ & _ & _ & -> & _).
  apply sum_visits_same. intros c _. apply S.
Qed.

Lemma same_links_counts_ok t t' : same_links t t' -> counts_ok t -> counts_ok t'.
Proof.
  intros S [Hsum Hpos]. split.
  - rewrite (same_links_child_visits t t' S). destruct S as [_ S].
    destruct (S 0%nat) as (-> & _). done.
  - destruct S as [L S]. intros i Hi. destruct (S i) as (-> & _). apply Hpos. lia.
Qed.

Lemma max_ext_from_elem {A} (key : A -> ExtFloat) (l : list A) : forall best,
  max_ext_from key best l = best \/ max_ext_from key best l ∈ l.
Proof.
  induction l as [|x l IH]; intros best; simpl; [by left|].
  destruct (ext_lt (key best) (key x)).
  - destruct (IH x) as [->|Hin]; right; [left|by right].
  - destruct (IH best) as [->|Hin]; [by left|right; by right].
Qed.

Lemma max_ext_elem {A} (key : A -> ExtFloat) (l : list A) (x : A) :
  max_ext key l = Some x -> x ∈ l.
Proof.
  destruct l as [|y l]; [done|]. simpl. intros [= <-].
  destruct (max_ext_from_elem key l y) as [->|Hin]; [left|by right].
Qed.

Lemma apply_action_total (game : GameSimulator) (a : MCTSAction) (w : World) :
  is_Some (apply_action table game a w).
Proof.
  unfold apply_action. destruct (kind a); try done.
  - destruct (play_hand_total table (card_indices a) game w) as [[[r g] w'] ->]. done.
  - destruct (discard (card_indices a) game w) as [[r g] w']. done.
Qed.

Lemma set_untried_ok (t : list MCTSNode) (b : nat) (l : list MCTSAction) :
  wf t -> root_ok t -> (b < length t)%nat ->
  untried_actions (deref t b) = [] -> children (deref t b) = [] -> NoDup l ->
  let t' := <[b := set_untried_actions (deref t b) l]> t in
  wf t' /\ root_ok t' /\ same_links t t'.
Proof.
  intros W [Hterm Hroot] Hb Hu Hc Hl t'.
  assert (S : same_links t t').
  { split; [apply length_insert|]. intros i. unfold t'. rewrite deref_insert by done.
    by destruct (decide (b = i)) as [->|]. }
  assert (Hb0 : b <> 0%nat).
  { intros ->. destruct Hroot as [Hroot|Hroot]; by apply Hroot. }
  split; [|split; [|done]].
  - apply (same_links_wf t t' S); [|done]. intros i Hi. unfold t'.
    rewrite deref_insert by done. destruct (decide (b = i)) as [->|].
    + cbn [set_untried_actions children untried_actions]. by rewrite Hc.
    + by apply (wf_keys t W).
  - unfold root_ok, t'. rewrite deref_insert by done. by rewrite decide_False.
Qed.

Lemma _select_spec (cfg : MCTSConfig) : forall fuel t node game w,
  wf t -> root_ok t -> (node < length t)%nat -> (length t <= node + fuel)%nat ->
  exists t' s game' w',
    _select table fuel cfg t node game w = Some (t', s, game', w')
    /\ wf t' /\ root_ok t' /\ same_links t t'
    /\ (node <= s < length t)%nat
    /\ is_fully_expanded (deref t' s)
       && negb (bool_decide (children (deref t' s) = [])) = false.
Proof.
  induction fuel as [|fuel IH]; intros t node game w W R Hnode Hfuel; [lia|].
  cbn [_select].
  destruct (is_fully_expanded (deref t node)
            && negb (bool_decide (children (deref t node) = []))) eqn:Econd.
  - apply andb_true_iff in Econd as [Efull Echildren].
    destruct (best_child t (deref t node) (exploration_constant cfg)) as [best|] eqn:Ebest.
    + apply max_ext_elem in Ebest.
      apply list_elem_of_fmap in Ebest as ([a c] & Ec & Hin). simpl in Ec. subst c.
      destruct (wf_child t W node a best Hnode Hin) as (Hbest & Hparent & Haction).
      destruct (wf_parent t W best node Hbest Hparent) as [Hlt _].
      rewrite Haction.
      destruct (apply_action_total game a w) as [[game1 w1] ->].
      cbn [mbind option_bind].
      set (t1 := if bool_decide (untried_actions (deref t best) = [])
                    && bool_decide (children (deref t best) = [])
                 then <[best := set_untried_actions (deref t best)
                                  (get_legal_actions game1)]> t
                 else t).
      assert (H1 : wf t1 /\ root_ok t1 /\ same_links t t1).
      { unfold t1. destruct (bool_decide (untried_actions (deref t best) = [])
                             && bool_decide (children (deref t best) = [])) eqn:E.
        - apply andb_true_iff in E as [Eu%bool_decide_eq_true Ec%bool_decide_eq_true].
          apply set_untried_ok; try done. apply get_legal_actions_NoDup.
        - split; [done|]. split; [done|]. apply same_links_refl. }
      destruct H1 as (W1 & R1 & S1).
      assert (L1 : length t1 = length t) by apply S1.
      destruct (IH t1 best game1 w1 W1 R1 ltac:(lia) ltac:(lia))
        as (t' & s & game' & w' & E & W' & R' & S' & Hs & Hexit).
      exists t', s, game', w'. split; [exact E|]. split; [done|]. split; [done|].
      split; [by apply (same_links_trans t t1)|]. split; [lia|done].
    + exfalso. unfold best_child in Ebest.
      apply negb_true_iff, bool_decide_eq_false in Echildren.
      destruct (children (deref t node)); [done|discriminate Ebest].
  - exists t, node, game, w. split; [done|]. split; [done|]. split; [done|].
    split; [apply same_links_refl|]. split; [lia|done].
Qed.

(** *** Expansion *)

Lemma list_remove_spec {A} `{EqDecision A} (x : A) (l : list A) :
  x ∈ l -> exists rest, list_remove x l = Some rest /\ Permutation l (x :: rest).
Proof.
  induction l as [|y l IH]; intros Hx; [by apply elem_of_nil in Hx|].
  simpl. destruct (decide (y = x)) as [->|Hne].
  - by exists l.
  - apply elem_of_cons in Hx as [->|Hx]; [done|].
    destruct (IH Hx) as (rest & -> & Hperm). exists (y :: rest). split; [done|].
    rewrite Hperm. apply perm_swap.
Qed.

Lemma dict_set_fresh {K V} `{EqDecision K} (k : K) (v : V) (d : list (K * V)) :
  k ∉ map fst d -> dict_set k v d = d ++ [(k, v)].
Proof.
  induction d as [|[k' v'] d IH]; intros Hk; simpl; [done|].
  destruct (decide (k = k')) as [->|Hne].
  - exfalso. apply Hk. left.
  - rewrite IH; [done|]. intros Hin. apply Hk. by right.
Qed.

Lemma first_untried_elem scored play_actions u :
  first_untried scored play_actions = Some u -> u ∈ play_actions.
Proof.
  unfold first_untried. intros Hhead. apply head_Some_elem_of in Hhead.
  apply list_elem_of_In, in_flat_map in Hhead as (sa & _ & Hin).
  apply filter_In in Hin as [Hin _]. by apply list_elem_of_In.
Qed.

Lemma _select_untried_action_spec (n : MCTSNode) (game : GameSimulator) (w : World) :
  untried_actions n <> [] ->
  exists a w', _select_untried_action table n game w = Some (a, w')
               /\ a ∈ untried_actions n.
Proof.
  intros Hne. unfold _select_untried_action.
  destruct (untried_actions n) as [|first rest] eqn:Eu; [done|].
  destruct (bool_decide (phase game = PLAYING)); [|exists first, w; split; [done|left]].
  destruct (List.filter _ (first :: rest)) as [|pa pas] eqn:Eplays;
    [exists first, w; split; [done|left]|].
  rewrite <- Eplays.
  match goal with
  | |- context [evaluate_plays ?t ?h ?j ?s ?b ?c ?r ?cfg ?w0] =>
      destruct (evaluate_plays_total t h j s b c r cfg w0) as [[scored w1] ->]
  end.
  cbn [mbind option_bind]. eexists _, w1. split; [done|].
  destruct (first_untried scored _) as [u|] eqn:Efirst; simpl; [|left].
  apply first_untried_elem in Efirst.
  apply list_elem_of_In, filter_In in Efirst as [Hin _]. by apply list_elem_of_In.
Qed.

Lemma sum_visits_app (f : nat -> Z) (l k : list nat) :
  fold_right Z.add 0 (map f (l ++ k))
  = fold_right Z.add 0 (map f l) + fold_right Z.add 0 (map f k).
Proof. induction l as [|c l IH]; simpl; [done|]. rewrite IH. lia. Qed.

Lemma _expand_spec (t : list MCTSNode) (s : nat) (game : GameSimulator) (w : World) :
  wf t -> root_ok t -> (s < length t)%nat -> untried_actions (deref t s) <> [] ->
  exists t' game' w',
    _expand table t s game w = Some (t', length t, game', w')
    /\ wf t' /\ root_ok t' /\ length t' = S (length t)
    /\ (forall i, visits (deref t' i) = visits (deref t i))
    /\ child_visits t' (deref t' 0) = child_visits t (deref t 0).
Proof.
  intros W [Hterm Hroot] Hs Hne. unfold _expand.
  set (n := deref t s) in *.
  destruct (untried_actions n) as [|u0 us] eqn:Eu; [done|]. rewrite <- Eu.
  destruct (_select_untried_action_spec n game w) as (a & w1 & -> & Ha);
    [by rewrite Eu|].
  cbn [mbind option_bind].
  destruct (list_remove_spec a (untried_actions n) Ha) as (rest & -> & Hperm).
  cbn [mbind option_bind].
  destruct (apply_action_total game a w1) as [[game2 w2] ->].
  cbn [mbind option_bind].
  set (t1 := <[s := set_untried_actions n rest]> t).
  assert (L1 : length t1 = length t) by apply length_insert.
  rewrite L1.
  set (child := mkMCTSNode (Some a) 0 0 0 (Some s) [] (get_legal_actions game2) None).
  assert (E2 : deref (t1 ++ [child]) s = set_untried_actions n rest).
  { rewrite deref_app_l by lia. unfold t1. rewrite deref_insert by done.
    by rewrite decide_True. }
  rewrite E2. cbn [set_untried_actions children].
  assert (Hkeys : NoDup (map fst (children n) ++ untried_actions n))
    by apply (wf_keys t W s Hs).
  assert (Hfresh : a ∉ map fst (children n)).
  { intros Hin. apply NoDup_app in Hkeys as (_ & Hdisj & _). by apply (Hdisj a). }
  rewrite (dict_set_fresh _ _ _ Hfresh).
  set (N := set_children (set_untried_actions n rest)
              (children n ++ [(a, length t)])).
  set (t3 := <[s := N]> (t1 ++ [child])).
  assert (L3 : length t3 = S (length t)).
  { unfold t3. rewrite length_insert, length_app, L1. simpl. lia. }
  assert (D : forall i,
            deref t3 i = if decide (i = s) then N
                         else if decide (i = length t) then child else deref t i).
  { intros i. unfold t3. rewrite deref_insert by (rewrite length_app, L1; simpl; lia).
    destruct (decide (s = i)) as [->|Hsi].
    - by rewrite decide_True.
    - rewrite decide_False by done.
      destruct (decide (i = length t)) as [->|Hil].
      + rewrite <- L1. apply deref_app_new.
      + destruct (decide (i < length t)%nat).
        * rewrite deref_app_l by lia. unfold t1. rewrite deref_insert by done.
          by rewrite decide_False.
        * rewrite !deref_out; [done|lia|rewrite length_app, L1; simpl; lia]. }
  assert (Dold : forall i, (i < length t)%nat ->
            action (deref t3 i) = action (deref t i)
            /\ parent (deref t3 i) = parent (deref t i)
            /\ visits (deref t3 i) = visits (deref t i)
            /\ _game_state (deref t3 i) = _game_state (deref t i)
            /\ children (deref t3 i)
               = (if decide (i = s) then children n ++ [(a, length t)]
                  else children (deref t i))
            /\ untried_actions (deref t3 i)
               = (if decide (i = s) then rest else untried_actions (deref t i))).
  { intros i Hi. rewrite D. destruct (decide (i = s)) as [->|]; [done|].
    by rewrite decide_False by lia. }
  assert (Dnew : deref t3 (length t) = child).
  { rewrite D. rewrite decide_False by lia. by rewrite decide_True. }
  assert (Hsub : forall i c, (i < length t)%nat ->
            c ∈ child_refs (deref t i) -> c ∈ child_refs (deref t3 i)).
  { intros i c Hi Hc. unfold child_refs in *.
    destruct (Dold i Hi) as (_ & _ & _ & _ & -> & _).
    destruct (decide (i = s)) as [->|]; [|done].
    rewrite map_app. apply elem_of_app. by left. }
  exists t3, game2, w2. split; [done|].
  assert (W3 : wf t3).
  { constructor; rewrite ?L3.
    - lia.
    - destruct (Dold 0%nat (wf_nonempty t W)) as (_ & -> & _). apply W.
    - intros i Hi Hp. destruct (decide (i = length t)) as [->|Hil].
      + rewrite Dnew in Hp. discriminate Hp.
      + destruct (Dold i ltac:(lia)) as (_ & Ep & _). rewrite Ep in Hp.
        apply (wf_orphan t W); [lia|done].
    - intros i p Hi Hp. destruct (decide (i = length t)) as [->|Hil].
      + rewrite Dnew in Hp. injection Hp as <-. split; [done|].
        unfold child_refs. destruct (Dold s Hs) as (_ & _ & _ & _ & -> & _).
        rewrite decide_True by done. rewrite map_app. apply elem_of_app. right. left.
      + destruct (Dold i ltac:(lia)) as (_ & Ep & _). rewrite Ep in Hp.
        destruct (wf_parent t W i p ltac:(lia) Hp) as [Hlt Hin].
        split; [done|]. apply Hsub; [lia|done].
    - intros i a' c Hi Hin.
      assert (Hold : (i < length t)%nat -> (a', c) ∈ children (deref t i) ->
                (c < S (length t))%nat /\ parent (deref t3 c) = Some i
                /\ action (deref t3 c) = Some a').
      { intros Hi' Hin'. destruct (wf_child t W i a' c Hi' Hin') as (Hc & Hp & Hact).
        destruct (Dold c Hc) as (-> & -> & _). split; [lia|done]. }
      destruct (decide (i = length t)) as [->|Hil].
      { rewrite Dnew in Hin. by apply elem_of_nil in Hin. }
      destruct (Dold i ltac:(lia)) as (_ & _ & _ & _ & Ec & _). rewrite Ec in Hin.
      destruct (decide (i = s)) as [->|]; [|apply Hold; [lia|done]].
      apply elem_of_app in Hin as [Hin|Hin]; [by apply Hold|].
      apply list_elem_of_singleton in Hin. injection Hin as -> ->.
      rewrite Dnew. split; [lia|done].
    - intros i Hi. unfold child_refs. destruct (decide (i = length t)) as [->|Hil].
      { rewrite Dnew. apply NoDup_nil_2. }
      destruct (Dold i ltac:(lia)) as (_ & _ & _ & _ & -> & _).
      destruct (decide (i = s)) as [->|]; [|apply (wf_refs t W); lia].
      rewrite map_app. apply NoDup_app. split; [by apply (wf_refs t W)|].
      split; [|apply NoDup_singleton].
      intros c Hc Hc'. apply list_elem_of_singleton in Hc'. subst c.
      apply list_elem_of_fmap in Hc as ([a' c] & Ec & Hin). simpl in Ec. subst c.
      destruct (wf_child t W s a' (length t) Hs Hin) as (Hlt & _). lia.
    - intros i Hi. destruct (decide (i = length t)) as [->|Hil].
      { rewrite Dnew. simpl. apply get_legal_actions_NoDup. }
      destruct (Dold i ltac:(lia)) as (_ & _ & _ & _ & -> & ->).
      destruct (decide (i = s)) as [->|]; [|apply (wf_keys t W); lia].
      rewrite map_app. simpl. rewrite <- app_assoc. simpl.
      by rewrite <- Hperm. }
  split; [done|].
  destruct (Dold 0%nat (wf_nonempty t W)) as (_ & _ & _ & Eg & Ec & Eun).
  split; [|split; [done|split]].
  - unfold root_ok, is_terminal. rewrite Eg, Ec, Eun. split; [done|].
    destruct (decide (0%nat = s)) as [<-|]; [|done].
    right. by destruct (children n).
  - intros i. rewrite D. destruct (decide (i = s)) as [->|]; [done|].
    destruct (decide (i = length t)) as [->|]; [|done].
    by rewrite deref_out.
  - assert (V : forall i, visits (deref t3 i) = visits (deref t i)).
    { intros i. rewrite D. destruct (decide (i = s)) as [->|]; [done|].
      destruct (decide (i = length t)) as [->|]; [|done]. by rewrite deref_out. }
    unfold child_visits, child_refs. rewrite Ec.
    destruct (decide (0%nat = s)) as [<-|].
    + rewrite map_app, sum_visits_app. simpl. rewrite Dnew. simpl. fold n.
      rewrite (sum_visits_same (fun c => visits (deref t c))
                 (fun c => visits (deref t3 c))); [lia|done].
    + by apply sum_visits_same.
Qed.

(** *** Rollouts *)

Lemma clone_phase (g : GameSimulator) (w : World) :
  phase (clone g w).1 = phase g \/ phase (clone g w).1 = BLIND_SELECT.
Proof.
  unfold clone. destruct (copy_jokers (jokers g) w) as [js w1].
  destruct (Random_unseeded (amb w1)) as [r a].
  unfold __post_init__. cbn [deck hand].
  destruct (map _ (deck g)); [destruct (map _ (hand g))|]; try (by left).
  right. unfold reset. destruct (Random_unseeded _) as [r' a'].
  unfold shuffle_deck. destruct (rng_shuffle _ _) as [d r'']. reflexivity.
Qed.

(** [random.choice] returns an element of its argument. *)
Definition choice_in_range : Prop :=
  forall (n : nat) (a : Ambient), (0 < n)%nat -> ((random_choice n a).1 < n)%nat.

Lemma simulate_loop_total (cfg : MCTSConfig) :
  choice_in_range ->
  forall n game w, is_Some (simulate_loop table n cfg game w).
Proof.
  intros Hchoice. induction n as [|n IH]; intros game w; [done|].
  cbn [simulate_loop]. destruct (is_game_over game); [done|].
  destruct (use_heuristic_rollouts cfg).
  - destruct (phase game); try apply IH.
    match goal with
    | |- context [get_best_play ?t ?h ?j ?s ?b ?c ?r ?w0] =>
        destruct (get_best_play_total t h j s b c r w0) as [[best w1] ->]
    end.
    cbn [mbind option_bind]. destruct best as [b|]; [|done].
    destruct (play_hand_total table (sa_card_indices b) game w1) as [[[r g] w2] ->].
    cbn [mbind option_bind]. apply IH.
  - destruct (get_legal_actions game) as [|a0 actions] eqn:Eactions; [done|].
    specialize (Hchoice (length (a0 :: actions)) (amb w) ltac:(simpl; lia)).
    destruct (random_choice (length (a0 :: actions)) (amb w)) as [i a]. simpl in Hchoice.
    destruct (lookup_lt_is_Some_2 (a0 :: actions) i) as [chosen ->]; [simpl; lia|].
    cbn [mbind option_bind].
    destruct (apply_action_total game chosen (mkWorld (heap w) a)) as [[g w1] ->].
    cbn [mbind option_bind]. apply IH.
Qed.

Lemma _simulate_total (cfg : MCTSConfig) (game : GameSimulator) (w : World) :
  choice_in_range -> is_Some (_simulate table cfg game w).
Proof.
  intros Hchoice. unfold _simulate.
  destruct (simulate_loop_total cfg Hchoice (Z.to_nat (max_rollout_depth cfg)) game w)
    as [[g w1] ->].
  done.
Qed.

(** *** One round of the search *)

Lemma iteration_spec (game : GameSimulator) (m : MCTS) (w : World) :
  choice_in_range ->
  search_state_ok m ->
  exists m' w' s,
    iteration table game m w = Some (m', w')
    /\ search_state_ok m'
    /\ config m' = config m
    /\ iterations m' = iterations m + 1
    /\ s <> 0%nat
    /\ (forall i, on_path (nodes m') s i ->
          visits (deref (nodes m') i) = visits (deref (nodes m) i) + 1)
    /\ (forall i, ~ on_path (nodes m') s i ->
          visits (deref (nodes m') i) = visits (deref (nodes m) i)).
Proof.
  intros Hchoice (Hroot & W & R & [Hsum Hpos]). unfold iteration. rewrite Hroot.
  cbn [mbind option_bind]. destruct (clone game w) as [sim_game w0].
  set (t := nodes m) in *.
  destruct (_select_spec (config m) (length t) t 0%nat sim_game w0 W R
              (wf_nonempty t W) ltac:(lia))
    as (t1 & s1 & g1 & w1 & -> & W1 & R1 & S1 & Hs1 & Hexit).
  cbn [mbind option_bind].
  assert (L1 : length t1 = length t) by apply S1.
  assert (V1 : forall i, visits (deref t1 i) = visits (deref t i))
    by (intros i; apply S1).
  assert (Hstep : exists t2 s g2 w2,
            (if negb (is_terminal (deref t1 s1))
                && negb (bool_decide (untried_actions (deref t1 s1) = []))
             then _expand table t1 s1 g1 w1 else Some (t1, s1, g1, w1))
            = Some (t2, s, g2, w2)
            /\ wf t2 /\ root_ok t2 /\ (s < length t2)%nat /\ s <> 0%nat
            /\ (forall i, visits (deref t2 i) = visits (deref t i))
            /\ child_visits t2 (deref t2 0) = child_visits t (deref t 0)
            /\ (forall i, (0 < i < length t2)%nat -> i <> s -> 1 <= visits (deref t2 i))
            /\ 0 <= visits (deref t2 s)).
  { destruct (negb (is_terminal (deref t1 s1))
              && negb (bool_decide (untried_actions (deref t1 s1) = []))) eqn:Econd.
    - apply andb_true_iff in Econd as [_ Hne%negb_true_iff%bool_decide_eq_false].
      destruct (_expand_spec t1 s1 g1 w1 W1 R1 ltac:(lia) Hne)
        as (t2 & g2 & w2 & -> & W2 & R2 & L2 & V2 & Hsum2).
      exists t2, (length t1), g2, w2. split; [done|]. split; [done|]. split; [done|].
      split; [lia|]. split; [pose proof (wf_nonempty t W); lia|].
      split; [intros i; by rewrite V2|].
      split; [by rewrite Hsum2, (same_links_child_visits t t1)|].
      split.
      + intros i Hi Hne'. rewrite V2, V1. apply Hpos. lia.
      + rewrite V2, V1, deref_out by lia. done.
    - exists t1, s1, g1, w1. split; [done|]. split; [done|]. split; [done|].
      split; [lia|]. split.
      { intros ->. destruct R1 as [Hterm Hhas]. rewrite Hterm in Econd. simpl in Econd.
        apply negb_false_iff, bool_decide_eq_true in Econd.
        unfold is_fully_expanded in Hexit. rewrite Econd in Hexit. simpl in Hexit.
        apply negb_false_iff, bool_decide_eq_true in Hexit.
        destruct Hhas as [Hhas|Hhas]; by apply Hhas. }
      split; [done|]. split; [by apply same_links_child_visits|].
      split.
      + intros i Hi _. rewrite V1. apply Hpos. lia.
      + rewrite V1. destruct (decide (s1 = 0%nat)) as [->|].
        * rewrite <- Hsum. unfold child_visits.
          assert (Hnn : forall l : list nat,
                    (forall c, c ∈ l -> 0 <= visits (deref t c)) ->
                    0 <= fold_right Z.add 0 (map (fun c => visits (deref t c)) l)).
          { induction l as [|c l IHl]; intros Hl; simpl; [done|].
            specialize (Hl c (list_elem_of_here _ _)) as Hc.
            specialize (IHl (fun c' Hc' => Hl c' (list_elem_of_further _ _ _ Hc'))). lia. }
          apply Hnn. intros c Hc.
          apply list_elem_of_fmap in Hc as ([a c'] & Ec & Hin). simpl in Ec. subst c'.
          destruct (wf_child t W 0%nat a c (wf_nonempty t W) Hin) as (Hc & Hp & _).
          destruct (wf_parent t W c 0%nat Hc Hp) as [Hlt _].
          specialize (Hpos c ltac:(lia)). lia.
        * specialize (Hpos s1 ltac:(lia)). lia. }
  destruct Hstep as (t2 & s & g2 & w2 & -> & W2 & R2 & Hs & Hs0 & V2 & Hsum2 & Hpos2 & Hs2).
  cbn [mbind option_bind].
  destruct (_simulate_total (config m) g2 w2 Hchoice) as [[[value g3] w3] ->].
  cbn [mbind option_bind].
  destruct (_backpropagate_spec value (is_won g3) (length t2) t2 s W2 Hs Hs)
    as (t3 & -> & S3 & Hon0 & Hoff0 & Hmono & Hsum3).
  assert (Hon : forall i, on_path t2 s i -> visits (deref t3 i) = visits (deref t2 i) + 1)
    by (intros i Hi; by rewrite (Hon0 i Hi)).
  assert (Hoff : forall i, ~ on_path t2 s i -> visits (deref t3 i) = visits (deref t2 i))
    by (intros i Hi; by rewrite (Hoff0 i Hi)).
  cbn [mbind option_bind]. eexists _, w3, s. split; [done|].
  unfold search_state_ok, counts_ok. cbn [nodes config iterations root].
  assert (L3 : length t3 = length t2) by apply S3.
  split; [|split; [done|split; [done|split; [done|split]]]].
  - split; [done|]. split; [by apply (same_tree_wf t2)|].
    split; [by apply (same_tree_root_ok t2)|]. split.
    + rewrite (Hsum3 Hs0), Hsum2, Hsum.
      rewrite (Hon 0%nat (on_path_root t2 s W2 Hs)), V2. done.
    + intros i Hi. destruct (decide (i = s)) as [->|Hne].
      * rewrite (Hon s (on_path_start t2 s)). lia.
      * specialize (Hpos2 i ltac:(lia) Hne). specialize (Hmono i). lia.
  - intros i Hi. rewrite <- V2. apply Hon.
    by apply (same_tree_on_path t3 t2 _ _ (same_tree_sym _ _ S3)).
  - intros i Hi. rewrite <- V2. apply Hoff. intros Hpath. apply Hi.
    by apply (same_tree_on_path t2 t3).
Qed.

(** *** The search *)

Lemma search_loop_spec (start_time : Q) (game : GameSimulator) :
  choice_in_range ->
  forall fuel m w,
    search_state_ok m ->
    max_iterations (config m) <= iterations m + Z.of_nat fuel ->
    visits (deref (nodes m) 0) = iterations m ->
    exists m' w',
      search_loop table fuel start_time game m w = Some (m', w')
      /\ search_state_ok m'
      /\ config m' = config m
      /\ visits (deref (nodes m') 0) = iterations m'
      /\ iterations m <= iterations m' <= Z.max (iterations m) (max_iterations (config m)).
Proof.
  intros Hchoice. induction fuel as [|fuel IH]; intros m w Hok Hfuel Hvisits.
  - cbn [search_loop]. unfold _should_continue.
    destruct (max_iterations (config m) <=? iterations m) eqn:E;
      [|apply Z.leb_gt in E; lia].
    exists m, w. split; [done|]. split; [done|]. split; [done|]. split; [done|]. lia.
  - cbn [search_loop]. unfold _should_continue.
    destruct (max_iterations (config m) <=? iterations m) eqn:E.
    { exists m, w. split; [done|]. split; [done|]. split; [done|]. split; [done|]. lia. }
    apply Z.leb_gt in E.
    destruct (time_time (amb w)) as [now a].
    destruct (Float.leb _ _).
    { eexists m, _. split; [done|]. split; [done|]. split; [done|]. split; [done|]. lia. }
    destruct (iteration_spec game m (mkWorld (heap w) a) Hchoice Hok)
      as (m1 & w1 & s & -> & Hok1 & Hcfg & Hiter & Hs0 & Hon & _).
    cbn [mbind option_bind].
    assert (Hroot1 : visits (deref (nodes m1) 0) = iterations m1).
    { destruct Hok1 as (_ & W1 & _).
      assert (Hs : (s < length (nodes m1))%nat).
      { destruct (decide (s < length (nodes m1))%nat) as [|Hge]; [done|].
        exfalso. pose proof (Hon s (on_path_start _ s)) as Hv.
        rewrite deref_out in Hv by lia.
        destruct Hok as (_ & W & _ & _ & Hpos).
        destruct (decide (s < length (nodes m))%nat).
        - specialize (Hpos s ltac:(lia)). simpl in Hv. lia.
        - rewrite deref_out in Hv by lia. simpl in Hv. lia. }
      rewrite (Hon 0%nat (on_path_root _ s W1 Hs)). lia. }
    destruct (IH m1 w1 Hok1 ltac:(rewrite Hcfg; lia) Hroot1)
      as (m' & w' & -> & Hok' & Hcfg' & Hroot' & Hbound).
    exists m', w'. rewrite Hcfg in *. split; [done|]. split; [done|]. split; [done|].
    split; [done|]. lia.
Qed.

Lemma max_by_from_spec {A} (key : A -> Z) (l : list A) : forall best,
  let m := Py.max_by_from key best l in
  (m = best \/ m ∈ l) /\ key best <= key m /\ forall x, x ∈ l -> key x <= key m.
Proof.
  induction l as [|x l IH]; intros best; simpl.
  - split; [by left|]. split; [lia|]. by intros x Hx%elem_of_nil.
  - destruct (key best <? key x) eqn:E.
    + apply Z.ltb_lt in E. destruct (IH x) as (Hin & Hle & Hall). split; [|split].
      * destruct Hin as [->|Hin]; right; [left|by right].
      * lia.
      * intros y [->|Hy]%elem_of_cons; auto.
    + apply Z.ltb_ge in E. destruct (IH best) as (Hin & Hle & Hall). split; [|split].
      * destruct Hin as [->|Hin]; [by left|right; by right].
      * done.
      * intros y [->|Hy]%elem_of_cons; [lia|auto].
Qed.

Lemma max_by_spec {A} (key : A -> Z) (l : list A) :
  l <> [] ->
  exists m, Py.max_by key l = Some m /\ m ∈ l /\ forall x, x ∈ l -> key x <= key m.
Proof.
  destruct l as [|x l]; [done|]. intros _. simpl.
  destruct (max_by_from_spec key l x) as (Hin & Hle & Hall).
  eexists. split; [done|]. split.
  - destruct Hin as [->|Hin]; [left|by right].
  - intros y [->|Hy]%elem_of_cons; auto.
Qed.

Lemma child_visits_lower (t : list MCTSNode) :
  wf t -> counts_ok t ->
  Z.of_nat (length (children (deref t 0))) <= visits (deref t 0).
Proof.
  intros W [<- Hpos]. unfold child_visits, child_refs.
  assert (Hall : forall a c, (a, c) ∈ children (deref t 0) -> 1 <= visits (deref t c)).
  { intros a c Hin.
    destruct (wf_child t W 0%nat a c (wf_nonempty t W) Hin) as (Hc & Hp & _).
    destruct (wf_parent t W c 0%nat Hc Hp) as [Hlt _]. apply Hpos. lia. }
  induction (children (deref t 0)) as [|[a c] l IH]; simpl; [done|].
  specialize (Hall a c (list_elem_of_here _ _)) as Hc.
  specialize (IH (fun a' c' Hin => Hall a' c' (list_elem_of_further _ _ _ Hin))). lia.
Qed.

(** What [best_action] answers at the root between two rounds. *)
Lemma best_action_spec (t : list MCTSNode) :
  wf t -> counts_ok t ->
  let r := deref t 0 in
  (visits r = 0 -> children r = [] /\ best_action t r = None)
  /\ (0 < visits r ->
      exists a c, best_action t r = Some a
                  /\ (a, c) ∈ children r
                  /\ 1 <= visits (deref t c)
                  /\ forall c', c' ∈ child_refs r -> visits (deref t c') <= visits (deref t c)).
Proof.
  intros W C r. pose proof (child_visits_lower t W C) as Hlow. fold r in Hlow.
  split.
  - intros Hzero. assert (children r = []) as E.
    { destruct (children r); [done|simpl in Hlow; lia]. }
    split; [done|]. unfold best_action. by rewrite E.
  - intros Hpos. destruct C as [Hsum Hvis]. fold r in Hsum.
    assert (Hne : map snd (children r) <> []).
    { intros E. unfold child_visits, child_refs in Hsum. rewrite E in Hsum.
      simpl in Hsum. lia. }
    destruct (max_by_spec (fun i => visits (deref t i)) _ Hne) as (c & E & Hin & Hmax).
    apply list_elem_of_fmap in Hin as ([a c'] & Ec & Hin). simpl in Ec. subst c'.
    destruct (wf_child t W 0%nat a c (wf_nonempty t W) Hin) as (Hc & Hp & Hact).
    destruct (wf_parent t W c 0%nat Hc Hp) as [Hlt _].
    exists a, c. unfold best_action. fold r. rewrite E. cbn [mbind option_bind].
    split; [done|]. split; [done|]. split; [apply Hvis; lia|]. exact Hmax.
Qed.

Lemma search_spec (m : MCTS) (game : GameSimulator) (w : World) :
  choice_in_range ->
  exists res m' w',
    search table m game w = Some (res, m', w')
    /\ config m' = config m
    /\ let t := nodes m' in
       let r := deref t 0 in
       wf t
       /\ child_visits t r = visits r
       /\ (forall i, (0 < i < length t)%nat -> 1 <= visits (deref t i))
       /\ (get_legal_actions game = [] -> res = None /\ visits r = 0)
       /\ (get_legal_actions game <> [] ->
           visits r = iterations m'
           /\ 0 <= iterations m' <= Z.max 0 (max_iterations (config m)))
       /\ (visits r = 0 -> children r = [] /\ res = None)
       /\ (0 < visits r ->
           exists a c, res = Some a
                       /\ (a, c) ∈ children r
                       /\ 1 <= visits (deref t c)
                       /\ forall c', c' ∈ child_refs r ->
                            visits (deref t c') <= visits (deref t c)).
Proof.
  intros Hchoice. unfold search.
  pose proof (clone_phase game w) as Hphase.
  destruct (clone game w) as [cloned w0]. simpl in Hphase.
  set (root_node := mkMCTSNode None 0 0 0 None [] (get_legal_actions game) (Some cloned)).
  assert (W0 : wf [root_node]).
  { constructor; simpl.
    - lia.
    - done.
    - intros i Hi _. lia.
    - intros i p Hi. assert (i = 0%nat) as -> by lia. done.
    - intros i a c Hi. assert (i = 0%nat) as -> by lia. by intros Hin%elem_of_nil.
    - intros i Hi. assert (i = 0%nat) as -> by lia. apply NoDup_nil_2.
    - intros i Hi. assert (i = 0%nat) as -> by lia. simpl. apply get_legal_actions_NoDup. }
  assert (C0 : counts_ok [root_node]).
  { split; [done|]. simpl. intros i Hi. lia. }
  cbn [untried_actions root_node].
  destruct (get_legal_actions game) as [|a0 actions] eqn:Eactions.
  - eexists None, _, w0. split; [done|]. split; [done|]. cbn [nodes].
    split; [done|]. split; [done|]. split; [apply C0|]. split; [done|].
    split; [done|]. split; [done|]. intros Hpos. simpl in Hpos. lia.
  - destruct (time_time (amb w0)) as [start_time a].
    cbn [config root nodes total_rollouts].
    set (m0 := mkMCTS (config m) (Some 0%nat) [root_node] 0 (total_rollouts m)).
    assert (Hok0 : search_state_ok m0).
    { split; [done|]. split; [done|]. split; [|done]. split.
      - simpl. unfold is_game_over. apply bool_decide_eq_false. intros E.
        destruct Hphase as [Hp|Hp]; [|congruence].
        rewrite Hp in E. unfold get_legal_actions in Eactions. by rewrite E in Eactions.
      - left. simpl. rewrite ?Eactions. done. }
    destruct (search_loop_spec start_time game Hchoice
                (Z.to_nat (max_iterations (config m))) m0 (mkWorld (heap w0) a) Hok0)
      as (m' & w' & -> & (Hroot' & W' & R' & C') & Hcfg & Hvisits & Hbound).
    { simpl. lia. }
    { done. }
    cbn [mbind option_bind]. eexists _, m', w'. split; [done|]. split; [done|].
    cbn zeta. split; [done|]. split; [apply C'|]. split; [apply C'|].
    split; [done|]. split.
    { intros _. split; [done|]. simpl in Hbound. lia. }
    destruct (best_action_spec (nodes m') W' C') as [Hzero Hpos]. split; assumption.
Qed.

(** *** Properties of the search *)

(** The state in which [search] enters its loop. *)
Lemma root_state_ok (cfg : MCTSConfig) (g : GameSimulator) (l : list MCTSAction)
    (k r : Z) :
  NoDup l -> l <> [] -> is_game_over g = false ->
  search_state_ok
    (mkMCTS cfg (Some 0%nat) [mkMCTSNode None 0 0 0 None [] l (Some g)] k r).
Proof.
  intros Hl Hne Hover. split; [done|]. split; [|split].
  - constructor; simpl.
    + lia.
    + done.
    + intros i Hi _. lia.
    + intros i p Hi. assert (i = 0%nat) as -> by lia. done.
    + intros i a c Hi. assert (i = 0%nat) as -> by lia. by intros Hin%elem_of_nil.
    + intros i Hi. assert (i = 0%nat) as -> by lia. apply NoDup_nil_2.
    + intros i Hi. assert (i = 0%nat) as -> by lia. done.
  - split; [done|]. by left.
  - split; [done|]. simpl. intros i Hi. lia.
Qed.

(** X1. [_backpropagate] from a node of a well-formed tree returns, adds one
    visit, the rollout value and (on a win) one win to exactly the nodes of
    the parent chain from the start node up to the root, which it always
    reaches, and leaves every other node and all links as they are. *)
Theorem backpropagate_along_parents (value : Q) (is_win : bool)
    (t : list MCTSNode) (s : nat) :
  wf t -> (s < length t)%nat ->
  exists t',
    _backpropagate (length t) t (Some s) value is_win = Some t'
    /\ same_tree t t'
    /\ on_path t s 0
    /\ (forall i, on_path t s i ->
          visits (deref t' i) = visits (deref t i) + 1
          /\ total_value (deref t' i) = Float.add (total_value (deref t i)) value
          /\ wins (deref t' i) = if is_win then wins (deref t i) + 1 else wins (deref t i))
    /\ (forall i, ~ on_path t s i -> deref t' i = deref t i).
Proof.
  intros W Hs.
  destruct (_backpropagate_spec value is_win (length t) t s W Hs Hs)
    as (t' & E & S & Hon & Hoff & _ & _).
  exists t'. split; [exact E|]. split; [exact S|].
  split; [by apply on_path_root|]. split; [|exact Hoff].
  intros i Hi. by rewrite (Hon i Hi).
Qed.




(** X5. [get_legal_actions] never lists an action twice; a finished game has
    none, a shop only [END_SHOP], and a blind selection starts with
    [START_BLIND], followed by [SKIP_BLIND] unless the blind is the boss. *)
Theorem get_legal_actions_distinct (game : GameSimulator) :
  NoDup (get_legal_actions game)
  /\ (phase game = GAME_OVER -> get_legal_actions game = [])
  /\ (phase game = SHOP -> get_legal_actions game = [mkMCTSAction END_SHOP []])
  /\ (phase game = BLIND_SELECT ->
      get_legal_actions game
      = mkMCTSAction START_BLIND []
        :: (if bool_decide (blind_type game = BOSS) then []
            else [mkMCTSAction SKIP_BLIND []])).
Proof.
  split; [apply get_legal_actions_NoDup|].
  unfold get_legal_actions.
  split; [by intros ->|]. split; [by intros ->|]. intros ->.
  by destruct (blind_type game).
Qed.

End SearchTree.

Section SearchTreeExamples.

Import Lcg.
Import Mcts.

(** Integer parts of the square root and of the binary logarithm, to run
    the search on examples. *)
#[local] Instance coarse_math : MathLib := {|
  math_sqrt := fun x => inject_Z (Z.sqrt (Qfloor x));
  math_log := fun x => inject_Z (Z.log2 (Qfloor x));
|}.

Lemma lcg_choice_in_range : choice_in_range.
Proof.
  intros n a Hn. unfold random_choice, lib, below. cbn [fst].
  rewrite Z.max_r by lia.
  pose proof (Z.mod_pos_bound (step (generator a) / 2 ^ 32) (Z.of_nat n) ltac:(lia)).
  lia.
Qed.

Definition a_start : MCTSAction := mkMCTSAction START_BLIND [].
Definition a_skip : MCTSAction := mkMCTSAction SKIP_BLIND [].
Definition a_play : MCTSAction := mkMCTSAction PLAY [0].

(** A root with two children, the first of which has a child. *)
Definition small_tree : list MCTSNode :=
  [ mkMCTSNode None 3 (3 # 2) 0 None [(a_start, 1%nat); (a_skip, 3%nat)] [] None;
    mkMCTSNode (Some a_start) 2 1 0 (Some 0%nat) [(a_play, 2%nat)] [] None;
    mkMCTSNode (Some a_play) 1 (1 # 2) 0 (Some 1%nat) [] [] None;
    mkMCTSNode (Some a_skip) 1 (1 # 2) 0 (Some 0%nat) [] [] None ].

Lemma small_tree_wf : wf small_tree.
Proof.
  constructor.
  - simpl. lia.
  - reflexivity.
  - intros [|[|[|[|i]]]] Hi Hp; simpl in Hi; try lia; try done.
  - intros [|[|[|[|i]]]] p Hi Hp; simpl in Hi; try lia; try done;
      injection Hp as <-; (split; [lia|]); cbn;
      repeat first [apply list_elem_of_here | apply list_elem_of_further].
  - intros [|[|[|[|i]]]] a c Hi Hin; simpl in Hi; try lia; cbn in Hin;
      repeat (apply elem_of_cons in Hin as [[= -> ->]|Hin]);
      try (by apply elem_of_nil in Hin); (split; [simpl; lia|done]).
  - intros [|[|[|[|i]]]] Hi; simpl in Hi; try lia;
      apply (bool_decide_unpack _); vm_compute; exact I.
  - intros [|[|[|[|i]]]] Hi; simpl in Hi; try lia;
      apply (bool_decide_unpack _); vm_compute; exact I.
Qed.

Lemma backpropagate_along_parents_witness :
  exists t',
    _backpropagate (length small_tree) small_tree (Some 2%nat) (1 # 2) true = Some t'
    /\ same_tree small_tree t'
    /\ on_path small_tree 2 0
    /\ (forall i, on_path small_tree 2 i ->
          visits (deref t' i) = visits (deref small_tree i) + 1
          /\ total_value (deref t' i) = Float.add (total_value (deref small_tree i)) (1 # 2)
          /\ wins (deref t' i) = if true then wins (deref small_tree i) + 1
                                 else wins (deref small_tree i))
    /\ (forall i, ~ on_path small_tree 2 i -> deref t' i = deref small_tree i).
Proof.
  apply (backpropagate_along_parents (1 # 2) true small_tree 2 small_tree_wf).
  simpl. lia.
Defined.

(** The same run, evaluated: the sibling keeps its counts. *)
Example backpropagate_small_tree :
  map (fun n : MCTSNode => (visits n, total_value n, wins n))
    <$> _backpropagate 4 small_tree (Some 2%nat) (1 # 2) true
  = Some [(4, 2%Q, 1); (3, (3 # 2)%Q, 1); (2, 1%Q, 1); (1, (1 # 2)%Q, 0)].
Proof. vm_compute. reflexivity. Qed.

(** A game about to choose its first blind, with a deck of ten cards. *)
Definition blind_game : GameSimulator :=
  mkGameSimulator
    [AS; AH; KH; S2; plain KING SPADES; plain QUEEN HEARTS; plain TEN CLUBS;
     plain NINE DIAMONDS; plain THREE CLUBS; plain SEVEN SPADES]
    [] [] [] 5 4 1 8 SMALL 4 3 0 300 8 BLIND_SELECT default_hand_levels 99 (Some 1).

Definition first_state : MCTS :=
  mkMCTS MCTSConfig_default (Some 0%nat)
    [mkMCTSNode None 0 0 0 None [] (get_legal_actions blind_game) (Some blind_game)] 0 0.




(** Three rounds with rollouts of at most four actions: both actions of
    the root are tried, the root and its children count three visits, and
    the answer is the action tried twice. *)
Example search_three_rounds :
  (fun r : option MCTSAction * MCTS * World =>
     let t := nodes r.1.2 in
     (r.1.1, iterations r.1.2, visits (deref t 0), child_visits t (deref t 0),
      length t))
    <$> search JOKER_CALCULATORS
          (MCTS_init (Some (mkMCTSConfig 3 5 (1414 # 1000) 4 true 1 (1 # 10) (3 # 100) 1)))
          blind_game world0
  = Some (Some a_skip, 3, 3, 3, 4%nat).
Proof. vm_compute. reflexivity. Qed.

(** Without a round the answer is [None], although actions are legal. *)
Example search_without_rounds :
  (fun r : option MCTSAction * MCTS * World => (r.1.1, length (nodes r.1.2)))
    <$> search JOKER_CALCULATORS
          (MCTS_init (Some (mkMCTSConfig 0 5 (1414 # 1000) 4 true 1 (1 # 10) (3 # 100) 1)))
          blind_game world0
  = Some (None, 1%nat).
Proof. vm_compute. reflexivity. Qed.

End SearchTreeExamples.


(** ** The piles of the simulator *)

(** Strictly decreasing lists of positions. *)
Fixpoint descending (l : list Z) : Prop :=
  match l with
  | [] => True
  | x :: l' => (forall y, y ∈ l' -> y < x) /\ descending l'
  end.

Lemma insert_desc_descending (x : Z) (l : list Z) :
  x ∉ l -> descending l -> descending (Py.insert_desc (fun i => i) x l).
Proof.
  induction l as [|y l IH]; intros Hx Hl; simpl.
  - split; [|done]. by intros y Hy%elem_of_nil.
  - apply not_elem_of_cons in Hx as [Hxy Hx]. destruct Hl as [Hy Hl].
    destruct (x <? y) eqn:E.
    + apply Z.ltb_lt in E. split; [|by apply IH].
      intros z Hz. rewrite insert_desc_Permutation in Hz.
      apply elem_of_cons in Hz as [->|Hz]; [done|by apply Hy].
    + apply Z.ltb_ge in E. split; [|by split].
      intros z [->|Hz]%elem_of_cons; [lia|]. specialize (Hy z Hz). lia.
Qed.

Lemma sorted_desc_descending (l : list Z) :
  NoDup l -> descending (Py.sorted_desc (fun i => i) l).
Proof.
  induction 1 as [|x l Hx Hl IH]; simpl; [done|].
  apply insert_desc_descending; [|done].
  by rewrite (sorted_desc_Permutation (fun i => i) l).
Qed.

Lemma omap_ext_elem {A B} (f g : A -> option B) (l : list A) :
  (forall x, x ∈ l -> f x = g x) -> omap f l = omap g l.
Proof.
  induction l as [|x l IH]; intros Hfg; [done|]. cbn [omap list_omap].
  rewrite (Hfg x) by left. rewrite IH; [done|]. intros y Hy. apply Hfg. by right.
Qed.

(** Popping positions from the largest to the smallest removes exactly the
    cards that stood at these positions. *)
Lemma pop_descending (idx : list Z) : forall (h : list Card),
  descending idx ->
  (forall i, i ∈ idx -> 0 <= i < Z.of_nat (length h)) ->
  Permutation h
    (omap (fun i => h !! Z.to_nat i) idx
     ++ fold_left (fun h i => delete (Z.to_nat i) h) idx h)
  /\ length (omap (fun i => h !! Z.to_nat i) idx) = length idx
  /\ (length (fold_left (fun h i => delete (Z.to_nat i) h) idx h)
      = length h - length idx)%nat.
Proof.
  induction idx as [|i idx IH]; intros h Hsorted Hrange.
  { simpl. split; [done|]. split; [done|lia]. }
  destruct Hsorted as [Hi Hsorted].
  assert (Hi_range : 0 <= i < Z.of_nat (length h)) by (apply Hrange; left).
  destruct (lookup_lt_is_Some_2 h (Z.to_nat i)) as [c Hc]; [lia|].
  cbn [omap list_omap fold_left]. rewrite Hc.
  assert (Hlt : forall j, j ∈ idx -> 0 <= j < i).
  { intros j Hj. split; [apply Hrange; by right|by apply Hi]. }
  assert (Hdel : length (delete (Z.to_nat i) h) = (length h - 1)%nat)
    by (apply length_delete; eauto).
  destruct (IH (delete (Z.to_nat i) h) Hsorted) as (Hperm & Hlen & Hrest).
  { intros j Hj. specialize (Hlt j Hj). lia. }
  assert (Eomap : omap (fun j => delete (Z.to_nat i) h !! Z.to_nat j) idx
                  = omap (fun j => h !! Z.to_nat j) idx).
  { apply omap_ext_elem. intros j Hj. specialize (Hlt j Hj).
    apply list_lookup_delete_lt. lia. }
  rewrite Eomap in Hperm, Hlen. split; [|split].
  - cbn [mbind option_bind app]. rewrite (delete_Permutation h _ c Hc) at 1.
    simpl. by rewrite <- Hperm.
  - simpl. by rewrite Hlen.
  - rewrite Hrest, Hdel. simpl. lia.
Qed.

Lemma pop_all_cards_at (h : list Card) (card_indices : list Z) :
  NoDup card_indices ->
  (forall i, i ∈ card_indices -> 0 <= i < Z.of_nat (length h)) ->
  Permutation h (cards_at h card_indices ++ pop_all h card_indices)
  /\ length (cards_at h card_indices) = length card_indices
  /\ length (pop_all h card_indices) = (length h - length card_indices)%nat.
Proof.
  intros Hnodup Hrange. unfold cards_at, pop_all.
  rewrite <- (Permutation_length (sorted_desc_Permutation (fun i => i) card_indices)).
  apply pop_descending; [by apply sorted_desc_descending|].
  intros i Hi. apply Hrange.
  by rewrite <- (sorted_desc_Permutation (fun i => i) card_indices).
Qed.

(** [_draw_to_hand_size] moves the last cards of the deck, one at a time,
    to the end of the hand. *)
Lemma draw_loop_spec (n : nat) : forall (d h : list Card) (drawn : Z),
  let k := Nat.min n (length d) in
  draw_loop n d h drawn
  = (take (length d - k) d, h ++ rev (drop (length d - k) d), drawn + Z.of_nat k).
Proof.
  induction n as [|n IH]; intros d h drawn; cbn zeta.
  - simpl. rewrite Nat.sub_0_r, firstn_all, drop_all. simpl.
    by rewrite app_nil_r, Z.add_0_r.
  - cbn [draw_loop]. destruct d as [|c0 d'] using rev_ind.
    + simpl. specialize (IH [] h drawn). simpl in IH. rewrite IH.
      by rewrite Nat.min_0_r.
    + clear IHd'. rewrite last_snoc, removelast_last, IH. cbn zeta.
      rewrite !length_app. change (length [c0]) with 1%nat.
      replace (Nat.min (S n) (length d' + 1)) with (S (Nat.min n (length d'))) by lia.
      replace (length d' + 1 - S (Nat.min n (length d')))%nat
        with (length d' - Nat.min n (length d'))%nat by lia.
      rewrite take_app_le by lia. rewrite drop_app_le by lia.
      rewrite rev_app_distr. simpl. rewrite <- app_assoc. simpl.
      f_equal. lia.
Qed.

Section SimulatorInvariants.

Context `{RandomLib}.

Variable table : gmap string Calculator.

(** [rng.shuffle] rearranges its argument. *)
Definition shuffle_permutes : Prop :=
  forall (l : list Card) (r : Rng), Permutation (rng_shuffle l r).1 l.

(** The cards of a game. *)
Definition all_cards (g : GameSimulator) : list Card :=
  deck g ++ hand g ++ played_this_round g.

(** While a blind is played a hand is left to play, and between blinds
    the pile of played cards is empty. *)
Definition round_ok (g : GameSimulator) : Prop :=
  (phase g = PLAYING -> 0 < hands_remaining g)
  /\ (phase g = BLIND_SELECT \/ phase g = SHOP -> played_this_round g = []).

(** The fields that only [reset] and the shop change. *)
Definition same_run (g g' : GameSimulator) : Prop :=
  jokers g' = jokers g /\ max_jokers g' = max_jokers g /\ max_ante g' = max_ante g
  /\ hand_size g' = hand_size g /\ hand_levels g' = hand_levels g.

Lemma _draw_to_hand_size_spec (g : GameSimulator) :
  let k := Nat.min (Z.to_nat (hand_size g - Py.len (hand g))) (length (deck g)) in
  _draw_to_hand_size g
  = (Z.of_nat k,
     set_piles g (take (length (deck g) - k) (deck g))
       (hand g ++ rev (drop (length (deck g) - k) (deck g)))
       (played_this_round g)).
Proof.
  unfold _draw_to_hand_size. rewrite draw_loop_spec. cbn zeta. by rewrite Z.add_0_l.
Qed.

Lemma _draw_to_hand_size_cards (g : GameSimulator) :
  let g' := (_draw_to_hand_size g).2 in
  Permutation (deck g' ++ hand g') (deck g ++ hand g)
  /\ played_this_round g' = played_this_round g
  /\ phase g' = phase g /\ hands_remaining g' = hands_remaining g
  /\ discards_remaining g' = discards_remaining g
  /\ sim_current_chips g' = sim_current_chips g /\ blind_chips g' = blind_chips g
  /\ money g' = money g /\ ante g' = ante g /\ blind_type g' = blind_type g
  /\ same_run g g'.
Proof.
  rewrite _draw_to_hand_size_spec. cbn zeta. cbn [snd set_piles deck hand].
  split; [|by repeat split].
  set (k := (length (deck g) - _)%nat).
  rewrite <- (take_drop k (deck g)) at 3.
  rewrite <- !app_assoc. apply Permutation_app_head.
  rewrite (Permutation_app_comm (hand g)). apply Permutation_app_tail.
  symmetry. apply Permutation_rev.
Qed.

Lemma shuffle_deck_cards (g : GameSimulator) :
  shuffle_permutes ->
  let g' := shuffle_deck g in
  Permutation (deck g') (deck g)
  /\ hand g' = hand g /\ played_this_round g' = played_this_round g
  /\ phase g' = phase g /\ hands_remaining g' = hands_remaining g
  /\ discards_remaining g' = discards_remaining g
  /\ sim_current_chips g' = sim_current_chips g /\ blind_chips g' = blind_chips g
  /\ money g' = money g /\ ante g' = ante g /\ blind_type g' = blind_type g
  /\ same_run g g'.
Proof.
  intros Hsh. unfold shuffle_deck. pose proof (Hsh (deck g) (rng g)) as Hperm.
  destruct (rng_shuffle (deck g) (rng g)) as [d r]. simpl in Hperm.
  cbn zeta. split; [exact Hperm|]. by repeat split.
Qed.

Lemma _handle_blind_beaten_spec (g : GameSimulator) (b : ScoringBreakdown) :
  shuffle_permutes ->
  let res := (_handle_blind_beaten g b).1 in
  let g' := (_handle_blind_beaten g b).2 in
  success res = true /\ blind_beaten res = true /\ score res = final_score b
  /\ Permutation (all_cards g') (all_cards g)
  /\ hand g' = [] /\ played_this_round g' = []
  /\ phase g' <> PLAYING
  /\ hands_remaining g' = hands_remaining g
  /\ discards_remaining g' = discards_remaining g
  /\ sim_current_chips g' = sim_current_chips g /\ blind_chips g' = blind_chips g
  /\ same_run g g'.
Proof.
  intros Hsh. unfold _handle_blind_beaten. cbn zeta.
  set (g1 := set_money g _).
  set (g2 := _reshuffle_played g1).
  assert (H2 : Permutation (deck g2) (deck g ++ played_this_round g)
               /\ hand g2 = hand g /\ played_this_round g2 = []
               /\ hands_remaining g2 = hands_remaining g
               /\ discards_remaining g2 = discards_remaining g
               /\ sim_current_chips g2 = sim_current_chips g
               /\ blind_chips g2 = blind_chips g /\ same_run g g2).
  { unfold g2, _reshuffle_played.
    destruct (shuffle_deck_cards
                (set_piles g1 (deck g1 ++ played_this_round g1) (hand g1) []) Hsh)
      as (Hd & Hh & Hp & _ & Hhr & Hdr & Hc & Hb & _ & _ & _ & Hrun).
    split; [exact Hd|]. split; [exact Hh|]. split; [exact Hp|].
    split; [exact Hhr|]. split; [exact Hdr|]. split; [exact Hc|]. split; [exact Hb|].
    exact Hrun. }
  destruct H2 as (Hd2 & Hh2 & Hp2 & Hhr2 & Hdr2 & Hc2 & Hb2 & Hrun2).
  set (g3 := shuffle_deck (set_piles g2 (deck g2 ++ hand g2) [] (played_this_round g2))).
  assert (H3 : Permutation (deck g3) (deck g2 ++ hand g2)
               /\ hand g3 = [] /\ played_this_round g3 = played_this_round g2
               /\ hands_remaining g3 = hands_remaining g2
               /\ discards_remaining g3 = discards_remaining g2
               /\ sim_current_chips g3 = sim_current_chips g2
               /\ blind_chips g3 = blind_chips g2 /\ same_run g2 g3).
  { unfold g3.
    destruct (shuffle_deck_cards
                (set_piles g2 (deck g2 ++ hand g2) [] (played_this_round g2)) Hsh)
      as (Hd & Hh & Hp & _ & Hhr & Hdr & Hc & Hb & _ & _ & _ & Hrun).
    split; [exact Hd|]. split; [exact Hh|]. split; [exact Hp|].
    split; [exact Hhr|]. split; [exact Hdr|]. split; [exact Hc|]. split; [exact Hb|].
    exact Hrun. }
  destruct H3 as (Hd3 & Hh3 & Hp3 & Hhr3 & Hdr3 & Hc3 & Hb3 & Hrun3).
  assert (Hcards : Permutation (deck g3 ++ [] ++ []) (all_cards g)).
  { unfold all_cards. rewrite !app_nil_r, Hd3, Hd2, Hh2.
    rewrite <- !app_assoc. apply Permutation_app_head, Permutation_app_comm. }
  assert (Hrun : same_run g g3).
  { destruct Hrun2 as (? & ? & ? & ? & ?), Hrun3 as (? & ? & ? & ? & ?).
    repeat split; congruence. }
  destruct Hrun as (Hr1 & Hr2 & Hr3 & Hr4 & Hr5).
  assert (Hnext : forall a bt p, p <> PLAYING ->
            let g' := set_progress g3 a bt p in
            Permutation (all_cards g') (all_cards g)
            /\ hand g' = [] /\ played_this_round g' = [] /\ phase g' <> PLAYING
            /\ hands_remaining g' = hands_remaining g
            /\ discards_remaining g' = discards_remaining g
            /\ sim_current_chips g' = sim_current_chips g
            /\ blind_chips g' = blind_chips g /\ same_run g g').
  { intros a bt p Hp. unfold all_cards at 1, same_run. simpl. rewrite Hh3, Hp3, Hp2.
    repeat split; try done; congruence. }
  destruct (bool_decide (blind_type g3 = BOSS) && (max_ante g3 <=? ante g3)).
  - cbn [fst snd success blind_beaten score]. split; [done|]. split; [done|].
    split; [done|]. by apply Hnext.
  - cbn [fst snd success blind_beaten score]. split; [done|]. split; [done|].
    split; [done|]. unfold _advance_blind.
    destruct (blind_type g3); [| |destruct (max_ante g3 <? ante g3 + 1)];
      by apply Hnext.
Qed.

Lemma same_run_refl g : same_run g g.
Proof. by repeat split. Qed.

Lemma same_run_trans g1 g2 g3 : same_run g1 g2 -> same_run g2 g3 -> same_run g1 g3.
Proof.
  intros (? & ? & ? & ? & ?) (? & ? & ? & ? & ?). repeat split; congruence.
Qed.

(** What a call of [play_hand] does to the game. *)
Lemma play_hand_spec (card_indices : list Z) (g : GameSimulator) (w : World) :
  shuffle_permutes ->
  exists res g' w',
    play_hand table card_indices g w = Some (res, g', w')
    /\ ((success res = false /\ score res = 0 /\ g' = g /\ w' = w)
        \/ (success res = true
            /\ phase g = PLAYING /\ 0 < hands_remaining g
            /\ (1 <= length card_indices <= 5)%nat
            /\ hands_remaining g' = hands_remaining g - 1
            /\ discards_remaining g' = discards_remaining g
            /\ sim_current_chips g' = sim_current_chips g + score res
            /\ blind_chips g' = blind_chips g
            /\ same_run g g'
            /\ Permutation (all_cards g') (all_cards g)
            /\ ((blind_beaten res = true /\ blind_chips g <= sim_current_chips g'
                 /\ phase g' <> PLAYING /\ hand g' = [] /\ played_this_round g' = [])
                \/ (blind_beaten res = false /\ sim_current_chips g' < blind_chips g
                    /\ ((hands_remaining g' <= 0 /\ phase g' = GAME_OVER
                         /\ game_over res = true /\ won res = false)
                        \/ (0 < hands_remaining g' /\ phase g' = PLAYING
                            /\ game_over res = false)))))).
Proof.
  intros Hsh. unfold play_hand.
  destruct (negb (bool_decide (phase g = PLAYING))) eqn:Ephase.
  { exists (result false "Not in playing phase"), g, w. split; [done|]. by left. }
  apply negb_false_iff, bool_decide_eq_true in Ephase.
  destruct (hands_remaining g <=? 0) eqn:Ehands.
  { exists (result false "No hands remaining"), g, w. split; [done|]. by left. }
  apply Z.leb_gt in Ehands.
  destruct (invalid_indices g card_indices "play") as [msg|] eqn:Einv.
  { exists (result false msg), g, w. split; [done|]. by left. }
  pose proof Einv as Hvalid. apply invalid_indices_None in Hvalid as [Hlen Hrange].
  assert (Hnodup : NoDup card_indices).
  { unfold invalid_indices in Einv. destruct card_indices; [done|].
    destruct (5 <? _); [done|]. destruct (existsb _ _); [done|].
    destruct (negb _) eqn:E; [done|].
    by apply negb_false_iff, bool_decide_eq_true in E. }
  destruct (pop_all_cards_at (hand g) card_indices Hnodup Hrange)
    as (Hperm & Hlen_played & Hlen_rest).
  match goal with
  | |- context [calculate_score ?t ?p ?j ?s ?h ?r ?w0] =>
      destruct (calculate_score_total t p j s h r w0) as [[b w1] ->]
  end.
  { by rewrite Hlen_played. }
  cbn [mbind option_bind].
  set (cards_to_play := cards_at (hand g) card_indices) in *.
  set (g1 := set_piles g (deck g) (pop_all (hand g) card_indices) (played_this_round g)).
  set (w2 := _update_joker_states_after_play g1 cards_to_play w1).
  set (g2 := set_round g1 (hands_remaining g1 - 1) (discards_remaining g1)
               (sim_current_chips g1 + final_score b) (blind_chips g1)).
  set (g3 := set_piles g2 (deck g2) (hand g2) (played_this_round g2 ++ cards_to_play)).
  assert (Hcards3 : Permutation (all_cards g3) (all_cards g)).
  { unfold all_cards. simpl. apply Permutation_app_head.
    etransitivity; [|apply Permutation_app_tail; symmetry; exact Hperm].
    fold cards_to_play. solve_Permutation. }
  assert (Hrun3 : same_run g g3) by (by repeat split).
  destruct (blind_chips g3 <=? sim_current_chips g3) eqn:Ebeaten.
  - apply Z.leb_le in Ebeaten. simpl in Ebeaten.
    destruct (_handle_blind_beaten_spec g3 b Hsh)
      as (Hs & Hbb & Hscore & Hcards & Hh & Hp & Hph & Hhr & Hdr & Hc & Hb & Hrun).
    destruct (_handle_blind_beaten g3 b) as [res g']. simpl in *.
    exists res, g', w2. split; [done|]. right.
    split; [done|]. split; [done|]. split; [done|]. split; [done|]. split; [done|].
    split; [done|]. split; [by rewrite Hscore|]. split; [done|].
    split; [by apply (same_run_trans g g3)|].
    split; [by rewrite Hcards|]. left. by rewrite Hc.
  - apply Z.leb_gt in Ebeaten. simpl in Ebeaten.
    destruct (hands_remaining g3 <=? 0) eqn:Elast.
    + apply Z.leb_le in Elast. simpl in Elast.
      eexists _, _, w2. split; [done|]. right. simpl.
      split; [done|]. split; [done|]. split; [done|]. split; [done|]. split; [done|].
      split; [done|]. split; [done|]. split; [done|]. split; [done|].
      split; [exact Hcards3|]. right. split; [done|]. split; [done|]. left. done.
    + apply Z.leb_gt in Elast. simpl in Elast.
      destruct (_draw_to_hand_size_cards g3)
        as (Hcards & Hp & Hph & Hhr & Hdr & Hc & Hb & _ & _ & _ & Hrun).
      destruct (_draw_to_hand_size g3) as [drawn g']. simpl in *.
      eexists _, g', w2. split; [done|]. right. simpl.
      split; [done|]. split; [done|]. split; [done|]. split; [done|]. split; [done|].
      split; [done|]. split; [done|]. split; [done|].
      split; [by apply (same_run_trans g g3)|].
      split.
      { transitivity (all_cards g3); [|exact Hcards3]. unfold all_cards. simpl.
        rewrite Hp, !app_assoc. by do 2 apply Permutation_app_tail. }
      right. split; [done|]. split; [lia|]. right. split; [lia|].
      split; [congruence|done].
Qed.

(** What a call of [discard] does to the game. *)
Lemma discard_spec (card_indices : list Z) (g : GameSimulator) (w : World) :
  let res := (discard card_indices g w).1.1 in
  let g' := (discard card_indices g w).1.2 in
  let w' := (discard card_indices g w).2 in
  (success res = false /\ g' = g /\ w' = w)
  \/ (success res = true
      /\ phase g = PLAYING /\ 0 < discards_remaining g
      /\ (1 <= length card_indices <= 5)%nat
      /\ phase g' = PLAYING
      /\ hands_remaining g' = hands_remaining g
      /\ discards_remaining g' = discards_remaining g - 1
      /\ sim_current_chips g' = sim_current_chips g
      /\ blind_chips g' = blind_chips g
      /\ same_run g g'
      /\ Permutation (all_cards g') (all_cards g)).
Proof.
  unfold discard.
  destruct (negb (bool_decide (phase g = PLAYING))) eqn:Ephase; [by left|].
  apply negb_false_iff, bool_decide_eq_true in Ephase.
  destruct (discards_remaining g <=? 0) eqn:Edisc; [by left|].
  apply Z.leb_gt in Edisc.
  destruct (invalid_indices g card_indices "discard") as [msg|] eqn:Einv; [by left|].
  pose proof Einv as Hvalid. apply invalid_indices_None in Hvalid as [Hlen Hrange].
  assert (Hnodup : NoDup card_indices).
  { unfold invalid_indices in Einv. destruct card_indices; [done|].
    destruct (5 <? _); [done|]. destruct (existsb _ _); [done|].
    destruct (negb _) eqn:E; [done|].
    by apply negb_false_iff, bool_decide_eq_true in E. }
  destruct (pop_all_cards_at (hand g) card_indices Hnodup Hrange)
    as (Hperm & Hlen_played & Hlen_rest).
  right. cbn zeta.
  set (cards := cards_at (hand g) card_indices) in *.
  set (g1 := set_piles g (deck g) (pop_all (hand g) card_indices) (played_this_round g)).
  set (g2 := set_round g1 (hands_remaining g1) (discards_remaining g1 - 1)
               (sim_current_chips g1) (blind_chips g1)).
  set (g3 := set_piles g2 (deck g2) (hand g2) (played_this_round g2 ++ cards)).
  assert (Hcards3 : Permutation (all_cards g3) (all_cards g)).
  { unfold all_cards. simpl. apply Permutation_app_head.
    etransitivity; [|apply Permutation_app_tail; symmetry; exact Hperm].
    fold cards. solve_Permutation. }
  assert (Hrun3 : same_run g g3) by (by repeat split).
  destruct (_draw_to_hand_size_cards g3)
    as (Hcards & Hp & Hph & Hhr & Hdr & Hc & Hb & _ & _ & _ & Hrun).
  destruct (_draw_to_hand_size g3) as [drawn g']. simpl in *.
  split; [done|]. split; [done|]. split; [done|]. split; [done|]. split; [congruence|].
  split; [done|]. split; [done|]. split; [done|]. split; [done|].
  split; [by apply (same_run_trans g g3)|].
  transitivity (all_cards g3); [|exact Hcards3]. unfold all_cards. simpl.
  rewrite Hp, !app_assoc. by do 2 apply Permutation_app_tail.
Qed.

Lemma start_blind_spec (g : GameSimulator) :
  let res := (start_blind g).1 in
  let g' := (start_blind g).2 in
  (phase g <> BLIND_SELECT /\ success res = false /\ g' = g)
  \/ (phase g = BLIND_SELECT /\ success res = true
      /\ phase g' = PLAYING /\ hands_remaining g' = 4 /\ discards_remaining g' = 3
      /\ sim_current_chips g' = 0 /\ blind_chips g' = _calculate_blind_chips g
      /\ played_this_round g' = []
      /\ Permutation (deck g' ++ hand g') (deck g ++ hand g)
      /\ same_run g g').
Proof.
  unfold start_blind.
  destruct (negb (bool_decide (phase g = BLIND_SELECT))) eqn:Ephase.
  { left. by apply negb_true_iff, bool_decide_eq_false in Ephase. }
  apply negb_false_iff, bool_decide_eq_true in Ephase. right. cbn zeta.
  set (g1 := set_piles _ _ _ []).
  destruct (_draw_to_hand_size_cards g1)
    as (Hcards & Hp & Hph & Hhr & Hdr & Hc & Hb & _ & _ & _ & Hrun).
  destruct (_draw_to_hand_size g1) as [drawn g']. simpl in *.
  split; [done|]. split; [done|]. split; [done|]. split; [done|]. split; [done|].
  split; [done|]. split; [done|]. split; [done|]. split; [done|]. exact Hrun.
Qed.

Lemma skip_blind_spec (g : GameSimulator) :
  let res := (skip_blind g).1 in
  let g' := (skip_blind g).2 in
  ((phase g <> BLIND_SELECT \/ blind_type g = BOSS) /\ success res = false /\ g' = g)
  \/ (phase g = BLIND_SELECT /\ blind_type g <> BOSS /\ success res = true
      /\ phase g' = BLIND_SELECT /\ money g' = money g + 1 /\ ante g' = ante g
      /\ blind_type g' = (if bool_decide (blind_type g = SMALL) then BIG else BOSS)
      /\ deck g' = deck g /\ hand g' = hand g
      /\ played_this_round g' = played_this_round g
      /\ same_run g g').
Proof.
  unfold skip_blind.
  destruct (negb (bool_decide (phase g = BLIND_SELECT))) eqn:Ephase.
  { left. apply negb_true_iff, bool_decide_eq_false in Ephase. split; [by left|done]. }
  apply negb_false_iff, bool_decide_eq_true in Ephase.
  destruct (bool_decide (blind_type g = BOSS)) eqn:Eboss.
  { left. apply bool_decide_eq_true in Eboss. split; [by right|done]. }
  apply bool_decide_eq_false in Eboss. right. cbn zeta. unfold _advance_blind.
  destruct (blind_type g) eqn:Eblind; [| |done]; simpl; rewrite Eblind; simpl;
    by repeat split.
Qed.

Lemma end_shop_spec (g : GameSimulator) :
  let res := (end_shop g).1 in
  let g' := (end_shop g).2 in
  (phase g <> SHOP /\ success res = false /\ g' = g)
  \/ (phase g = SHOP /\ success res = true /\ phase g' = BLIND_SELECT
      /\ deck g' = deck g /\ hand g' = hand g
      /\ played_this_round g' = played_this_round g
      /\ same_run g g').
Proof.
  unfold end_shop. destruct (negb (bool_decide (phase g = SHOP))) eqn:Ephase.
  { left. by apply negb_true_iff, bool_decide_eq_false in Ephase. }
  apply negb_false_iff, bool_decide_eq_true in Ephase. right. by repeat split.
Qed.


(** X7. [discard] reports failure and changes nothing outside the playing
    phase, without a discard left, or on an empty, too long, out-of-range
    or repeated index list; otherwise it uses up one discard, keeps the
    hands, the chips and the phase, and no card is created or lost: the
    discarded cards join the pile of played cards and the hand is refilled
    from the deck. *)
Theorem discard_accounting (card_indices : list Z) (g : GameSimulator) (w : World) :
  let res := (discard card_indices g w).1.1 in
  let g' := (discard card_indices g w).1.2 in
  let w' := (discard card_indices g w).2 in
  (success res = false /\ g' = g /\ w' = w
   /\ (phase g <> PLAYING \/ discards_remaining g <= 0
       \/ is_Some (invalid_indices g card_indices "discard")))
  \/ (success res = true
      /\ phase g = PLAYING /\ 0 < discards_remaining g
      /\ invalid_indices g card_indices "discard" = None
      /\ phase g' = PLAYING
      /\ hands_remaining g' = hands_remaining g
      /\ discards_remaining g' = discards_remaining g - 1
      /\ sim_current_chips g' = sim_current_chips g
      /\ Permutation (all_cards g') (all_cards g)
      /\ Permutation (deck g' ++ hand g')
           (deck g ++ pop_all (hand g) card_indices)
      /\ played_this_round g'
         = played_this_round g ++ cards_at (hand g) card_indices).
Proof.
  pose proof (discard_spec card_indices g w) as Hspec. cbn zeta in *.
  unfold discard in *.
  destruct (negb (bool_decide (phase g = PLAYING))) eqn:Ephase.
  { left. apply negb_true_iff, bool_decide_eq_false in Ephase.
    split; [done|]. split; [done|]. split; [done|]. by left. }
  destruct (discards_remaining g <=? 0) eqn:Edisc.
  { left. apply Z.leb_le in Edisc.
    split; [done|]. split; [done|]. split; [done|]. right. by left. }
  destruct (invalid_indices g card_indices "discard") as [msg|] eqn:Einv.
  { left. split; [done|]. split; [done|]. split; [done|]. right. right. by eexists. }
  right. cbn zeta in *.
  destruct Hspec as [(Hfail & _)|(Hs & Hph & Hd & Hlen & Hph' & Hhr & Hdr & Hc & Hb & _ & Hcards)].
  { exfalso. revert Hfail. by destruct (_draw_to_hand_size _). }
  split; [done|]. split; [done|]. split; [done|]. split; [done|]. split; [done|].
  split; [done|]. split; [done|]. split; [done|]. split; [done|].
  set (g3 := set_piles _ _ _ (_ ++ _)).
  destruct (_draw_to_hand_size_cards g3) as (Hcards' & Hp & _).
  destruct (_draw_to_hand_size g3) as [drawn g']. simpl in *. by split.
Qed.

Lemma apply_action_spec (a : Mcts.MCTSAction) (g : GameSimulator) (w : World) :
  shuffle_permutes -> round_ok g ->
  exists g' w',
    Mcts.apply_action table g a w = Some (g', w')
    /\ round_ok g' /\ Permutation (all_cards g') (all_cards g) /\ same_run g g'.
Proof.
  intros Hsh [Hhands Hplayed]. unfold Mcts.apply_action. destruct (Mcts.kind a).
  - destruct (play_hand_spec (Mcts.card_indices a) g w Hsh)
      as (res & g' & w' & -> & Hcases).
    cbn [mbind option_bind]. exists g', w'. split; [done|].
    destruct Hcases as [(_ & _ & -> & _)
                       |(_ & Hph & _ & _ & Hhr & _ & _ & _ & Hrun & Hcards & Hout)].
    { split; [by split|]. split; [done|apply same_run_refl]. }
    split; [|by split].
    destruct Hout as [(_ & _ & Hph' & _ & Hp')|(_ & _ & [(_ & Hph' & _)|(Hh' & Hph' & _)])].
    + split; [done|]. by intros _.
    + split; [congruence|]. intros [E|E]; congruence.
    + split; [done|]. intros [E|E]; congruence.
  - pose proof (discard_spec (Mcts.card_indices a) g w) as Hspec. cbn zeta in Hspec.
    destruct (discard (Mcts.card_indices a) g w) as [[res g'] w']. simpl in Hspec.
    exists g', w'. split; [done|].
    destruct Hspec as [(_ & -> & _)
                      |(_ & Hph & _ & _ & Hph' & Hhr & _ & _ & _ & Hrun & Hcards)].
    { split; [by split|]. split; [done|apply same_run_refl]. }
    split; [|by split]. split; [intros _; rewrite Hhr; by apply Hhands|].
    intros [E|E]; congruence.
  - pose proof (start_blind_spec g) as Hspec. cbn zeta in Hspec.
    destruct (start_blind g) as [res g']. simpl in *.
    exists g', w. split; [done|].
    destruct Hspec as [(_ & _ & ->)|(Hph & _ & Hph' & Hhr & _ & _ & _ & Hp & Hcards & Hrun)].
    { split; [by split|]. split; [done|apply same_run_refl]. }
    split; [|split; [|done]].
    + split; [intros _; lia|]. intros [E|E]; congruence.
    + unfold all_cards. rewrite Hp, (Hplayed (or_introl Hph)), !app_nil_r.
      exact Hcards.
  - pose proof (skip_blind_spec g) as Hspec. cbn zeta in Hspec.
    destruct (skip_blind g) as [res g']. simpl in *.
    exists g', w. split; [done|].
    destruct Hspec as [(_ & _ & ->)
                      |(Hph & _ & _ & Hph' & _ & _ & _ & Hd & Hh & Hp & Hrun)].
    { split; [by split|]. split; [done|apply same_run_refl]. }
    split; [|split; [|done]].
    + split; [congruence|]. intros _. rewrite Hp. apply Hplayed. by left.
    + unfold all_cards. by rewrite Hd, Hh, Hp.
  - pose proof (end_shop_spec g) as Hspec. cbn zeta in Hspec.
    destruct (end_shop g) as [res g']. simpl in *.
    exists g', w. split; [done|].
    destruct Hspec as [(_ & _ & ->)|(Hph & _ & Hph' & Hd & Hh & Hp & Hrun)].
    { split; [by split|]. split; [done|apply same_run_refl]. }
    split; [|split; [|done]].
    + split; [congruence|]. intros _. rewrite Hp. apply Hplayed. by right.
    + unfold all_cards. by rewrite Hd, Hh, Hp.
Qed.

(** A sequence of actions applied one after the other. *)
Fixpoint apply_actions (actions : list Mcts.MCTSAction) (g : GameSimulator) (w : World)
    : option (GameSimulator * World) :=
  match actions with
  | [] => Some (g, w)
  | a :: rest => '(g, w) ← Mcts.apply_action table g a w; apply_actions rest g w
  end.

Lemma apply_actions_spec (actions : list Mcts.MCTSAction) : forall g w,
  shuffle_permutes -> round_ok g ->
  exists g' w',
    apply_actions actions g w = Some (g', w')
    /\ round_ok g' /\ Permutation (all_cards g') (all_cards g) /\ same_run g g'.
Proof.
  induction actions as [|a actions IH]; intros g w Hsh Hok.
  { exists g, w. split; [done|]. split; [done|]. split; [done|apply same_run_refl]. }
  cbn [apply_actions].
  destruct (apply_action_spec a g w Hsh Hok) as (g1 & w1 & -> & Hok1 & Hcards1 & Hrun1).
  cbn [mbind option_bind].
  destruct (IH g1 w1 Hsh Hok1) as (g' & w' & -> & Hok' & Hcards' & Hrun').
  exists g', w'. split; [done|]. split; [done|].
  split; [by rewrite Hcards'|by apply (same_run_trans g g1)].
Qed.

Lemma reset_spec (seed : option Z) (g : GameSimulator) (w : World) :
  shuffle_permutes ->
  let g' := (reset seed g w).1 in
  Permutation (deck g') create_standard_deck
  /\ hand g' = [] /\ played_this_round g' = [] /\ jokers g' = []
  /\ phase g' = BLIND_SELECT /\ ante g' = 1 /\ blind_type g' = SMALL /\ money g' = 4
  /\ hands_remaining g' = 4 /\ discards_remaining g' = 3 /\ sim_current_chips g' = 0
  /\ hand_levels g' = default_hand_levels /\ _seed g' = seed
  /\ max_ante g' = max_ante g /\ hand_size g' = hand_size g
  /\ max_jokers g' = max_jokers g.
Proof.
  intros Hsh. unfold reset.
  set (rw := match seed with Some n => _ | None => _ end). destruct rw as [r w1].
  cbn zeta. unfold shuffle_deck. cbn [set_piles set_rng deck rng].
  pose proof (Hsh create_standard_deck r) as Hperm.
  destruct (rng_shuffle create_standard_deck r) as [d r']. simpl in Hperm.
  simpl. by repeat split.
Qed.

(** X8. A game set up by [reset] holds the 52 cards of the standard deck,
    all of them in the deck, and starts at the small blind of ante 1 with
    4 dollars and no joker. From then on, whatever actions of the search
    ([PLAY], [DISCARD], [START_BLIND], [SKIP_BLIND], [END_SHOP], legal or
    not) are applied, none raises, the deck, the hand and the pile of played
    cards together always hold the same cards, a game in the playing phase
    has a hand left, and the pile of played cards is empty between blinds. *)
Theorem simulator_keeps_the_cards (seed : option Z) (g0 : GameSimulator) (w0 : World)
    (actions : list Mcts.MCTSAction) (w : World) :
  shuffle_permutes ->
  let g := (reset seed g0 w0).1 in
  Permutation (all_cards g) create_standard_deck
  /\ round_ok g
  /\ exists g' w',
       apply_actions actions g w = Some (g', w')
       /\ Permutation (all_cards g') create_standard_deck
       /\ round_ok g'
       /\ jokers g' = [] /\ hand_size g' = hand_size g0 /\ max_ante g' = max_ante g0.
Proof.
  intros Hsh g.
  destruct (reset_spec seed g0 w0 Hsh)
    as (Hd & Hh & Hp & Hj & Hph & _ & _ & _ & Hhr & _ & _ & _ & _ & Hma & Hhs & _).
  fold g in Hd, Hh, Hp, Hj, Hph, Hhr, Hma, Hhs.
  assert (Hcards : Permutation (all_cards g) create_standard_deck).
  { unfold all_cards. by rewrite Hh, Hp, !app_nil_r. }
  assert (Hok : round_ok g).
  { split; [intros _; lia|done]. }
  split; [exact Hcards|]. split; [exact Hok|].
  destruct (apply_actions_spec actions g w Hsh Hok)
    as (g' & w' & E & Hok' & Hcards' & (Hr1 & _ & Hr3 & Hr4 & _)).
  exists g', w'. split; [exact E|]. split; [by rewrite Hcards'|]. split; [done|].
  split; [congruence|]. split; congruence.
Qed.

(** X9. [_draw_to_hand_size] draws [min(hand_size - len(hand), len(deck))]
    cards (none when the hand is already full): they leave the end of the
    deck, the last card first, and join the end of the hand in that order;
    the call returns their number and touches nothing else. A hand that
    was not over its size ends with [min(hand_size, len(hand) + len(deck))]
    cards. *)
Theorem draw_to_hand_size_fills (g : GameSimulator) :
  let k := Nat.min (Z.to_nat (hand_size g - Py.len (hand g))) (length (deck g)) in
  let keep := (length (deck g) - k)%nat in
  _draw_to_hand_size g
  = (Z.of_nat k,
     set_piles g (take keep (deck g)) (hand g ++ rev (drop keep (deck g)))
       (played_this_round g))
  /\ (Py.len (hand g) <= hand_size g ->
      Py.len (hand (_draw_to_hand_size g).2)
      = Z.min (hand_size g) (Py.len (hand g) + Py.len (deck g))).
Proof.
  cbn zeta. split; [apply _draw_to_hand_size_spec|].
  intros Hfull. rewrite _draw_to_hand_size_spec. cbn [snd set_piles hand].
  unfold Py.len in *. rewrite length_app, length_rev, length_drop. lia.
Qed.

End SimulatorInvariants.

Section SimulatorExamples.

Import Lcg.

Lemma lcg_shuffle_fuel_Permutation (fuel : nat) : forall (l : list Card) (s : Z),
  Permutation (shuffle_fuel fuel l s).1 l.
Proof.
  induction fuel as [|fuel IH]; intros l s; [done|].
  cbn [shuffle_fuel]. destruct l as [|c0 l0]; [done|].
  set (l := c0 :: l0).
  destruct (below (Z.of_nat (length l)) s) as [i s'].
  destruct (l !! Z.to_nat i) as [c|] eqn:Ec; [|done].
  specialize (IH (take (Z.to_nat i) l ++ drop (S (Z.to_nat i)) l) s').
  destruct (shuffle_fuel fuel _ s') as [rest s'']. cbn [fst] in *.
  rewrite IH. etransitivity; [apply Permutation_middle|].
  by rewrite (take_drop_middle l (Z.to_nat i) c Ec).
Qed.

Lemma lcg_shuffle_permutes : shuffle_permutes.
Proof. intros l r. apply lcg_shuffle_fuel_Permutation. Qed.

(** A game in the playing phase: a pair of Aces and a Two in hand, two
    cards in the deck, 50 chips to go. *)
Definition table_game : GameSimulator :=
  mkGameSimulator [KH; plain QUEEN CLUBS] [AS; AH; S2] [] [] 5 4 1 8 SMALL 2 3 0 50 3
    PLAYING default_hand_levels 99 (Some 1).


(** The same play, evaluated: the pair scores 64 and beats the blind. *)
Example play_hand_table_game :
  (fun r : ActionResult * GameSimulator * World =>
     (success r.1.1, score r.1.1, blind_beaten r.1.1, phase r.1.2,
      hands_remaining r.1.2, sim_current_chips r.1.2, length (deck r.1.2),
      hand r.1.2, played_this_round r.1.2))
    <$> play_hand JOKER_CALCULATORS [0; 1] table_game world0
  = Some (true, 64, true, BLIND_SELECT, 1, 64, 5%nat, [], []).
Proof. vm_compute. reflexivity. Qed.

Lemma simulator_keeps_the_cards_witness :
  let actions :=
    [Mcts.mkMCTSAction Mcts.START_BLIND []; Mcts.mkMCTSAction Mcts.DISCARD [0; 2];
     Mcts.mkMCTSAction Mcts.PLAY [1]; Mcts.mkMCTSAction Mcts.END_SHOP [];
     Mcts.mkMCTSAction Mcts.PLAY [0; 1; 7]; Mcts.mkMCTSAction Mcts.PLAY [0; 1; 2]] in
  let g := (reset (Some 5) table_game world0).1 in
  Permutation (all_cards g) create_standard_deck
  /\ round_ok g
  /\ exists g' w',
       apply_actions JOKER_CALCULATORS actions g world0 = Some (g', w')
       /\ Permutation (all_cards g') create_standard_deck
       /\ round_ok g'
       /\ jokers g' = [] /\ hand_size g' = hand_size table_game
       /\ max_ante g' = max_ante table_game.
Proof.
  intros actions.
  apply (simulator_keeps_the_cards JOKER_CALCULATORS (Some 5) table_game world0 actions
           world0 lcg_shuffle_permutes).
Defined.

(** The same run, evaluated: the hand of three is refilled after the
    discard and after each play; leaving the shop and the play of a
    position that does not exist are refused and change nothing. *)
Example apply_actions_after_reset :
  (fun r : GameSimulator * World =>
     (phase r.1, hands_remaining r.1, discards_remaining r.1,
      length (deck r.1), length (hand r.1), length (played_this_round r.1)))
    <$> apply_actions JOKER_CALCULATORS
          [Mcts.mkMCTSAction Mcts.START_BLIND []; Mcts.mkMCTSAction Mcts.DISCARD [0; 2];
           Mcts.mkMCTSAction Mcts.PLAY [1]; Mcts.mkMCTSAction Mcts.END_SHOP [];
           Mcts.mkMCTSAction Mcts.PLAY [0; 1; 7]; Mcts.mkMCTSAction Mcts.PLAY [0; 1; 2]]
          (reset (Some 5) table_game world0).1 world0
  = Some (PLAYING, 2, 2, 43%nat, 3%nat, 6%nat).
Proof. vm_compute. reflexivity. Qed.

(** One card in hand, two in the deck, room for five. *)
Definition short_hand_game : GameSimulator :=
  mkGameSimulator [KH; S2] [AS] [] [] 5 4 1 8 SMALL 2 3 0 50 5
    PLAYING default_hand_levels 99 (Some 1).

Lemma draw_to_hand_size_fills_witness :
  _draw_to_hand_size short_hand_game
  = (2, set_piles short_hand_game [] [AS; S2; KH] [])
  /\ Py.len (hand (_draw_to_hand_size short_hand_game).2)
     = Z.min (hand_size short_hand_game)
         (Py.len (hand short_hand_game) + Py.len (deck short_hand_game)).
Proof.
  destruct (draw_to_hand_size_fills short_hand_game) as [Hdraw Hlen].
  split; [exact Hdraw|]. apply Hlen. unfold Py.len. simpl. lia.
Defined.

End SimulatorExamples.


(** ** Cloning a game *)

Section CloneStates.

Context `{RandomLib}.

Lemma fresh_loc_unused (h : gmap loc (gmap string PyVal)) : h !! fresh_loc h = None.
Proof. apply not_elem_of_dom. unfold fresh_loc. apply is_fresh. Qed.

(** The copy at position [k] has the definition and the state contents of
    the original at [k], in a dictionary that did not exist before. *)
Definition copy_of (w w' : World) (js js' : list JokerInstance) : Prop :=
  length js' = length js
  /\ forall k j', js' !! k = Some j' ->
       exists j, js !! k = Some j
                 /\ definition j' = definition j
                 /\ heap w' !! state j' = heap w !! state j
                 /\ heap w !! state j' = None.

Lemma copy_jokers_spec (js : list JokerInstance) : forall (w : World),
  (forall j, j ∈ js -> is_Some (heap w !! state j)) ->
  let js' := (copy_jokers js w).1 in
  let w' := (copy_jokers js w).2 in
  copy_of w w' js js'
  /\ NoDup (map state js')
  /\ (forall l d, heap w !! l = Some d -> heap w' !! l = Some d)
  /\ amb w' = amb w.
Proof.
  induction js as [|j js IH]; intros w Halloc; cbn zeta.
  { simpl. split; [by split|]. split; [apply NoDup_nil_2|]. by split. }
  cbn [copy_jokers]. unfold copy_joker, alloc_dict.
  set (l := fresh_loc (heap w)).
  set (w1 := mkWorld (<[l := default ∅ (heap w !! state j)]> (heap w)) (amb w)).
  assert (Hl : heap w !! l = None) by apply fresh_loc_unused.
  assert (Hsub1 : forall l' d, heap w !! l' = Some d -> heap w1 !! l' = Some d).
  { intros l' d Hd. unfold w1. cbn [heap]. rewrite lookup_insert_ne; [done|].
    intros <-. congruence. }
  specialize (IH w1). cbn zeta in IH.
  destruct IH as ([Hlen Hall] & Hnodup & Hsub & Hamb).
  { intros j' Hj'. destruct (Halloc j' (list_elem_of_further _ _ _ Hj')) as [d Hd].
    exists d. by apply Hsub1. }
  destruct (copy_jokers js w1) as [js' w2]. cbn [fst snd] in *.
  assert (Hl2 : heap w2 !! l = Some (default ∅ (heap w !! state j))).
  { apply Hsub. unfold w1. cbn [heap]. by rewrite lookup_insert_eq. }
  assert (Hrest : forall k j', js' !! k = Some j' ->
            exists j0, js !! k = Some j0
                       /\ definition j' = definition j0
                       /\ heap w2 !! state j' = heap w !! state j0
                       /\ heap w !! state j' = None /\ state j' <> l).
  { intros k j' Hk. destruct (Hall k j' Hk) as (j0 & Hk0 & Hdef & Hstate & Hnew).
    exists j0. split; [done|]. split; [done|].
    assert (Hne : state j' <> l).
    { intros E. rewrite E in Hnew. unfold w1 in Hnew. cbn [heap] in Hnew.
      by rewrite lookup_insert_eq in Hnew. }
    unfold w1 in Hstate, Hnew. cbn [heap] in Hstate, Hnew.
    rewrite lookup_insert_ne in Hnew by done. split; [|done].
    rewrite Hstate. apply lookup_insert_ne. intros E.
    destruct (Halloc j0) as [d Hd]; [right; by eapply list_elem_of_lookup_2|].
    congruence. }
  split; [|split; [|split]].
  - split; [simpl; by rewrite Hlen|]. intros [|k] j' Hk.
    + injection Hk as <-. exists j. split; [done|]. cbn [definition state].
      split; [done|]. split; [|done]. rewrite Hl2.
      destruct (Halloc j (list_elem_of_here _ _)) as [d ->]. done.
    + destruct (Hrest k j' Hk) as (j0 & Hk0 & Hdef & Hstate & Hnew & _). by exists j0.
  - cbn [map state]. apply NoDup_cons. split; [|done].
    intros Hin. apply list_elem_of_fmap in Hin as (j0' & E & Hin).
    apply list_elem_of_lookup in Hin as [k Hk].
    destruct (Hrest k j0' Hk) as (_ & _ & _ & _ & _ & Hne). by apply Hne.
  - intros l' d Hd. by apply Hsub, Hsub1.
  - by rewrite Hamb.
Qed.

(** X10. [clone] of a game with a card in the deck or in the hand keeps
    every scalar field, the generator state and the hand levels, rebuilds
    each card of the three piles from its rank and suit alone, and copies
    the jokers one by one: each copy has the definition and the state
    contents of the original, held in a dictionary of its own that did not
    exist before. The dictionaries that existed are untouched, so a later
    write to the state of a clone's joker is never seen through a joker of
    the original game. *)
Theorem clone_copies_joker_states (g : GameSimulator) (w : World) :
  (forall j, j ∈ jokers g -> is_Some (heap w !! state j)) ->
  deck g <> [] \/ hand g <> [] ->
  let g' := (clone g w).1 in
  let w' := (clone g w).2 in
  copy_of w w' (jokers g) (jokers g')
  /\ NoDup (map state (jokers g'))
  /\ (forall l d, heap w !! l = Some d -> heap w' !! l = Some d)
  /\ (forall j j' key v key' d, j ∈ jokers g -> j' ∈ jokers g' ->
        state_get (state_set w' j' key v) j key' d = state_get w j key' d)
  /\ deck g' = map (fun c => plain (rank c) (suit c)) (deck g)
  /\ hand g' = map (fun c => plain (rank c) (suit c)) (hand g)
  /\ played_this_round g' = map (fun c => plain (rank c) (suit c)) (played_this_round g)
  /\ (max_jokers g', money g', ante g', max_ante g', blind_type g', hands_remaining g',
      discards_remaining g', sim_current_chips g', blind_chips g', hand_size g',
      phase g', hand_levels g', rng g', _seed g')
     = (max_jokers g, money g, ante g, max_ante g, blind_type g, hands_remaining g,
        discards_remaining g, sim_current_chips g, blind_chips g, hand_size g,
        phase g, hand_levels g, rng g, _seed g).
Proof.
  intros Halloc Hcards. cbn zeta.
  destruct (copy_jokers_spec (jokers g) w Halloc) as (Hcopy & Hnodup & Hsub & Hamb).
  unfold clone. destruct (copy_jokers (jokers g) w) as [js w1]. cbn [fst snd] in *.
  destruct (Random_unseeded (amb w1)) as [r a].
  unfold __post_init__. cbn [deck hand].
  assert (Hpiles : map (fun c => plain (rank c) (suit c)) (deck g) <> []
                   \/ map (fun c => plain (rank c) (suit c)) (hand g) <> []).
  { destruct Hcards as [Hd|Hh]; [left|right]; intros E; by apply map_eq_nil in E. }
  set (cloned := mkGameSimulator _ _ _ js _ _ _ _ _ _ _ _ _ _ _ _ r _).
  assert (Epost : match map (fun c => plain (rank c) (suit c)) (deck g),
                        map (fun c => plain (rank c) (suit c)) (hand g) with
                  | [], [] => reset None cloned (mkWorld (heap w1) a)
                  | _, _ => (cloned, mkWorld (heap w1) a)
                  end = (cloned, mkWorld (heap w1) a)).
  { destruct (map _ (deck g)); [|done]. destruct (map _ (hand g)); [|done].
    destruct Hpiles; done. }
  rewrite Epost. cbn [fst snd heap jokers set_rng cloned].
  split; [exact Hcopy|]. split; [exact Hnodup|]. split; [exact Hsub|].
  split; [|done].
  intros j j' key v key' d Hj Hj'. unfold state_get, state_set. cbn [heap].
  destruct (Halloc j Hj) as [dict Hdict].
  apply list_elem_of_lookup in Hj' as [k Hk].
  destruct Hcopy as [_ Hcopy]. destruct (Hcopy k j' Hk) as (_ & _ & _ & _ & Hnew).
  rewrite lookup_insert_ne by (intros E; congruence).
  by rewrite (Hsub _ _ Hdict), Hdict.
Qed.

(** X11. [clone] of a game whose deck and hand are both empty does not
    copy it: the constructor's [__post_init__] resets the new object, so
    the clone is a new game in blind selection at the small blind of ante
    1 with 4 dollars, no joker, four hands, three discards, default hand
    levels and a freshly shuffled deck of the 52 standard cards, whatever
    the phase, ante, money, jokers and played cards of the original were.
    Only [max_jokers], [max_ante], [hand_size] and the state of the
    original's generator are carried over. *)
Theorem clone_of_empty_piles_is_reset (g : GameSimulator) (w : World) :
  shuffle_permutes ->
  deck g = [] -> hand g = [] ->
  let g' := (clone g w).1 in
  Permutation (deck g') create_standard_deck
  /\ hand g' = [] /\ played_this_round g' = [] /\ jokers g' = []
  /\ phase g' = BLIND_SELECT /\ ante g' = 1 /\ blind_type g' = SMALL /\ money g' = 4
  /\ hands_remaining g' = 4 /\ discards_remaining g' = 3 /\ sim_current_chips g' = 0
  /\ hand_levels g' = default_hand_levels /\ _seed g' = None
  /\ max_jokers g' = max_jokers g /\ max_ante g' = max_ante g
  /\ hand_size g' = hand_size g /\ rng g' = rng g.
Proof.
  intros Hsh Hdeck Hhand. cbn zeta. unfold clone.
  destruct (copy_jokers (jokers g) w) as [js w1].
  destruct (Random_unseeded (amb w1)) as [r a].
  unfold __post_init__. cbn [deck hand]. rewrite Hdeck, Hhand. cbn [map].
  set (cloned := mkGameSimulator _ _ _ js _ _ _ _ _ _ _ _ _ _ _ _ r _).
  destruct (reset_spec None cloned (mkWorld (heap w1) a) Hsh)
    as (Hd & Hh & Hp & Hj & Hph & Ha & Hbt & Hm & Hhr & Hdr & Hc & Hl & Hs & Hma & Hhs & Hmj).
  destruct (reset None cloned (mkWorld (heap w1) a)) as [g1 w2]. cbn [fst snd] in *.
  cbn [set_rng deck hand played_this_round jokers phase ante blind_type money
       hands_remaining discards_remaining sim_current_chips hand_levels _seed
       max_jokers max_ante hand_size rng].
  by repeat split.
Qed.

End CloneStates.

Section CloneExamples.

Import Lcg.

(** An Ice Cream joker that has melted to 95 chips, in a game under way. *)
Definition ice_cream_world : World :=
  mkWorld {[ 0%nat := {[ "chips" := PInt 95 ]} ]} (amb world0).

Definition ice_cream_game : GameSimulator :=
  mkGameSimulator [KH] [AS] [S2] [mkJokerInstance JD_ice_cream 0%nat] 5 4 2 8 BIG 3 2 10
    450 8 PLAYING default_hand_levels 99 (Some 1).

Lemma clone_copies_joker_states_witness :
  let g := ice_cream_game in
  let w := ice_cream_world in
  let g' := (clone g w).1 in
  let w' := (clone g w).2 in
  copy_of w w' (jokers g) (jokers g')
  /\ NoDup (map state (jokers g'))
  /\ (forall l d, heap w !! l = Some d -> heap w' !! l = Some d)
  /\ (forall j j' key v key' d, j ∈ jokers g -> j' ∈ jokers g' ->
        state_get (state_set w' j' key v) j key' d = state_get w j key' d)
  /\ deck g' = map (fun c => plain (rank c) (suit c)) (deck g)
  /\ hand g' = map (fun c => plain (rank c) (suit c)) (hand g)
  /\ played_this_round g' = map (fun c => plain (rank c) (suit c)) (played_this_round g)
  /\ (max_jokers g', money g', ante g', max_ante g', blind_type g', hands_remaining g',
      discards_remaining g', sim_current_chips g', blind_chips g', hand_size g',
      phase g', hand_levels g', rng g', _seed g')
     = (max_jokers g, money g, ante g, max_ante g, blind_type g, hands_remaining g,
        discards_remaining g, sim_current_chips g, blind_chips g, hand_size g,
        phase g, hand_levels g, rng g, _seed g).
Proof.
  apply (clone_copies_joker_states ice_cream_game ice_cream_world).
  - intros j Hj. apply list_elem_of_singleton in Hj as ->. by eexists.
  - left. discriminate.
Defined.

(** The same clone, evaluated: the copy lives in dictionary 1, and melting
    the copy further leaves the original at 95. *)
Example clone_ice_cream_game :
  let g' := (clone ice_cream_game ice_cream_world).1 in
  let w' := (clone ice_cream_game ice_cream_world).2 in
  map state (jokers g') = [1%nat]
  /\ map (fun j => state_get w' j "chips" (PInt 100)) (jokers g') = [PInt 95]
  /\ map (fun j => state_get
                     (_update_joker_states_after_play g' [AS] w') j "chips" (PInt 100))
       (jokers g' ++ jokers ice_cream_game)
     = [PInt 90; PInt 95].
Proof. cbn zeta. split; [|split]; vm_compute; reflexivity. Qed.

(** A game that has all its cards in the pile of played cards. *)
Definition spent_game : GameSimulator :=
  mkGameSimulator [] [] [AS; AH; KH] [mkJokerInstance JD_ice_cream 0%nat] 5 7 3 8 BOSS 1 0
    200 900 8 PLAYING default_hand_levels 99 (Some 1).

Lemma clone_of_empty_piles_is_reset_witness :
  let g' := (clone spent_game ice_cream_world).1 in
  Permutation (deck g') create_standard_deck
  /\ hand g' = [] /\ played_this_round g' = [] /\ jokers g' = []
  /\ phase g' = BLIND_SELECT /\ ante g' = 1 /\ blind_type g' = SMALL /\ money g' = 4
  /\ hands_remaining g' = 4 /\ discards_remaining g' = 3 /\ sim_current_chips g' = 0
  /\ hand_levels g' = default_hand_levels /\ _seed g' = None
  /\ max_jokers g' = max_jokers spent_game /\ max_ante g' = max_ante spent_game
  /\ hand_size g' = hand_size spent_game /\ rng g' = rng spent_game.
Proof.
  apply (clone_of_empty_piles_is_reset spent_game ice_cream_world lcg_shuffle_permutes);
    reflexivity.
Defined.

End CloneExamples.


(** ** Jokers in the shop *)

Lemma insert_asc_Permutation {A} (key : A -> Z) (x : A) (l : list A) :
  Permutation (Py.insert_asc key x l) (x :: l).
Proof.
  induction l as [|y l IH]; simpl; [done|].
  destruct (key y <? key x); [|done].
  rewrite IH. apply perm_swap.
Qed.

Lemma sorted_asc_Permutation {A} (key : A -> Z) (l : list A) :
  Permutation (Py.sorted_asc key l) l.
Proof.
  induction l as [|x l IH]; simpl; [done|].
  unfold Py.sorted_asc in IH. by rewrite insert_asc_Permutation, IH.
Qed.

(** Lists of positions in increasing order. *)
Fixpoint ascending (l : list Z) : Prop :=
  match l with
  | [] => True
  | x :: l' => (forall y, y ∈ l' -> x <= y) /\ ascending l'
  end.

Lemma insert_asc_ascending (x : Z) (l : list Z) :
  ascending l -> ascending (Py.insert_asc (fun i => i) x l).
Proof.
  induction l as [|y l IH]; intros Hl; simpl.
  - split; [|done]. by intros y Hy%elem_of_nil.
  - destruct Hl as [Hy Hl]. destruct (y <? x) eqn:E.
    + apply Z.ltb_lt in E. split; [|by apply IH].
      intros z Hz. rewrite insert_asc_Permutation in Hz.
      apply elem_of_cons in Hz as [->|Hz]; [lia|by apply Hy].
    + apply Z.ltb_ge in E. split; [|by split].
      intros z [->|Hz]%elem_of_cons; [lia|]. specialize (Hy z Hz). lia.
Qed.

Lemma sorted_asc_ascending (l : list Z) : ascending (Py.sorted_asc (fun i => i) l).
Proof. induction l as [|x l IH]; simpl; [done|]. by apply insert_asc_ascending. Qed.

Lemma ascending_unique (l : list Z) : forall l',
  ascending l -> ascending l' -> Permutation l l' -> l = l'.
Proof.
  induction l as [|x l IH]; intros l' Hl Hl' Hperm.
  { by apply Permutation_nil_l in Hperm. }
  destruct l' as [|x' l']; [by apply Permutation_nil_r in Hperm|].
  destruct Hl as [Hx Hl], Hl' as [Hx' Hl'].
  assert (x = x') as <-.
  { assert (Hin : x ∈ x' :: l') by (rewrite <- Hperm; left).
    assert (Hin' : x' ∈ x :: l) by (rewrite Hperm; left).
    apply elem_of_cons in Hin as [->|Hin]; [done|].
    apply elem_of_cons in Hin' as [->|Hin']; [done|].
    specialize (Hx _ Hin'). specialize (Hx' _ Hin). lia. }
  f_equal. apply IH; [done|done|]. by apply Permutation_cons_inv in Hperm.
Qed.

Lemma range_ascending (a n : nat) : ascending (map Z.of_nat (seq a n)).
Proof.
  revert a. induction n as [|n IH]; intros a; simpl; [done|]. split; [|apply IH].
  intros y Hy. apply list_elem_of_fmap in Hy as (k & -> & Hk).
  apply list_elem_of_In, in_seq in Hk. lia.
Qed.

Lemma lookup_all_positions {A} (l : list A) : forall pre,
  omap (fun i => (pre ++ l) !! Z.to_nat i) (map Z.of_nat (seq (length pre) (length l))) = l.
Proof.
  induction l as [|x l IH]; intros pre; [done|].
  cbn [length seq map omap list_omap]. rewrite Nat2Z.id, list_lookup_middle by done.
  cbn [mbind option_bind]. f_equal.
  specialize (IH (pre ++ [x])). rewrite <- app_assoc, length_app in IH. simpl in IH.
  by rewrite Nat.add_1_r in IH.
Qed.

Section Shop.

Context `{RandomLib}.

(** X12. [reorder_jokers] succeeds exactly when [new_order] is a
    rearrangement of the positions [0 .. len(jokers) - 1]; the jokers are
    then those of the old list taken in that order, hence a rearrangement
    of the old list, and nothing else changes. A refused order changes
    nothing at all. *)
Theorem reorder_jokers_permutes (new_order : list Z) (g : GameSimulator) :
  let res := (reorder_jokers new_order g).1 in
  let g' := (reorder_jokers new_order g).2 in
  (success res = true
   <-> Permutation new_order (map Z.of_nat (seq 0 (length (jokers g)))))
  /\ (success res = true ->
      Permutation (jokers g') (jokers g)
      /\ length (jokers g') = length new_order
      /\ (forall k i, new_order !! k = Some i -> jokers g' !! k = jokers g !! Z.to_nat i)
      /\ g' = set_jokers g (jokers g'))
  /\ (success res = false -> g' = g).
Proof.
  cbn zeta. unfold reorder_jokers.
  set (range := map Z.of_nat (seq 0 (length (jokers g)))).
  assert (Hiff : (Py.len new_order =? Py.len (jokers g)) = true
                 /\ Py.sorted_asc (fun i => i) new_order = range
                 <-> Permutation new_order range).
  { split.
    - intros [_ Hsorted]. rewrite <- Hsorted. symmetry. apply sorted_asc_Permutation.
    - intros Hperm. split.
      + apply Z.eqb_eq. unfold Py.len. rewrite (Permutation_length Hperm).
        unfold range. by rewrite length_map, length_seq.
      + apply ascending_unique; [apply sorted_asc_ascending|apply range_ascending|].
        by rewrite sorted_asc_Permutation. }
  destruct (Py.len new_order =? Py.len (jokers g)) eqn:Elen; cbn [negb].
  - destruct (bool_decide (Py.sorted_asc (fun i => i) new_order = range)) eqn:Esorted;
      cbn [negb fst snd success result].
    + apply bool_decide_eq_true in Esorted.
      assert (Hperm : Permutation new_order range) by (by apply Hiff).
      split; [done|]. split; [|done]. intros _.
      assert (Hall : omap (fun i => jokers g !! Z.to_nat i) range = jokers g)
        by apply (lookup_all_positions (jokers g) []).
      cbn [set_jokers jokers]. split; [|split; [|split; [|done]]].
      * transitivity (omap (fun i => jokers g !! Z.to_nat i) range);
          [by rewrite Hperm|by rewrite Hall].
      * assert (Hlen : forall l : list Z,
                  (forall i, i ∈ l -> 0 <= i < Z.of_nat (length (jokers g))) ->
                  length (omap (fun i => jokers g !! Z.to_nat i) l) = length l).
        { induction l as [|i l IHl]; intros Hl; [done|]. cbn [omap list_omap].
          destruct (lookup_lt_is_Some_2 (jokers g) (Z.to_nat i)) as [j ->].
          { specialize (Hl i (list_elem_of_here _ _)). lia. }
          simpl. f_equal. apply IHl. intros i' Hi'. apply Hl. by right. }
        apply Hlen. intros i Hi. rewrite Hperm in Hi.
        apply list_elem_of_fmap in Hi as (k & -> & Hk).
        apply list_elem_of_In, in_seq in Hk. lia.
      * assert (Hk : forall l : list Z,
                  (forall i, i ∈ l -> 0 <= i < Z.of_nat (length (jokers g))) ->
                  forall k i, l !! k = Some i ->
                    omap (fun i => jokers g !! Z.to_nat i) l !! k
                    = jokers g !! Z.to_nat i).
        { induction l as [|i0 l IHl]; intros Hl k i Hki; [done|]. cbn [omap list_omap].
          destruct (lookup_lt_is_Some_2 (jokers g) (Z.to_nat i0)) as [j Hj].
          { specialize (Hl i0 (list_elem_of_here _ _)). lia. }
          rewrite Hj. cbn [mbind option_bind]. destruct k as [|k].
          - injection Hki as <-. by rewrite Hj.
          - simpl. apply IHl; [|done]. intros i' Hi'. apply Hl. by right. }
        apply Hk. intros i Hi. rewrite Hperm in Hi.
        apply list_elem_of_fmap in Hi as (k & -> & Hk').
        apply list_elem_of_In, in_seq in Hk'. lia.
    + apply bool_decide_eq_false in Esorted. split; [|done].
      split; [done|]. intros Hperm. exfalso. apply Esorted. by apply Hiff.
  - cbn [fst snd success result]. split; [|done].
    split; [done|]. intros Hperm. apply Hiff in Hperm as [Hlen _]. done.
Qed.

Lemma sell_joker_spec (joker_index : Z) (g : GameSimulator) :
  let res := (sell_joker joker_index g).1 in
  let g' := (sell_joker joker_index g).2 in
  (success res = true <-> 0 <= joker_index < Py.len (jokers g))
  /\ (success res = false -> g' = g)
  /\ (success res = true ->
      exists j, jokers g !! Z.to_nat joker_index = Some j
                /\ jokers g' = delete (Z.to_nat joker_index) (jokers g)
                /\ money g' = money g + jd_base_cost (definition j) / 2
                /\ g' = set_money (set_jokers g (jokers g')) (money g')).
Proof.
  cbn zeta. unfold sell_joker.
  destruct ((joker_index <? 0) || (Py.len (jokers g) <=? joker_index)) eqn:Erange.
  { apply orb_true_iff in Erange. rewrite Z.ltb_lt, Z.leb_le in Erange.
    cbn [fst snd success result]. split; [|done]. split; [done|lia]. }
  apply orb_false_iff in Erange. rewrite Z.ltb_ge, Z.leb_gt in Erange.
  destruct (lookup_lt_is_Some_2 (jokers g) (Z.to_nat joker_index)) as [j Hj].
  { unfold Py.len in Erange. lia. }
  rewrite Hj. cbn [fst snd success]. split; [done|]. split; [done|]. intros _.
  exists j. by repeat split.
Qed.


End Shop.

Section ShopExamples.

Import Lcg.

(** Three jokers in the shop, with 10 dollars. *)
Definition shop_world : World :=
  mkWorld {[ 0%nat := ∅; 1%nat := {[ "chips" := PInt 95 ]}; 2%nat := ∅ ]} (amb world0).

Definition shop_game : GameSimulator :=
  mkGameSimulator [KH] [AS] []
    [mkJokerInstance JD_joker 0%nat; mkJokerInstance JD_ice_cream 1%nat;
     mkJokerInstance JD_the_duo 2%nat]
    5 10 2 8 SMALL 4 3 0 300 8 SHOP default_hand_levels 99 (Some 1).

Lemma reorder_jokers_permutes_witness :
  success (reorder_jokers [2; 0; 1] shop_game).1 = true
  /\ Permutation (jokers (reorder_jokers [2; 0; 1] shop_game).2) (jokers shop_game)
  /\ map id (jokers (reorder_jokers [2; 0; 1] shop_game).2)
     = ["the_duo"; "joker"; "ice_cream"].
Proof.
  destruct (reorder_jokers_permutes [2; 0; 1] shop_game) as (Hiff & Hok & _).
  assert (Hs : success (reorder_jokers [2; 0; 1] shop_game).1 = true).
  { apply Hiff. simpl. solve_Permutation. }
  split; [exact Hs|]. split; [apply Hok, Hs|]. reflexivity.
Defined.


End ShopExamples.


(** ** Hand evaluation *)

(** The counters built by [Counter]: every key once, with a positive
    count. *)
Definition counter_ok {K} (c : list (K * Z)) : Prop :=
  NoDup (map fst c) /\ forall k v, (k, v) ∈ c -> 1 <= v.

Lemma counter_add_keys {K} `{EqDecision K} (k : K) (c : list (K * Z)) :
  forall k', k' ∈ map fst (Py.counter_add k c) <-> k' = k \/ k' ∈ map fst c.
Proof.
  induction c as [|[k0 n] c IH]; intros k'; simpl.
  - rewrite list_elem_of_singleton, elem_of_nil. tauto.
  - destruct (decide (k = k0)) as [->|Hne]; simpl.
    + rewrite !elem_of_cons. tauto.
    + rewrite !elem_of_cons, IH. tauto.
Qed.

Lemma counter_add_ok {K} `{EqDecision K} (k : K) (c : list (K * Z)) :
  counter_ok c -> counter_ok (Py.counter_add k c).
Proof.
  intros [Hnodup Hpos]. induction c as [|[k0 n] c IH]; simpl.
  - split; [apply NoDup_singleton|]. intros k' v Hin.
    apply list_elem_of_singleton in Hin. injection Hin as -> ->. lia.
  - simpl in Hnodup. apply NoDup_cons in Hnodup as [Hk0 Hnodup].
    assert (Hpos' : forall k' v, (k', v) ∈ c -> 1 <= v).
    { intros k' v Hin. apply (Hpos k'). by right. }
    destruct (decide (k = k0)) as [->|Hne].
    + split; [simpl; by apply NoDup_cons|].
      intros k' v [E|Hin]%elem_of_cons; [|by apply (Hpos' k')].
      injection E as -> ->. specialize (Hpos k0 n (list_elem_of_here _ _)). lia.
    + destruct (IH Hnodup Hpos') as [Hnodup' Hpos''].
      split.
      * simpl. apply NoDup_cons. split; [|done].
        rewrite counter_add_keys. intros [E|Hin]; [congruence|done].
      * intros k' v [E|Hin]%elem_of_cons; [|by apply (Hpos'' k')].
        injection E as -> ->. apply (Hpos k0). left.
Qed.

Lemma Counter_ok {K} `{EqDecision K} (l : list K) : counter_ok (Py.Counter l).
Proof.
  unfold Py.Counter.
  assert (Hgen : forall c : list (K * Z), counter_ok c ->
            counter_ok (fold_left (fun c k => Py.counter_add k c) l c)).
  { induction l as [|x l IH]; intros c Hc; simpl; [done|].
    by apply IH, counter_add_ok. }
  apply Hgen. split; [apply NoDup_nil_2|]. by intros k v Hin%elem_of_nil.
Qed.

Lemma counter_get_elem {K} `{EqDecision K} (k : K) (v : Z) (c : list (K * Z)) :
  NoDup (map fst c) -> (k, v) ∈ c -> Py.counter_get k c = v.
Proof.
  induction c as [|[k0 n] c IH]; intros Hnodup Hin; [by apply elem_of_nil in Hin|].
  simpl in *. apply NoDup_cons in Hnodup as [Hk0 Hnodup].
  apply elem_of_cons in Hin as [E|Hin].
  - injection E as -> ->. by rewrite decide_True.
  - rewrite decide_False; [by apply IH|]. intros ->. apply Hk0.
    apply list_elem_of_fmap. by exists (k0, v).
Qed.

Definition sum_list (l : list Z) : Z := fold_right Z.add 0 l.

Lemma counter_add_sum {K} `{EqDecision K} (k : K) (c : list (K * Z)) :
  sum_list (Py.counter_values (Py.counter_add k c)) = sum_list (Py.counter_values c) + 1.
Proof.
  unfold Py.counter_values, sum_list. induction c as [|[k0 n] c IH]; simpl; [done|].
  destruct (decide (k = k0)); simpl; lia.
Qed.

Lemma Counter_sum {K} `{EqDecision K} (l : list K) :
  sum_list (Py.counter_values (Py.Counter l)) = Py.len l.
Proof.
  unfold Py.Counter.
  assert (Hgen : forall c : list (K * Z),
            sum_list (Py.counter_values (fold_left (fun c k => Py.counter_add k c) l c))
            = sum_list (Py.counter_values c) + Py.len l).
  { induction l as [|x l IH]; intros c; simpl; [unfold Py.len; simpl; lia|].
    rewrite IH, counter_add_sum. unfold Py.len. simpl length. lia. }
  rewrite Hgen. simpl. lia.
Qed.

Lemma sum_list_Permutation (l l' : list Z) : Permutation l l' -> sum_list l = sum_list l'.
Proof. unfold sum_list. induction 1; simpl; lia. Qed.

Lemma sum_list_nonneg (l : list Z) : (forall v, v ∈ l -> 0 <= v) -> 0 <= sum_list l.
Proof.
  unfold sum_list. induction l as [|x l IH]; intros Hl; simpl; [done|].
  specialize (Hl x (list_elem_of_here _ _)) as Hx.
  specialize (IH (fun v Hv => Hl v (list_elem_of_further _ _ _ Hv))). lia.
Qed.

(** The sorted list of the rank counts of some cards. *)
Definition count_values_of (normal : list Card) : list Z :=
  Py.sorted_desc (fun n => n) (Py.counter_values (Py.Counter (map rank normal))).

Lemma count_values_sum (normal : list Card) :
  sum_list (count_values_of normal) = Py.len normal
  /\ forall v, v ∈ count_values_of normal -> 1 <= v.
Proof.
  unfold count_values_of. split.
  - rewrite (sum_list_Permutation _ _ (sorted_desc_Permutation _ _)), Counter_sum.
    unfold Py.len. by rewrite length_map.
  - intros v Hv. rewrite sorted_desc_Permutation in Hv.
    apply list_elem_of_fmap in Hv as ([k v'] & -> & Hin).
    by apply (proj2 (Counter_ok (map rank normal)) k).
Qed.

(** A count in the list is the number of cards of some rank of the hand. *)
Lemma count_values_rank (normal : list Card) (v : Z) :
  v ∈ count_values_of normal ->
  exists c, c ∈ normal /\ Py.counter_get (rank c) (Py.Counter (map rank normal)) = v.
Proof.
  unfold count_values_of. intros Hv. rewrite sorted_desc_Permutation in Hv.
  apply list_elem_of_fmap in Hv as ([k v'] & -> & Hin). simpl.
  destruct (Counter_ok (map rank normal)) as [Hnodup Hpos].
  pose proof (counter_get_elem k v' _ Hnodup Hin) as Hget.
  specialize (Hpos k v' Hin).
  unfold Py.Counter in Hget. rewrite counter_get_fold in Hget. simpl in Hget.
  destruct (List.filter (fun x => bool_decide (x = k)) (map rank normal)) as [|x l] eqn:Ef.
  { unfold Py.len in Hget. simpl in Hget. lia. }
  assert (Hx : x ∈ List.filter (fun x => bool_decide (x = k)) (map rank normal))
    by (rewrite Ef; left).
  apply list_elem_of_In, filter_In in Hx as [Hx Hk].
  apply bool_decide_eq_true in Hk. subst x.
  apply list_elem_of_In, list_elem_of_fmap in Hx as (c & -> & Hc).
  exists c. split; [done|]. by apply counter_get_elem.
Qed.

Lemma filter_sublist {A} (p : A -> bool) (l : list A) : sublist (List.filter p l) l.
Proof.
  induction l as [|x l IH]; simpl; [constructor|].
  destruct (p x); by constructor.
Qed.

Lemma stone_partition (cards : list Card) :
  Permutation
    (List.filter (fun c => bool_decide (enhancement c <> STONE)) cards
     ++ List.filter (fun c => bool_decide (enhancement c = STONE)) cards)
    cards.
Proof.
  induction cards as [|c cards IH]; simpl; [done|].
  destruct (decide (enhancement c = STONE)) as [E|E].
  - rewrite (bool_decide_eq_true_2 _ E), bool_decide_eq_false_2 by (by intros Hne).
    rewrite <- Permutation_middle. by constructor.
  - rewrite (bool_decide_eq_false_2 _ E), (bool_decide_eq_true_2 _ E). simpl.
    by constructor.
Qed.

(** The hand types that take five cards. *)
Definition needs_five (h : HandType) : bool :=
  match h with
  | STRAIGHT | FLUSH | FULL_HOUSE | STRAIGHT_FLUSH | ROYAL_FLUSH
  | FIVE_OF_A_KIND | FLUSH_HOUSE | FLUSH_FIVE => true
  | _ => false
  end.

Lemma head_is_elem (n : Z) (l : list Z) : head_is n l = true -> n ∈ l.
Proof. destruct l as [|x l]; [done|]. simpl. intros ->%Z.eqb_eq. left. Qed.

Lemma count_values_five (normal : list Card) :
  head_is 5 (count_values_of normal) = true
  \/ take 2 (count_values_of normal) = [3; 2] ->
  5 <= Py.len normal.
Proof.
  destruct (count_values_sum normal) as [<- Hpos]. unfold sum_list in *.
  destruct (count_values_of normal) as [|a [|b l]]; simpl.
  - intros [|]; done.
  - intros [->%Z.eqb_eq|]; [lia|done].
  - pose proof (sum_list_nonneg l) as Hl. unfold sum_list in Hl.
    assert (0 <= fold_right Z.add 0 l).
    { apply Hl. intros v Hv. assert (1 <= v); [|lia]. apply Hpos. by do 2 right. }
    assert (1 <= b) by (apply Hpos; right; left).
    intros [->%Z.eqb_eq|E]; [lia|]. injection E as -> ->. lia.
Qed.

Lemma _check_flush_five (normal : list Card) :
  _check_flush normal = true -> 5 <= Py.len normal.
Proof.
  unfold _check_flush. destruct (Py.len normal <? 5) eqn:E; [done|].
  apply Z.ltb_ge in E. done.
Qed.

Lemma _is_straight_five (ranks : list Rank) : _is_straight ranks = true -> 5 <= Py.len ranks.
Proof.
  unfold _is_straight. destruct (Py.len ranks <? 5) eqn:E; [done|].
  apply Z.ltb_ge in E. done.
Qed.

Local Ltac all_cards_branch :=
  match goal with
  | Hlen0 : ?normal = [] -> ~ (5 <= _) |- _ =>
      assert (5 <= Py.len normal) by auto;
      split; [done|]; split; [done|]; split; [done|];
      let E := fresh in intros E; by apply Hlen0 in E
  end.

(** The choice of [_identify_hand] on the cards of a hand that are not
    Stone cards. *)
Lemma _identify_hand_spec (normal : list Card) :
  let result :=
    _identify_hand normal (Py.Counter (map rank normal)) (count_values_of normal)
      (_check_flush normal)
      (_is_straight (Py.sorted_desc rank_value (map rank normal)))
      (Py.sorted_desc rank_value (map rank normal)) in
  sublist result.2 normal
  /\ (normal <> [] -> result.2 <> [])
  /\ (needs_five result.1 = true -> 5 <= Py.len normal /\ result.2 = normal)
  /\ (normal = [] -> result = (HIGH_CARD, [])).
Proof.
  cbn zeta. unfold _identify_hand.
  set (counts := Py.Counter (map rank normal)).
  set (cv := count_values_of normal).
  set (ranks := Py.sorted_desc rank_value (map rank normal)).
  assert (Hranks : Py.len ranks = Py.len normal).
  { unfold ranks, Py.len.
    by rewrite (Permutation_length (sorted_desc_Permutation _ _)), length_map. }
  assert (Hflush : _check_flush normal = true -> 5 <= Py.len normal)
    by apply _check_flush_five.
  assert (Hstraight : _is_straight ranks = true -> 5 <= Py.len normal).
  { intros E. apply _is_straight_five in E. lia. }
  assert (Hfive : head_is 5 cv = true -> 5 <= Py.len normal).
  { intros E. apply count_values_five. by left. }
  assert (Hhouse : take 2 cv = [3; 2] -> 5 <= Py.len normal).
  { intros E. apply count_values_five. by right. }
  assert (Hwith : forall n, n ∈ cv ->
            List.filter (fun c => Py.counter_get (rank c) counts =? n) normal <> []).
  { intros n Hn. destruct (count_values_rank normal n Hn) as (c & Hc & Hget).
    intros E. assert (Hin : c ∈ List.filter (fun c => Py.counter_get (rank c) counts =? n)
                                 normal).
    { apply list_elem_of_In, filter_In. split; [by apply list_elem_of_In|].
      by apply Z.eqb_eq. }
    rewrite E in Hin. by apply elem_of_nil in Hin. }
  assert (Hall : sublist normal normal /\ (normal <> [] -> normal <> [])) by done.
  assert (Hempty : normal = [] -> cv = []).
  { intros ->. reflexivity. }
  assert (Hlen0 : normal = [] -> ~ (5 <= Py.len normal)).
  { intros ->. unfold Py.len. simpl. lia. }
  destruct (head_is 5 cv && _check_flush normal) eqn:E1.
  { apply andb_true_iff in E1 as [E1 _]. cbn [fst snd needs_five].
    all_cards_branch. }
  destruct (head_is 5 cv) eqn:E2.
  { cbn [fst snd needs_five].
    all_cards_branch. }
  destruct (_check_flush normal && _is_straight ranks
            && bool_decide (head ranks = Some ACE)
            && bool_decide (last ranks = Some TEN)) eqn:E3.
  { apply andb_true_iff in E3 as [E3 _]. apply andb_true_iff in E3 as [E3 _].
    apply andb_true_iff in E3 as [E3 _]. cbn [fst snd needs_five].
    all_cards_branch. }
  destruct (_check_flush normal && _is_straight ranks) eqn:E4.
  { apply andb_true_iff in E4 as [E4 _]. cbn [fst snd needs_five].
    all_cards_branch. }
  destruct (head_is 4 cv) eqn:E5.
  { cbn [fst snd needs_five]. split; [apply filter_sublist|].
    split; [intros _; by apply Hwith, head_is_elem|]. split; [done|].
    intros E. rewrite (Hempty E) in E5. done. }
  destruct (bool_decide (take 2 cv = [3; 2]) && _check_flush normal) eqn:E6.
  { apply andb_true_iff in E6 as [_ E6]. cbn [fst snd needs_five].
    all_cards_branch. }
  destruct (bool_decide (take 2 cv = [3; 2])) eqn:E7.
  { apply bool_decide_eq_true in E7. cbn [fst snd needs_five].
    all_cards_branch. }
  destruct (_check_flush normal) eqn:E8.
  { cbn [fst snd needs_five].
    all_cards_branch. }
  destruct (_is_straight ranks) eqn:E9.
  { cbn [fst snd needs_five].
    all_cards_branch. }
  destruct (head_is 3 cv) eqn:E10.
  { cbn [fst snd needs_five]. split; [apply filter_sublist|].
    split; [intros _; by apply Hwith, head_is_elem|]. split; [done|].
    intros E. rewrite (Hempty E) in E10. done. }
  destruct (bool_decide (take 2 cv = [2; 2])) eqn:E11.
  { apply bool_decide_eq_true in E11. cbn [fst snd needs_five].
    split; [apply filter_sublist|]. split; [|split; [done|]].
    - intros _. apply Hwith. destruct cv as [|a [|b l]]; try done.
      injection E11 as -> ->. left.
    - intros E. rewrite (Hempty E) in E11. done. }
  destruct (head_is 2 cv) eqn:E12.
  { cbn [fst snd needs_five]. split; [apply filter_sublist|].
    split; [intros _; by apply Hwith, head_is_elem|]. split; [done|].
    intros E. rewrite (Hempty E) in E12. done. }
  destruct normal as [|c0 normal0] eqn:Enormal.
  { cbn [Py.max_by fst snd needs_five]. split; [constructor|]. by repeat split. }
  rewrite <- Enormal in *.
  destruct (max_by_spec rank_key normal) as (m & -> & Hm & _); [by rewrite Enormal|].
  cbn [fst snd needs_five]. split; [by apply singleton_sublist_l|].
  split; [done|]. split; [done|]. by rewrite Enormal.
Qed.

Lemma chip_loop_sum (l : list Card) : forall acc,
  fold_left (fun acc c => acc + card_chips c) l acc = acc + sum_list (map card_chips l).
Proof.
  unfold sum_list. induction l as [|c l IH]; intros acc; simpl; [lia|].
  rewrite IH. lia.
Qed.

Lemma filter_idem {A} (p : A -> bool) (l : list A) :
  List.filter p (List.filter p l) = List.filter p l.
Proof.
  induction l as [|x l IH]; simpl; [done|].
  destruct (p x) eqn:E; simpl; [|done]. by rewrite E, IH.
Qed.

Lemma filter_none {A} (p : A -> bool) (l : list A) :
  (forall x, x ∈ l -> p x = false) -> List.filter p l = [].
Proof.
  induction l as [|x l IH]; intros Hall; simpl; [done|].
  rewrite (Hall x) by left. apply IH. intros y Hy. apply Hall. by right.
Qed.

(** The two lists [evaluate_hand] splits the played cards into. *)
Definition stone_cards (cards : list Card) : list Card :=
  List.filter (fun c => bool_decide (enhancement c = STONE)) cards.

Definition normal_cards (cards : list Card) : list Card :=
  List.filter (fun c => bool_decide (enhancement c <> STONE)) cards.

(** What [evaluate_hand] passes to and gets from [_identify_hand]. *)
Definition identified (cards : list Card) : HandType * list Card :=
  let normal := normal_cards cards in
  _identify_hand normal (Py.Counter (map rank normal)) (count_values_of normal)
    (_check_flush normal)
    (_is_straight (Py.sorted_desc rank_value (map rank normal)))
    (Py.sorted_desc rank_value (map rank normal)).

Lemma evaluate_hand_eq (cards : list Card) (level : Z) :
  cards <> [] -> Py.len cards <= 5 ->
  evaluate_hand cards level
  = Some (mkHandResult (identified cards).1
            ((identified cards).2 ++ stone_cards cards)
            (level * ht_base_chips (identified cards).1
             + sum_list (map card_chips ((identified cards).2 ++ stone_cards cards)))
            (ht_base_mult (identified cards).1 + (level - 1))).
Proof.
  intros Hne Hlen. unfold evaluate_hand. destruct cards as [|c0 cs]; [done|].
  set (cards := c0 :: cs) in *. destruct (5 <? Py.len cards) eqn:E.
  { apply Z.ltb_lt in E. lia. }
  fold (normal_cards cards). fold (stone_cards cards).
  fold (count_values_of (normal_cards cards)).
  change (_identify_hand _ _ _ _ _ _) with (identified cards).
  destruct (identified cards) as [ht sc]. cbn [fst snd].
  rewrite chip_loop_sum. do 2 f_equal. f_equal. lia.
Qed.

Lemma evaluate_hand_None (cards : list Card) (level : Z) :
  evaluate_hand cards level = None <-> cards = [] \/ 5 < Py.len cards.
Proof.
  split.
  - intros E. destruct (decide (cards = [])) as [|Hne]; [by left|].
    destruct (decide (5 < Py.len cards)) as [|Hlen]; [by right|].
    rewrite evaluate_hand_eq in E by (done || lia). done.
  - unfold evaluate_hand. intros [->|Hlen]; [done|].
    destruct cards; [done|]. apply Z.ltb_lt in Hlen. by rewrite Hlen.
Qed.

(** X14: the level of a hand type changes neither the type found nor the cards
    that score.  The result at level 1 carries the base chips of the type plus
    the chips of the scoring cards and the base multiplier of the type; at
    another level the chips grow by the base chips of the type, and the
    multiplier by one, for each level above the first. *)
Theorem evaluate_hand_level (cards : list Card) (level : Z) (r1 : HandResult) :
  evaluate_hand cards 1 = Some r1 ->
  base_chips r1
  = ht_base_chips (hand_type r1) + sum_list (map card_chips (scoring_cards r1))
  /\ base_mult r1 = ht_base_mult (hand_type r1)
  /\ evaluate_hand cards level
     = Some (mkHandResult (hand_type r1) (scoring_cards r1)
               (base_chips r1 + (level - 1) * ht_base_chips (hand_type r1))
               (base_mult r1 + (level - 1))).
Proof.
  intros E1.
  assert (Hne : cards <> []).
  { intros ->. done. }
  assert (Hlen : Py.len cards <= 5).
  { destruct (decide (5 < Py.len cards)) as [Hgt|]; [|lia].
    assert (evaluate_hand cards 1 = None) as E by (apply evaluate_hand_None; by right).
    congruence. }
  rewrite evaluate_hand_eq in E1 by done. injection E1 as <-. cbn [hand_type scoring_cards
    base_chips base_mult]. split; [lia|]. split; [lia|].
  rewrite evaluate_hand_eq by done. do 2 f_equal; lia.
Qed.

Lemma evaluate_hand_level_witness :
  let cards := [plain ACE SPADES; plain ACE HEARTS; plain KING CLUBS] in
  let r1 := mkHandResult PAIR [plain ACE SPADES; plain ACE HEARTS] 32 2 in
  evaluate_hand cards 1 = Some r1
  /\ evaluate_hand cards 4
     = Some (mkHandResult PAIR [plain ACE SPADES; plain ACE HEARTS] 62 5).
Proof.
  cbn zeta. split; [reflexivity|].
  exact (proj2 (proj2 (evaluate_hand_level
           [plain ACE SPADES; plain ACE HEARTS; plain KING CLUBS] 4
           (mkHandResult PAIR [plain ACE SPADES; plain ACE HEARTS] 32 2) eq_refl))).
Defined.

(** X15: [evaluate_hand] raises exactly on an empty hand and on more than five
    cards.  Otherwise at least one card scores, the scoring cards are chosen
    among the played cards, none more often than it was played, and every
    played Stone card scores: the Stone cards among the scoring cards are the
    played Stone cards. *)
Theorem evaluate_hand_scoring_cards (cards : list Card) (level : Z) :
  match evaluate_hand cards level with
  | None => cards = [] \/ 5 < Py.len cards
  | Some r =>
      cards <> [] /\ Py.len cards <= 5
      /\ scoring_cards r <> []
      /\ scoring_cards r ⊆+ cards
      /\ stone_cards (scoring_cards r) = stone_cards cards
  end.
Proof.
  destruct (evaluate_hand cards level) as [r|] eqn:E; [|by apply evaluate_hand_None in E].
  assert (Hne : cards <> []).
  { intros ->. done. }
  assert (Hlen : Py.len cards <= 5).
  { destruct (decide (5 < Py.len cards)) as [Hgt|]; [|lia].
    assert (evaluate_hand cards level = None) as E' by (apply evaluate_hand_None; by right).
    congruence. }
  rewrite evaluate_hand_eq in E by done. injection E as <-. cbn [scoring_cards].
  destruct (_identify_hand_spec (normal_cards cards)) as (Hsub & Hsome & _ & _).
  fold (identified cards) in Hsub, Hsome.
  split; [done|]. split; [done|]. split; [|split].
  - destruct (decide (normal_cards cards = [])) as [Hnone|Hnormal].
    + intros [_ Hstone]%app_eq_nil.
      pose proof (stone_partition cards) as Hperm.
      fold (normal_cards cards) in Hperm. fold (stone_cards cards) in Hperm.
      rewrite Hnone, Hstone in Hperm. by apply Permutation_nil_l in Hperm.
    + intros [Hsc _]%app_eq_nil. by apply Hsome.
  - transitivity (normal_cards cards ++ stone_cards cards).
    + apply submseteq_app; [by apply sublist_submseteq|done].
    + apply Permutation_submseteq, stone_partition.
  - unfold stone_cards at 1. rewrite List.filter_app.
    assert (Hnot : List.filter (fun c => bool_decide (enhancement c = STONE))
                     (identified cards).2 = []).
    { assert (Hall : forall c, c ∈ (identified cards).2 -> enhancement c <> STONE).
      { intros c Hc. eapply sublist_submseteq, elem_of_submseteq in Hsub; [|exact Hc].
        apply list_elem_of_In, filter_In in Hsub as [_ Hc'].
        by apply bool_decide_eq_true in Hc'. }
      apply filter_none. intros c Hc. apply bool_decide_eq_false_2. by apply Hall. }
    rewrite Hnot. simpl. apply filter_idem.
Qed.

(** X16: a Straight, a Flush, a Full House and every hand type above Four of a
    Kind is only found in exactly five cards none of which is a Stone card,
    and all five score, in the order they were played. *)
Theorem five_card_hand_types (cards : list Card) (level : Z) (r : HandResult) :
  evaluate_hand cards level = Some r ->
  needs_five (hand_type r) = true ->
  Py.len cards = 5
  /\ Forall (fun c => enhancement c <> STONE) cards
  /\ scoring_cards r = cards.
Proof.
  intros E Hfive.
  assert (Hne : cards <> []).
  { intros ->. done. }
  assert (Hlen : Py.len cards <= 5).
  { destruct (decide (5 < Py.len cards)) as [Hgt|]; [|lia].
    assert (evaluate_hand cards level = None) as E' by (apply evaluate_hand_None; by right).
    congruence. }
  rewrite evaluate_hand_eq in E by done. injection E as <-.
  cbn [scoring_cards hand_type] in *.
  destruct (_identify_hand_spec (normal_cards cards)) as (_ & _ & Hall & _).
  fold (identified cards) in Hall. destruct (Hall Hfive) as [Hlen5 ->].
  pose proof (stone_partition cards) as Hperm.
  fold (normal_cards cards) in Hperm. fold (stone_cards cards) in Hperm.
  pose proof (Permutation_length Hperm) as Hlength. rewrite length_app in Hlength.
  unfold Py.len in *.
  assert (Hstone : stone_cards cards = []).
  { destruct (stone_cards cards); [done|]. simpl in Hlength. lia. }
  rewrite Hstone, app_nil_r in *.
  assert (Hsame : normal_cards cards = cards).
  { clear -Hlength. unfold normal_cards in *.
    induction cards as [|c l IH]; [done|]. simpl in *.
    destruct (bool_decide (enhancement c <> STONE)).
    - simpl in Hlength. f_equal. apply IH. lia.
    - pose proof (sublist_length _ _ (filter_sublist
        (fun c => bool_decide (enhancement c <> STONE)) l)). lia. }
  split; [lia|]. split; [|done].
  rewrite <- Hsame. apply Forall_forall. intros c Hc.
  apply list_elem_of_In, filter_In in Hc as [_ Hc]. by apply bool_decide_eq_true in Hc.
Qed.

Lemma five_card_hand_types_witness :
  let cards := [plain ACE SPADES; plain ACE HEARTS; plain ACE CLUBS;
                plain KING CLUBS; plain KING HEARTS] in
  Py.len cards = 5
  /\ Forall (fun c => enhancement c <> STONE) cards
  /\ [plain ACE SPADES; plain ACE HEARTS; plain ACE CLUBS;
      plain KING CLUBS; plain KING HEARTS] = cards.
Proof.
  cbn zeta.
  refine (five_card_hand_types _ 1
            (mkHandResult FULL_HOUSE
               [plain ACE SPADES; plain ACE HEARTS; plain ACE CLUBS;
                plain KING CLUBS; plain KING HEARTS] 93 4) _ _); reflexivity.
Defined.


(** ** The best five cards of a hand *)

Lemma combinations_sublist {A} (l : list A) : forall n c,
  c ∈ Py.combinations l n <-> sublist c l /\ length c = n.
Proof.
  induction l as [|x l IH]; intros n c.
  - destruct n as [|n]; simpl.
    + rewrite list_elem_of_singleton. split; [by intros ->|].
      intros [Hsub _]. by apply sublist_nil_r in Hsub.
    + split; [by intros Hc%elem_of_nil|]. intros [Hsub%sublist_nil_r Hlen].
      by subst.
  - destruct n as [|n]; simpl.
    + rewrite list_elem_of_singleton. split.
      * intros ->. split; [apply sublist_nil_l|done].
      * intros [_ Hlen]. by destruct c.
    + rewrite elem_of_app, list_elem_of_fmap. split.
      * intros [(c' & -> & Hc')|Hc].
        -- apply IH in Hc' as [Hsub <-]. split; [by constructor|done].
        -- apply IH in Hc as [Hsub Hlen]. split; [by constructor|done].
      * intros [Hsub Hlen]. inversion Hsub as [|y c' l' Hsub'|y c' l' Hsub']; subst.
        -- left. exists c'. split; [done|]. apply IH. split; [done|].
           simpl in Hlen. lia.
        -- right. apply IH. done.
Qed.

Lemma combinations_nonempty {A} (l : list A) : forall n,
  (n <= length l)%nat -> Py.combinations l n <> [].
Proof.
  induction l as [|x l IH]; intros [|n] Hn; simpl in *; try done; try lia.
  intros [E _]%app_eq_nil. apply fmap_nil_inv in E. revert E. apply IH. lia.
Qed.

Lemma sublist_same_length {A} (l1 l2 : list A) :
  sublist l1 l2 -> length l1 = length l2 -> l1 = l2.
Proof.
  induction 1 as [|x l1 l2 Hsub IH|x l1 l2 Hsub IH]; simpl; intros Hlen; [done|..].
  - f_equal. apply IH. lia.
  - apply sublist_length in Hsub. lia.
Qed.

Lemma hand_type_value_inj (a b : HandType) :
  hand_type_value a = hand_type_value b -> a = b.
Proof. destruct a, b; simpl; intros E; try reflexivity; discriminate E. Qed.

(** [_compare_hands] orders results by hand type, then by base score. *)
Lemma _compare_hands_spec (a b : HandResult) :
  (_compare_hands a b <= 0
   <-> hand_type_value (hand_type a) < hand_type_value (hand_type b)
       \/ (hand_type a = hand_type b /\ base_score a <= base_score b))
  /\ (0 < _compare_hands a b
      <-> hand_type_value (hand_type b) < hand_type_value (hand_type a)
          \/ (hand_type a = hand_type b /\ base_score b < base_score a)).
Proof.
  unfold _compare_hands. destruct (decide (hand_type a = hand_type b)) as [E|E].
  - rewrite bool_decide_eq_false_2 by (by intros Hne). rewrite E.
    split; split; [intros; right; split; [done|lia] | intros [?|[_ ?]]; lia
                  | intros; right; split; [done|lia] | intros [?|[_ ?]]; lia].
  - rewrite bool_decide_eq_true_2 by done.
    assert (hand_type_value (hand_type a) <> hand_type_value (hand_type b)).
    { intros Hv. by apply hand_type_value_inj in Hv. }
    split; split; try lia; intros [?|[? _]]; try lia; done.
Qed.

Lemma _compare_hands_refl (a : HandResult) : _compare_hands a a <= 0.
Proof. apply _compare_hands_spec. right. split; [done|lia]. Qed.

Lemma _compare_hands_trans (a b c : HandResult) :
  _compare_hands a b <= 0 -> _compare_hands b c <= 0 -> _compare_hands a c <= 0.
Proof.
  intros Hab Hbc. apply _compare_hands_spec in Hab, Hbc. apply _compare_hands_spec.
  destruct Hab as [Hab|[Eab Hab]], Hbc as [Hbc|[Ebc Hbc]].
  - left. lia.
  - left. rewrite <- Ebc. done.
  - left. rewrite Eab. done.
  - right. split; [congruence|lia].
Qed.

Lemma find_best_loop_spec (combos : list (list Card)) :
  (forall c, c ∈ combos -> (1 <= length c <= 5)%nat) ->
  forall bc br,
    evaluate_hand bc 1 = Some br ->
    exists rc rr,
      find_best_loop combos (Some (bc, br)) = Some (Some (rc, rr))
      /\ evaluate_hand rc 1 = Some rr
      /\ (rc ∈ combos \/ rc = bc)
      /\ _compare_hands br rr <= 0
      /\ forall c, c ∈ combos ->
           exists r, evaluate_hand c 1 = Some r /\ _compare_hands r rr <= 0.
Proof.
  induction combos as [|combo rest IH]; intros Hlen bc br Hbest; simpl.
  - exists bc, br. split; [done|]. split; [done|]. split; [by right|].
    split; [apply _compare_hands_refl|]. by intros c Hc%elem_of_nil.
  - destruct (evaluate_hand_total combo 1) as [r Er]; [apply Hlen; left|].
    rewrite Er. simpl.
    assert (Hrest : forall c, c ∈ rest -> (1 <= length c <= 5)%nat).
    { intros c Hc. apply Hlen. by right. }
    destruct (0 <? _compare_hands r br) eqn:E.
    + apply Z.ltb_lt in E.
      destruct (IH Hrest combo r Er) as (rc & rr & -> & Hrc & Hin & Hle & Hall).
      exists rc, rr. split; [done|]. split; [done|]. split; [|split].
      * left. destruct Hin as [Hin| ->]; [by right|left].
      * eapply _compare_hands_trans; [|exact Hle].
        apply _compare_hands_spec. apply _compare_hands_spec in E.
        destruct E as [E|[E1 E2]]; [by left|right]. split; [done|lia].
      * intros c [->|Hc]%elem_of_cons; [|by apply Hall]. by exists r.
    + apply Z.ltb_ge in E.
      destruct (IH Hrest bc br Hbest) as (rc & rr & -> & Hrc & Hin & Hle & Hall).
      exists rc, rr. split; [done|]. split; [done|]. split; [|split].
      * destruct Hin as [Hin| ->]; [left; by right|by right].
      * done.
      * intros c [->|Hc]%elem_of_cons; [|by apply Hall]. exists r. split; [done|].
        by eapply _compare_hands_trans.
Qed.

(** X17: [find_best_hand] raises only on an empty hand.  Otherwise it returns
    cards together with their evaluation at level 1: the hand itself when it
    has at most five cards, and otherwise five of its cards, in hand order,
    such that no other choice of five cards of the hand compares above them
    by hand type and then base score. *)
Theorem find_best_hand_spec (cards : list Card) :
  (find_best_hand cards = None <-> cards = [])
  /\ forall best r,
       find_best_hand cards = Some (best, r) ->
       evaluate_hand best 1 = Some r
       /\ sublist best cards
       /\ length best = Nat.min 5 (length cards)
       /\ forall combo,
            sublist combo cards -> length combo = length best ->
            exists r', evaluate_hand combo 1 = Some r' /\ _compare_hands r' r <= 0.
Proof.
  unfold find_best_hand. destruct (Py.len cards <=? 5) eqn:Elen.
  - apply Z.leb_le in Elen. unfold Py.len in Elen. split.
    + destruct cards as [|c0 cs]; [done|].
      destruct (evaluate_hand_total (c0 :: cs) 1) as [r ->].
      { change (length (c0 :: cs)) with (S (length cs)) in *. lia. }
      done.
    + intros best r. destruct (evaluate_hand cards 1) as [r0|] eqn:E; [|done].
      cbn [mbind option_bind]. intros [= <- <-]. split; [done|]. split; [done|].
      split; [lia|].
      intros combo Hsub Hl. rewrite (sublist_same_length _ _ Hsub Hl).
      exists r0. split; [done|]. apply _compare_hands_refl.
  - apply Z.leb_gt in Elen. unfold Py.len in Elen.
    assert (Hne : Py.combinations cards 5 <> []) by (apply combinations_nonempty; lia).
    assert (Hlen : forall c, c ∈ Py.combinations cards 5 -> (1 <= length c <= 5)%nat).
    { intros c [_ Hc]%combinations_sublist. lia. }
    destruct (Py.combinations cards 5) as [|combo rest] eqn:Ecombos; [done|].
    cbn [find_best_loop].
    destruct (evaluate_hand_total combo 1) as [r0 Er0]; [apply Hlen; left|].
    rewrite Er0. cbn [mbind option_bind].
    destruct (find_best_loop_spec rest (fun c Hc => Hlen c (list_elem_of_further _ _ _ Hc))
                combo r0 Er0) as (rc & rr & -> & Hrc & Hin & Hle & Hall).
    cbn [mbind option_bind]. split.
    { split; [done|]. intros ->. simpl in Elen. lia. }
    intros best r [= <- <-].
    assert (Hmem : rc ∈ Py.combinations cards 5).
    { rewrite Ecombos. destruct Hin as [Hin| ->]; [by right|left]. }
    apply combinations_sublist in Hmem as [Hsub Hfive].
    split; [done|]. split; [done|]. split; [lia|].
    intros c Hc Hl. assert (Hcin : c ∈ combo :: rest).
    { rewrite <- Ecombos. apply combinations_sublist. split; [done|lia]. }
    apply elem_of_cons in Hcin as [->|Hcin]; [|by apply Hall].
    by exists r0.
Qed.

Lemma find_best_hand_spec_witness :
  let cards := [plain TWO SPADES; plain KING HEARTS; plain NINE CLUBS;
                plain KING CLUBS; plain NINE HEARTS; plain KING SPADES] in
  let best := [plain KING HEARTS; plain NINE CLUBS; plain KING CLUBS;
               plain NINE HEARTS; plain KING SPADES] in
  find_best_hand cards = Some (best, mkHandResult FULL_HOUSE best 88 4)
  /\ exists r',
       evaluate_hand [plain TWO SPADES; plain KING HEARTS; plain NINE CLUBS;
                      plain KING CLUBS; plain KING SPADES] 1 = Some r'
       /\ _compare_hands r' (mkHandResult FULL_HOUSE best 88 4) <= 0.
Proof.
  cbn zeta. split; [reflexivity|].
  refine (proj2 (proj2 (proj2 (proj2 (find_best_hand_spec
            [plain TWO SPADES; plain KING HEARTS; plain NINE CLUBS;
             plain KING CLUBS; plain NINE HEARTS; plain KING SPADES])
            [plain KING HEARTS; plain NINE CLUBS; plain KING CLUBS;
             plain NINE HEARTS; plain KING SPADES]
            (mkHandResult FULL_HOUSE
               [plain KING HEARTS; plain NINE CLUBS; plain KING CLUBS;
                plain NINE HEARTS; plain KING SPADES] 88 4) eq_refl))) _ _ _);
    [|reflexivity].
  repeat first [apply sublist_nil | apply sublist_skip | apply sublist_cons].
Defined.

Lemma card_combinations_sublist (cards combo : list Card) :
  combo ∈ card_combinations cards
  <-> sublist combo cards /\ (1 <= length combo <= 5)%nat.
Proof.
  unfold card_combinations, Py.range. rewrite list_elem_of_In, in_flat_map. split.
  - intros (n & Hn & Hin). apply in_seq in Hn.
    apply list_elem_of_In, combinations_sublist in Hin as [Hsub Hlen].
    split; [done|lia].
  - intros [Hsub Hlen]. exists (length combo). split.
    + apply in_seq. apply sublist_length in Hsub. lia.
    + apply list_elem_of_In, combinations_sublist. done.
Qed.

(** What the scan of [_find_best_hand_in_cards] holds as its best so far:
    nothing and High Card, or cards that evaluate to a better type. *)
Definition best_so_far (bt : HandType) (bc : list Card) : Prop :=
  (bc = [] /\ bt = HIGH_CARD)
  \/ (bt <> HIGH_CARD /\ exists r, evaluate_hand bc 1 = Some r /\ hand_type r = bt).

Lemma best_hand_scan_full (combos : list (list Card)) :
  (forall c, c ∈ combos -> (1 <= length c <= 5)%nat) ->
  forall bt bc,
    best_so_far bt bc ->
    exists rt rc,
      best_hand_scan combos bt bc = Some (rt, rc)
      /\ best_so_far rt rc
      /\ (rc ∈ combos \/ rc = bc)
      /\ hand_type_value bt <= hand_type_value rt
      /\ forall c, c ∈ combos ->
           exists r, evaluate_hand c 1 = Some r
                     /\ hand_type_value (hand_type r) <= hand_type_value rt.
Proof.
  induction combos as [|combo rest IH]; intros Hlen bt bc Hbest; simpl.
  - exists bt, bc. split; [done|]. split; [done|]. split; [by right|].
    split; [lia|]. by intros c Hc%elem_of_nil.
  - destruct (evaluate_hand_total combo 1) as [r Er]; [apply Hlen; left|].
    rewrite Er. cbn [mbind option_bind].
    assert (Hrest : forall c, c ∈ rest -> (1 <= length c <= 5)%nat).
    { intros c Hc. apply Hlen. by right. }
    destruct (hand_type_value bt <? hand_type_value (hand_type r)) eqn:E.
    + apply Z.ltb_lt in E.
      destruct (IH Hrest (hand_type r) combo) as (rt & rc & -> & Hinv & Hin & Hle & Hall).
      { right. split; [|by exists r]. intros Hhigh. rewrite Hhigh in E.
        destruct bt; simpl in E; lia. }
      exists rt, rc. split; [done|]. split; [done|]. split; [|split].
      * left. destruct Hin as [Hin| ->]; [by right|left].
      * lia.
      * intros c [->|Hc]%elem_of_cons; [|by apply Hall]. by exists r.
    + apply Z.ltb_ge in E.
      destruct (IH Hrest bt bc Hbest) as (rt & rc & -> & Hinv & Hin & Hle & Hall).
      exists rt, rc. split; [done|]. split; [done|]. split; [|split].
      * destruct Hin as [Hin| ->]; [left; by right|by right].
      * done.
      * intros c [->|Hc]%elem_of_cons; [|by apply Hall]. exists r. split; [done|lia].
Qed.

(** X18: [_find_best_hand_in_cards] never raises.  It returns [None] exactly
    when every choice of one to five cards of the hand evaluates to High
    Card (in particular on an empty hand); otherwise it returns a hand type
    other than High Card with cards of the hand, in hand order, that evaluate
    to this type, and no choice of one to five cards evaluates to a higher
    type. *)
Theorem _find_best_hand_in_cards_spec (cards : list Card) :
  exists res,
    _find_best_hand_in_cards cards = Some res
    /\ match res with
       | None =>
           forall combo,
             sublist combo cards -> (1 <= length combo <= 5)%nat ->
             exists r, evaluate_hand combo 1 = Some r /\ hand_type r = HIGH_CARD
       | Some (t, best) =>
           t <> HIGH_CARD
           /\ sublist best cards
           /\ (exists r, evaluate_hand best 1 = Some r /\ hand_type r = t)
           /\ forall combo,
                sublist combo cards -> (1 <= length combo <= 5)%nat ->
                exists r, evaluate_hand combo 1 = Some r
                          /\ hand_type_value (hand_type r) <= hand_type_value t
       end.
Proof.
  unfold _find_best_hand_in_cards. destruct cards as [|c0 cs].
  { exists None. split; [done|]. intros combo Hsub%sublist_nil_r Hlen. subst.
    simpl in Hlen. lia. }
  set (cards := c0 :: cs).
  destruct (best_hand_scan_full (card_combinations cards)
              (fun c Hc => proj2 (proj1 (card_combinations_sublist cards c) Hc))
              HIGH_CARD [] (or_introl (conj eq_refl eq_refl)))
    as (rt & rc & -> & Hinv & Hin & _ & Hall).
  cbn [mbind option_bind]. destruct rc as [|c1 rc].
  - exists None. split; [done|]. intros combo Hsub Hlen.
    destruct (Hall combo) as (r & Er & Hle); [by apply card_combinations_sublist|].
    exists r. split; [done|]. destruct Hinv as [[_ ->]|[_ (r' & Er' & _)]]; [|done].
    destruct (hand_type r); simpl in Hle; try lia. done.
  - exists (Some (rt, c1 :: rc)). split; [done|].
    destruct Hinv as [[? _]|[Hhigh Hr]]; [done|]. split; [done|].
    destruct Hin as [Hin|?]; [|done].
    apply card_combinations_sublist in Hin as [Hsub _]. split; [done|]. split; [done|].
    intros combo Hc Hlen. apply Hall. by apply card_combinations_sublist.
Qed.


Lemma evaluate_hand_level_eq (cards : list Card) (level : Z) (r1 : HandResult) :
  evaluate_hand cards 1 = Some r1 ->
  evaluate_hand cards level
  = Some (mkHandResult (hand_type r1) (scoring_cards r1)
            (base_chips r1 + (level - 1) * ht_base_chips (hand_type r1))
            (base_mult r1 + (level - 1)))
  /\ scoring_cards r1 ⊆+ cards.
Proof.
  intros E1.
  assert (Hne : cards <> []).
  { intros ->. done. }
  assert (Hlen : Py.len cards <= 5).
  { destruct (decide (5 < Py.len cards)) as [Hgt|]; [|lia].
    assert (evaluate_hand cards 1 = None) as E by (apply evaluate_hand_None; by right).
    congruence. }
  rewrite evaluate_hand_eq in E1 by done. injection E1 as <-.
  cbn [hand_type scoring_cards base_chips base_mult].
  split; [rewrite evaluate_hand_eq by done; do 2 f_equal; lia|].
  destruct (_identify_hand_spec (normal_cards cards)) as (Hsub & _).
  fold (identified cards) in Hsub.
  transitivity (normal_cards cards ++ stone_cards cards).
  - apply submseteq_app; [by apply sublist_submseteq|done].
  - apply Permutation_submseteq, stone_partition.
Qed.

(** ** Card modifiers and silent jokers in [calculate_score] *)

(** A card none of whose modifiers acts while it scores. *)
Definition no_score_modifier (c : Card) : bool :=
  match enhancement c with BONUS | MULT | GLASS | LUCKY => false | _ => true end
  && match edition c with FOIL | HOLOGRAPHIC | POLYCHROME => false | _ => true end
  && match seal c with SEAL_GOLD | RED => false | _ => true end.

Definition is_steel (c : Card) : bool := bool_decide (enhancement c = STEEL).
Definition is_glass (c : Card) : bool := bool_decide (enhancement c = GLASS).
Definition has_gold_seal (c : Card) : bool := bool_decide (seal c = SEAL_GOLD).

(** X1.5 for every Steel card. *)
Definition steel_factor (cards : list Card) : Q :=
  ((3 # 2) ^ Py.count_if is_steel cards)%Q.

Lemma int_of_float_Z (z : Z) : Py.int_of_float (inject_Z z) = z.
Proof.
  unfold Py.int_of_float. rewrite Qfloor_Z, Qceiling_Z. by destruct (Qle_bool 0 (inject_Z z)).
Qed.

Lemma steel_fold (cards : list Card) : forall acc,
  (fold_left (fun mm c => if bool_decide (enhancement c = STEEL)
                          then Float.mul mm (3 # 2) else mm) cards acc
   == acc * steel_factor cards)%Q.
Proof.
  unfold steel_factor, Py.count_if, Py.len.
  induction cards as [|c cards IH]; intros acc.
  - simpl. ring.
  - cbn [fold_left List.filter]. rewrite IH. unfold is_steel at 2.
    destruct (bool_decide (enhancement c = STEEL)); [|reflexivity].
    cbn [length]. rewrite Nat2Z.inj_succ, <- Z.add_1_l.
    rewrite Qpower_plus by discriminate. rewrite Float_mul_eq.
    change ((3 # 2) ^ 1)%Q with (3 # 2)%Q. ring.
Qed.

Section ScoringCards.

Context `{RandomLib}.

Variable table : gmap string Calculator.

Lemma apply_card_modifiers_unmodified (c : Card) (rng : option Rng) :
  no_score_modifier c = true ->
  apply_card_modifiers c rng = (mkCardEffect c 0 0 1 0 0 false, rng).
Proof.
  unfold no_score_modifier, apply_card_modifiers.
  destruct (enhancement c), (edition c), (seal c); simpl; try discriminate; reflexivity.
Qed.

Lemma score_cards_unmodified (cards : list Card) : forall rng t effects destroyed,
  Forall (fun c => no_score_modifier c = true) cards ->
  exists t',
    score_cards cards rng t effects destroyed
    = (t', effects ++ map (fun c => mkCardEffect c 0 0 1 0 0 false) cards, destroyed)
    /\ total_chips t' = total_chips t
    /\ (total_mult t' == total_mult t)%Q
    /\ total_money t' = total_money t.
Proof.
  induction cards as [|c cards IH]; intros rng t effects destroyed Hall.
  - exists t. simpl. rewrite app_nil_r. repeat split; reflexivity.
  - apply Forall_cons in Hall as [Hc Hall]. cbn [score_cards].
    rewrite (apply_card_modifiers_unmodified c rng Hc). cbn [ce_retrigger ce_destroyed].
    change (Z.to_nat (1 + 0)) with 1%nat. cbn [Nat.iter nat_rect].
    destruct (IH rng (apply_trigger (mkCardEffect c 0 0 1 0 0 false) t)
                (effects ++ [mkCardEffect c 0 0 1 0 0 false]) destroyed Hall)
      as (t' & -> & Hchips & Hmult & Hmoney).
    exists t'. split; [by rewrite <- app_assoc|].
    unfold apply_trigger in *. cbn [total_chips total_mult total_money ce_chips ce_mult
      ce_mult_mult ce_money] in *.
    split; [lia|]. split; [|lia].
    rewrite Hmult, Float_mul_eq, Float_add_eq. unfold Float.of_int. simpl. ring.
Qed.


Lemma iter_trigger_money (e : CardEffect) (n : nat) (t : Totals) :
  total_money (Nat.iter n (apply_trigger e) t) = total_money t + Z.of_nat n * ce_money e.
Proof.
  induction n as [|n IH]; [simpl; lia|].
  rewrite Nat2Z.inj_succ. cbn [Nat.iter nat_rect]. unfold apply_trigger at 1.
  cbn [total_money]. fold (Nat.iter n (apply_trigger e) t). rewrite IH. lia.
Qed.

(** What [apply_card_modifiers] records for a card: the card itself,
    destruction only for a Glass card, and without a generator no
    destruction and no money but the three dollars of a Gold seal, which
    is never retriggered. *)
Lemma apply_card_modifiers_spec (c : Card) (rng : option Rng) :
  let e := (apply_card_modifiers c rng).1 in
  ce_card e = c
  /\ (ce_destroyed e = true -> is_glass c = true)
  /\ (rng = None ->
      (apply_card_modifiers c rng).2 = None
      /\ ce_destroyed e = false
      /\ Z.of_nat (Z.to_nat (1 + ce_retrigger e)) * ce_money e
         = if has_gold_seal c then 3 else 0).
Proof.
  unfold apply_card_modifiers, is_glass, has_gold_seal, rng_below.
  destruct rng as [r|].
  - split; [|split; [|done]].
    + destruct (enhancement c), (edition c), (seal c); simpl;
        repeat (destruct (rng_random _)); reflexivity.
    + destruct (enhancement c) eqn:Ee; try (by rewrite bool_decide_eq_true_2);
        destruct (edition c), (seal c); simpl;
        repeat (destruct (rng_random _)); simpl; discriminate.
  - split; [|split].
    + destruct (enhancement c), (edition c), (seal c); reflexivity.
    + destruct (enhancement c), (edition c), (seal c); simpl; try discriminate;
        by rewrite bool_decide_eq_true_2.
    + intros _. destruct (enhancement c), (edition c), (seal c); simpl;
        repeat split; try reflexivity.
Qed.

Lemma score_cards_spec (cards : list Card) : forall rng t effects destroyed,
  exists t' effects' d,
    score_cards cards rng t effects destroyed = (t', effects ++ effects', destroyed ++ d)
    /\ map ce_card effects' = cards
    /\ sublist d (List.filter is_glass cards)
    /\ (rng = None ->
        d = [] /\ total_money t' = total_money t + 3 * Py.count_if has_gold_seal cards).
Proof.
  induction cards as [|c cards IH]; intros rng t effects destroyed.
  - exists t, [], []. simpl. rewrite !app_nil_r. split; [done|]. split; [done|].
    split; [done|]. intros _. split; [done|]. unfold Py.count_if, Py.len. simpl. lia.
  - cbn [score_cards].
    destruct (apply_card_modifiers_spec c rng) as (Hcard & Hglass & Hnone).
    destruct (apply_card_modifiers c rng) as [e rng'] eqn:Ee. cbn [fst snd] in *.
    set (t1 := Nat.iter _ (apply_trigger e) t).
    destruct (IH rng' t1 (effects ++ [e])
                (if ce_destroyed e then destroyed ++ [c] else destroyed))
      as (t' & effects' & d & -> & Hmap & Hsub & Hmoney).
    exists t', (e :: effects'),
      (if ce_destroyed e then c :: d else d).
    split; [|split; [|split]].
    + rewrite <- app_assoc. destruct (ce_destroyed e); [|done]. by rewrite <- app_assoc.
    + simpl. by rewrite Hcard, Hmap.
    + cbn [List.filter]. destruct (ce_destroyed e) eqn:Ed.
      * rewrite (Hglass eq_refl). by constructor.
      * destruct (is_glass c); [by constructor|done].
    + intros ->. destruct (Hnone eq_refl) as (-> & -> & Hgold).
      destruct (Hmoney eq_refl) as [-> ->]. split; [done|].
      unfold t1. rewrite iter_trigger_money, Hgold.
      unfold Py.count_if, Py.len. cbn [List.filter].
      destruct (has_gold_seal c); [|lia]. cbn [length]. lia.
Qed.

(** X20: in the breakdown of [calculate_score] the card effects are those of
    the scoring cards of the evaluated hand, in order, one for each card; a
    destroyed card is a Glass card among them; and when no seed is given, no
    card is destroyed and the money earned is three dollars for each scoring
    card with a Gold seal. *)
Theorem calculate_score_card_effects (played : list Card) (jokers : list JokerInstance)
    (gs : GameState) (in_hand : option (list Card)) (seed : option Z) (w w' : World)
    (b : ScoringBreakdown) :
  calculate_score table played jokers gs in_hand seed w = Some (b, w') ->
  exists r1,
    evaluate_hand played 1 = Some r1
    /\ sb_hand_type b = hand_type r1
    /\ map ce_card (card_effects b) = scoring_cards r1
    /\ sublist (destroyed_cards b) (List.filter is_glass (scoring_cards r1))
    /\ (seed = None ->
        destroyed_cards b = []
        /\ money_earned b = 3 * Py.count_if has_gold_seal (scoring_cards r1)).
Proof.
  unfold calculate_score, card_phase. destruct played as [|c0 cs]; [done|].
  destruct (evaluate_hand (c0 :: cs) 1) as [r1|] eqn:E1; [|done].
  cbn [mbind option_bind].
  destruct (evaluate_hand_level_eq _ (level_get (gs_hand_levels gs) (hand_type r1) 1) _ E1)
    as [-> _].
  cbn [mbind option_bind scoring_cards base_chips base_mult hand_type].
  destruct (score_cards_spec (scoring_cards r1) (Random_seeded <$> seed)
              (mkTotals (base_chips r1
                         + (level_get (gs_hand_levels gs) (hand_type r1) 1 - 1)
                           * ht_base_chips (hand_type r1))
                 (Float.of_int
                    (base_mult r1 + (level_get (gs_hand_levels gs) (hand_type r1) 1 - 1)))
                 0) [] [])
    as (t' & effects' & d & -> & Hmap & Hsub & Hnone).
  cbn [app]. destruct (apply_steel_cards_in_hand _) as [x sm].
  cbn [mbind option_bind total_chips total_mult total_money].
  destruct (joker_chain _ _ _ _) as [s w1]. intros [= <- <-].
  exists r1. cbn [sb_hand_type card_effects destroyed_cards money_earned].
  split; [done|]. split; [done|]. split; [done|]. split; [done|].
  intros ->. destruct (Hnone eq_refl) as [-> ->]. split; [done|].
  cbn [total_money]. lia.
Qed.

Lemma apply_joker_silent (j : JokerInstance) (s : ChainState) (w : World) :
  table !! id j = None -> apply_joker table j s w = (s, w).
Proof.
  intros E. unfold apply_joker, calculate_effect.
  match goal with |- context [match ?x with _ => _ end] => change x with (table !! id j) end.
  by rewrite E.
Qed.

Lemma joker_chain_silent (jokers : list JokerInstance) : forall s w,
  joker_chain table jokers s w
  = joker_chain table
      (List.filter (fun j => bool_decide (is_Some (table !! id j))) jokers) s w.
Proof.
  induction jokers as [|j jokers IH]; intros s w; [done|].
  cbn [joker_chain List.filter]. destruct (table !! id j) as [f|] eqn:E.
  - rewrite bool_decide_eq_true_2 by done. cbn [joker_chain].
    destruct (apply_joker table j s w) as [s1 w1]. apply IH.
  - rewrite bool_decide_eq_false_2 by (by intros [? ?]).
    rewrite apply_joker_silent by done. apply IH.
Qed.

(** X21: a joker whose id has no calculator in the dispatch table is passed
    over: [calculate_score] gives the same breakdown and leaves the same
    joker states as it does on the jokers that have one, in the same
    order. *)
Theorem calculate_score_skips_unknown_jokers (played : list Card)
    (jokers : list JokerInstance) (gs : GameState) (in_hand : option (list Card))
    (seed : option Z) (w : World) :
  calculate_score table played jokers gs in_hand seed w
  = calculate_score table played
      (List.filter (fun j => bool_decide (is_Some (table !! id j))) jokers)
      gs in_hand seed w.
Proof.
  unfold calculate_score.
  destruct (card_phase played gs (default [] in_hand) seed)
    as [[[[r t] effects] destroyed]|]; [|done].
  cbn [mbind option_bind]. by rewrite joker_chain_silent.
Qed.

End ScoringCards.

Section ScoringCardsExamples.

Import Lcg.


Lemma calculate_score_card_effects_witness :
  let glass := mkCard ACE SPADES GLASS BASE SEAL_GOLD in
  let played := [glass; AH; KH] in
  exists b w',
    calculate_score JOKER_CALCULATORS played [] GameState_default None None world0
      = Some (b, w')
    /\ map ce_card (card_effects b) = [glass; AH]
    /\ destroyed_cards b = []
    /\ money_earned b = 3.
Proof.
  cbn zeta.
  destruct (calculate_score_total JOKER_CALCULATORS
              [mkCard ACE SPADES GLASS BASE SEAL_GOLD; AH; KH] [] GameState_default
              None None world0) as [[b w'] Eb]; [simpl; lia|].
  destruct (calculate_score_card_effects JOKER_CALCULATORS _ _ _ _ _ _ _ _ Eb)
    as (r1 & Er & _ & Hmap & _ & Hnone).
  assert (r1 = mkHandResult PAIR [mkCard ACE SPADES GLASS BASE SEAL_GOLD; AH] 32 2) as ->.
  { revert Er. clear. intros Er. apply (inj Some). rewrite <- Er. reflexivity. }
  destruct (Hnone eq_refl) as [Hd Hm].
  exists b, w'. split; [exact Eb|]. split; [exact Hmap|]. split; [exact Hd|]. exact Hm.
Defined.

End ScoringCardsExamples.


(** ** The ranked actions of [heuristics.py] *)

(** No element of the list is below a later one. *)
Fixpoint best_first {A} (lt : A -> A -> bool) (l : list A) : Prop :=
  match l with
  | [] => True
  | x :: l' => (forall y, y ∈ l' -> lt x y = false) /\ best_first lt l'
  end.

Lemma insert_desc_by_Permutation {A} (lt : A -> A -> bool) (x : A) (l : list A) :
  Permutation (insert_desc_by lt x l) (x :: l).
Proof.
  induction l as [|y l IH]; simpl; [done|].
  destruct (lt x y); [|done]. rewrite IH. apply perm_swap.
Qed.

Lemma sort_desc_by_Permutation {A} (lt : A -> A -> bool) (l : list A) :
  Permutation (sort_desc_by lt l) l.
Proof.
  induction l as [|x l IH]; simpl; [done|].
  rewrite insert_desc_by_Permutation. by constructor.
Qed.

Section BestFirst.

Context {A : Type} (lt : A -> A -> bool).

Hypothesis lt_asym : forall x y, lt x y = true -> lt y x = false.
Hypothesis lt_chain : forall x y z, lt x y = false -> lt y z = false -> lt x z = false.

Lemma insert_desc_by_best_first (x : A) (l : list A) :
  best_first lt l -> best_first lt (insert_desc_by lt x l).
Proof.
  induction l as [|y l IH]; intros Hl; simpl.
  - split; [|done]. by intros y Hy%elem_of_nil.
  - destruct Hl as [Hy Hl]. destruct (lt x y) eqn:E.
    + split; [|by apply IH]. intros z Hz. rewrite insert_desc_by_Permutation in Hz.
      apply elem_of_cons in Hz as [->|Hz]; [by apply lt_asym|by apply Hy].
    + split; [|by split]. intros z [->|Hz]%elem_of_cons; [done|].
      eapply lt_chain; [exact E|by apply Hy].
Qed.

Lemma sort_desc_by_best_first (l : list A) : best_first lt (sort_desc_by lt l).
Proof.
  induction l as [|x l IH]; simpl; [done|]. by apply insert_desc_by_best_first.
Qed.

Lemma best_first_lookup (l : list A) : forall i j a b,
  best_first lt l -> (i < j)%nat -> l !! i = Some a -> l !! j = Some b -> lt a b = false.
Proof.
  induction l as [|x l IH]; intros i j a b Hl Hij Ha Hb; [done|].
  destruct Hl as [Hx Hl]. destruct j as [|j]; [lia|]. simpl in Hb. destruct i as [|i].
  - injection Ha as <-. apply Hx. by eapply list_elem_of_lookup_2.
  - simpl in Ha. eapply (IH i j); [done|lia|done|done].
Qed.

End BestFirst.

Lemma ScoredAction_lt_asym (a b : ScoredAction) :
  ScoredAction_lt a b = true -> ScoredAction_lt b a = false.
Proof.
  unfold ScoredAction_lt, Float.ltb. intros E%negb_true_iff. apply negb_false_iff.
  apply Qle_bool_iff. destruct (Qle_bool (sa_score b) (sa_score a)) eqn:E'; [done|].
  apply Qlt_le_weak, Qnot_le_lt. intros Hle%Qle_bool_iff. congruence.
Qed.

Lemma ScoredAction_lt_false (a b : ScoredAction) :
  ScoredAction_lt a b = false <-> (sa_score b <= sa_score a)%Q.
Proof.
  unfold ScoredAction_lt, Float.ltb. rewrite negb_false_iff. apply Qle_bool_iff.
Qed.

Lemma ScoredAction_lt_chain (a b c : ScoredAction) :
  ScoredAction_lt a b = false -> ScoredAction_lt b c = false -> ScoredAction_lt a c = false.
Proof.
  rewrite !ScoredAction_lt_false. intros Hab Hbc. by eapply Qle_trans.
Qed.

Lemma index_combinations_nil (n : nat) : index_combinations n = [] <-> n = 0%nat.
Proof.
  split; [|by intros ->]. intros E. destruct n as [|n]; [done|]. exfalso.
  assert (Hin : [0] ∈ index_combinations (S n)); [|rewrite E in Hin; by inversion Hin].
  unfold index_combinations, Py.range. apply list_elem_of_In, in_flat_map.
  exists 1%nat. split; [apply in_seq; lia|]. apply list_elem_of_In, combinations_sublist.
  split; [|done]. cbn [seq map]. apply sublist_skip, sublist_nil_l.
Qed.

Lemma _find_best_hand_in_cards_total (cards : list Card) :
  is_Some (_find_best_hand_in_cards cards).
Proof.
  unfold _find_best_hand_in_cards. destruct cards as [|c0 cs]; [done|].
  destruct (best_hand_scan_full (card_combinations (c0 :: cs))
              (fun c Hc => proj2 (proj1 (card_combinations_sublist (c0 :: cs) c) Hc))
              HIGH_CARD [] (or_introl (conj eq_refl eq_refl)))
    as (rt & rc & -> & _).
  cbn [mbind option_bind]. by destruct rc.
Qed.

Section RankedActions.

Context `{RandomLib}.

Variable table : gmap string Calculator.

Lemma evaluate_play_spec in_hand jokers gs chips_needed hands_left config indices w a w' :
  evaluate_play table in_hand jokers gs chips_needed hands_left config indices w
    = Some (a, w') ->
  sa_card_indices a = indices
  /\ sa_action_type a = PLAY
  /\ sa_is_lethal a = (chips_needed <=? expected_chips a).
Proof.
  unfold evaluate_play.
  destruct (calculate_score _ _ _ _ _ _ _) as [[b w1]|]; [|done].
  cbn [mbind option_bind].
  destruct (chips_needed <=? final_score b) eqn:El;
    repeat match goal with
           | |- context [if ?c then _ else _] => destruct c
           end; intros [= <- <-]; cbn; rewrite ?El; done.
Qed.



Lemma evaluate_discard_spec in_hand jokers config current_best indices :
  let a := evaluate_discard in_hand jokers config current_best indices in
  sa_card_indices a = indices
  /\ sa_action_type a = DISCARD /\ expected_chips a = 0 /\ sa_is_lethal a = false.
Proof.
  unfold evaluate_discard.
  repeat match goal with
         | |- context [if ?c then _ else _] => destruct c
         end; done.
Qed.

(** X24: [evaluate_discards] never raises.  It returns one DISCARD action,
    with no expected chips and never lethal, for each choice of one to five
    positions of the hand, ordered so that no action has a lower heuristic
    score than a later one: the first action has the highest score, and
    there is none only for an empty hand.  [get_best_discard] returns the
    first action under the default configuration, [None] if there is none. *)
Theorem evaluate_discards_ranked (in_hand : list Card) (jokers : list JokerInstance)
    (gs : GameState) (deck_remaining : Z) (config : HeuristicConfig) :
  exists actions,
    evaluate_discards in_hand jokers gs deck_remaining config = Some actions
    /\ Permutation (map sa_card_indices actions) (index_combinations (length in_hand))
    /\ Forall (fun a => sa_action_type a = DISCARD /\ expected_chips a = 0
                        /\ sa_is_lethal a = false) actions
    /\ (forall i j a b,
          (i < j)%nat -> actions !! i = Some a -> actions !! j = Some b ->
          (sa_score b <= sa_score a)%Q)
    /\ (forall a, a ∈ actions ->
          exists best, head actions = Some best /\ (sa_score a <= sa_score best)%Q)
    /\ (actions = [] <-> in_hand = [])
    /\ (config = HeuristicConfig_default ->
        get_best_discard in_hand jokers gs deck_remaining = Some (head actions)).
Proof.
  unfold get_best_discard, evaluate_discards.
  destruct (_find_best_hand_in_cards_total in_hand) as [current_best ->].
  cbn [mbind option_bind].
  set (acts := map (evaluate_discard in_hand jokers config current_best)
                 (index_combinations (length in_hand))).
  assert (Hsorted : forall i j a b,
            (i < j)%nat -> sort_desc_by ScoredAction_lt acts !! i = Some a ->
            sort_desc_by ScoredAction_lt acts !! j = Some b ->
            (sa_score b <= sa_score a)%Q).
  { intros i j a b Hij Ha Hb. apply ScoredAction_lt_false.
    eapply (best_first_lookup ScoredAction_lt); [|exact Hij|exact Ha|exact Hb].
    apply sort_desc_by_best_first; [apply ScoredAction_lt_asym|apply ScoredAction_lt_chain]. }
  assert (Hmap : map sa_card_indices acts = index_combinations (length in_hand)).
  { unfold acts. rewrite map_map. erewrite map_ext; [apply map_id|].
    intros indices. apply evaluate_discard_spec. }
  eexists. split; [reflexivity|]. split; [|split; [|split; [|split; [|split]]]].
  - rewrite <- Hmap. apply Permutation_map, sort_desc_by_Permutation.
  - apply Forall_forall. intros a Ha. rewrite sort_desc_by_Permutation in Ha.
    apply list_elem_of_fmap in Ha as (indices & -> & _). apply evaluate_discard_spec.
  - exact Hsorted.
  - intros a Ha. destruct (sort_desc_by ScoredAction_lt acts) as [|a0 l] eqn:E;
      [by apply elem_of_nil in Ha|].
    exists a0. split; [done|]. apply list_elem_of_lookup in Ha as [[|j] Hj].
    + injection Hj as ->. apply Qle_refl.
    + by apply (Hsorted 0%nat (S j)); [lia| |].
  - assert (Hlen : length (sort_desc_by ScoredAction_lt acts)
                   = length (index_combinations (length in_hand))).
    { rewrite <- Hmap, length_map. apply Permutation_length, sort_desc_by_Permutation. }
    split.
    + intros Enil. rewrite Enil in Hlen. symmetry in Hlen. apply nil_length_inv in Hlen.
      apply index_combinations_nil in Hlen. by apply nil_length_inv in Hlen.
    + intros Enil. rewrite Enil in Hlen. by apply nil_length_inv in Hlen.
  - intros <-. reflexivity.
Qed.

End RankedActions.


(** ** Legal actions are accepted *)

Section LegalActions.

Context `{RandomLib}.

Variable table : gmap string Calculator.

(** The result of the simulator call that [apply_action] makes and drops. *)
Definition simulator_result (a : Mcts.MCTSAction) (g : GameSimulator) (w : World)
    : option ActionResult :=
  match Mcts.kind a with
  | Mcts.PLAY => (fun r => r.1.1) <$> play_hand table (Mcts.card_indices a) g w
  | Mcts.DISCARD => Some (discard (Mcts.card_indices a) g w).1.1
  | Mcts.START_BLIND => Some (start_blind g).1
  | Mcts.SKIP_BLIND => Some (skip_blind g).1
  | Mcts.END_SHOP => Some (end_shop g).1
  end.

Lemma invalid_indices_legal (g : GameSimulator) (card_indices : list Z) (verb : string) :
  card_indices ∈ index_combinations (length (hand g)) ->
  invalid_indices g card_indices verb = None.
Proof.
  intros Hin. pose proof (index_combinations_spec _ _ Hin) as [Hlen Hrange].
  assert (Hnodup : NoDup card_indices).
  { unfold index_combinations in Hin.
    apply list_elem_of_In, in_flat_map in Hin as (k & _ & Hin).
    apply list_elem_of_In, combinations_sublist in Hin as [Hsub _].
    eapply sublist_NoDup; [|exact Hsub].
    apply NoDup_fmap_2; [intros x y Hxy; by apply Nat2Z.inj|apply NoDup_seq]. }
  unfold invalid_indices. destruct card_indices as [|i0 rest]; [simpl in Hlen; lia|].
  destruct (5 <? _) eqn:E5.
  { apply Z.ltb_lt in E5. unfold Py.len in E5. lia. }
  destruct (existsb _ _) eqn:Ex.
  { apply existsb_exists in Ex as (i & Hi & Hbad). apply list_elem_of_In, Hrange in Hi.
    apply orb_true_iff in Hbad. unfold Py.len in Hbad.
    rewrite Z.ltb_lt, Z.leb_le in Hbad. lia. }
  by rewrite bool_decide_eq_true_2.
Qed.

Lemma play_hand_accepts (card_indices : list Z) (g : GameSimulator) (w : World) :
  phase g = PLAYING -> 0 < hands_remaining g ->
  invalid_indices g card_indices "play" = None ->
  exists res g' w',
    play_hand table card_indices g w = Some (res, g', w') /\ success res = true.
Proof.
  intros Hphase Hhands Hvalid. unfold play_hand.
  rewrite bool_decide_eq_true_2 by done. cbn [negb].
  destruct (hands_remaining g <=? 0) eqn:E; [apply Z.leb_le in E; lia|].
  rewrite Hvalid. apply invalid_indices_None in Hvalid as [Hlen Hok].
  match goal with
  | |- context [calculate_score ?t ?p ?j ?s ?h ?r ?w0] =>
      destruct (calculate_score_total t p j s h r w0) as [[b w1] ->]
  end.
  { by rewrite cards_at_length. }
  cbn [mbind option_bind].
  match goal with
  | |- context [_handle_blind_beaten ?g0 ?b0] =>
      assert (Hbeaten : success (_handle_blind_beaten g0 b0).1 = true);
      [unfold _handle_blind_beaten;
       repeat match goal with
              | |- context [if ?c then _ else _] => destruct c
              end; reflexivity|];
      destruct (_handle_blind_beaten g0 b0) as [res0 g0']
  end.
  repeat match goal with
         | |- context [if ?c then _ else _] => destruct c
         | |- context [let '(_, _) := ?x in _] => destruct x
         end; eauto.
Qed.

Lemma discard_accepts (card_indices : list Z) (g : GameSimulator) (w : World) :
  phase g = PLAYING -> 0 < discards_remaining g ->
  invalid_indices g card_indices "discard" = None ->
  success (discard card_indices g w).1.1 = true.
Proof.
  intros Hphase Hdiscards Hvalid. unfold discard.
  rewrite bool_decide_eq_true_2 by done. cbn [negb].
  destruct (discards_remaining g <=? 0) eqn:E; [apply Z.leb_le in E; lia|].
  rewrite Hvalid. by destruct (_draw_to_hand_size _).
Qed.


End LegalActions.

Section LegalActionsExamples.

Import Lcg.


End LegalActionsExamples.

(** ** Joker states after a play or a discard *)

Section JokerStates.

Context `{RandomLib}.

Lemma state_get_set (w : World) (j : JokerInstance) (key : string) (v d : PyVal) :
  state_get (state_set w j key v) j key d = v.
Proof. unfold state_get, state_set. cbn [heap]. by rewrite !lookup_insert_eq. Qed.

Lemma state_get_ext (w w' : World) (j : JokerInstance) (key : string) (d : PyVal) :
  heap w' !! state j = heap w !! state j -> state_get w' j key d = state_get w j key d.
Proof. unfold state_get. by intros ->. Qed.

Lemma state_set_frame (w : World) (j j' : JokerInstance) (key : string) (v : PyVal) :
  state j <> state j' -> heap (state_set w j' key v) !! state j = heap w !! state j.
Proof. intros Hne. unfold state_set. cbn [heap]. by rewrite lookup_insert_ne. Qed.

Lemma update_after_play_frame (played : list Card) (w : World) (j j' : JokerInstance) :
  state j <> state j' ->
  heap (update_after_play played w j') !! state j = heap w !! state j
  /\ amb (update_after_play played w j') = amb w.
Proof.
  intros Hne. unfold update_after_play.
  repeat match goal with
         | |- context [if ?c then _ else _] => destruct c
         end; split; try done; by apply state_set_frame.
Qed.

Lemma update_after_discard_frame (w : World) (j j' : JokerInstance) :
  state j <> state j' ->
  heap (update_after_discard w j') !! state j = heap w !! state j
  /\ amb (update_after_discard w j') = amb w.
Proof.
  intros Hne. unfold update_after_discard.
  destruct (String.eqb _ _); split; try done; by apply state_set_frame.
Qed.

Lemma fold_update_frame (f : World -> JokerInstance -> World) (js : list JokerInstance)
    (j : JokerInstance) :
  (forall w j', state j <> state j' ->
     heap (f w j') !! state j = heap w !! state j) ->
  state j ∉ map state js ->
  forall w, heap (fold_left f js w) !! state j = heap w !! state j.
Proof.
  intros Hf. induction js as [|j' js IH]; intros Hnot w; [done|].
  cbn [map] in Hnot. apply not_elem_of_cons in Hnot as [Hne Hnot].
  cbn [fold_left]. rewrite IH by done. by apply Hf.
Qed.

(** The state a joker is left in by a loop that updates every joker once,
    when no two jokers share a state dictionary. *)
Lemma fold_update_at (f : World -> JokerInstance -> World) (js : list JokerInstance)
    (j : JokerInstance) :
  (forall w j', state j <> state j' ->
     heap (f w j') !! state j = heap w !! state j) ->
  NoDup (map state js) -> j ∈ js ->
  forall w, exists w0,
    heap w0 !! state j = heap w !! state j
    /\ heap (fold_left f js w) !! state j = heap (f w0 j) !! state j.
Proof.
  intros Hf. induction js as [|j' js IH]; intros Hnodup Hin w.
  { by apply elem_of_nil in Hin. }
  cbn [map] in Hnodup. apply NoDup_cons in Hnodup as [Hnot Hnodup]. cbn [fold_left].
  apply elem_of_cons in Hin as [->|Hin].
  - exists w. split; [done|]. by apply fold_update_frame.
  - destruct (IH Hnodup Hin (f w j')) as (w0 & Hw0 & ->).
    exists w0. split; [|done]. rewrite Hw0. apply Hf.
    intros Hs. apply Hnot. rewrite <- Hs. by apply list_elem_of_fmap_2.
Qed.

Lemma fold_update_amb (f : World -> JokerInstance -> World) (js : list JokerInstance) :
  (forall w j, amb (f w j) = amb w) ->
  forall w, amb (fold_left f js w) = amb w.
Proof.
  intros Hf. induction js as [|j js IH]; intros w; [done|].
  cbn [fold_left]. by rewrite IH.
Qed.

Lemma update_after_play_amb (played : list Card) (w : World) (j : JokerInstance) :
  amb (update_after_play played w j) = amb w.
Proof.
  unfold update_after_play.
  repeat match goal with
         | |- context [if ?c then _ else _] => destruct c
         end; done.
Qed.

Lemma update_after_discard_amb (w : World) (j : JokerInstance) :
  amb (update_after_discard w j) = amb w.
Proof. unfold update_after_discard. by destruct (String.eqb _ _). Qed.

Variable g : GameSimulator.

Hypothesis own_states : NoDup (map state (jokers g)).

Lemma _update_joker_states_after_play_spec (played : list Card) (w : World) (j : JokerInstance) :
  j ∈ jokers g ->
  let w' := _update_joker_states_after_play g played w in
  amb w' = amb w
  /\ (forall c, id j = "ice_cream" ->
        state_get w j "chips" (PInt 100) = PInt c ->
        state_get w' j "chips" (PInt 100) = PInt (Z.max 0 (c - 5)))
  /\ (forall m, id j = "green_joker" ->
        state_get w j "mult" (PInt 0) = PInt m ->
        state_get w' j "mult" (PInt 0) = PInt (m + 1))
  /\ (forall m, id j = "ride_the_bus" ->
        state_get w j "mult" (PInt 0) = PInt m ->
        state_get w' j "mult" (PInt 0)
        = PInt (if existsb is_face played then 0 else m + 1))
  /\ (id j <> "ice_cream" -> id j <> "green_joker" -> id j <> "ride_the_bus" ->
      heap w' !! state j = heap w !! state j).
Proof.
  intros Hin w'. unfold w', _update_joker_states_after_play.
  destruct (fold_update_at (update_after_play played) (jokers g) j
              (fun w0 j' Hne => proj1 (update_after_play_frame played w0 j j' Hne))
              own_states Hin w) as (w0 & Hw0 & Hfold).
  split; [apply fold_update_amb, update_after_play_amb|].
  split; [|split; [|split]].
  - intros c Hid Hc. rewrite (state_get_ext _ _ _ _ _ Hfold).
    unfold update_after_play. rewrite Hid. cbn [String.eqb Ascii.eqb Bool.eqb andb].
    rewrite state_get_set, (state_get_ext _ _ _ _ _ Hw0), Hc. done.
  - intros m Hid Hm. rewrite (state_get_ext _ _ _ _ _ Hfold).
    unfold update_after_play. rewrite Hid. cbn [String.eqb Ascii.eqb Bool.eqb andb].
    rewrite state_get_set, (state_get_ext _ _ _ _ _ Hw0), Hm. done.
  - intros m Hid Hm. rewrite (state_get_ext _ _ _ _ _ Hfold).
    unfold update_after_play. rewrite Hid. cbn [String.eqb Ascii.eqb Bool.eqb andb].
    destruct (existsb is_face played); rewrite state_get_set; [done|].
    rewrite (state_get_ext _ _ _ _ _ Hw0), Hm. done.
  - intros H1 H2 H3. rewrite Hfold. unfold update_after_play.
    apply String.eqb_neq in H1, H2, H3. rewrite H1, H2, H3. done.
Qed.

Lemma _update_joker_states_after_discard_spec (discarded : list Card) (w : World)
    (j : JokerInstance) :
  j ∈ jokers g ->
  let w' := _update_joker_states_after_discard g discarded w in
  amb w' = amb w
  /\ (forall m, id j = "green_joker" ->
        state_get w j "mult" (PInt 0) = PInt m ->
        state_get w' j "mult" (PInt 0) = PInt (Z.max 0 (m - 1)))
  /\ (id j <> "green_joker" -> heap w' !! state j = heap w !! state j).
Proof.
  intros Hin w'. unfold w', _update_joker_states_after_discard.
  destruct (fold_update_at update_after_discard (jokers g) j
              (fun w0 j' Hne => proj1 (update_after_discard_frame w0 j j' Hne))
              own_states Hin w) as (w0 & Hw0 & Hfold).
  split; [apply fold_update_amb, update_after_discard_amb|]. split.
  - intros m Hid Hm. rewrite (state_get_ext _ _ _ _ _ Hfold).
    unfold update_after_discard. rewrite Hid. cbn [String.eqb Ascii.eqb Bool.eqb andb].
    rewrite state_get_set, (state_get_ext _ _ _ _ _ Hw0), Hm. done.
  - intros H1. rewrite Hfold. unfold update_after_discard.
    apply String.eqb_neq in H1. rewrite H1. done.
Qed.

(** X26: when no two jokers of the game share a state dictionary, the update
    after a played hand treats each joker once: Ice Cream loses 5 chips but
    never goes below 0, Green Joker gains 1 Mult, Ride the Bus gains 1 Mult
    or falls back to 0 when a Jack, Queen or King was played, and the state
    of any other joker is left alone.  The update after a discard only
    touches Green Joker, which loses 1 Mult but never goes below 0.  Neither
    update consults the module-level generator. *)
Theorem joker_state_updates (played discarded : list Card) (w : World)
    (j : JokerInstance) :
  j ∈ jokers g ->
  (let w' := _update_joker_states_after_play g played w in
   amb w' = amb w
   /\ (forall c, id j = "ice_cream" ->
         state_get w j "chips" (PInt 100) = PInt c ->
         state_get w' j "chips" (PInt 100) = PInt (Z.max 0 (c - 5)))
   /\ (forall m, id j = "green_joker" ->
         state_get w j "mult" (PInt 0) = PInt m ->
         state_get w' j "mult" (PInt 0) = PInt (m + 1))
   /\ (forall m, id j = "ride_the_bus" ->
         state_get w j "mult" (PInt 0) = PInt m ->
         state_get w' j "mult" (PInt 0)
         = PInt (if existsb is_face played then 0 else m + 1))
   /\ (id j <> "ice_cream" -> id j <> "green_joker" -> id j <> "ride_the_bus" ->
       heap w' !! state j = heap w !! state j))
  /\ (let w' := _update_joker_states_after_discard g discarded w in
      amb w' = amb w
      /\ (forall m, id j = "green_joker" ->
            state_get w j "mult" (PInt 0) = PInt m ->
            state_get w' j "mult" (PInt 0) = PInt (Z.max 0 (m - 1)))
      /\ (id j <> "green_joker" -> heap w' !! state j = heap w !! state j)).
Proof.
  intros Hin. split.
  - by apply _update_joker_states_after_play_spec.
  - by apply _update_joker_states_after_discard_spec.
Qed.

End JokerStates.

Section JokerStatesExamples.

Import Lcg.

Lemma joker_state_updates_witness :
  let j := mkJokerInstance JD_ice_cream 0%nat in
  state_get (_update_joker_states_after_play ice_cream_game [AS] ice_cream_world)
    j "chips" (PInt 100) = PInt 90
  /\ heap (_update_joker_states_after_discard ice_cream_game [AS] ice_cream_world) !! 0%nat
     = heap ice_cream_world !! 0%nat.
Proof.
  intros j.
  destruct (joker_state_updates ice_cream_game (NoDup_singleton _) [AS] [AS]
              ice_cream_world j (list_elem_of_here _ _))
    as [(_ & Hice & _) (_ & _ & Hother)].
  split; [by apply (Hice 95)|]. by apply Hother.
Defined.

End JokerStatesExamples.


(** ** The counters of the deck tracker *)

(** The calls a user can make on a tracker. *)
Inductive TrackerCall :=
  | CallRemoveCard (card : Card) (played : bool)
  | CallRemoveCards (cards : list Card) (played : bool)
  | CallReset
  | CallClone
  | CallSuitCount (s : Suit)
  | CallRankCount (r : Rank)
  | CallSuitDistribution
  | CallRankDistribution
  | CallHighCardCount
  | CallFaceCardCount.

(** The tracker after a call, its return value dropped. *)
Definition after_call (ds : DeckState) (call : TrackerCall) : DeckState :=
  match call with
  | CallRemoveCard card played => (remove_card card played ds).2
  | CallRemoveCards cards played => (remove_cards cards played ds).2
  | CallReset => deck_reset ds
  | CallClone => deck_clone ds
  | CallSuitCount s => (suit_count s ds).2
  | CallRankCount r => (rank_count r ds).2
  | CallSuitDistribution => (get_suit_distribution ds).2
  | CallRankDistribution => (get_rank_distribution ds).2
  | CallHighCardCount => (get_high_card_count ds).2
  | CallFaceCardCount => (get_face_card_count ds).2
  end.

Definition after_calls (calls : list TrackerCall) (ds : DeckState) : DeckState :=
  fold_left after_call calls ds.

(** The cached counters are flagged as stale or agree with the remaining
    cards. *)
Definition counters_current (ds : DeckState) : Prop :=
  _dirty ds = false ->
  _suit_counts ds = Py.Counter (map suit (remaining_cards ds))
  /\ _rank_counts ds = Py.Counter (map rank (remaining_cards ds)).

Lemma counter_get_map {A K} `{EqDecision K} (f : A -> K) (k : K) (l : list A) :
  Py.counter_get k (Py.Counter (map f l))
  = Py.count_if (fun c => bool_decide (f c = k)) l.
Proof.
  unfold Py.Counter. rewrite counter_get_fold.
  unfold Py.count_if, Py.len. cbn [Py.counter_get]. rewrite Z.add_0_l. do 2 f_equal.
  induction l as [|c l IH]; simpl; [done|].
  destruct (bool_decide (f c = k)); simpl; by rewrite IH.
Qed.

Lemma _update_counts_current (ds : DeckState) : counters_current (_update_counts ds).
Proof. by intros _. Qed.

Lemma refresh_current (ds : DeckState) :
  counters_current ds ->
  let ds' := if _dirty ds then _update_counts ds else ds in
  counters_current ds' /\ _dirty ds' = false
  /\ remaining_cards ds' = remaining_cards ds
  /\ cards_played ds' = cards_played ds /\ cards_discarded ds' = cards_discarded ds.
Proof.
  intros Hc. destruct (_dirty ds) eqn:Ed; cbn zeta; [|done].
  split; [apply _update_counts_current|done].
Qed.

Lemma rank_count_current (r : Rank) (ds : DeckState) :
  counters_current ds ->
  (rank_count r ds).1
  = Py.count_if (fun c => bool_decide (rank c = r)) (remaining_cards ds)
  /\ counters_current (rank_count r ds).2
  /\ remaining_cards (rank_count r ds).2 = remaining_cards ds
  /\ cards_played (rank_count r ds).2 = cards_played ds
  /\ cards_discarded (rank_count r ds).2 = cards_discarded ds.
Proof.
  intros Hc. unfold rank_count.
  destruct (refresh_current ds Hc) as (Hc' & Hd & Hr & Hp & Hdis).
  cbn [fst snd]. split; [|done].
  destruct (Hc' Hd) as [_ ->]. rewrite Hr. apply counter_get_map.
Qed.

Lemma suit_count_current (s : Suit) (ds : DeckState) :
  counters_current ds ->
  (suit_count s ds).1
  = Py.count_if (fun c => bool_decide (suit c = s)) (remaining_cards ds)
  /\ counters_current (suit_count s ds).2
  /\ remaining_cards (suit_count s ds).2 = remaining_cards ds
  /\ cards_played (suit_count s ds).2 = cards_played ds
  /\ cards_discarded (suit_count s ds).2 = cards_discarded ds.
Proof.
  intros Hc. unfold suit_count.
  destruct (refresh_current ds Hc) as (Hc' & Hd & Hr & Hp & Hdis).
  cbn [fst snd]. split; [|done].
  destruct (Hc' Hd) as [-> _]. rewrite Hr. apply counter_get_map.
Qed.

Lemma sum_rank_counts_current (ranks : list Rank) : forall acc ds,
  counters_current ds ->
  (sum_rank_counts ranks acc ds).1
  = acc + sum_list (map (fun r => Py.count_if (fun c => bool_decide (rank c = r))
                                    (remaining_cards ds)) ranks)
  /\ counters_current (sum_rank_counts ranks acc ds).2
  /\ remaining_cards (sum_rank_counts ranks acc ds).2 = remaining_cards ds
  /\ cards_played (sum_rank_counts ranks acc ds).2 = cards_played ds
  /\ cards_discarded (sum_rank_counts ranks acc ds).2 = cards_discarded ds.
Proof.
  induction ranks as [|r ranks IH]; intros acc ds Hc; cbn [sum_rank_counts].
  - unfold sum_list. simpl. split; [lia|done].
  - destruct (rank_count_current r ds Hc) as (Hn & Hc1 & Hr1 & Hp1 & Hd1).
    destruct (rank_count r ds) as [n ds1]. cbn [fst snd] in *.
    destruct (IH (acc + n) ds1 Hc1) as (Hsum & Hc2 & Hr2 & Hp2 & Hd2).
    split; [|split; [done|]; split; [congruence|]; split; congruence].
    rewrite Hsum, Hr1, Hn. unfold sum_list. cbn [map fold_right]. lia.
Qed.

Lemma remove_card_current (card : Card) (played : bool) (ds : DeckState) :
  counters_current ds -> counters_current (remove_card card played ds).2.
Proof.
  intros Hc. unfold remove_card. destruct (pop_first card (remaining_cards ds)); [|done].
  by intros Hd.
Qed.

Lemma remove_cards_from_current (cards : list Card) (played : bool) : forall n ds,
  counters_current ds -> counters_current (remove_cards_from cards played n ds).2.
Proof.
  induction cards as [|c cards IH]; intros n ds Hc; [done|]. cbn [remove_cards_from].
  pose proof (remove_card_current c played ds Hc) as Hc1.
  destruct (remove_card c played ds) as [ok ds1]. by apply IH.
Qed.

Lemma after_call_current (ds : DeckState) (call : TrackerCall) :
  counters_current ds -> counters_current (after_call ds call).
Proof.
  intros Hc. destruct call; cbn [after_call].
  - by apply remove_card_current.
  - by apply remove_cards_from_current.
  - by intros Hd.
  - apply _update_counts_current.
  - by apply suit_count_current.
  - by apply rank_count_current.
  - unfold get_suit_distribution. by apply refresh_current.
  - unfold get_rank_distribution. by apply refresh_current.
  - by apply sum_rank_counts_current.
  - by apply sum_rank_counts_current.
Qed.

Lemma after_calls_current (calls : list TrackerCall) : forall ds,
  counters_current ds -> counters_current (after_calls calls ds).
Proof.
  induction calls as [|call calls IH]; intros ds Hc; [done|].
  apply IH. by apply after_call_current.
Qed.

Lemma suit_counts_total (l : list Card) :
  sum_list (map (fun s => Py.count_if (fun c => bool_decide (suit c = s)) l) all_suits)
  = Py.len l.
Proof.
  unfold sum_list, all_suits, Py.count_if, Py.len. cbn [map fold_right].
  induction l as [|c l IH]; [done|]. cbn [List.filter].
  destruct (suit c); simpl bool_decide; cbn [length]; lia.
Qed.

Lemma high_ranks_count (l : list Card) :
  sum_list (map (fun r => Py.count_if (fun c => bool_decide (rank c = r)) l)
              [TEN; JACK; QUEEN; KING; ACE])
  = Py.count_if (fun c => 10 <=? rank_value (rank c)) l.
Proof.
  unfold sum_list, Py.count_if, Py.len. cbn [map fold_right].
  induction l as [|c l IH]; [done|]. cbn [List.filter].
  destruct (rank c); simpl; lia.
Qed.

Lemma face_ranks_count (l : list Card) :
  sum_list (map (fun r => Py.count_if (fun c => bool_decide (rank c = r)) l)
              [JACK; QUEEN; KING])
  = Py.count_if is_face l.
Proof.
  unfold sum_list, Py.count_if, Py.len, is_face. cbn [map fold_right].
  induction l as [|c l IH]; [done|]. cbn [List.filter].
  destruct (rank c); simpl; lia.
Qed.

(** X27: the cached counters of a tracker never go stale.  Take a tracker
    as its constructor leaves it and make any calls on it (removing cards,
    resetting, cloning, querying).  Then [suit_count] and [rank_count]
    return the number of remaining cards of that suit or rank,
    [get_high_card_count] the number of remaining cards from Ten to Ace,
    [get_face_card_count] the number of remaining Jacks, Queens and Kings,
    and the four suit counts add up to [total_remaining]. *)
Theorem tracker_counts_are_current (remaining played discarded : list Card)
    (calls : list TrackerCall) :
  let ds := after_calls calls (DeckState_init remaining played discarded) in
  let cards := remaining_cards ds in
  (forall s, (suit_count s ds).1 = Py.count_if (fun c => bool_decide (suit c = s)) cards)
  /\ (forall r, (rank_count r ds).1 = Py.count_if (fun c => bool_decide (rank c = r)) cards)
  /\ (get_high_card_count ds).1 = Py.count_if (fun c => 10 <=? rank_value (rank c)) cards
  /\ (get_face_card_count ds).1 = Py.count_if is_face cards
  /\ sum_list (map (fun s => (suit_count s ds).1) all_suits) = total_remaining ds.
Proof.
  intros ds cards.
  assert (Hc : counters_current ds).
  { apply after_calls_current, _update_counts_current. }
  split; [|split; [|split; [|split]]].
  - intros s. by apply suit_count_current.
  - intros r. by apply rank_count_current.
  - unfold get_high_card_count.
    destruct (sum_rank_counts_current [TEN; JACK; QUEEN; KING; ACE] 0 ds Hc) as [-> _].
    rewrite Z.add_0_l. apply high_ranks_count.
  - unfold get_face_card_count.
    destruct (sum_rank_counts_current [JACK; QUEEN; KING] 0 ds Hc) as [-> _].
    rewrite Z.add_0_l. apply face_ranks_count.
  - unfold total_remaining. rewrite <- (suit_counts_total (remaining_cards ds)).
    f_equal. apply map_ext. intros s. by apply suit_count_current.
Qed.

Lemma remove_card_totals (card : Card) (played : bool) (ds : DeckState) :
  let ok := (remove_card card played ds).1 in
  let ds' := (remove_card card played ds).2 in
  total_remaining ds' = total_remaining ds - (if ok then 1 else 0)
  /\ total_seen ds' = total_seen ds + (if ok then 1 else 0).
Proof.
  unfold remove_card, total_remaining, total_seen, Py.len.
  destruct (pop_first card (remaining_cards ds)) as [rest|] eqn:E; cbn [fst snd].
  - apply pop_first_Some in E as (l1 & c & l2 & -> & _ & _ & ->).
    cbn [remaining_cards cards_played cards_discarded].
    destruct played; rewrite !length_app; cbn [length]; lia.
  - lia.
Qed.

(** X28: [remove_cards] returns the number of cards it removed: the
    remaining pile shrinks by this number, the played and discarded piles
    together grow by it, and it is at most the number of cards asked for. *)
Theorem remove_cards_count (cards : list Card) (played : bool) (ds : DeckState) :
  let n := (remove_cards cards played ds).1 in
  let ds' := (remove_cards cards played ds).2 in
  0 <= n <= Py.len cards
  /\ total_remaining ds' = total_remaining ds - n
  /\ total_seen ds' = total_seen ds + n.
Proof.
  unfold remove_cards.
  assert (Hgen : forall n0 ds0,
            let n := (remove_cards_from cards played n0 ds0).1 in
            let ds' := (remove_cards_from cards played n0 ds0).2 in
            n0 <= n <= n0 + Py.len cards
            /\ total_remaining ds' = total_remaining ds0 - (n - n0)
            /\ total_seen ds' = total_seen ds0 + (n - n0)).
  { induction cards as [|c cards IH]; intros n0 ds0; cbn [remove_cards_from].
    - unfold Py.len. cbn [fst snd length]. lia.
    - destruct (remove_card_totals c played ds0) as [Hr Hs].
      destruct (remove_card c played ds0) as [ok ds1]. cbn [fst snd] in Hr, Hs.
      destruct (IH (if ok then n0 + 1 else n0) ds1) as (Hn & -> & ->).
      rewrite Hr, Hs. unfold Py.len in *. cbn [length]. destruct ok; lia. }
  destruct (Hgen 0 ds) as (Hn & Hr & Hs). cbn zeta. split; [lia|].
  rewrite Hr, Hs. split; f_equal; lia.
Qed.


(** ** [decide] when no play is lethal *)

Lemma ltb_key_false {A} (key : A -> Q) (a b : A) :
  Float.ltb (key a) (key b) = false <-> (key b <= key a)%Q.
Proof. unfold Float.ltb. rewrite negb_false_iff. apply Qle_bool_iff. Qed.

Lemma ltb_key_asym {A} (key : A -> Q) (a b : A) :
  Float.ltb (key a) (key b) = true -> Float.ltb (key b) (key a) = false.
Proof.
  intros E. apply ltb_key_false. unfold Float.ltb in E. apply negb_true_iff in E.
  apply Qlt_le_weak, Qnot_le_lt. intros Hle%Qle_bool_iff. congruence.
Qed.

Lemma ltb_key_chain {A} (key : A -> Q) (a b c : A) :
  Float.ltb (key a) (key b) = false -> Float.ltb (key b) (key c) = false ->
  Float.ltb (key a) (key c) = false.
Proof. rewrite !ltb_key_false. intros Hab Hbc. by eapply Qle_trans. Qed.

Section WeighedChoice.

Context `{RandomLib}.

Variable table : gmap string Calculator.


End WeighedChoice.

(** ** The blind loop of the heuristic player *)

Section PlayBlind.

Context `{RandomLib}.

Variable table : gmap string Calculator.

Lemma get_best_play_indices (in_hand : list Card) (jokers : list JokerInstance)
    (gs : GameState) (blind current hands_left : Z) (w : World) :
  exists best w',
    get_best_play table in_hand jokers gs blind current hands_left w = Some (best, w')
    /\ match best with
       | None => in_hand = []
       | Some a => sa_card_indices a ∈ index_combinations (length in_hand)
       end.
Proof.
  unfold get_best_play.
  destruct (evaluate_plays_total table in_hand jokers gs blind current hands_left
              HeuristicConfig_default w) as [[actions w'] E].
  rewrite E. cbn [mbind option_bind]. exists (head actions), w'. split; [done|].
  unfold evaluate_plays in E.
  destruct (for_each _ _ w) as [[acts w1]|] eqn:Eall; [|done].
  cbn [mbind option_bind] in E. injection E as <- <-.
  pose proof (for_each_inv _ (fun indices a => sa_card_indices a = indices)
    _ (fun x w0 y w0' Hx => proj1 (evaluate_play_spec _ _ _ _ _ _ _ _ _ _ _ Hx)) _ _ _ Eall)
    as Hall.
  assert (Hmap : map sa_card_indices acts = index_combinations (length in_hand)).
  { clear Eall. induction Hall as [|x a l l' Hx _ IH]; [done|]. simpl. by rewrite Hx, IH. }
  pose proof (sort_desc_by_Permutation ScoredAction_lt acts) as Hperm.
  destruct (sort_desc_by ScoredAction_lt acts) as [|a rest]; cbn [head].
  - apply Permutation_nil_l in Hperm. subst acts. cbn [map] in Hmap. symmetry in Hmap.
    apply index_combinations_nil in Hmap. by apply nil_length_inv in Hmap.
  - rewrite <- Hmap. apply list_elem_of_fmap_2. rewrite <- Hperm. left.
Qed.

Lemma get_best_discard_indices (in_hand : list Card) (jokers : list JokerInstance)
    (gs : GameState) (deck_remaining : Z) :
  exists best,
    get_best_discard in_hand jokers gs deck_remaining = Some best
    /\ match best with
       | None => in_hand = []
       | Some a => sa_card_indices a ∈ index_combinations (length in_hand)
       end.
Proof.
  unfold get_best_discard, evaluate_discards.
  destruct (_find_best_hand_in_cards_total in_hand) as [current_best ->].
  cbn [mbind option_bind]. eexists. split; [reflexivity|].
  set (acts := map _ (index_combinations (length in_hand))).
  assert (Hmap : map sa_card_indices acts = index_combinations (length in_hand)).
  { unfold acts. rewrite map_map. erewrite map_ext; [apply map_id|].
    intros indices. apply evaluate_discard_spec. }
  pose proof (sort_desc_by_Permutation ScoredAction_lt acts) as Hperm.
  destruct (sort_desc_by ScoredAction_lt acts) as [|a rest]; cbn [head].
  - apply Permutation_nil_l in Hperm. rewrite <- Hperm in Hmap. cbn [map] in Hmap.
    symmetry in Hmap. apply index_combinations_nil in Hmap. by apply nil_length_inv in Hmap.
  - rewrite <- Hmap. apply list_elem_of_fmap_2. rewrite <- Hperm. left.
Qed.

Lemma should_discard_total (in_hand : list Card) (jokers : list JokerInstance)
    (gs : GameState) (blind current hands_left discards_left deck_remaining : Z)
    (w : World) :
  is_Some (should_discard table in_hand jokers gs blind current hands_left discards_left
             deck_remaining w).
Proof.
  unfold should_discard. destruct (discards_left <=? 0); [done|].
  destruct (get_best_play_total table in_hand jokers gs blind current hands_left w)
    as [[best w'] ->].
  cbn [mbind option_bind]. destruct best as [a|]; [|done].
  destruct (sa_is_lethal a); [done|]. destruct (hands_left <=? 1); [done|].
  destruct (_find_best_hand_in_cards_total in_hand) as [current_best ->].
  cbn [mbind option_bind]. destruct current_best as [[t cs]|]; [|done].
  destruct (_ && _); [|done].
  destruct (get_best_discard_indices in_hand jokers gs deck_remaining) as (bd & -> & _).
  cbn [mbind option_bind]. destruct bd as [bd|]; [|done].
  repeat match goal with
         | |- context [if ?c then _ else _] => destruct c
         end; done.
Qed.

Lemma invalid_indices_NoDup (g : GameSimulator) (card_indices : list Z) (verb : string) :
  invalid_indices g card_indices verb = None -> NoDup card_indices.
Proof.
  unfold invalid_indices. destruct card_indices as [|i0 rest]; [done|].
  destruct (5 <? _); [done|]. destruct (existsb _ _); [done|].
  destruct (bool_decide (NoDup (i0 :: rest))) eqn:E; [|done].
  intros _. by apply bool_decide_eq_true in E.
Qed.

(** Cards in the deck and in hand. *)
Definition cards_left (g : GameSimulator) : Z := Py.len (deck g) + Py.len (hand g).

Lemma draw_nonempty (g : GameSimulator) :
  0 < hand_size g -> 0 < cards_left g ->
  hand (_draw_to_hand_size g).2 <> []
  /\ cards_left (_draw_to_hand_size g).2 = cards_left g.
Proof.
  intros Hsize Hleft. rewrite _draw_to_hand_size_spec. cbn [snd].
  set (k := Nat.min _ _). unfold cards_left, Py.len in *.
  unfold set_piles. cbn [deck hand]. split.
  - destruct (hand g) as [|c h] eqn:Eh; [|done]. cbn [app length] in *.
    intros Hnil. apply (f_equal length) in Hnil. rewrite length_rev, length_drop in Hnil.
    cbn [length] in Hnil. unfold k in Hnil. lia.
  - rewrite length_app, length_rev, length_take, length_drop. unfold k. lia.
Qed.

Lemma play_hand_piles (card_indices : list Z) (g g' : GameSimulator) (w w' : World)
    (res : ActionResult) :
  play_hand table card_indices g w = Some (res, g', w') ->
  success res = true -> blind_beaten res = false -> game_over res = false ->
  0 < hand_size g -> Z.of_nat (length card_indices) < cards_left g ->
  hand g' <> [] /\ cards_left g' = cards_left g - Z.of_nat (length card_indices).
Proof.
  unfold play_hand. destruct (negb _); [by intros [= <- <- <-]|].
  destruct (hands_remaining g <=? 0); [by intros [= <- <- <-]|].
  destruct (invalid_indices g card_indices "play") as [msg|] eqn:Einv;
    [by intros [= <- <- <-]|].
  pose proof (invalid_indices_NoDup _ _ _ Einv) as Hnodup.
  apply invalid_indices_None in Einv as [Hlen Hok].
  destruct (pop_all_cards_at (hand g) card_indices Hnodup Hok) as (Hperm & Hcards & Hpop).
  apply Permutation_length in Hperm. rewrite length_app, Hcards in Hperm.
  destruct (calculate_score _ _ _ _ _ _ _) as [[b w1]|]; [|done].
  cbn [mbind option_bind].
  match goal with
  | |- context [_handle_blind_beaten ?g0 ?b0] =>
      assert (Hbeaten : blind_beaten (_handle_blind_beaten g0 b0).1 = true);
      [unfold _handle_blind_beaten;
       repeat match goal with
              | |- context [if ?c then _ else _] => destruct c
              end; reflexivity|];
      destruct (_handle_blind_beaten g0 b0) as [res0 g0']
  end.
  cbn [fst] in Hbeaten.
  destruct (_ <=? _).
  { intros [= <- <- <-] _ Hb. congruence. }
  destruct (_ <=? _).
  { intros [= <- <- <-] _ _ Hg. done. }
  match goal with
  | |- context [_draw_to_hand_size ?g0] =>
      pose proof (draw_nonempty g0) as Hdraw; destruct (_draw_to_hand_size g0) as [n g1]
  end.
  cbn [snd] in Hdraw. intros [= <- <- <-] _ _ _ Hsize Hleft.
  unfold cards_left, Py.len in *. cbn [deck hand set_piles set_round hand_size] in Hdraw.
  rewrite Hpop in Hdraw. destruct Hdraw as [Hne ->]; [done|lia|]. split; [done|lia].
Qed.

Lemma discard_piles (card_indices : list Z) (g : GameSimulator) (w : World) :
  phase g = PLAYING -> 0 < discards_remaining g ->
  invalid_indices g card_indices "discard" = None ->
  0 < hand_size g -> Z.of_nat (length card_indices) < cards_left g ->
  let g' := (discard card_indices g w).1.2 in
  hand g' <> [] /\ cards_left g' = cards_left g - Z.of_nat (length card_indices).
Proof.
  intros Hphase Hdiscards Einv Hsize Hleft. unfold discard.
  rewrite bool_decide_eq_true_2 by done. cbn [negb].
  destruct (discards_remaining g <=? 0) eqn:E; [apply Z.leb_le in E; lia|].
  rewrite Einv. pose proof (invalid_indices_NoDup _ _ _ Einv) as Hnodup.
  apply invalid_indices_None in Einv as [Hlen Hok].
  destruct (pop_all_cards_at (hand g) card_indices Hnodup Hok) as (Hperm & Hcards & Hpop).
  apply Permutation_length in Hperm. rewrite length_app, Hcards in Hperm.
  match goal with
  | |- context [_draw_to_hand_size ?g0] =>
      pose proof (draw_nonempty g0) as Hdraw; destruct (_draw_to_hand_size g0) as [n g1]
  end.
  cbn [fst snd] in *.
  unfold cards_left, Py.len in *. cbn [deck hand set_piles set_round hand_size] in Hdraw.
  rewrite Hpop in Hdraw. destruct Hdraw as [Hne ->]; [done|lia|]. split; [done|lia].
Qed.


End PlayBlind.

Section PlayBlindExamples.

Import Lcg.

(** A first blind on the standard deck: eight cards in hand, four hands and
    three discards to go, 300 chips to reach. *)
Definition opening_game : GameSimulator :=
  mkGameSimulator (drop 8 create_standard_deck) (take 8 create_standard_deck) [] []
    5 4 1 8 SMALL 4 3 0 300 8 PLAYING default_hand_levels 99 (Some 1).


End PlayBlindExamples.
